(* ===== verification/_CoqProject ===== *)
-Q . S2P
Prelude.v
JsString.v
JsNumber.v
Json.v
OAuthState.v
Schema.v
Trpc.v
Fixtures.v
Router.v
RouterSpec.v
RouterProps.v
Node.v
Logger.v
Users.v
Platform.v
Session.v
SessionProps.v
OAuthCallback.v
SignIn.v
Forge.v
Heartbeat.v
Storage.v
Media.v
Llm.v
LlmProps.v
ForgeProps.v
App.v
AppProps.v
Start.v
Evidence.v
Browser.v
BrowserProps.v
Logins.v
Composition.v
Fields.v
Chat.v
Showcase.v
Shell.v
Widgets.v
Console.v
Overview.v
Operations.v
Routes.v
RoutesProps.v
ConsoleProps.v
Collector.v
CollectorProps.v
LogFiles.v
LogFilesProps.v
