(* ===== verification/Prelude.v ===== *)
(** * NodeScope console and control server: verification development

    NodeScope shows the state of a small fleet of hosts and lets operators act on it. The program
    is written in TypeScript: an express server with a tRPC API ([src/server], [src/shared],
    [src/drizzle]), a React client ([src/client/src]), and for development builds a script that
    records what happens in the browser ([src/client/public/__manus__/debug-collector.js]) with an
    endpoint that writes the records to files ([src/vite.config.ts]). The development models these
    parts as they are written, and proves what makes them correct. Paths below leave out [src/].

    ** How the parts interact

    A browser signs in by a redirect to an OAuth service with a [state] that the server's callback
    checks against a one-time cookie; the callback writes the user and sets a session cookie. Every
    call of the API carries the session, from which [createContext] derives the caller; the
    procedures' middleware compares roles; the handlers change one shared state and append to its
    audit log. The pages of the client are functions of the answers of their queries; their buttons
    send mutations. The clients of outside services (language models, scheduled jobs,
    notifications, storage, images, speech) share one configuration and one API key.

    ** Files

    Language and platform:
    - [Prelude]: results, list idioms of the language, shared automation;
    - [JsString], [JsNumber], [Json]: texts as UTF-16 units, IEEE 754 numbers ([SpecFloat] of the
      Standard Library), JSON with stringify and parse, which are proved to be inverse;
    - [Node]: asynchronous programs over the platform's operations ([prog]); [exec p t r] says that
      with the answers recorded in the trace [t] the program ends in [r]. The environment chooses
      every answer, so that a theorem about all executions is one about all behaviours of network,
      database, clock and libraries;
    - [Platform]: one concrete platform, which runs the programs and shows that hypotheses can be
      met.

    Server:
    - [OAuthState] ([shared/const.ts]), [Schema] ([drizzle/schema.ts], [shared/_core/errors.ts],
      [server/_core/types/manusTypes.ts]), [Trpc] ([server/_core/trpc.ts]);
    - [Fixtures] ([server/nodescope/fixtures.ts]) and [Router] ([server/nodescope/router.ts]): the
      fleet and the console API, with the state [World] and one definition per procedure;
      [RouterSpec] is the abstract transition system and [RouterProps] the refinement;
    - [Logger] ([server/_core/env.ts], [logger.ts]), [Users] ([server/db.ts]), [Session]
      ([server/_core/sdk.ts]), [OAuthCallback] ([server/_core/cookies.ts], [oauth.ts]), [App]
      ([server/_core/context.ts], [systemRouter.ts], [server/routers.ts]) and [Start]
      ([server/_core/index.ts], [vite.ts]);
    - [Forge] ([server/_core/notification.ts], [dataApi.ts], [map.ts]), [Heartbeat]
      ([heartbeat.ts]), [Storage] ([server/storage.ts], [storageProxy.ts]), [Media]
      ([voiceTranscription.ts], [imageGeneration.ts]) and [Llm] ([llm.ts]);
    - their theorems are in [SessionProps], [SignIn], [ForgeProps], [LlmProps], [AppProps].

    Client:
    - [Browser] ([client/src/const.ts], [main.tsx], [_core/hooks/useAuth.ts]) with [BrowserProps],
      which join it to the callback and to authentication, and [Logins], on whatever sequence of
      events, renders, requests, sign-outs and logins happens on a page;
    - [Evidence] ([client/src/lib/]), [Console], [Overview] and [Operations] ([client/src/pages/]):
      a page is a function of its queries and its own state to the texts and buttons it shows, and
      a button carries what pressing it does; [Routes] ([App.tsx], [DashboardLayout.tsx]);
      [RoutesProps] and [ConsoleProps] join the pages to the routes and to the console API;
    - [Composition] ([hooks/useComposition.ts]) and [Fields] ([components/ui/input.tsx],
      [textarea.tsx], [dialog.tsx]): input methods, as handlers and timers that interleave; [Chat]
      ([components/AIChatBox.tsx]), whose field is one of these; [Showcase]
      ([pages/ComponentShowcase.tsx]), the demonstration page that holds such a box;
    - [Shell] ([hooks/useMobile.tsx], [components/ui/sidebar.tsx], [contexts/ThemeContext.tsx],
      [components/ManusDialog.tsx], [ErrorBoundary.tsx], [Map.tsx]): what surrounds the pages;
    - [Widgets] ([components/ui/carousel.tsx], [chart.tsx], [field.tsx], [form.tsx]): the widgets
      that hold logic of their own;
    - [Collector] ([debug-collector.js]) and [LogFiles] ([vite.config.ts]) with [CollectorProps]
      and [LogFilesProps], which join them.

    ** What the theorems show

    - The console API refines an abstract system in which a mutation makes one change with one
      audit record in the caller's name; reachable states are well-formed; the audit log is
      complete and append-only; a call without sufficient role changes nothing ([router_refines],
      [reachable_invariant], [audit_log_complete], [router_denies]); and across the whole server
      only an authenticated administrator changes that state ([console_guarded]).
    - Authentication is sound, administrators are only those of the users table or the configured
      owner, forged callbacks are refused, sessions round-trip, and a login that a page starts is
      the one that the server completes, exactly while it is the latest of its browser, and whose
      session the next request is authenticated with ([authenticate_sound], [authenticated_admin],
      [callback_csrf], [session_roundtrip], [login_accepted], [latest_login], [sign_in_works] and
      their neighbours).
    - The clients of services confine the API key, bound their retries and validate what they send
      ([api_key_confined], [fetchWithBackoff_spec], [invokeLLM_spec], [heartbeat_paths],
      [storagePut_spec], [transcribeAudio_total], [storage_proxy_answers]).
    - The pages request only what they show, in the forms the server accepts; what an operator
      does is what the next overview shows; every button leads to a page ([page_requests],
      [acknowledge_flow], [interval_form], [rules_form], [navigation_closed]).
    - Diagnostics, the debug collector and its log files are bounded and keep marked secrets
      ([log_entries_safe], [collector_private], [collector_bounded], [log_file_bounded],
      [report_logged]).
    - A start of the server ends in order, or says that it failed ([server_start]); the keys of
      input methods are kept from fields and dialogs exactly while they must be
      ([dialog_composition]), and a chat box sends what was meant, once ([chat_sends]).

    ** Bounds and fuel

    [parse_value] of [Json] recurs on fuel, which [JSON_parse] sets to the length of the text and
    one more; every call has read a unit, and [parse_fuel] with its corollary shows that a text
    that any fuel parses is parsed. [dec_exponent] and [shortest] of [JsNumber] search for at most
    as many digits as a binary64 number can need. The retries of [Llm] and the search for a port
    recur on the number of attempts that the code allows. Every other recursion is structural.

    ** What is not modelled

    Style, layout, static prose, the drawing of charts and the markup of widgets, which carry no
    state of the program; the stock widgets of a component library under [client/src/components/ui/]
    other than those named above, and of the demonstration page its selects and its calendar, which
    only keep a choice, and its toasts; [api/openapi/generated.ts], which is generated and only
    declares types; the Go programs under [cmd/] and [internal/], which are other programs in
    another language; SQL migrations, scripts and build configuration. Third-party code (express,
    tRPC, Zod, jose, drizzle, axios, Vite, React, wouter, Radix, embla) appears as operations, as
    parameters with the documented behaviour the program relies on, or as the framework whose steps
    the models take. *)
From stdpp Require Export prelude gmap strings.
From Stdlib Require Export Lia ZArith NArith.

(** ** Results of fallible code *)

(** [result E A] is what a call that may throw returns: [Ok a], or [Err e] where [e] is the
    thrown value. *)
Inductive result (E A : Type) : Type :=
| Ok (a : A)
| Err (e : E).
Arguments Ok {E A} a.
Arguments Err {E A} e.

#[export] Instance result_eq_dec {E A} `{EqDecision E, EqDecision A} : EqDecision (result E A).
Proof. solve_decision. Defined.

Definition is_ok {E A} (r : result E A) : bool :=
  match r with Ok _ => true | Err _ => false end.

(** ** JavaScript list idioms *)

(** [Array.prototype.find]: the first element the predicate accepts. *)
Fixpoint js_find {A} (f : A → bool) (l : list A) : option A :=
  match l with
  | [] => None
  | x :: l' => if f x then Some x else js_find f l'
  end.

(** [Array.prototype.findIndex]: [None] stands for the index -1. *)
Fixpoint js_findIndex {A} (f : A → bool) (l : list A) : option nat :=
  match l with
  | [] => None
  | x :: l' => if f x then Some 0 else S <$> js_findIndex f l'
  end.

(** [Array.prototype.some] and [Array.prototype.every] are [existsb] and [forallb] of the
    Standard Library; [Array.prototype.filter] with a boolean predicate is [js_filter]. *)
Definition js_filter {A} (f : A → bool) (l : list A) : list A := List.filter f l.

Lemma js_find_Some {A} (f : A → bool) l x :
  js_find f l = Some x → x ∈ l ∧ f x = true.
Proof.
  induction l as [|y l IH]; simpl; [done|].
  destruct (f y) eqn:E; intros; simplify_eq; [set_solver|].
  destruct IH; [done|]; set_solver.
Qed.

Lemma js_find_first {A} (f : A → bool) before x after :
  Forall (λ y, f y = false) before → f x = true → js_find f (before ++ x :: after) = Some x.
Proof. induction 1 as [|y before Hy _ IH]; simpl; intros Hx; [by rewrite Hx|]. rewrite Hy. auto. Qed.

Lemma js_find_None {A} (f : A → bool) l :
  js_find f l = None ↔ ∀ x, x ∈ l → f x = false.
Proof.
  induction l as [|y l IH]; simpl; [set_solver|].
  destruct (f y) eqn:E; split; try done; try set_solver.
  intros H. specialize (H y). rewrite H in E; [done|]. set_solver.
Qed.

Lemma js_find_is_Some {A} (f : A → bool) l x :
  x ∈ l → f x = true → is_Some (js_find f l).
Proof.
  intros Hx Hf. destruct (js_find f l) eqn:E; [eauto|].
  rewrite js_find_None in E. by rewrite (E x Hx) in Hf.
Qed.

Lemma js_findIndex_Some {A} (f : A → bool) l i :
  js_findIndex f l = Some i → ∃ x, l !! i = Some x ∧ f x = true.
Proof.
  revert i; induction l as [|y l IH]; intros i; simpl; [done|].
  destruct (f y) eqn:E; intros H; simplify_eq; [eauto|].
  destruct (js_findIndex f l) as [j|] eqn:Ej; simplify_eq/=.
  by apply IH.
Qed.

Lemma js_findIndex_None {A} (f : A → bool) l :
  js_findIndex f l = None ↔ ∀ x, x ∈ l → f x = false.
Proof.
  induction l as [|y l IH]; simpl; [set_solver|].
  destruct (f y) eqn:E.
  - split; [done|]. intros H. rewrite H in E; [done|set_solver].
  - rewrite fmap_None, IH. set_solver.
Qed.

Lemma elem_of_js_filter {A} (f : A → bool) l x :
  x ∈ js_filter f l ↔ f x = true ∧ x ∈ l.
Proof. unfold js_filter. rewrite !list_elem_of_In, filter_In. tauto. Qed.

Lemma js_filter_true {A} (f : A → bool) l :
  (∀ x, x ∈ l → f x = true) → js_filter f l = l.
Proof.
  induction l as [|y l IH]; simpl; [done|]. intros H.
  rewrite (H y) by set_solver. f_equal. apply IH. set_solver.
Qed.

Lemma js_filter_filter {A} (f g : A → bool) l :
  js_filter f (js_filter g l) = js_filter (λ x, g x && f x) l.
Proof.
  induction l as [|y l IH]; simpl; [done|].
  destruct (g y); simpl; rewrite ?IH; [|done]. by destruct (f y); rewrite ?IH.
Qed.

Lemma js_filter_fmap {A B} (f : B → bool) (g : A → B) l :
  js_filter f (g <$> l) = g <$> js_filter (λ x, f (g x)) l.
Proof.
  unfold js_filter. induction l as [|y l IH]; simpl; [done|].
  destruct (f (g y)); simpl; [f_equal|]; exact IH.
Qed.

Lemma js_filter_app {A} (f : A → bool) l1 l2 :
  js_filter f (l1 ++ l2) = js_filter f l1 ++ js_filter f l2.
Proof.
  unfold js_filter. induction l1 as [|y l IH]; simpl; [done|].
  destruct (f y); simpl; [f_equal|]; exact IH.
Qed.

Lemma js_filter_ext {A} (f g : A → bool) l :
  (∀ x, f x = g x) → js_filter f l = js_filter g l.
Proof. intros H. unfold js_filter. induction l as [|y l IH]; simpl; [done|]. by rewrite H, IH. Qed.

(** Elements with distinct keys are told apart by them. *)
Lemma NoDup_key {A B} (f : A → B) l x y :
  NoDup (f <$> l) → x ∈ l → y ∈ l → f x = f y → x = y.
Proof.
  induction l as [|z l IH]; [set_solver|]. cbn [fmap list_fmap].
  intros [Hz Hd]%NoDup_cons [->|Hx]%elem_of_cons [->|Hy]%elem_of_cons Hf; try done; auto;
    exfalso; apply Hz; [rewrite Hf|rewrite <- Hf]; by apply list_elem_of_fmap_2.
Qed.

(** ** Automation shared by every file *)

Create HintDb nodescope.
Create Rewrite HintDb nodescope.
#[export] Hint Resolve elem_of_cons list_elem_of_here list_elem_of_further : nodescope.

(** Splits every [match] and [if] in the goal or the hypotheses, keeping the equations. *)
Ltac split_match :=
  repeat match goal with
  | |- context [match ?x with _ => _ end] => destruct x eqn:?; simplify_eq/=
  | H : context [match ?x with _ => _ end] |- _ => destruct x eqn:?; simplify_eq/=
  end.

(** Boolean tests of the code turned into the propositions they decide. *)
Ltac bool_to_prop :=
  repeat match goal with
  | H : bool_decide _ = true |- _ => apply bool_decide_eq_true in H
  | H : bool_decide _ = false |- _ => apply bool_decide_eq_false in H
  | H : _ && _ = true |- _ => apply andb_true_iff in H as [??]
  | H : _ || _ = false |- _ => apply orb_false_iff in H as [??]
  | H : negb _ = true |- _ => apply negb_true_iff in H
  | H : negb _ = false |- _ => apply negb_false_iff in H
  | H : (_ <=? _)%Z = true |- _ => apply Z.leb_le in H
  | H : (_ <=? _)%Z = false |- _ => apply Z.leb_gt in H
  | H : (_ <? _)%Z = true |- _ => apply Z.ltb_lt in H
  | H : (_ <? _)%Z = false |- _ => apply Z.ltb_ge in H
  | H : (_ =? _)%Z = true |- _ => apply Z.eqb_eq in H
  | H : (_ =? _)%Z = false |- _ => apply Z.eqb_neq in H
  | H : (_ <=? _)%nat = true |- _ => apply Nat.leb_le in H
  | H : (_ <=? _)%nat = false |- _ => apply Nat.leb_gt in H
  | H : (_ <? _)%nat = true |- _ => apply Nat.ltb_lt in H
  | H : (_ <? _)%nat = false |- _ => apply Nat.ltb_ge in H
  | H : (_ =? _)%nat = true |- _ => apply Nat.eqb_eq in H
  | H : (_ =? _)%N = true |- _ => apply N.eqb_eq in H
  | H : (_ =? _)%N = false |- _ => apply N.eqb_neq in H
  | H : (_ <? _)%N = true |- _ => apply N.ltb_lt in H
  | H : (_ <? _)%N = false |- _ => apply N.ltb_ge in H
  | H : (_ <=? _)%N = true |- _ => apply N.leb_le in H
  | H : (_ <=? _)%N = false |- _ => apply N.leb_gt in H
  end.

(** Arithmetic on the lengths of concatenated lists. *)
Ltac len := simpl; repeat (progress (rewrite ?length_app; simpl)); lia.

(** Linear arithmetic with divisions and remainders by constants. *)
Ltac div_lia := zify; Z.to_euclidean_division_equations; lia.

(** Splits every [Forall] over a list that starts with known elements. *)
Ltac forall_cons :=
  repeat match goal with H : Forall _ (_ :: _) |- _ => apply Forall_cons in H as [??] end.
