(* ===== verification/JsString.v ===== *)
(** JavaScript strings: sequences of UTF-16 code units, with the methods of
    [String.prototype] the program calls, and the few regular expressions it applies to them. *)
From S2P Require Import Prelude.
From stdpp Require Export pretty.
From Stdlib Require Strings.Ascii Strings.String.

(** A string is the list of its UTF-16 code units, so that [length], [slice] and [trim]
    count what JavaScript counts. *)
Abbreviation jsstr := (list N).

(** ** Literals *)

(** Decodes UTF-8 source bytes into UTF-16 code units: a literal [js s] is the string the
    source text denotes, non-ASCII characters included. *)
Fixpoint utf16_of_utf8 (l : list N) : jsstr :=
  match l with
  | [] => []
  | b0 :: r0 =>
      if (b0 <? 128)%N then b0 :: utf16_of_utf8 r0
      else match r0 with
      | [] => []
      | b1 :: r1 =>
          if (b0 <? 224)%N then ((b0 mod 32) * 64 + b1 mod 64)%N :: utf16_of_utf8 r1
          else match r1 with
          | [] => []
          | b2 :: r2 =>
              if (b0 <? 240)%N
              then ((b0 mod 16) * 4096 + (b1 mod 64) * 64 + b2 mod 64)%N :: utf16_of_utf8 r2
              else match r2 with
              | [] => []
              | b3 :: r3 =>
                  let c := ((b0 mod 8) * 262144 + (b1 mod 64) * 4096 + (b2 mod 64) * 64
                            + b3 mod 64 - 65536)%N in
                  (55296 + c / 1024)%N :: (56320 + c mod 1024)%N :: utf16_of_utf8 r3
              end
          end
      end
  end.

Definition js (s : string) : jsstr :=
  utf16_of_utf8 (Stdlib.Strings.Ascii.N_of_ascii <$> Stdlib.Strings.String.list_ascii_of_string s).
Arguments js : simpl never.

(** The decimal text of an integer, as a template literal prints it (below 10^21). *)
Definition js_of_Z (z : Z) : jsstr := js (pretty z).
Arguments js_of_Z : simpl never.

Definition quote_unit : N := 34%N.
Definition slash : N := 47%N.

(** JavaScript's [===] on two strings. *)
Definition str_eqb (s t : jsstr) : bool := bool_decide (s = t).
(** A string is truthy when it is not empty. *)
Definition truthy (s : jsstr) : bool := negb (bool_decide (s = [])).
(** [a || b] on an optional string, where [None] stands for [undefined] and [null]. *)
Definition str_or (a : option jsstr) (b : jsstr) : jsstr :=
  match a with Some s => if truthy s then s else b | None => b end.
(** [v || null] on a string that may be absent. *)
Definition str_or_null (a : option jsstr) : option jsstr :=
  match a with Some s => if truthy s then Some s else None | None => None end.

(** ** String.prototype *)

Definition startsWith (p s : jsstr) : bool := bool_decide (p `prefix_of` s).
Definition endsWith (p s : jsstr) : bool := bool_decide (p `suffix_of` s).

(** [s.includes(p)]. *)
Fixpoint includes (p s : jsstr) : bool :=
  startsWith p s || match s with [] => false | _ :: s' => includes p s' end.

Fixpoint drop_while (f : N → bool) (s : jsstr) : jsstr :=
  match s with
  | [] => []
  | c :: s' => if f c then drop_while f s' else s
  end.

Definition drop_while_end (f : N → bool) (s : jsstr) : jsstr :=
  reverse (drop_while f (reverse s)).

(** WhiteSpace and LineTerminator code units of ECMA-262. *)
Definition is_space (c : N) : bool :=
  bool_decide (c ∈ [9; 10; 11; 12; 13; 32; 160; 5760; 8232; 8233; 8239; 8287; 12288; 65279]%N)
  || ((8192 <=? c)%N && (c <=? 8202)%N).

Definition trim (s : jsstr) : jsstr := drop_while_end is_space (drop_while is_space s).

(** [s.split(c)] for a one-unit separator. *)
Fixpoint split_on (c : N) (s : jsstr) : list jsstr :=
  match s with
  | [] => [[]]
  | d :: s' =>
      if (d =? c)%N then [] :: split_on c s'
      else match split_on c s' with
           | [] => [[d]]
           | w :: ws => (d :: w) :: ws
           end
  end.

(** [l.join(sep)]. *)
Fixpoint join (sep : jsstr) (l : list jsstr) : jsstr :=
  match l with
  | [] => []
  | [w] => w
  | w :: l' => w ++ sep ++ join sep l'
  end.

(** [s.lastIndexOf(c)]: [None] stands for -1. *)
Fixpoint lastIndexOf (c : N) (s : jsstr) : option nat :=
  match s with
  | [] => None
  | d :: s' =>
      match lastIndexOf c s' with
      | Some i => Some (S i)
      | None => if (d =? c)%N then Some 0 else None
      end
  end.

(** [s.replace(/\/+$/, "")], [s.replace(/^\/+/, "")] and [s.replace(/\/$/, "")]. *)
Definition strip_trailing_slashes (s : jsstr) : jsstr := drop_while_end (N.eqb slash) s.
Definition strip_leading_slashes (s : jsstr) : jsstr := drop_while (N.eqb slash) s.
Definition strip_one_trailing_slash (s : jsstr) : jsstr :=
  match reverse s with
  | c :: r => if (c =? slash)%N then reverse r else s
  | [] => s
  end.

(** The idiom [base.endsWith("/") ? base : `${base}/`]. *)
Definition with_trailing_slash (s : jsstr) : jsstr :=
  if endsWith [slash] s then s else s ++ [slash].

Definition ascii_lower (c : N) : N := if ((65 <=? c)%N && (c <=? 90)%N)%bool then (c + 32)%N else c.

(** Unicode case folding depends on the Unicode Character Database, which is not part of the
    repository. The program relies on it only through its behaviour on ASCII. *)
Class UnicodeCase := {
  toLowerCase : jsstr → jsstr;
  toLowerCase_ascii s : Forall (λ c, (c < 128)%N) s → toLowerCase s = ascii_lower <$> s
}.

(** The restriction of the Unicode mapping to ASCII is one such function. *)
#[export] Instance ascii_case : UnicodeCase :=
  {| toLowerCase s := ascii_lower <$> s; toLowerCase_ascii _ _ := eq_refl |}.

(** A case-insensitive regular expression that is a plain ASCII word, as [/word/i.test(s)]:
    without the u flag, only ASCII letters are folded. *)
Definition includes_i (p s : jsstr) : bool := includes (ascii_lower <$> p) (ascii_lower <$> s).

(** ** Lemmas *)

Lemma truthy_spec s : truthy s = true ↔ s ≠ [].
Proof. unfold truthy. rewrite negb_true_iff, bool_decide_eq_false. done. Qed.

Lemma truthy_false s : truthy s = false ↔ s = [].
Proof. unfold truthy. rewrite negb_false_iff, bool_decide_eq_true. done. Qed.

Lemma str_eqb_eq s t : str_eqb s t = true ↔ s = t.
Proof. unfold str_eqb. apply bool_decide_eq_true. Qed.

Lemma str_eqb_refl s : str_eqb s s = true.
Proof. by apply str_eqb_eq. Qed.

Lemma str_eqb_neq s t : str_eqb s t = false ↔ s ≠ t.
Proof. unfold str_eqb. apply bool_decide_eq_false. Qed.

Lemma startsWith_spec p s : startsWith p s = true ↔ ∃ r, s = p ++ r.
Proof. unfold startsWith. rewrite bool_decide_eq_true. done. Qed.

Lemma endsWith_spec p s : endsWith p s = true ↔ ∃ r, s = r ++ p.
Proof. unfold endsWith. rewrite bool_decide_eq_true. done. Qed.

Lemma includes_spec p s : includes p s = true ↔ ∃ a b, s = a ++ p ++ b.
Proof.
  induction s as [|c s IH]; simpl; rewrite orb_true_iff, startsWith_spec.
  - split.
    + intros [[r ->]|]; [|done]. by exists [], r.
    + intros (a & b & H). left. destruct a; [|done]. by exists b.
  - rewrite IH. split.
    + intros [[r H]|(a & b & ->)]; [by exists [], r|by exists (c :: a), b].
    + intros ([|a0 a] & b & H); simplify_eq/=; [left|right]; eauto.
Qed.

Lemma drop_while_suffix f s : ∃ r, s = r ++ drop_while f s ∧ Forall (λ c, f c = true) r.
Proof.
  induction s as [|c s IH]; simpl; [by exists []|].
  destruct (f c) eqn:E; [|by exists []].
  destruct IH as (r & Hs & Hr). exists (c :: r). rewrite Hs at 1. auto.
Qed.

Lemma drop_while_head f s c r : drop_while f s = c :: r → f c = false.
Proof.
  induction s as [|d s IH]; simpl; [done|].
  destruct (f d) eqn:E; intros; simplify_eq; auto.
Qed.

Lemma drop_while_id f s : (∀ c r, s = c :: r → f c = false) → drop_while f s = s.
Proof. destruct s as [|c s]; simpl; [done|]. intros H. by rewrite (H c s). Qed.

Lemma drop_while_end_prefix f s :
  ∃ r, s = drop_while_end f s ++ r ∧ Forall (λ c, f c = true) r.
Proof.
  unfold drop_while_end. destruct (drop_while_suffix f (reverse s)) as (r & Hs & Hr).
  exists (reverse r). split.
  - rewrite <- reverse_app, <- Hs. by rewrite reverse_involutive.
  - by apply Forall_reverse.
Qed.

Lemma drop_while_end_last f s r c : drop_while_end f s = r ++ [c] → f c = false.
Proof.
  unfold drop_while_end. intros H. apply (f_equal reverse) in H.
  rewrite reverse_involutive, reverse_snoc in H. by eapply drop_while_head.
Qed.

Lemma drop_while_end_id f s : (∀ c r, s = r ++ [c] → f c = false) → drop_while_end f s = s.
Proof.
  intros H. unfold drop_while_end. rewrite drop_while_id; [by rewrite reverse_involutive|].
  intros c r E. apply (H c (reverse r)).
  by rewrite <- (reverse_involutive s), E, reverse_cons.
Qed.

Lemma drop_while_idemp f s : drop_while f (drop_while f s) = drop_while f s.
Proof. apply drop_while_id. intros c r. apply drop_while_head. Qed.

Lemma drop_while_end_idemp f s : drop_while_end f (drop_while_end f s) = drop_while_end f s.
Proof. apply drop_while_end_id. intros c r. apply drop_while_end_last. Qed.

(** Removing at the end keeps the first unit, unless nothing is left. *)
Lemma drop_while_end_head f s c r :
  drop_while_end f s = c :: r → ∃ r', s = c :: r'.
Proof.
  intros H. destruct (drop_while_end_prefix f s) as (t & Hs & _).
  rewrite H in Hs. by exists (r ++ t).
Qed.

Lemma trim_idemp s : trim (trim s) = trim s.
Proof.
  unfold trim at 1. rewrite drop_while_id; [apply drop_while_end_idemp|].
  intros c r H. destruct (drop_while_end_head _ _ _ _ H) as [r' E].
  by eapply drop_while_head.
Qed.

Lemma drop_while_length f s : length (drop_while f s) ≤ length s.
Proof.
  destruct (drop_while_suffix f s) as (r & Hs & _).
  rewrite Hs at 2. rewrite length_app. lia.
Qed.

Lemma trim_length s : length (trim s) ≤ length s.
Proof.
  unfold trim, drop_while_end. rewrite length_reverse. etrans; [apply drop_while_length|].
  rewrite length_reverse. apply drop_while_length.
Qed.

Lemma split_on_nonnil c s : split_on c s ≠ [].
Proof. destruct s as [|d s]; simpl; [done|]. destruct (_ =? _)%N; [done|]. by destruct (split_on c s). Qed.

(** Splitting and joining on the same separator gives the string back. *)
Lemma join_split_on c s : join [c] (split_on c s) = s.
Proof.
  induction s as [|d s IH]; [done|]. simpl.
  pose proof (split_on_nonnil c s) as Hn.
  destruct (N.eqb_spec d c) as [->|Hd].
  - destruct (split_on c s) as [|w ws] eqn:E; [done|]. simpl. simpl in IH. by rewrite IH.
  - destruct (split_on c s) as [|w ws] eqn:E; [done|].
    destruct ws; simpl in *; by rewrite <- IH.
Qed.

Lemma lastIndexOf_Some c s i :
  lastIndexOf c s = Some i → s !! i = Some c ∧ c ∉ drop (S i) s.
Proof.
  revert i; induction s as [|d s IH]; intros i; simpl; [done|].
  destruct (lastIndexOf c s) as [j|] eqn:E; intros H; simplify_eq/=.
  - by apply IH.
  - destruct (N.eqb_spec d c); simplify_eq. split; [done|].
    rewrite drop_0. clear -E. induction s as [|d s IH]; simpl in *; [set_solver|].
    destruct (lastIndexOf c s); [done|]. destruct (N.eqb_spec d c); [done|].
    set_solver.
Qed.

Lemma lastIndexOf_None c s : lastIndexOf c s = None ↔ c ∉ s.
Proof.
  induction s as [|d s IH]; simpl; [set_solver|].
  destruct (lastIndexOf c s) as [j|] eqn:E.
  - split; [done|]. intros H. assert (c ∉ s) as H' by set_solver.
    by apply IH in H'.
  - destruct (N.eqb_spec d c); split; try done; set_solver.
Qed.

Lemma with_trailing_slash_spec s : ∃ r, with_trailing_slash s = r ++ [slash].
Proof.
  unfold with_trailing_slash. destruct (endsWith _ s) eqn:E; [|eauto].
  by apply endsWith_spec in E.
Qed.

#[export] Hint Rewrite str_eqb_eq str_eqb_neq truthy_spec truthy_false : nodescope.
#[export] Hint Resolve trim_idemp trim_length : nodescope.

Example js_ascii : js "ab/" = [97; 98; 47]%N.
Proof. reflexivity. Qed.
Example js_degree : js "68°C" = [54; 56; 176; 67]%N.
Proof. reflexivity. Qed.
Example js_of_Z_neg : js_of_Z (-12) = js "-12".
Proof. reflexivity. Qed.
Example trim_ex : trim (js "  a b ") = js "a b".
Proof. reflexivity. Qed.
Example strip_ex : strip_trailing_slashes (js "http://x//") = js "http://x".
Proof. reflexivity. Qed.
