(* ===== verification/JsNumber.v ===== *)
(** JavaScript numbers: IEEE 754 binary64 values, as [SpecFloat] of the Standard Library
    specifies them (no axioms), with the operations of the language and of [Math] the program
    uses, and the conversion from text. *)
From S2P Require Import Prelude JsString.
From Stdlib Require Export Floats.SpecFloat.

Abbreviation number := spec_float.

Definition prec64 : Z := 53.
Definition emax64 : Z := 1024.

#[export] Instance number_eq_dec : EqDecision number.
Proof. solve_decision. Defined.

(** ** Construction *)

Definition num_of_Z (z : Z) : number := binary_normalize prec64 emax64 z 0 false.
Arguments num_of_Z : simpl never.

Definition zero : number := S754_zero false.
Definition NaN_ : number := S754_nan.

(** The double nearest to the rational [n / d]; ties go to the even mantissa. *)
Definition num_of_ratio (n : Z) (d : positive) : number :=
  match n with
  | Z0 => S754_zero false
  | Zpos m =>
      let '(q, e, l) := SFdiv_core_binary prec64 emax64 (Zpos m) 0 (Zpos d) 0 in
      binary_round_aux prec64 emax64 false q e l
  | Zneg m =>
      let '(q, e, l) := SFdiv_core_binary prec64 emax64 (Zpos m) 0 (Zpos d) 0 in
      binary_round_aux prec64 emax64 true q e l
  end.

(** The value of the decimal text [m * 10^e], correctly rounded. *)
Definition num_of_decimal (m : Z) (e : Z) : number :=
  if (0 <=? e)%Z then num_of_Z (m * 10 ^ e) else num_of_ratio m (Z.to_pos (10 ^ (- e))).

(** A literal with [k] digits after the point: [dec 464 1] is [46.4]. *)
Definition dec (m : Z) (k : Z) : number := num_of_decimal m (- k).
Arguments dec : simpl never.

(** ** Operators *)

Definition nadd : number → number → number := SFadd prec64 emax64.
Definition nsub : number → number → number := SFsub prec64 emax64.
Definition nmul : number → number → number := SFmul prec64 emax64.
Definition ndiv : number → number → number := SFdiv prec64 emax64.
Definition nltb : number → number → bool := SFltb.
Definition nleb : number → number → bool := SFleb.
Definition neqb : number → number → bool := SFeqb.

Definition is_nan (x : number) : bool := match x with S754_nan => true | _ => false end.
Definition is_finite (x : number) : bool :=
  match x with S754_zero _ | S754_finite _ _ _ => true | _ => false end.

(** [Math.max(a, b)] and [Math.min(a, b)]: NaN is contagious and +0 is above -0. *)
Definition math_max (a b : number) : number :=
  if is_nan a || is_nan b then S754_nan
  else if nltb a b then b
  else if nltb b a then a
  else match a with S754_zero true => b | _ => a end.

Definition math_min (a b : number) : number :=
  if is_nan a || is_nan b then S754_nan
  else if nltb a b then a
  else if nltb b a then b
  else match a with S754_zero false => b | _ => a end.

(** The integer [floor(s * m * 2^e)] and the integer part of a number. *)
Definition floor_Z (s : bool) (m : positive) (e : Z) : Z :=
  let z := cond_Zopp s (Zpos m) in
  if (0 <=? e)%Z then (z * 2 ^ e)%Z else (z / 2 ^ (- e))%Z.

Definition math_floor (x : number) : number :=
  match x with
  | S754_finite s m e => num_of_Z (floor_Z s m e)
  | _ => x
  end.

(** [Math.round]: the closest integer, ties towards +Infinity; a result of zero keeps the
    sign of the argument. *)
Definition math_round (x : number) : number :=
  match x with
  | S754_finite s m e =>
      let z := cond_Zopp s (Zpos m) in
      let r := if (0 <=? e)%Z then (z * 2 ^ e)%Z else ((2 * z + 2 ^ (- e)) / (2 * 2 ^ (- e)))%Z in
      if (r =? 0)%Z then S754_zero s else num_of_Z r
  | _ => x
  end.

(** [x.toFixed(k)] for a finite number below 10^21: the integer [n] with [n / 10^k] closest to
    the exact value (the larger one on a tie), printed with [k] digits after the point. *)
Definition toFixed_Z (m : positive) (e : Z) (k : Z) : Z :=
  if (0 <=? e)%Z then (Zpos m * 2 ^ e * 10 ^ k)%Z
  else ((2 * (Zpos m * 10 ^ k) + 2 ^ (- e)) / (2 * 2 ^ (- e)))%Z.

Definition toFixed (k : nat) (x : number) : jsstr :=
  let print (n : Z) :=
    let q := (n / 10 ^ Z.of_nat k)%Z in
    let r := js_of_Z (n mod 10 ^ Z.of_nat k)%Z in
    js_of_Z q ++ js "." ++ replicate (k - length r) 48%N ++ r in
  match x with
  | S754_zero _ => print 0%Z
  | S754_finite s m e =>
      (if s then js "-" else []) ++ print (toFixed_Z m e (Z.of_nat k))
  | S754_infinity s => (if s then js "-" else []) ++ js "Infinity"
  | S754_nan => js "NaN"
  end.

(** ** [Number(text)] *)

Definition is_digit (c : N) : bool := ((48 <=? c)%N && (c <=? 57)%N)%bool.

(** The value of the leading digits, how many there are, and the rest. *)
Fixpoint read_digits (acc : Z) (n : nat) (s : jsstr) : Z * nat * jsstr :=
  match s with
  | c :: s' => if is_digit c then read_digits (acc * 10 + Z.of_N (c - 48)) (S n) s' else (acc, n, s)
  | [] => (acc, n, [])
  end.

(** An optional exponent part: [None] when an [e] is not followed by digits. *)
Definition read_exponent (s : jsstr) : option (Z * jsstr) :=
  match s with
  | c :: r =>
      if (c =? 101)%N || (c =? 69)%N then
        let '(sg, r1) := match r with
                         | d :: r' => if (d =? 43)%N then (1%Z, r')
                                      else if (d =? 45)%N then ((-1)%Z, r') else (1%Z, r)
                         | [] => (1%Z, r)
                         end in
        let '(v, n, r2) := read_digits 0 0 r1 in
        if n =? 0 then None else Some ((sg * v)%Z, r2)
      else Some (0%Z, s)
  | [] => Some (0%Z, s)
  end.

(** An unsigned decimal literal that ends the text: digits, a fraction and an exponent. *)
Definition decimal_literal (s : jsstr) : option (Z * Z) :=
  let '(i, ni, r) := read_digits 0 0 s in
  let '(m, nf, r1) := match r with
                      | c :: r' => if (c =? 46)%N then read_digits i 0 r' else (i, 0, r)
                      | [] => (i, 0, r)
                      end in
  if (ni + nf =? 0) then None
  else match read_exponent r1 with
       | Some (e, []) => Some (m, (e - Z.of_nat nf)%Z)
       | _ => None
       end.

Definition hex_value (c : N) : option N :=
  if is_digit c then Some (c - 48)%N
  else if ((97 <=? c)%N && (c <=? 102)%N)%bool then Some (c - 87)%N
  else if ((65 <=? c)%N && (c <=? 70)%N)%bool then Some (c - 55)%N
  else None.

Fixpoint radix_digits (radix : N) (acc : Z) (s : jsstr) : option Z :=
  match s with
  | [] => Some acc
  | c :: s' => match hex_value c with
               | Some d => if (d <? radix)%N
                           then radix_digits radix (acc * Z.of_N radix + Z.of_N d) s' else None
               | None => None
               end
  end.

(** The prefixes 0x, 0o and 0b of a non-decimal integer literal. *)
Definition radix_of (c : N) : option N :=
  if (c =? 120)%N || (c =? 88)%N then Some 16%N
  else if (c =? 111)%N || (c =? 79)%N then Some 8%N
  else if (c =? 98)%N || (c =? 66)%N then Some 2%N
  else None.

Definition negate (x : number) : number := SFopp x.

Definition unsigned_decimal (s : jsstr) : number :=
  if str_eqb s (js "Infinity") then S754_infinity false
  else match decimal_literal s with
       | Some (m, e) => num_of_decimal m e
       | None => S754_nan
       end.

(** StringToNumber of ECMA-262. *)
Definition Number_of_string (s0 : jsstr) : number :=
  let s := trim s0 in
  match s with
  | [] => zero
  | c :: r =>
      match (if (c =? 48)%N then match r with d :: r' => (λ x, (x, r')) <$> radix_of d | [] => None end
             else None) with
      | Some (_, []) => S754_nan
      | Some (radix, digits) =>
          match radix_digits radix 0 digits with
          | Some z => num_of_Z z
          | None => S754_nan
          end
      | None =>
          if (c =? 43)%N then unsigned_decimal r
          else if (c =? 45)%N then negate (unsigned_decimal r)
          else unsigned_decimal s
      end
  end.

(** ** Examples *)

Example num_one : num_of_Z 1 = S754_finite false 4503599627370496 (-52).
Proof. reflexivity. Qed.
Example num_decimal : nadd (dec 1 1) (dec 2 1) = S754_finite false 5404319552844596 (-54).
Proof. reflexivity. Qed.
Example number_text : Number_of_string (js " 12.5e1 ") = num_of_Z 125.
Proof. reflexivity. Qed.
Example number_hex : Number_of_string (js "0x1F") = num_of_Z 31.
Proof. reflexivity. Qed.
Example number_date : Number_of_string (js "Wed, 21 Oct 2015 07:28:00 GMT") = S754_nan.
Proof. reflexivity. Qed.
Example round_half : math_round (dec (-25) 1) = num_of_Z (-2).
Proof. reflexivity. Qed.
Example fixed_ex : toFixed 2 (dec 17005 3) = js "17.00".
Proof. reflexivity. Qed.

(** ** [String(x)]: the shortest decimal text that denotes the number *)

(** Compares the value [m * 2^e] with [10^p]. *)
Definition below_pow10 (m : positive) (e p : Z) : bool :=
  (Zpos m * 2 ^ Z.max e 0 * 10 ^ Z.max (- p) 0 <? 10 ^ Z.max p 0 * 2 ^ Z.max (- e) 0)%Z.

(** The exponent [p] with [10^(p-1) <= m * 2^e < 10^p], searched upwards from an estimate. *)
Fixpoint dec_exponent (fuel : nat) (m : positive) (e p : Z) : Z :=
  match fuel with
  | 0 => p
  | S f => if below_pow10 m e p then p else dec_exponent f m e (p + 1)
  end.

Definition dec_exponent_of (m : positive) (e : Z) : Z :=
  dec_exponent 6 m e ((Z.log2 (Zpos m) + e) * 30103 / 100000 - 2)%Z.

(** [floor(2 * m * 2^e / 10^q)], to pick the closer of two candidates. *)
Definition scaled2 (m : positive) (e q : Z) : Z :=
  (2 * Zpos m * 2 ^ Z.max e 0 * 10 ^ Z.max (- q) 0
   / (10 ^ Z.max q 0 * 2 ^ Z.max (- e) 0))%Z.

(** The fewest digits [k] and the integer [n] of [k] digits whose decimal [n * 10^(p-k)] is
    read back as the number. *)
Fixpoint shortest (fuel : nat) (m : positive) (e p k : Z) : Z * Z :=
  let q := (p - k)%Z in
  let n0 := (scaled2 m e q / 2)%Z in
  let reads n := bool_decide (num_of_decimal n q = S754_finite false m e) in
  let near := if (2 * n0 + 1 <=? scaled2 m e q)%Z then (n0 + 1)%Z else n0 in
  let far := if (2 * n0 + 1 <=? scaled2 m e q)%Z then n0 else (n0 + 1)%Z in
  match fuel with
  | 0 => (near, k)
  | S f => if reads near then (near, k) else if reads far then (far, k)
           else shortest f m e p (k + 1)
  end.

Definition format_digits (digits : jsstr) (k p : Z) : jsstr :=
  let d := length digits in
  if ((k <=? p) && (p <=? 21))%Z%bool then digits ++ replicate (Z.to_nat (p - k)) 48%N
  else if ((0 <? p) && (p <=? 21))%Z%bool
       then take (Z.to_nat p) digits ++ js "." ++ drop (Z.to_nat p) digits
  else if ((-6 <? p) && (p <=? 0))%Z%bool
       then js "0." ++ replicate (Z.to_nat (- p)) 48%N ++ digits
  else let ex := (p - 1)%Z in
       let sg := if (ex <? 0)%Z then js "-" else js "+" in
       take 1 digits ++ (if d =? 1 then [] else js "." ++ drop 1 digits)
       ++ js "e" ++ sg ++ js_of_Z (Z.abs ex).

(** Number::toString of ECMA-262 in radix 10. *)
Definition js_of_num (x : number) : jsstr :=
  match x with
  | S754_nan => js "NaN"
  | S754_zero _ => js "0"
  | S754_infinity s => (if s then js "-" else []) ++ js "Infinity"
  | S754_finite s m e =>
      let p := dec_exponent_of m e in
      let '(n, k) := shortest 17 m e p 1 in
      (if s then js "-" else []) ++ format_digits (js_of_Z n) k p
  end.

Example num_text_int : js_of_num (num_of_Z 861) = js "861".
Proof. reflexivity. Qed.
Example num_text_frac : js_of_num (dec (-742) 1) = js "-74.2".
Proof. reflexivity. Qed.
Example num_text_sum : js_of_num (nadd (dec 1 1) (dec 2 1)) = js "0.30000000000000004".
Proof. vm_compute. reflexivity. Qed.
Example num_text_big : js_of_num (num_of_decimal 15 22) = js "1.5e+23".
Proof. vm_compute. reflexivity. Qed.
Example num_text_small : js_of_num (dec 25 9) = js "2.5e-8".
Proof. vm_compute. reflexivity. Qed.
Example num_text_max : js_of_num (num_of_Z 9007199254740991) = js "9007199254740991".
Proof. vm_compute. reflexivity. Qed.
