(* ===== verification/Json.v ===== *)
(** JSON values with [JSON.stringify] and [JSON.parse] of ECMA-262, and the round trip that
    the state parameter of the sign-in flow and the request bodies rely on. *)
From S2P Require Import Prelude JsString JsNumber.

Unset Elimination Schemes.
Inductive json : Type :=
| JNull
| JBool (b : bool)
| JNumber (n : number)
| JString (s : jsstr)
| JArray (l : list json)
| JObject (l : list (jsstr * json)).
Set Elimination Schemes.

(** Induction with the hypothesis for every element of an array or object. *)
Section json_ind.
  Variable P : json → Prop.
  Hypothesis Hnull : P JNull.
  Hypothesis Hbool : ∀ b, P (JBool b).
  Hypothesis Hnum : ∀ n, P (JNumber n).
  Hypothesis Hstr : ∀ s, P (JString s).
  Hypothesis Harr : ∀ l, Forall P l → P (JArray l).
  Hypothesis Hobj : ∀ l, Forall (λ kv, P kv.2) l → P (JObject l).

Fixpoint json_ind (v : json) : P v :=
    match v with
    | JNull => Hnull
    | JBool b => Hbool b
    | JNumber n => Hnum n
    | JString s => Hstr s
    | JArray l =>
        Harr l ((fix go (l : list json) : Forall P l :=
                   match l with
                   | [] => Forall_nil_2 _
                   | v :: l' => Forall_cons_2 _ _ _ (json_ind v) (go l')
                   end) l)
    | JObject l =>
        Hobj l ((fix go (l : list (jsstr * json)) : Forall (λ kv, P kv.2) l :=
                   match l with
                   | [] => Forall_nil_2 _
                   | kv :: l' => Forall_cons_2 _ _ _ (json_ind kv.2) (go l')
                   end) l)
    end.
End json_ind.

(** ** Objects: own properties in insertion order *)

(** [o.k]: [None] is [undefined]. *)
Fixpoint assoc_get (k : jsstr) (l : list (jsstr * json)) : option json :=
  match l with
  | [] => None
  | (k', v) :: l' => if str_eqb k k' then Some v else assoc_get k l'
  end.

(** [o.k = v]: a property keeps its place when it is written again. *)
Fixpoint assoc_set (k : jsstr) (v : json) (l : list (jsstr * json)) : list (jsstr * json) :=
  match l with
  | [] => [(k, v)]
  | (k', v') :: l' => if str_eqb k k' then (k, v) :: l' else (k', v') :: assoc_set k v l'
  end.

(** Property access on any value: only objects carry the properties the program reads. *)
Definition json_get (k : jsstr) (v : json) : option json :=
  match v with JObject l => assoc_get k l | _ => None end.

Definition json_truthy (v : json) : bool :=
  match v with
  | JNull => false
  | JBool b => b
  | JNumber n => negb (is_nan n) && negb (neqb n zero)
  | JString s => truthy s
  | JArray _ | JObject _ => true
  end.

(** ** [JSON.stringify] *)

Definition hex_digit (n : N) : N := if (n <? 10)%N then (48 + n)%N else (87 + n)%N.

Definition unicode_escape (c : N) : jsstr :=
  js "\u" ++ [hex_digit (c / 4096 mod 16); hex_digit (c / 256 mod 16);
              hex_digit (c / 16 mod 16); hex_digit (c mod 16)]%N.
Arguments unicode_escape : simpl never.

Definition is_high_surrogate (c : N) : bool := ((55296 <=? c)%N && (c <=? 56319)%N)%bool.
Definition is_low_surrogate (c : N) : bool := ((56320 <=? c)%N && (c <=? 57343)%N)%bool.

(** The two-unit escapes of QuoteJSONString: the letter that follows the backslash. *)
Definition short_escape (c : N) : option N :=
  if (c =? 8)%N then Some 98%N
  else if (c =? 9)%N then Some 116%N
  else if (c =? 10)%N then Some 110%N
  else if (c =? 12)%N then Some 102%N
  else if (c =? 13)%N then Some 114%N
  else if (c =? 34)%N then Some 34%N
  else if (c =? 92)%N then Some 92%N
  else None.

Fixpoint json_escape (s : jsstr) : jsstr :=
  match s with
  | [] => []
  | c :: s' =>
      match short_escape c with
      | Some e => 92%N :: e :: json_escape s'
      | None =>
          if (c <? 32)%N || is_low_surrogate c then unicode_escape c ++ json_escape s'
          else if is_high_surrogate c then
            match s' with
            | d :: s'' => if is_low_surrogate d then c :: d :: json_escape s''
                          else unicode_escape c ++ json_escape s'
            | [] => unicode_escape c
            end
          else c :: json_escape s'
      end
  end.

Definition json_quote (s : jsstr) : jsstr := quote_unit :: json_escape s ++ [quote_unit].

Fixpoint stringify (v : json) : jsstr :=
  match v with
  | JNull => js "null"
  | JBool true => js "true"
  | JBool false => js "false"
  | JNumber n => if is_finite n then js_of_num n else js "null"
  | JString s => json_quote s
  | JArray l => js "[" ++ join (js ",") (stringify <$> l) ++ js "]"
  | JObject l =>
      js "{" ++ join (js ",") ((λ kv, json_quote kv.1 ++ js ":" ++ stringify kv.2) <$> l)
      ++ js "}"
  end.

(** ** [JSON.parse] *)

Definition is_json_space (c : N) : bool := bool_decide (c ∈ [9; 10; 13; 32]%N).
Definition skip_ws (s : jsstr) : jsstr := drop_while is_json_space s.
Arguments skip_ws : simpl never.

Definition unescape (e : N) : option N :=
  if (e =? 34)%N then Some 34%N
  else if (e =? 92)%N then Some 92%N
  else if (e =? 47)%N then Some 47%N
  else if (e =? 98)%N then Some 8%N
  else if (e =? 102)%N then Some 12%N
  else if (e =? 110)%N then Some 10%N
  else if (e =? 114)%N then Some 13%N
  else if (e =? 116)%N then Some 9%N
  else None.

Definition hex4 (a b c d : N) : option N :=
  a' ← hex_value a; b' ← hex_value b; c' ← hex_value c; d' ← hex_value d;
  Some (a' * 4096 + b' * 256 + c' * 16 + d')%N.

(** The characters of a string up to its closing quote, and the rest of the text. *)
Fixpoint parse_chars (s : jsstr) : option (jsstr * jsstr) :=
  match s with
  | [] => None
  | c :: s' =>
      if (c =? quote_unit)%N then Some ([], s')
      else if (c =? 92)%N then
        match s' with
        | [] => None
        | e :: s'' =>
            if (e =? 117)%N then
              match s'' with
              | h1 :: h2 :: h3 :: h4 :: r =>
                  u ← hex4 h1 h2 h3 h4;
                  '(t, r') ← parse_chars r;
                  Some (u :: t, r')
              | _ => None
              end
            else u ← unescape e; '(t, r') ← parse_chars s''; Some (u :: t, r')
        end
      else if (c <? 32)%N then None
      else '(t, r) ← parse_chars s'; Some (c :: t, r)
  end.

(** A JSON number: [-? (0 | [1-9][0-9]* ) (. [0-9]+)? ([eE] [+-]? [0-9]+)?]. *)
Definition parse_number (s : jsstr) : option (number * jsstr) :=
  let '(neg, r) := match s with
                   | c :: r => if (c =? 45)%N then (true, r) else (false, s)
                   | [] => (false, s)
                   end in
  let '(i, ni, r1) := read_digits 0 0 r in
  let leading_zero := match r with c :: _ => (c =? 48)%N | [] => false end in
  if (ni =? 0) || (leading_zero && negb (ni =? 1)) then None
  else
    let frac := match r1 with
                | c :: r' => if (c =? 46)%N
                             then let '(m, nf, r2) := read_digits i 0 r' in
                                  if nf =? 0 then None else Some (m, nf, r2)
                             else Some (i, 0, r1)
                | [] => Some (i, 0, r1)
                end in
    '(m, nf, r2) ← frac;
    '(e, r3) ← read_exponent r2;
    let x := num_of_decimal m (e - Z.of_nat nf) in
    Some (if neg : bool then negate x else x, r3).

Definition parse_literal (s : jsstr) : option (json * jsstr) :=
  if startsWith (js "null") s then Some (JNull, drop 4 s)
  else if startsWith (js "true") s then Some (JBool true, drop 4 s)
  else if startsWith (js "false") s then Some (JBool false, drop 5 s)
  else '(n, r) ← parse_number s; Some (JNumber n, r).

(** Every recursive call has read at least one unit, so the length of the text is fuel
    enough (see [JSON_parse]). *)
Fixpoint parse_value (fuel : nat) (s : jsstr) : option (json * jsstr) :=
  match fuel with
  | 0 => None
  | S f =>
      match skip_ws s with
      | [] => None
      | c :: r =>
          if (c =? quote_unit)%N then '(t, r') ← parse_chars r; Some (JString t, r')
          else if (c =? 91)%N then
            match skip_ws r with
            | d :: r' => if (d =? 93)%N then Some (JArray [], r') else parse_elements f [] r
            | [] => None
            end
          else if (c =? 123)%N then
            match skip_ws r with
            | d :: r' => if (d =? 125)%N then Some (JObject [], r') else parse_members f [] r
            | [] => None
            end
          else parse_literal (c :: r)
      end
  end
with parse_elements (fuel : nat) (acc : list json) (s : jsstr) : option (json * jsstr) :=
  match fuel with
  | 0 => None
  | S f =>
      '(v, r) ← parse_value f s;
      match skip_ws r with
      | c :: r' => if (c =? 44)%N then parse_elements f (acc ++ [v]) r'
                   else if (c =? 93)%N then Some (JArray (acc ++ [v]), r') else None
      | [] => None
      end
  end
with parse_members (fuel : nat) (acc : list (jsstr * json)) (s : jsstr) : option (json * jsstr) :=
  match fuel with
  | 0 => None
  | S f =>
      match skip_ws s with
      | q :: r0 =>
          if (q =? quote_unit)%N then
            '(k, r) ← parse_chars r0;
            match skip_ws r with
            | c :: r' =>
                if (c =? 58)%N then
                  '(v, r1) ← parse_value f r';
                  match skip_ws r1 with
                  | d :: r2 => if (d =? 44)%N then parse_members f (assoc_set k v acc) r2
                               else if (d =? 125)%N
                               then Some (JObject (assoc_set k v acc), r2) else None
                  | [] => None
                  end
                else None
            | [] => None
            end
          else None
      | [] => None
      end
  end.

(** [JSON.parse(text)]: [None] is a SyntaxError. *)
Definition JSON_parse (s : jsstr) : option json :=
  '(v, r) ← parse_value (S (length s)) s;
  match skip_ws r with [] => Some v | _ => None end.

(** ** Examples *)

Example stringify_ex :
  stringify (JObject [(js "a", JNumber (num_of_Z 1)); (js "b", JArray [JBool true; JNull])])
  = [123; 34; 97; 34; 58; 49; 44; 34; 98; 34; 58; 91; 116; 114; 117; 101; 44; 110; 117; 108;
     108; 93; 125]%N.
Proof. reflexivity. Qed.
Example parse_ex :
  JSON_parse (js " [1, -2.5e1 , true,{} ] ")
  = Some (JArray [JNumber (num_of_Z 1); JNumber (num_of_Z (-25)); JBool true; JObject []]).
Proof. reflexivity. Qed.
Example parse_bad : JSON_parse (js "[01]") = None.
Proof. reflexivity. Qed.
Example parse_dup :
  JSON_parse (stringify (JObject [(js "k", JNull)])) = Some (JObject [(js "k", JNull)]).
Proof. reflexivity. Qed.

(** ** Fuel *)

Lemma skip_ws_length s : length (skip_ws s) ≤ length s.
Proof. apply drop_while_length. Qed.

Lemma read_digits_length acc n s v k r :
  read_digits acc n s = (v, k, r) → length r + k = length s + n.
Proof.
  revert acc n; induction s as [|c s IH]; intros acc n; simpl; [intros; simplify_eq/=; lia|].
  destruct (is_digit c); intros H; simplify_eq/=; [apply IH in H; lia|lia].
Qed.

Lemma read_exponent_length s e r : read_exponent s = Some (e, r) → length r ≤ length s.
Proof.
  destruct s as [|c s]; simpl; [intros; by simplify_eq|].
  destruct (_ || _); [|intros; by simplify_eq].
  set (sr := match s with [] => _ | d :: r' => _ end).
  assert (length sr.2 ≤ length s) as Hl.
  { subst sr. destruct s as [|d s]; [done|]. destruct (d =? 43)%N; [|destruct (d =? 45)%N]; simpl; lia. }
  destruct sr as [sg r1]; simpl in Hl.
  destruct (read_digits 0 0 r1) as [[v n] r2] eqn:E. apply read_digits_length in E.
  destruct (n =? 0); intros; simplify_eq/=; lia.
Qed.

Lemma parse_number_length s n r : parse_number s = Some (n, r) → length r < length s.
Proof.
  unfold parse_number. intros H.
  destruct (match s with c :: r => _ | [] => _ end) as [neg r0] eqn:Es.
  assert (length r0 ≤ length s) as Hl.
  { destruct s; [|destruct (n0 =? 45)%N]; simplify_eq/=; lia. }
  destruct (read_digits 0 0 r0) as [[i ni] r1] eqn:E1.
  apply read_digits_length in E1.
  destruct (ni =? 0) eqn:Eni; [done|]. apply Nat.eqb_neq in Eni. simpl in H.
  destruct (_ && _); [done|].
  destruct (match r1 with c :: r' => _ | [] => _ end) as [[[m nf] r2]|] eqn:E2; [|done].
  assert (length r2 ≤ length r1) as Hl2.
  { destruct r1 as [|c r']; simplify_eq/=; [lia|].
    destruct (c =? 46)%N; simplify_eq/=; [|lia].
    destruct (read_digits i 0 r') as [[m' nf'] r2'] eqn:E3. apply read_digits_length in E3.
    destruct (nf' =? 0); simplify_eq/=; lia. }
  simpl in H. destruct (read_exponent r2) as [[e r3]|] eqn:E4; simplify_eq/=.
  apply read_exponent_length in E4. lia.
Qed.

Lemma parse_chars_length s t r : parse_chars s = Some (t, r) → length r < length s.
Proof.
  remember (length s) as n eqn:Hn. revert s t r Hn.
  induction n as [n IH] using lt_wf_ind. intros [|c s] t r Hn H; [done|]. simpl in H, Hn.
  destruct (c =? quote_unit)%N; simplify_eq/=; [lia|].
  destruct (c =? 92)%N.
  - destruct s as [|e s]; [done|]. destruct (e =? 117)%N.
    + destruct s as [|h1 [|h2 [|h3 [|h4 s]]]]; try done.
      destruct (hex4 _ _ _ _); simplify_eq/=.
      destruct (parse_chars s) as [[t' r']|] eqn:E; simplify_eq/=.
      eapply IH in E; [|..|reflexivity]; lia.
    + destruct (unescape e); simplify_eq/=.
      destruct (parse_chars s) as [[t' r']|] eqn:E; simplify_eq/=.
      eapply IH in E; [|..|reflexivity]; lia.
  - destruct (c <? 32)%N; [done|].
    destruct (parse_chars s) as [[t' r']|] eqn:E; simplify_eq/=.
    eapply IH in E; [|..|reflexivity]; lia.
Qed.

Lemma startsWith_length p s : startsWith p s = true → length p ≤ length s.
Proof. intros [r ->]%startsWith_spec. rewrite length_app. lia. Qed.

Lemma parse_literal_length s v r : parse_literal s = Some (v, r) → length r < length s.
Proof.
  unfold parse_literal. intros H.
  destruct (startsWith (js "null") s) eqn:E1.
  { apply startsWith_length in E1. change (length (js "null")) with 4 in E1. simplify_eq. rewrite length_drop. lia. }
  destruct (startsWith (js "true") s) eqn:E2.
  { apply startsWith_length in E2. change (length (js "true")) with 4 in E2. simplify_eq. rewrite length_drop. lia. }
  destruct (startsWith (js "false") s) eqn:E3.
  { apply startsWith_length in E3. change (length (js "false")) with 5 in E3. simplify_eq. rewrite length_drop. lia. }
  destruct (parse_number s) as [[n r']|] eqn:E; simplify_eq/=.
  by eapply parse_number_length.
Qed.

(** What a successful parse with some fuel says: the text got shorter, and any fuel above
    the number of units read gives the same answer. *)
Definition fuel_irrelevant (F : nat → jsstr → option (json * jsstr)) (n : nat) : Prop :=
  ∀ s v r, F n s = Some (v, r) →
    length r < length s ∧ ∀ m, length s - length r < m → F m s = Some (v, r).

Lemma parse_value_fuel n :
  (∀ acc, fuel_irrelevant (λ n, parse_elements n acc) n) →
  (∀ acc, fuel_irrelevant (λ n, parse_members n acc) n) → fuel_irrelevant parse_value (S n).
Proof.
  intros IHe IHm.
  intros s v r. simpl. pose proof (skip_ws_length s) as Hs.
  destruct (skip_ws s) as [|c s1] eqn:Es; [done|]. simpl in Hs.
  destruct (c =? quote_unit)%N eqn:Eq.
  { destruct (parse_chars s1) as [[t r']|] eqn:E; intros; simplify_eq/=.
    pose proof (parse_chars_length _ _ _ E). split; [lia|].
    intros [|m] ?; [lia|]. simpl. by rewrite Es, Eq, E. }
  destruct (c =? 91)%N eqn:E91; [|destruct (c =? 123)%N eqn:E123].
  - pose proof (skip_ws_length s1) as Hs1.
    destruct (skip_ws s1) as [|d s2] eqn:Es1; [done|]. simpl in Hs1.
    destruct (d =? 93)%N eqn:Ed.
    { intros; simplify_eq. split; [lia|]. intros [|m] ?; [lia|].
      simpl. by rewrite Es, Eq, E91, Es1, Ed. }
    intros [Hl Hm]%IHe. split; [lia|]. intros [|m] ?; [lia|].
    simpl. rewrite Es, Eq, E91, Es1, Ed. apply Hm. lia.
  - pose proof (skip_ws_length s1) as Hs1.
    destruct (skip_ws s1) as [|d s2] eqn:Es1; [done|]. simpl in Hs1.
    destruct (d =? 125)%N eqn:Ed.
    { intros; simplify_eq. split; [lia|]. intros [|m] ?; [lia|].
      simpl. by rewrite Es, Eq, E91, E123, Es1, Ed. }
    intros [Hl Hm]%IHm. split; [lia|]. intros [|m] ?; [lia|].
    simpl. rewrite Es, Eq, E91, E123, Es1, Ed. apply Hm. lia.
  - intros H. pose proof (parse_literal_length _ _ _ H) as Hl. simpl in Hl.
    split; [lia|]. intros [|m] ?; [lia|]. simpl. by rewrite Es, Eq, E91, E123.
Qed.

Lemma parse_elements_fuel n acc :
  fuel_irrelevant parse_value n → (∀ acc, fuel_irrelevant (λ n, parse_elements n acc) n) →
  fuel_irrelevant (λ n, parse_elements n acc) (S n).
Proof.
  intros IHv IHe.
  intros s v r. simpl.
  destruct (parse_value n s) as [[v1 r1]|] eqn:Ev; [|done]. simpl.
  apply IHv in Ev as [Hl1 Hm1]. pose proof (skip_ws_length r1) as Hs.
  destruct (skip_ws r1) as [|c r2] eqn:Er; [done|]. simpl in Hs.
  destruct (c =? 44)%N eqn:E44; [|destruct (c =? 93)%N eqn:E93; [|done]].
  - intros [Hl Hm]%IHe. split; [lia|]. intros [|m] ?; [lia|].
    simpl. rewrite Hm1 by lia. simpl. rewrite Er, E44. apply Hm. lia.
  - intros; simplify_eq. split; [lia|]. intros [|m] ?; [lia|].
    simpl. rewrite Hm1 by lia. simpl. by rewrite Er, E44, E93.
Qed.

Lemma parse_members_fuel n acc :
  fuel_irrelevant parse_value n → (∀ acc, fuel_irrelevant (λ n, parse_members n acc) n) →
  fuel_irrelevant (λ n, parse_members n acc) (S n).
Proof.
  intros IHv IHm.
  intros s v r. simpl. pose proof (skip_ws_length s) as Hs.
  destruct (skip_ws s) as [|q s1] eqn:Es; [done|]. simpl in Hs.
  destruct (q =? quote_unit)%N eqn:Eq; [|done].
  destruct (parse_chars s1) as [[k r1]|] eqn:Ek; [|done]. simpl.
  pose proof (parse_chars_length _ _ _ Ek) as Hk. pose proof (skip_ws_length r1) as Hs1.
  destruct (skip_ws r1) as [|c r2] eqn:Er1; [done|]. simpl in Hs1.
  destruct (c =? 58)%N eqn:E58; [|done].
  destruct (parse_value n r2) as [[v1 r3]|] eqn:Ev; [|done]. simpl.
  apply IHv in Ev as [Hl1 Hm1]. pose proof (skip_ws_length r3) as Hs3.
  destruct (skip_ws r3) as [|d r4] eqn:Er3; [done|]. simpl in Hs3.
  destruct (d =? 44)%N eqn:E44; [|destruct (d =? 125)%N eqn:E125; [|done]].
  - intros [Hl Hm]%IHm. split; [lia|]. intros [|m] ?; [lia|].
    simpl. rewrite Es, Eq, Ek. simpl. rewrite Er1, E58, Hm1 by lia. simpl.
    rewrite Er3, E44. apply Hm. lia.
  - intros; simplify_eq. split; [lia|]. intros [|m] ?; [lia|].
    simpl. rewrite Es, Eq, Ek. simpl. rewrite Er1, E58, Hm1 by lia. simpl.
    by rewrite Er3, E44, E125.
Qed.

Lemma parse_fuel n :
  fuel_irrelevant parse_value n
  ∧ (∀ acc, fuel_irrelevant (λ n, parse_elements n acc) n)
  ∧ (∀ acc, fuel_irrelevant (λ n, parse_members n acc) n).
Proof.
  induction n as [|n (IHv & IHe & IHm)]; [by repeat split|].
  auto using parse_value_fuel, parse_elements_fuel, parse_members_fuel.
Qed.

(** The fuel of [JSON_parse] is enough: a text that any fuel parses to the end is parsed. *)
Lemma JSON_parse_complete n s v r :
  parse_value n s = Some (v, r) → skip_ws r = [] → JSON_parse s = Some v.
Proof.
  intros H Hr. destruct (parse_fuel n) as [Hv _]. apply Hv in H as [Hl Hm].
  unfold JSON_parse. rewrite Hm by lia. simpl. by rewrite Hr.
Qed.


(** ** Round trip *)

(** Values whose text is determined without number formatting, and whose objects have
    distinct keys, as every object has. *)
Fixpoint number_free (v : json) : bool :=
  match v with
  | JNumber _ => false
  | JArray l => forallb number_free l
  | JObject l => bool_decide (NoDup l.*1) && forallb (λ kv, number_free kv.2) l
  | _ => true
  end.

Lemma hex_value_digit n : (n < 16)%N → hex_value (hex_digit n) = Some n.
Proof.
  intros H. unfold hex_value, hex_digit, is_digit.
  destruct (N.ltb_spec n 10).
  - rewrite (proj2 (N.leb_le 48 (48 + n))), (proj2 (N.leb_le (48 + n) 57)) by lia.
    simpl. f_equal. lia.
  - rewrite (proj2 (N.leb_le 48 (87 + n))), (proj2 (N.leb_gt (87 + n) 57)) by lia.
    rewrite (proj2 (N.leb_le 97 (87 + n))), (proj2 (N.leb_le (87 + n) 102)) by lia.
    simpl. f_equal. lia.
Qed.

Lemma hex4_digits c :
  (c < 65536)%N →
  hex4 (hex_digit (c / 4096 mod 16)) (hex_digit (c / 256 mod 16))
       (hex_digit (c / 16 mod 16)) (hex_digit (c mod 16)) = Some c.
Proof.
  intros H. unfold hex4.
  rewrite !hex_value_digit by (apply N.mod_lt; lia). simpl. f_equal.
  pose proof (N.div_mod c 16). pose proof (N.div_mod (c / 16) 16).
  pose proof (N.div_mod (c / 256) 16).
  rewrite (N.mod_small (c / 4096)) by (apply N.Div0.div_lt_upper_bound; lia).
  replace (c / 4096)%N with (c / 16 / 16 / 16)%N by (by rewrite !N.Div0.div_div).
  replace (c / 256)%N with (c / 16 / 16)%N in * by (by rewrite N.Div0.div_div).
  lia.
Qed.


Lemma parse_chars_escape_unit c s t r :
  (c < 65536)%N → parse_chars s = Some (t, r) →
  parse_chars (unicode_escape c ++ s) = Some (c :: t, r).
Proof.
  intros Hc Hs. unfold unicode_escape. change (js "\u") with [92; 117]%N.
  simpl. rewrite hex4_digits by done. simpl. by rewrite Hs.
Qed.

Lemma short_escape_spec c e :
  short_escape c = Some e → (e =? 117)%N = false ∧ unescape e = Some c.
Proof.
  unfold short_escape. intros H.
  repeat match type of H with
  | context [if (?a =? ?b)%N then _ else _] =>
      destruct (N.eqb_spec a b); [simplify_eq; by vm_compute|]
  end. done.
Qed.

Lemma short_escape_None c :
  short_escape c = None → (c =? quote_unit)%N = false ∧ (c =? 92)%N = false.
Proof.
  unfold short_escape, quote_unit. intros H. by split_match.
Qed.

Lemma parse_chars_plain c s t r :
  short_escape c = None → (c <? 32)%N = false → parse_chars s = Some (t, r) →
  parse_chars (c :: s) = Some (c :: t, r).
Proof.
  intros [Hq Hb]%short_escape_None H32 Hs. simpl. by rewrite Hq, Hb, H32, Hs.
Qed.

Lemma surrogate_plain c :
  is_high_surrogate c = true ∨ is_low_surrogate c = true →
  short_escape c = None ∧ (c <? 32)%N = false ∧ (c < 65536)%N.
Proof.
  unfold is_high_surrogate, is_low_surrogate, short_escape. intros H.
  assert (55296 ≤ c ≤ 57343)%N by (destruct H; bool_to_prop; lia).
  split; [|split; [apply N.ltb_ge|]; lia].
  repeat match goal with
  | |- context [(?a =? ?b)%N] => destruct (N.eqb_spec a b); [lia|]
  end. done.
Qed.

Lemma json_escape_cons c s' :
  json_escape (c :: s') =
  match short_escape c with
  | Some e => 92%N :: e :: json_escape s'
  | None =>
      if (c <? 32)%N || is_low_surrogate c then unicode_escape c ++ json_escape s'
      else if is_high_surrogate c then
        match s' with
        | d :: s'' => if is_low_surrogate d then c :: d :: json_escape s''
                      else unicode_escape c ++ json_escape s'
        | [] => unicode_escape c
        end
      else c :: json_escape s'
  end.
Proof. reflexivity. Qed.

(** Reading back an escaped string gives the string, lone surrogates included. *)
Lemma parse_chars_escape s r :
  parse_chars (json_escape s ++ quote_unit :: r) = Some (s, r).
Proof.
  remember (length s) as n eqn:Hn. revert s Hn.
  induction n as [n IH] using lt_wf_ind. intros [|c s] Hn; [done|]. simpl in Hn.
  assert (parse_chars (json_escape s ++ quote_unit :: r) = Some (s, r)) as IHs
    by (apply (IH (length s)); lia).
  rewrite json_escape_cons. destruct (short_escape c) as [e|] eqn:Ee.
  { apply short_escape_spec in Ee as [Hu He]. simpl. rewrite Hu, He. simpl. by rewrite IHs. }
  destruct ((c <? 32)%N || is_low_surrogate c) eqn:Elow.
  { rewrite <- app_assoc. apply parse_chars_escape_unit; [|done].
    apply orb_true_iff in Elow as [H|H]; [apply N.ltb_lt in H; lia|].
    apply surrogate_plain; by right. }
  apply orb_false_iff in Elow as [E32 Elow].
  destruct (is_high_surrogate c) eqn:Ehigh; [|by apply parse_chars_plain].
  destruct (surrogate_plain c) as (_ & _ & Hc); [by left|].
  destruct s as [|d s]; [by apply parse_chars_escape_unit|].
  destruct (is_low_surrogate d) eqn:Ed.
  - apply parse_chars_plain; [done..|].
    destruct (surrogate_plain d) as (? & ? & _); [by right|].
    apply parse_chars_plain; [done..|]. apply (IH (length s)); simpl in *; lia.
  - rewrite <- app_assoc. by apply parse_chars_escape_unit.
Qed.

(** [parses v s r]: reading [s] yields [v] and leaves [r]. *)
Definition parses (v : json) (s r : jsstr) : Prop := ∃ n, parse_value n s = Some (v, r).

Lemma parses_fuel v s r : parses v s r → ∀ m, length s < m → parse_value m s = Some (v, r).
Proof.
  intros [n H] m Hm. destruct (parse_fuel n) as [Hv _]. apply Hv in H as [_ H]. apply H. lia.
Qed.

Lemma skip_ws_cons c s : is_json_space c = false → skip_ws (c :: s) = c :: s.
Proof. intros H. unfold skip_ws. simpl. by rewrite H. Qed.

(** The first unit of a value's text is no space and closes nothing. *)
Lemma stringify_head v :
  number_free v = true →
  ∃ c s, stringify v = c :: s ∧ is_json_space c = false ∧ (c =? 93)%N = false
         ∧ (c =? 125)%N = false.
Proof.
  destruct v as [|[]|n|t|l|l]; intros H; try done;
    (eexists _, _; split; [reflexivity|by vm_compute]).
Qed.

Lemma parses_quote t r : parses (JString t) (json_quote t ++ r) r.
Proof.
  exists 1. unfold json_quote. rewrite <- app_comm_cons, <- app_assoc.
  cbn [parse_value]. rewrite skip_ws_cons by reflexivity.
  rewrite N.eqb_refl. cbn [app]. by rewrite parse_chars_escape.
Qed.

Lemma parse_elements_S f acc s :
  parse_elements (S f) acc s =
  '(v, r) ← parse_value f s;
  match skip_ws r with
  | c :: r' => if (c =? 44)%N then parse_elements f (acc ++ [v]) r'
               else if (c =? 93)%N then Some (JArray (acc ++ [v]), r') else None
  | [] => None
  end.
Proof. reflexivity. Qed.

(** One step of [parse_members], when the key has been read. *)
Lemma parse_members_S f acc k s :
  parse_members (S f) acc (quote_unit :: json_escape k ++ quote_unit :: 58%N :: s) =
  '(v, r1) ← parse_value f s;
  match skip_ws r1 with
  | d :: r2 => if (d =? 44)%N then parse_members f (assoc_set k v acc) r2
               else if (d =? 125)%N then Some (JObject (assoc_set k v acc), r2) else None
  | [] => None
  end.
Proof.
  cbn [parse_members]. rewrite skip_ws_cons by reflexivity. rewrite N.eqb_refl.
  by rewrite parse_chars_escape.
Qed.

(** The elements of a non-empty array, up to and including the closing bracket. *)
Lemma parse_elements_stringify v l acc r :
  Forall (λ v, ∀ r, parses v (stringify v ++ r) r) (v :: l) →
  ∃ n, parse_elements n acc (join (js ",") (stringify <$> v :: l) ++ js "]" ++ r)
       = Some (JArray (acc ++ v :: l), r).
Proof.
  revert v acc; induction l as [|v' l IH]; intros v acc H; inversion_clear H as [|?? Hv Hl].
  - set (s := join _ _ ++ _). exists (S (S (length s))). subst s.
    rewrite parse_elements_S. change (join (js ",") (stringify <$> [v])) with (stringify v).
    erewrite parses_fuel; [|apply Hv|lia]. done.
  - destruct (IH v' (acc ++ [v]) Hl) as [n Hn].
    set (s := join (js ",") (stringify <$> v' :: l) ++ js "]" ++ r) in *.
    assert (join (js ",") (stringify <$> v :: v' :: l) ++ js "]" ++ r
            = stringify v ++ 44%N :: s) as ->.
    { subst s. change (join (js ",") (stringify <$> v :: v' :: l))
        with (stringify v ++ [44%N] ++ join (js ",") (stringify <$> v' :: l)).
      by rewrite <- !app_assoc. }
    set (s' := stringify v ++ 44%N :: s) in *.
    destruct (parse_fuel n) as (_ & He & _). apply He in Hn as [_ Hn].
    exists (S (S (length s'))). rewrite parse_elements_S. subst s'.
    erewrite parses_fuel; [|apply Hv|lia]. cbn [mbind option_bind].
    rewrite skip_ws_cons by reflexivity. cbn match. rewrite N.eqb_refl.
    rewrite Hn; [by rewrite <- app_assoc|]. rewrite length_app; simpl; lia.
Qed.

Lemma assoc_set_fresh k v l : k ∉ l.*1 → assoc_set k v l = l ++ [(k, v)].
Proof.
  induction l as [|[k' v'] l IH]; simpl; [done|]. intros H.
  rewrite (proj2 (str_eqb_neq k k')) by set_solver. rewrite IH; [done|set_solver].
Qed.

Definition member_text (kv : jsstr * json) : jsstr :=
  json_quote kv.1 ++ js ":" ++ stringify kv.2.

Lemma parse_members_stringify kv l acc r :
  Forall (λ kv, ∀ r, parses kv.2 (stringify kv.2 ++ r) r) (kv :: l) →
  NoDup (acc ++ kv :: l).*1 →
  ∃ n, parse_members n acc (join (js ",") (member_text <$> kv :: l) ++ js "}" ++ r)
       = Some (JObject (acc ++ kv :: l), r).
Proof.
  revert kv acc; induction l as [|kv' l IH]; intros [k v] acc H Hnd;
    inversion_clear H as [|?? Hv Hl].
  - set (s := join _ _ ++ _). exists (S (S (length s))). subst s.
    change (join (js ",") (member_text <$> [(k, v)])) with (member_text (k, v)).
    unfold member_text, json_quote. cbn [fst snd].
    rewrite <- !app_comm_cons, <- !app_assoc. change (js ":") with [58%N]. cbn [app].
    rewrite parse_members_S. simpl in Hv.
    erewrite parses_fuel; [|apply Hv|]; [|len].
    cbn [mbind option_bind]. change (js "}") with [125%N]. cbn [app].
    rewrite skip_ws_cons by reflexivity. cbn match. simpl.
    rewrite assoc_set_fresh; [done|]. rewrite fmap_app in Hnd.
    apply NoDup_app in Hnd as (_ & Hd & _). intros Hk. apply (Hd k Hk). simpl. set_solver.
  - assert (NoDup ((acc ++ [(k, v)]) ++ kv' :: l).*1) as Hnd' by by rewrite <- app_assoc.
    destruct (IH kv' (acc ++ [(k, v)]) Hl Hnd') as [n Hn].
    set (s := join (js ",") (member_text <$> kv' :: l) ++ js "}" ++ r) in *.
    assert (join (js ",") (member_text <$> (k, v) :: kv' :: l) ++ js "}" ++ r
            = quote_unit :: json_escape k ++ quote_unit :: 58%N :: stringify v ++ 44%N :: s) as ->.
    { subst s. change (join (js ",") (member_text <$> (k, v) :: kv' :: l))
        with (member_text (k, v) ++ [44%N] ++ join (js ",") (member_text <$> kv' :: l)).
      unfold member_text at 1, json_quote at 1. cbn [fst snd].
      by rewrite <- !app_comm_cons, <- !app_assoc. }
    destruct (parse_fuel n) as (_ & _ & Hm). apply Hm in Hn as [_ Hn].
    set (s' := quote_unit :: _). exists (S (S (length s'))). subst s'.
    rewrite parse_members_S. simpl in Hv.
    erewrite parses_fuel; [|apply Hv|]; [|len].
    cbn [mbind option_bind]. rewrite skip_ws_cons by reflexivity. cbn match. rewrite N.eqb_refl.
    rewrite assoc_set_fresh.
    + rewrite Hn; [by rewrite <- app_assoc|].
      len.
    + rewrite fmap_app in Hnd. apply NoDup_app in Hnd as (_ & Hd & _).
      intros Hk. apply (Hd k Hk). simpl. set_solver.
Qed.

(** [JSON.parse] is a left inverse of [JSON.stringify] on values without numbers: strings
    with any code units, control characters and lone surrogates included. *)
Lemma parses_stringify v : number_free v = true → ∀ r, parses v (stringify v ++ r) r.
Proof.
  induction v as [|[]|n|t|l IH|l IH] using json_ind; intros Hf r; simpl in Hf; try done.
  1-3: by exists 1.
  - apply parses_quote.
  - destruct l as [|v l]; [by exists 1|].
    assert (Forall (λ v, ∀ r, parses v (stringify v ++ r) r) (v :: l)) as Hall.
    { rewrite Forall_forall in IH |- *. intros x Hx. apply IH; [done|].
      rewrite forallb_forall in Hf. apply Hf. by apply list_elem_of_In. }
    destruct (parse_elements_stringify v l [] r Hall) as [n Hn].
    exists (S n). cbn [stringify]. rewrite <- !app_assoc. change (js "[") with [91%N].
    cbn [app parse_value]. rewrite skip_ws_cons by reflexivity. cbn match.
    cbn [app] in Hn. apply andb_true_iff in Hf as [Hv _].
    destruct (stringify_head v Hv) as (c & s & E & Hc & H93 & _).
    destruct l; cbn [fmap list_fmap join]; rewrite E; cbn [app];
      rewrite skip_ws_cons by done; cbn match; rewrite H93; cbn match;
      cbn [fmap list_fmap join] in Hn; rewrite E in Hn; apply Hn.
  - destruct l as [|kv l]; [by exists 1|]. apply andb_true_iff in Hf as [Hnd Hf].
    apply bool_decide_eq_true in Hnd.
    assert (Forall (λ kv, ∀ r, parses kv.2 (stringify kv.2 ++ r) r) (kv :: l)) as Hall.
    { rewrite Forall_forall in IH |- *. intros x Hx. apply IH; [done|].
      rewrite forallb_forall in Hf. apply Hf. by apply list_elem_of_In. }
    destruct (parse_members_stringify kv l [] r Hall Hnd) as [n Hn].
    exists (S n). cbn [stringify]. rewrite <- !app_assoc. change (js "{") with [123%N].
    cbn [app parse_value]. rewrite skip_ws_cons by reflexivity. cbn match.
    cbn [app] in Hn. destruct l; apply Hn.
Qed.

Lemma JSON_parse_stringify v : number_free v = true → JSON_parse (stringify v) = Some v.
Proof.
  intros Hf. destruct (parses_stringify v Hf []) as [n Hn]. rewrite app_nil_r in Hn.
  by eapply JSON_parse_complete.
Qed.
