(* ===== verification/OAuthState.v ===== *)
(** The sign-in [state] parameter of [shared/const.ts]: JSON inside base64, written by the
    browser and read by the server. [btoa] and [atob] are those of the HTML standard. *)
From S2P Require Import Prelude JsString JsNumber Json.

(** ** Constants of [shared/const.ts] *)

Definition COOKIE_NAME : jsstr := js "app_session_id".
Definition ONE_YEAR_MS : Z := 1000 * 60 * 60 * 24 * 365.
Definition AXIOS_TIMEOUT_MS : Z := 30000.
Definition UNAUTHED_ERR_MSG : jsstr := js "Please login (10001)".
Definition NOT_ADMIN_ERR_MSG : jsstr := js "You do not have required permission (10002)".
Definition OAUTH_STATE_COOKIE : jsstr := js "__Host-oauth_state".

(** ** Base64 *)

Definition b64_char (n : N) : N :=
  if (n <? 26)%N then (65 + n)%N
  else if (n <? 52)%N then (71 + n)%N
  else if (n <? 62)%N then (n - 4)%N
  else if (n =? 62)%N then 43%N else 47%N.

Definition b64_value (c : N) : option N :=
  if ((65 <=? c)%N && (c <=? 90)%N)%bool then Some (c - 65)%N
  else if ((97 <=? c)%N && (c <=? 122)%N)%bool then Some (c - 71)%N
  else if ((48 <=? c)%N && (c <=? 57)%N)%bool then Some (c + 4)%N
  else if (c =? 43)%N then Some 62%N
  else if (c =? 47)%N then Some 63%N
  else None.

Definition pad : N := 61%N.

(** Three bytes make four characters; one or two last bytes are padded. *)
Fixpoint b64_encode (l : list N) : jsstr :=
  match l with
  | [] => []
  | [a] => [b64_char (a / 4); b64_char (a mod 4 * 16); pad; pad]%N
  | [a; b] => [b64_char (a / 4); b64_char (a mod 4 * 16 + b / 16); b64_char (b mod 16 * 4); pad]%N
  | a :: b :: c :: l' =>
      (b64_char (a / 4) :: b64_char (a mod 4 * 16 + b / 16)
       :: b64_char (b mod 16 * 4 + c / 64) :: b64_char (c mod 64) :: b64_encode l')%N
  end.

(** [btoa(s)]: [None] is the InvalidCharacterError on a code unit above 255. *)
Definition btoa (s : jsstr) : option jsstr :=
  if forallb (λ c, (c <? 256)%N) s then Some (b64_encode s) else None.

Fixpoint b64_decode (l : jsstr) : option (list N) :=
  match l with
  | [] => Some []
  | [_] => None
  | [a; b] => x ← b64_value a; y ← b64_value b; Some [x * 4 + y / 16]%N
  | [a; b; c] =>
      x ← b64_value a; y ← b64_value b; z ← b64_value c;
      Some [x * 4 + y / 16; y mod 16 * 16 + z / 4]%N
  | a :: b :: c :: d :: l' =>
      x ← b64_value a; y ← b64_value b; z ← b64_value c; w ← b64_value d;
      r ← b64_decode l';
      Some (x * 4 + y / 16 :: y mod 16 * 16 + z / 4 :: z mod 4 * 64 + w :: r)%N
  end.

Definition is_ascii_space (c : N) : bool := bool_decide (c ∈ [9; 10; 12; 13; 32]%N).

(** At most two padding characters are removed, and only from a text of whole groups. *)
Definition strip_padding (s : jsstr) : jsstr :=
  if Nat.modulo (length s) 4 =? 0 then
    match reverse s with
    | c :: d :: r => if (c =? pad)%N then if (d =? pad)%N then reverse r else reverse (d :: r) else s
    | _ => s
    end
  else s.

(** [atob(s)], the forgiving-base64 decode: [None] is the InvalidCharacterError. *)
Definition atob (s : jsstr) : option jsstr :=
  b64_decode (strip_padding (js_filter (λ c, negb (is_ascii_space c)) s)).

(** ** The state parameter *)

(** [OAuthState] as the encoder receives it. *)
Record OAuthState := { os_redirectUri : jsstr; os_nonce : option jsstr }.

(** What the decoder returns: any JSON object may come back, so the nonce is whatever value
    the text holds under that key. *)
Record DecodedState := { ds_redirectUri : jsstr; ds_nonce : option json }.

(** [JSON.stringify(state)] leaves out an absent nonce. *)
Definition OAuthState_json (st : OAuthState) : json :=
  JObject ((js "redirectUri", JString (os_redirectUri st))
           :: match os_nonce st with Some n => [(js "nonce", JString n)] | None => [] end).

(** [encodeOAuthState]: [None] is the exception of [btoa]. *)
Definition encodeOAuthState (st : OAuthState) : option jsstr := btoa (stringify (OAuthState_json st)).

(** [decodeOAuthState]: every failure has a value, nothing is thrown. *)
Definition decodeOAuthState (state : jsstr) : DecodedState :=
  match atob state with
  | None => {| ds_redirectUri := []; ds_nonce := None |}
  | Some decoded =>
      match JSON_parse decoded with
      | Some parsed =>
          match json_truthy parsed, json_get (js "redirectUri") parsed with
          | true, Some (JString u) =>
              {| ds_redirectUri := u; ds_nonce := json_get (js "nonce") parsed |}
          | _, _ => {| ds_redirectUri := decoded; ds_nonce := None |}
          end
      | None => {| ds_redirectUri := decoded; ds_nonce := None |}
      end
  end.

(** ** Base64 round trip *)

Lemma b64_value_char n : (n < 64)%N → b64_value (b64_char n) = Some n.
Proof.
  intros H. assert (∃ k : nat, n = N.of_nat k ∧ k < 64) as (k & -> & Hk)
    by (exists (N.to_nat n); lia).
  clear H. do 64 (destruct k as [|k]; [reflexivity|]). lia.
Qed.

Lemma b64_char_plain n : (n < 64)%N → is_ascii_space (b64_char n) = false ∧ b64_char n ≠ pad.
Proof.
  intros H. assert (∃ k : nat, n = N.of_nat k ∧ k < 64) as (k & -> & Hk)
    by (exists (N.to_nat n); lia).
  clear H. do 64 (destruct k as [|k]; [by vm_compute|]). lia.
Qed.

(** Induction by groups of three bytes. *)
Lemma triple_ind (P : list N → Prop) :
  P [] → (∀ a, P [a]) → (∀ a b, P [a; b]) → (∀ a b c l, P l → P (a :: b :: c :: l)) → ∀ l, P l.
Proof.
  intros H0 H1 H2 H3 l. remember (length l) as n eqn:Hn. revert l Hn.
  induction n as [n IH] using lt_wf_ind. intros [|a [|b [|c l]]] Hn; auto.
  apply H3. apply (IH (length l)); simpl in *; lia.
Qed.

(** The characters before the padding, and how much padding there is. *)
Fixpoint b64_core (l : list N) : jsstr :=
  match l with
  | [] => []
  | [a] => [b64_char (a / 4); b64_char (a mod 4 * 16)]%N
  | [a; b] => [b64_char (a / 4); b64_char (a mod 4 * 16 + b / 16); b64_char (b mod 16 * 4)]%N
  | a :: b :: c :: l' =>
      (b64_char (a / 4) :: b64_char (a mod 4 * 16 + b / 16)
       :: b64_char (b mod 16 * 4 + c / 64) :: b64_char (c mod 64) :: b64_core l')%N
  end.

Definition bytes (l : list N) : Prop := Forall (λ c, (c < 256)%N) l.

Lemma b64_sextets a b c :
  (a < 256)%N → (b < 256)%N → (c < 256)%N →
  (a / 4 < 64 ∧ a mod 4 * 16 < 64 ∧ a mod 4 * 16 + b / 16 < 64
   ∧ b mod 16 * 4 < 64 ∧ b mod 16 * 4 + c / 64 < 64 ∧ c mod 64 < 64)%N.
Proof. intros. repeat split; div_lia. Qed.

Lemma b64_join a b c :
  (a < 256)%N → (b < 256)%N → (c < 256)%N →
  (a / 4 * 4 + (a mod 4 * 16) / 16 = a ∧ a / 4 * 4 + (a mod 4 * 16 + b / 16) / 16 = a
   ∧ (a mod 4 * 16 + b / 16) mod 16 * 16 + b mod 16 * 4 / 4 = b
   ∧ (a mod 4 * 16 + b / 16) mod 16 * 16 + (b mod 16 * 4 + c / 64) / 4 = b
   ∧ (b mod 16 * 4 + c / 64) mod 4 * 64 + c mod 64 = c)%N.
Proof. intros. repeat split; div_lia. Qed.

Lemma b64_encode_core l :
  ∃ k, b64_encode l = b64_core l ++ replicate k pad ∧ k ≤ 2
       ∧ Nat.modulo (length (b64_encode l)) 4 = 0.
Proof.
  induction l as [|a|a b|a b c l (k & IH & Hk & Hm)] using triple_ind.
  - exists 0. split; [reflexivity|]. simpl. lia.
  - exists 2. split; [reflexivity|]. simpl. lia.
  - exists 1. split; [reflexivity|]. simpl. lia.
  - exists k. cbn [b64_encode b64_core]. rewrite IH. split; [done|]. split; [done|].
    rewrite <- IH. cbn [length].
    change (S (S (S (S (length (b64_encode l)))))) with (1 * 4 + length (b64_encode l)).
    rewrite Nat.add_comm, Nat.Div0.mod_add. done.
Qed.

Lemma b64_core_chars l :
  bytes l → Forall (λ c, is_ascii_space c = false ∧ c ≠ pad) (b64_core l).
Proof.
  induction l as [|a|a b|a b c l IH] using triple_ind; intros H;
    unfold bytes in *; forall_cons.
  - apply Forall_nil_2.
  - pose proof (b64_sextets a 0 0) as Hs. simpl.
    repeat (apply Forall_cons_2; [apply b64_char_plain; apply Hs; lia|]). apply Forall_nil_2.
  - pose proof (b64_sextets a b 0) as Hs. simpl.
    repeat (apply Forall_cons_2; [apply b64_char_plain; apply Hs; lia|]). apply Forall_nil_2.
  - pose proof (b64_sextets a b c) as Hs. simpl.
    repeat (apply Forall_cons_2; [apply b64_char_plain; apply Hs; lia|]). by apply IH.
Qed.

Lemma b64_decode_core l : bytes l → b64_decode (b64_core l) = Some l.
Proof.
  induction l as [|a|a b|a b c l IH] using triple_ind; intros H;
    unfold bytes in *; forall_cons.
  - reflexivity.
  - pose proof (b64_sextets a 0 0 ltac:(lia) ltac:(lia) ltac:(lia)) as Hs.
    pose proof (b64_join a 0 0 ltac:(lia) ltac:(lia) ltac:(lia)) as Hj. simpl.
    rewrite !b64_value_char by apply Hs. simpl. do 2 f_equal. apply Hj.
  - pose proof (b64_sextets a b 0 ltac:(lia) ltac:(lia) ltac:(lia)) as Hs.
    pose proof (b64_join a b 0 ltac:(lia) ltac:(lia) ltac:(lia)) as (_ & Ha & Hb & _). simpl.
    rewrite !b64_value_char by apply Hs. simpl. by rewrite Ha, Hb.
  - pose proof (b64_sextets a b c ltac:(lia) ltac:(lia) ltac:(lia)) as Hs.
    pose proof (b64_join a b c ltac:(lia) ltac:(lia) ltac:(lia)) as (_ & Ha & _ & Hb & Hc). simpl.
    rewrite !b64_value_char by apply Hs. simpl. rewrite IH by done. simpl.
    by rewrite Ha, Hb, Hc.
Qed.

(** Padding is removed exactly. *)
Lemma strip_padding_core core k :
  Forall (λ c, c ≠ pad) core → k ≤ 2 → Nat.modulo (length (core ++ replicate k pad)) 4 = 0 →
  strip_padding (core ++ replicate k pad) = core.
Proof.
  intros Hc Hk Hm. unfold strip_padding. rewrite Hm. simpl.
  apply Forall_reverse in Hc. rewrite <- (reverse_involutive core) in Hm |- *.
  revert Hc Hm. generalize (reverse core). intros rc Hc Hm.
  rewrite reverse_app, reverse_replicate, reverse_involutive.
  destruct k as [|[|[|k]]]; [| | |lia]; simpl.
  - rewrite app_nil_r. destruct rc as [|c [|d rc]]; try done.
    apply Forall_cons in Hc as [Hc _]. by rewrite (proj2 (N.eqb_neq c pad)).
  - destruct rc as [|d rc]; [done|].
    apply Forall_cons in Hc as [Hd _]. by rewrite (proj2 (N.eqb_neq d pad)).
  - done.
Qed.

Lemma atob_btoa s e : btoa s = Some e → atob e = Some s.
Proof.
  unfold btoa, atob. destruct (forallb _ s) eqn:Hb; [|done]. intros H; simplify_eq.
  assert (bytes s) as Hs.
  { apply Forall_forall. intros x Hx. rewrite forallb_forall in Hb.
    apply N.ltb_lt, Hb. by apply list_elem_of_In. }
  pose proof (b64_core_chars s Hs) as Hc.
  destruct (b64_encode_core s) as (k & He & Hk & Hm).
  rewrite js_filter_true.
  - rewrite He in Hm |- *. rewrite strip_padding_core; [by apply b64_decode_core| |done..].
    eapply Forall_impl; [exact Hc|]. by intros c [? ?].
  - rewrite He. intros c [Hx|Hx]%elem_of_app.
    + rewrite Forall_forall in Hc. destruct (Hc c Hx) as [-> _]. done.
    + apply elem_of_replicate in Hx as [-> _]. by vm_compute.
Qed.

Lemma OAuthState_json_number_free st : number_free (OAuthState_json st) = true.
Proof. destruct st as [u [n|]]; reflexivity. Qed.

Lemma json_escape_bytes s : bytes s → bytes (json_escape s).
Proof.
  unfold bytes. remember (length s) as n eqn:Hn. revert s Hn.
  induction n as [n IH] using lt_wf_ind. intros [|c s] Hn Hb; [apply Forall_nil_2|].
  apply Forall_cons in Hb as [Hc Hb]. rewrite json_escape_cons.
  assert (Forall (λ c, (c < 256)%N) (json_escape s)) as Hs
    by (apply (IH (length s)); simpl in *; [lia|done..]).
  assert (is_high_surrogate c = false ∧ is_low_surrogate c = false) as [Hhi Hlo].
  { unfold is_high_surrogate, is_low_surrogate.
    rewrite (proj2 (N.leb_gt 55296 c)), (proj2 (N.leb_gt 56320 c)) by lia. done. }
  rewrite Hhi, Hlo, orb_false_r. destruct (short_escape c) as [e|] eqn:Ee.
  - apply short_escape_spec in Ee as [_ He]. unfold unescape in He.
    repeat (apply Forall_cons_2; [lia || (split_match; bool_to_prop; subst; lia)|]). done.
  - destruct (c <? 32)%N; [|by apply Forall_cons_2].
    apply Forall_app_2; [|done]. unfold unicode_escape. apply Forall_app_2; [by (vm_compute; repeat constructor)|].
    unfold hex_digit. repeat (apply Forall_cons_2; [case_match; div_lia|]). apply Forall_nil_2.
Qed.

Lemma bytes_app s t : bytes s → bytes t → bytes (s ++ t).
Proof. apply Forall_app_2. Qed.

Lemma bytes_lit s : forallb (λ c, (c <? 256)%N) s = true → bytes s.
Proof.
  rewrite forallb_forall. intros H. apply Forall_forall. intros x Hx.
  apply N.ltb_lt, H. by apply list_elem_of_In.
Qed.

Lemma bytes_forallb s : bytes s → forallb (λ c, (c <? 256)%N) s = true.
Proof.
  intros H. apply forallb_forall. intros x Hx. apply N.ltb_lt.
  unfold bytes in H. rewrite Forall_forall in H. apply H. by apply list_elem_of_In.
Qed.

Lemma json_quote_bytes s : bytes s → bytes (json_quote s).
Proof.
  intros H. change (bytes ([quote_unit] ++ json_escape s ++ [quote_unit])).
  repeat apply bytes_app; [by apply bytes_lit|by apply json_escape_bytes|by apply bytes_lit].
Qed.

Lemma stringify_state_bytes st :
  bytes (os_redirectUri st) → (∀ n, os_nonce st = Some n → bytes n) →
  bytes (stringify (OAuthState_json st)).
Proof.
  intros Hu Hn. destruct st as [u [n|]]; cbn [os_redirectUri os_nonce] in *.
  - change (bytes (js "{" ++ ((json_quote (js "redirectUri") ++ js ":" ++ json_quote u)
      ++ js "," ++ (json_quote (js "nonce") ++ js ":" ++ json_quote n)) ++ js "}")).
    repeat apply bytes_app; first [by apply bytes_lit | by auto using json_quote_bytes].
  - change (bytes (js "{" ++ (json_quote (js "redirectUri") ++ js ":" ++ json_quote u) ++ js "}")).
    repeat apply bytes_app; first [by apply bytes_lit | by auto using json_quote_bytes].
Qed.

(** ** The round trip of the sign-in state *)

Lemma encoded_state_decodes st :
  bytes (os_redirectUri st) → (∀ n, os_nonce st = Some n → bytes n) →
  ∃ e, encodeOAuthState st = Some e ∧
       decodeOAuthState e = {| ds_redirectUri := os_redirectUri st;
                               ds_nonce := JString <$> os_nonce st |}.
Proof.
  intros Hu Hn. pose proof (stringify_state_bytes st Hu Hn) as Hb.
  exists (b64_encode (stringify (OAuthState_json st))).
  assert (encodeOAuthState st = Some (b64_encode (stringify (OAuthState_json st)))) as He.
  { unfold encodeOAuthState, btoa. by rewrite bytes_forallb. }
  split; [done|]. unfold decodeOAuthState. rewrite (atob_btoa _ _ He).
  rewrite (JSON_parse_stringify _ (OAuthState_json_number_free st)).
  by destruct st as [u [n|]].
Qed.

(** C26. For a redirect address and a nonce of Latin-1 characters, which every URL and UUID
    is, [encodeOAuthState] does not throw and [decodeOAuthState] gives both values back. *)
Theorem oauth_state_roundtrip st :
  bytes (os_redirectUri st) → (∀ n, os_nonce st = Some n → bytes n) →
  ∃ e, encodeOAuthState st = Some e ∧
       decodeOAuthState e = {| ds_redirectUri := os_redirectUri st;
                               ds_nonce := JString <$> os_nonce st |}.
Proof. apply encoded_state_decodes. Qed.

Definition example_state : OAuthState :=
  {| os_redirectUri := js "https://h/api/oauth/callback"; os_nonce := Some (js "n-1") |}.

Lemma oauth_state_roundtrip_witness :
  ∃ e, encodeOAuthState example_state = Some e ∧
       decodeOAuthState e = {| ds_redirectUri := os_redirectUri example_state;
                               ds_nonce := JString <$> os_nonce example_state |}.
Proof.
  apply (oauth_state_roundtrip example_state).
  - by apply bytes_lit.
  - intros n [= <-]. by apply bytes_lit.
Defined.
