(* ===== verification/Schema.v ===== *)
(** The [users] table of [drizzle/schema.ts] and the messages of the OAuth service
    ([server/_core/types/manusTypes.ts]), with the HTTP error class of [shared/_core/errors.ts]. *)
From S2P Require Import Prelude JsString JsNumber Json.

(** ** The users table *)

Inductive user_role := role_user | role_admin.

#[export] Instance user_role_eq_dec : EqDecision user_role.
Proof. solve_decision. Defined.

Definition user_role_text (r : user_role) : jsstr :=
  match r with role_user => js "user" | role_admin => js "admin" end.

(** One row of [users]; dates are milliseconds since the epoch. *)
Record User := {
  user_id : Z;
  user_openId : jsstr;
  user_name : option jsstr;
  user_email : option jsstr;
  user_loginMethod : option jsstr;
  user_role_ : user_role;
  user_createdAt : Z;
  user_updatedAt : Z;
  user_lastSignedIn : Z
}.

#[export] Instance User_eq_dec : EqDecision User.
Proof. solve_decision. Defined.

(** A property that may be absent ([undefined]), [null], or hold a value. *)
Inductive field (A : Type) := Undefined | Null | Value (a : A).
Arguments Undefined {A}.
Arguments Null {A}.
Arguments Value {A} a.

#[export] Instance field_eq_dec {A} `{EqDecision A} : EqDecision (field A).
Proof. solve_decision. Defined.

(** [v ?? null] and [v ?? w ?? null]. *)
Definition field_or_null {A} (f : field A) : field A :=
  match f with Value a => Value a | _ => Null end.
Definition field_or {A} (f g : field A) : field A :=
  match f with Value a => Value a | _ => g end.
(** [v || null] on a text field: the empty text is falsy. *)
Definition text_or_null (f : field jsstr) : field jsstr :=
  match f with Value s => if truthy s then Value s else Null | _ => Null end.
Definition field_option {A} (f : field A) : option A :=
  match f with Value a => Some a | _ => None end.

(** What a caller hands to an insert: only [openId] is required. *)
Record InsertUser := {
  ins_openId : jsstr;
  ins_name : field jsstr;
  ins_email : field jsstr;
  ins_loginMethod : field jsstr;
  ins_role : option user_role;
  ins_lastSignedIn : option Z
}.

#[export] Instance InsertUser_eq_dec : EqDecision InsertUser.
Proof. solve_decision. Defined.

(** The result of [sdk.authenticateRequest]: a row, or the user of a scheduled task. *)
Record AuthenticatedUser := {
  au_user : User;
  au_taskUid : option jsstr;
  au_isCron : bool
}.

#[export] Instance AuthenticatedUser_eq_dec : EqDecision AuthenticatedUser.
Proof. solve_decision. Defined.

Definition plain_user (u : User) : AuthenticatedUser :=
  {| au_user := u; au_taskUid := None; au_isCron := false |}.

(** ** Messages of the OAuth service *)

Record ExchangeTokenRequest := {
  etr_clientId : jsstr; etr_grantType : jsstr; etr_code : jsstr; etr_redirectUri : jsstr }.

Record ExchangeTokenResponse := { et_accessToken : jsstr }.

Record GetUserInfoWithJwtRequest := { gj_jwtToken : jsstr; gj_projectId : jsstr }.

(** [GetUserInfoResponse] and [GetUserInfoWithJwtResponse], the latter with [taskUid]; the
    service also sends [platforms], which the declared type leaves out. *)
Record UserInfo := {
  ui_openId : jsstr;
  ui_name : field jsstr;
  ui_email : field jsstr;
  ui_platform : field jsstr;
  ui_loginMethod : field jsstr;
  ui_platforms : option json;
  ui_taskUid : field jsstr
}.

(** ** HTTP errors *)

Record HttpError := { he_status : Z; he_message : jsstr }.

#[export] Instance HttpError_eq_dec : EqDecision HttpError.
Proof. solve_decision. Defined.

Definition BadRequestError (msg : jsstr) : HttpError := {| he_status := 400; he_message := msg |}.
Definition UnauthorizedError (msg : jsstr) : HttpError := {| he_status := 401; he_message := msg |}.
Definition ForbiddenError (msg : jsstr) : HttpError := {| he_status := 403; he_message := msg |}.
Definition NotFoundError (msg : jsstr) : HttpError := {| he_status := 404; he_message := msg |}.
