(* ===== verification/Trpc.v ===== *)
(** Roles and procedure middleware of [server/_core/trpc.ts], over an interface for the tRPC
    procedure builder and for the Zod input schemas. *)
From S2P Require Import Prelude JsString JsNumber Json Schema OAuthState.

(** ** Errors *)

Inductive trpc_code :=
| UNAUTHORIZED | FORBIDDEN | NOT_FOUND | BAD_REQUEST | CONFLICT | TOO_MANY_REQUESTS
| INTERNAL_SERVER_ERROR.

#[export] Instance trpc_code_eq_dec : EqDecision trpc_code.
Proof. solve_decision. Defined.

Record TRPCError := { te_code : trpc_code; te_message : jsstr }.

#[export] Instance TRPCError_eq_dec : EqDecision TRPCError.
Proof. solve_decision. Defined.

(** ** The libraries the routers are built with *)

(** The tRPC procedure builder, as its documentation describes a procedure
    [t.procedure.use(mw).input(schema).query/mutation(h)]: the middleware runs first, then the
    input is parsed, and the handler runs only when both succeed. The result type is left to
    the caller of the interface, so that handlers may change state or perform effects. *)
Class TrpcBuilder := {
  procedure_call {Ctx Ctx' Raw In Res : Type} :
    (TRPCError → Res) → (Ctx → result TRPCError Ctx') → (Raw → option In) →
    (Ctx' → In → Res) → Ctx → Raw → Res;
  call_denied {Ctx Ctx' Raw In Res : Type} fail (mw : Ctx → result TRPCError Ctx')
    (parse : Raw → option In) (h : Ctx' → In → Res) ctx raw e :
    mw ctx = Err e → procedure_call fail mw parse h ctx raw = fail e;
  call_invalid {Ctx Ctx' Raw In Res : Type} fail (mw : Ctx → result TRPCError Ctx')
    (parse : Raw → option In) (h : Ctx' → In → Res) ctx raw c :
    mw ctx = Ok c → parse raw = None →
    ∃ msg, procedure_call fail mw parse h ctx raw
           = fail {| te_code := BAD_REQUEST; te_message := msg |};
  call_ok {Ctx Ctx' Raw In Res : Type} fail (mw : Ctx → result TRPCError Ctx')
    (parse : Raw → option In) (h : Ctx' → In → Res) ctx raw c i :
    mw ctx = Ok c → parse raw = Some i → procedure_call fail mw parse h ctx raw = h c i
}.

(** A concrete builder, which shows that the interface can be met. *)
#[export] Instance reference_builder : TrpcBuilder.
Proof.
  refine {|
    procedure_call Ctx Ctx' Raw In Res fail mw parse h ctx raw :=
      match mw ctx with
      | Err e => fail e
      | Ok c => match parse raw with
                | Some i => h c i
                | None => fail {| te_code := BAD_REQUEST; te_message := [] |}
                end
      end
  |}; intros; repeat match goal with H : _ = _ |- _ => rewrite H; clear H end; eauto.
Defined.

(** A Zod object schema: [safeParse] turns what the caller sent into a typed input, or fails;
    what it returns meets the constraints that the schema spells out. *)
Class ZodInput (Raw In : Type) (schema : In → bool) := {
  safeParse : Raw → option In;
  safeParse_sound r i : safeParse r = Some i → schema i = true
}.
Arguments safeParse {Raw In} schema {_} r.
Arguments safeParse_sound {Raw In} schema {_} r i _.

(** Typed candidates filtered by the constraints: a concrete parser for any schema. *)
#[export] Instance filter_input {In} (schema : In → bool) : ZodInput In In schema.
Proof.
  refine {| safeParse i := if schema i then Some i else None |}.
  intros r i H. by destruct (schema r) eqn:E; simplify_eq.
Defined.

(** ** Context and roles *)

(** A query parameter: Express parses repeated and nested ones into arrays and objects. *)
Inductive QueryValue := qv_string (s : jsstr) | qv_other.

(** The part of the Express request and the user that procedures look at. *)
Record Request := {
  req_protocol : jsstr;
  req_cookie : option jsstr;
  req_authorization : option jsstr;
  req_forwarded_proto : option (jsstr + list jsstr);
  req_query : list (jsstr * QueryValue)
}.

Record TrpcContext := { ctx_req : Request; ctx_user : option AuthenticatedUser }.

Inductive NodeScopeRole := viewer | operator | administrator.

#[export] Instance NodeScopeRole_eq_dec : EqDecision NodeScopeRole.
Proof. solve_decision. Defined.

Definition role_text (r : NodeScopeRole) : jsstr :=
  match r with
  | viewer => js "viewer" | operator => js "operator" | administrator => js "administrator"
  end.

(** The parameter is [string | null | undefined]; the last two are [None]. *)
Definition nodeScopeRoleForTemplateUser (role : option jsstr) : NodeScopeRole :=
  match role with
  | Some r => if str_eqb r (js "admin") then administrator else viewer
  | None => viewer
  end.

Definition roleRank (r : NodeScopeRole) : Z :=
  match r with viewer => 1 | operator => 2 | administrator => 3 end.

(** What a middleware adds to the context: the user is known, and possibly its role. *)
Record UserContext := {
  uc_ctx : TrpcContext;
  uc_user : AuthenticatedUser;
  uc_role : option NodeScopeRole
}.

Definition requireUser (ctx : TrpcContext) : result TRPCError UserContext :=
  match ctx_user ctx with
  | None => Err {| te_code := UNAUTHORIZED; te_message := UNAUTHED_ERR_MSG |}
  | Some u => Ok {| uc_ctx := ctx; uc_user := u; uc_role := None |}
  end.

Definition requireNodeScopeRole (minimumRole : NodeScopeRole) (ctx : TrpcContext)
    : result TRPCError UserContext :=
  match ctx_user ctx with
  | None => Err {| te_code := UNAUTHORIZED; te_message := UNAUTHED_ERR_MSG |}
  | Some u =>
      let actualRole := nodeScopeRoleForTemplateUser
                          (Some (user_role_text (user_role_ (au_user u)))) in
      if (roleRank actualRole <? roleRank minimumRole)%Z then
        Err {| te_code := FORBIDDEN;
               te_message := js "NodeScope " ++ role_text minimumRole ++ js " role is required" |}
      else Ok {| uc_ctx := ctx; uc_user := u; uc_role := Some actualRole |}
  end.

(** The middleware of each exported procedure kind. *)
Definition publicProcedure (ctx : TrpcContext) : result TRPCError TrpcContext := Ok ctx.
Definition protectedProcedure : TrpcContext → result TRPCError UserContext := requireUser.
Definition viewerProcedure : TrpcContext → result TRPCError UserContext :=
  requireNodeScopeRole viewer.
Definition operatorProcedure : TrpcContext → result TRPCError UserContext :=
  requireNodeScopeRole operator.
Definition administratorProcedure : TrpcContext → result TRPCError UserContext :=
  requireNodeScopeRole administrator.
Definition adminProcedure : TrpcContext → result TRPCError UserContext := administratorProcedure.

(** ** Lemmas *)

(** The role a context carries, if somebody is signed in. *)
Definition context_role (ctx : TrpcContext) : option NodeScopeRole :=
  (λ u, nodeScopeRoleForTemplateUser (Some (user_role_text (user_role_ (au_user u)))))
    <$> ctx_user ctx.

Lemma requireNodeScopeRole_ok m ctx c :
  requireNodeScopeRole m ctx = Ok c →
  ctx_user ctx = Some (uc_user c) ∧ uc_role c = context_role ctx
  ∧ ∃ r, context_role ctx = Some r ∧ (roleRank m ≤ roleRank r)%Z.
Proof.
  unfold requireNodeScopeRole, context_role. destruct (ctx_user ctx) as [u|]; [|done].
  case_match eqn:E; intros; simplify_eq/=. bool_to_prop. split; [done|]. split; [done|]. eauto.
Qed.

Lemma requireNodeScopeRole_err m ctx e :
  requireNodeScopeRole m ctx = Err e →
  (ctx_user ctx = None ∧ te_code e = UNAUTHORIZED)
  ∨ (te_code e = FORBIDDEN ∧ ∃ r, context_role ctx = Some r ∧ (roleRank r < roleRank m)%Z).
Proof.
  unfold requireNodeScopeRole, context_role. destruct (ctx_user ctx) as [u|].
  - case_match eqn:E; intros; simplify_eq/=. bool_to_prop. right. eauto.
  - intros; simplify_eq/=. by left.
Qed.

(** The three outcomes of a procedure call, for clients of the interface. *)
Lemma procedure_cases `{TrpcBuilder} {Ctx Ctx' Raw In Res} fail (mw : Ctx → result TRPCError Ctx')
    (parse : Raw → option In) (h : Ctx' → In → Res) ctx raw :
  (∃ e, mw ctx = Err e ∧ procedure_call fail mw parse h ctx raw = fail e)
  ∨ (∃ c msg, mw ctx = Ok c ∧ parse raw = None
      ∧ procedure_call fail mw parse h ctx raw
        = fail {| te_code := BAD_REQUEST; te_message := msg |})
  ∨ (∃ c i, mw ctx = Ok c ∧ parse raw = Some i ∧ procedure_call fail mw parse h ctx raw = h c i).
Proof.
  destruct (mw ctx) as [c|e] eqn:Em; [right|left; eauto using call_denied].
  destruct (parse raw) as [i|] eqn:Ep.
  - right. eauto 6 using call_ok.
  - left. destruct (call_invalid fail mw parse h ctx raw c Em Ep) as [msg Hm]. eauto 6.
Qed.
