(* ===== verification/Fixtures.v ===== *)
(** The fleet snapshot of [server/nodescope/fixtures.ts]: its types, the metric constructor, the
    generated history and the two hosts of the development fixture. *)
From S2P Require Import Prelude JsString JsNumber.

(** ** [Date.prototype.toISOString] *)

(** Year, month and day of a day number counted from 1970-01-01 (proleptic Gregorian). *)
Definition civil_of_days (z0 : Z) : Z * Z * Z :=
  let z := (z0 + 719468)%Z in
  let era := (z / 146097)%Z in
  let doe := (z mod 146097)%Z in
  let yoe := ((doe - doe / 1460 + doe / 36524 - doe / 146096) / 365)%Z in
  let doy := (doe - (365 * yoe + yoe / 4 - yoe / 100))%Z in
  let mp := ((5 * doy + 2) / 153)%Z in
  let d := (doy - (153 * mp + 2) / 5 + 1)%Z in
  let m := if (mp <? 10)%Z then (mp + 3)%Z else (mp - 9)%Z in
  (yoe + era * 400 + (if (m <=? 2)%Z then 1 else 0), m, d)%Z.

(** A non-negative integer with at least [n] digits. *)
Definition padded (n : nat) (z : Z) : jsstr :=
  let t := js_of_Z z in replicate (n - length t) 48%N ++ t.

(** Years outside 0..9999 are written with a sign and six digits. *)
Definition iso_year (y : Z) : jsstr :=
  if ((0 <=? y) && (y <=? 9999))%Z%bool then padded 4 y
  else (if (y <? 0)%Z then js "-" else js "+") ++ padded 6 (Z.abs y).

(** The text of a time value (the RangeError outside of 8.64e15 milliseconds concerns no value
    a clock returns). *)
Definition toISOString (t : Z) : jsstr :=
  let '(y, m, d) := civil_of_days (t / 86400000) in
  let ms := (t mod 86400000)%Z in
  iso_year y ++ js "-" ++ padded 2 m ++ js "-" ++ padded 2 d ++ js "T"
  ++ padded 2 (ms / 3600000) ++ js ":" ++ padded 2 (ms / 60000 mod 60) ++ js ":"
  ++ padded 2 (ms / 1000 mod 60) ++ js "." ++ padded 3 (ms mod 1000) ++ js "Z".

(** ** Types *)

Inductive Quality := fresh | stale | unavailable | unsupported | estimated | experimental.
Inductive Trend := up | down | steady.
Inductive HostRole := preferred | secondary.
Inductive Status := healthy | degraded | status_unavailable.
Inductive FreshnessState := fs_fresh | fs_stale | fs_unavailable.
Inductive MountState := mounted | read_only | missing | learning.
Inductive ContainerState := running | exited | restarting.
Inductive RuntimeKind := vllm | llama_cpp | lmstudio | agentzero | other_runtime.
Inductive RuntimeState := approved | discovered | runtime_unavailable.
Inductive CapabilityState := cap_available | cap_missing | cap_degraded.
Inductive Severity := critical | warning | info.
Inductive AlertState := active | acknowledged | resolved.

#[export] Instance Quality_eq_dec : EqDecision Quality.
Proof. solve_decision. Defined.
#[export] Instance Trend_eq_dec : EqDecision Trend.
Proof. solve_decision. Defined.
#[export] Instance HostRole_eq_dec : EqDecision HostRole.
Proof. solve_decision. Defined.
#[export] Instance Status_eq_dec : EqDecision Status.
Proof. solve_decision. Defined.
#[export] Instance FreshnessState_eq_dec : EqDecision FreshnessState.
Proof. solve_decision. Defined.
#[export] Instance MountState_eq_dec : EqDecision MountState.
Proof. solve_decision. Defined.
#[export] Instance RuntimeKind_eq_dec : EqDecision RuntimeKind.
Proof. solve_decision. Defined.
#[export] Instance RuntimeState_eq_dec : EqDecision RuntimeState.
Proof. solve_decision. Defined.
#[export] Instance Severity_eq_dec : EqDecision Severity.
Proof. solve_decision. Defined.
#[export] Instance AlertState_eq_dec : EqDecision AlertState.
Proof. solve_decision. Defined.

Record Metric := {
  m_id : jsstr; m_label : jsstr; m_value : option number; m_display : jsstr; m_unit : jsstr;
  m_quality : Quality; m_source : jsstr; m_semantics : jsstr; m_observedAt : Z;
  m_trend : option Trend
}.

Record Freshness := { f_state : FreshnessState; f_ageSeconds : Z; f_observedAt : Z }.

Record StorageEntry := {
  st_id : jsstr; st_mount : jsstr; st_usage : option number; st_used : jsstr; st_total : jsstr;
  st_state : MountState; st_quality : Quality; st_source : jsstr
}.

Record ProcessEntry := {
  p_name : jsstr; p_status : Status; p_pid : jsstr; p_uptime : jsstr; p_selected : bool }.

Record ContainerEntry := {
  c_name : jsstr; c_image : jsstr; c_state : ContainerState; c_selected : bool; c_age : jsstr }.

Record RuntimeEntry := {
  r_kind : RuntimeKind; r_endpoint : jsstr; r_state : RuntimeState; r_health : Status }.

Record ClientUsage := {
  cu_client : jsstr; cu_requests : Z; cu_promptTokens : Z; cu_outputTokens : Z; cu_ttft : jsstr }.

Record Inference := {
  i_requestRate : Metric; i_ttft : Metric; i_promptThroughput : Metric;
  i_generationThroughput : Metric; i_activeRequests : Metric; i_clientUsage : list ClientUsage
}.

Record PreflightEntry := {
  pf_capability : jsstr; pf_state : CapabilityState; pf_detail : jsstr;
  pf_installHint : option jsstr }.

Record HistoryPoint := {
  h_timestamp : jsstr; h_cpu : number; h_memory : number; h_temperature : number;
  h_throughput : number }.

Record HostSnapshot := {
  host_id : jsstr; host_name : jsstr; host_hostname : jsstr; host_platform : jsstr;
  host_architecture : jsstr; host_role : HostRole; host_freshness : Freshness;
  host_status : Status; host_tags : list jsstr; host_quickMetrics : list Metric;
  host_hardware : list Metric; host_memory : list Metric; host_storage : list StorageEntry;
  host_processes : list ProcessEntry; host_containers : list ContainerEntry;
  host_runtimes : list RuntimeEntry; host_inference : Inference;
  host_preflight : list PreflightEntry; host_history : list HistoryPoint
}.

Record Alert := {
  a_id : jsstr; a_severity : Severity; a_state : AlertState; a_hostId : jsstr; a_title : jsstr;
  a_detail : jsstr; a_observedAt : Z }.

Record Replica := {
  rp_id : jsstr; rp_hostId : jsstr; rp_role : HostRole; rp_status : Status; rp_version : jsstr;
  rp_certificateDaysRemaining : Z; rp_backupFreshness : FreshnessState;
  rp_sharedBackupMount : MountState; rp_observedAt : Z }.

(** [hostOverrides] is a plain object from host identifiers to seconds. *)
Record FleetSnapshot := {
  fl_generatedAt : Z; fl_developmentPreview : bool; fl_activeAlertCount : Z;
  fl_hosts : list HostSnapshot; fl_alerts : list Alert; fl_replicas : list Replica;
  fl_globalIntervalSeconds : Z; fl_hostOverrides : gmap jsstr Z
}.

(** ** Constructors *)

Definition metric (id label : jsstr) (value : option number) (display unit : jsstr)
    (quality : Quality) (source semantics : jsstr) (observedAt : Z) (trend : option Trend)
    : Metric :=
  {| m_id := id; m_label := label; m_value := value; m_display := display; m_unit := unit;
     m_quality := quality; m_source := source; m_semantics := semantics;
     m_observedAt := observedAt; m_trend := trend |}.

(** [Math.sin] and [Math.cos] are implementation-approximated in ECMA-262: any function of
    numbers is admitted. *)
Class JsMath := { math_sin : number → number; math_cos : number → number }.

(** The first terms of the series: a concrete choice. *)
#[export] Instance taylor_math : JsMath := {|
  math_sin x := nsub x (ndiv (nmul x (nmul x x)) (num_of_Z 6));
  math_cos x := nsub (num_of_Z 1) (ndiv (nmul x x) (num_of_Z 2))
|}.

Section Snapshot.
Context `{JsMath}.

(** One of the 24 points of the history: five minutes apart, the last one at [now]. *)
Definition history_point (seed : number) (now : Z) (index : nat) : HistoryPoint :=
  let i := num_of_Z (Z.of_nat index) in
  let phase := nadd (ndiv i (num_of_Z 3)) seed in
  {| h_timestamp := toISOString (now - (23 - Z.of_nat index) * 5 * 60000);
     h_cpu := math_round (nadd (nadd (num_of_Z 34) (nmul (math_sin phase) (num_of_Z 13)))
                               (nmul (num_of_Z (Z.of_nat index mod 4)) (num_of_Z 2)));
     h_memory := math_round (nadd (num_of_Z 48)
                                  (nmul (math_cos (nmul phase (dec 75 2))) (num_of_Z 8)));
     h_temperature := math_round (nadd (num_of_Z 51)
                                       (nmul (math_sin (nmul phase (dec 5 1))) (num_of_Z 5)));
     h_throughput := math_round (math_max zero
                       (nadd (num_of_Z 21) (nmul (math_cos (nmul phase (dec 8 1))) (num_of_Z 10)))) |}.

Definition makeHistory (seed : number) (now : Z) : list HistoryPoint :=
  history_point seed now <$> seq 0 24.

(** The fixture host [framework]; [now] and [frameworkObserved] are the dates of [buildFleetSnapshot]. *)
Definition framework (now frameworkObserved : Z) : HostSnapshot := {|
  host_id := js "framework"; host_name := js "Framework"; host_hostname := js "framework";
  host_platform := js "Fedora 43 · Ryzen AI Max+ 395"; host_architecture := js "linux/amd64"; host_role := preferred;
  host_freshness := {| f_state := fs_fresh; f_ageSeconds := 3; f_observedAt := frameworkObserved |};
  host_status := healthy;
  host_tags := [ js "Primary replica"; js "AMD GPU"; js "XDNA NPU"; js "Docker" ];
  host_quickMetrics := [
      metric (js "cpu") (js "CPU") (Some (num_of_Z 47)) (js "47%") (js "percent") fresh (js "procfs") (js "aggregate host CPU utilization") frameworkObserved (Some up);
      metric (js "ram") (js "RAM") (Some (num_of_Z 52)) (js "51.6 GB / 96 GB") (js "bytes") fresh (js "/proc/meminfo") (js "host OS memory utilization") frameworkObserved (Some steady);
      metric (js "gpu") (js "Radeon 8060S") (Some (num_of_Z 61)) (js "61%") (js "percent") experimental (js "AMD SMI") (js "unqualified Fedora GPU utilization evidence") frameworkObserved (Some up);
      metric (js "npu") (js "XDNA NPU") (Some (num_of_Z 1)) (js "Ready") (js "state") experimental (js "xrt-smi") (js "unqualified Fedora NPU readiness evidence") frameworkObserved (Some steady);
      metric (js "temp") (js "Package temp") (Some (num_of_Z 68)) (js "68°C") (js "celsius") fresh (js "lm-sensors") (js "CPU package temperature") frameworkObserved (Some up);
      metric (js "storage") (js "Primary storage") (Some (num_of_Z 42)) (js "1.62 TB free") (js "bytes") fresh (js "statfs") (js "root filesystem free capacity") frameworkObserved (Some steady) ];
  host_hardware := [
      metric (js "cpu-util") (js "CPU utilization") (Some (num_of_Z 47)) (js "47%") (js "percent") fresh (js "procfs") (js "aggregate host CPU utilization") frameworkObserved None;
      metric (js "cpu-temp") (js "CPU package temperature") (Some (num_of_Z 68)) (js "68°C") (js "celsius") fresh (js "lm-sensors") (js "physical package sensor") frameworkObserved None;
      metric (js "gpu-util") (js "Radeon GPU utilization") (Some (num_of_Z 61)) (js "61%") (js "percent") experimental (js "AMD SMI") (js "unqualified Fedora GPU engine evidence") frameworkObserved None;
      metric (js "gpu-temp") (js "Radeon edge temperature") (Some (num_of_Z 64)) (js "64°C") (js "celsius") experimental (js "AMD SMI") (js "unqualified Fedora GPU sensor evidence") frameworkObserved None;
      metric (js "npu-ready") (js "XDNA readiness") (Some (num_of_Z 1)) (js "Ready") (js "state") experimental (js "xrt-smi") (js "unqualified Fedora NPU runtime evidence") frameworkObserved None;
      metric (js "npu-throughput") (js "NPU throughput") (None) (js "Unavailable") (js "ops/s") unavailable (js "xrt-smi") (js "not exposed by current runtime") frameworkObserved None;
      metric (js "agent-clock-offset") (js "Agent clock offset") (Some (dec 13 1)) (js "+1.3 s") (js "seconds") fresh (js "nodescope-server") (js "server receipt time minus agent observation time; stale when absolute offset exceeds 60 seconds") frameworkObserved None ];
  host_memory := [
      metric (js "ram-avail") (js "MemAvailable") (Some (dec 464 1)) (js "46.4 GB") (js "gigabytes") fresh (js "/proc/meminfo") (js "OS-reclaimable host memory") frameworkObserved None;
      metric (js "swap-free") (js "SwapFree") (Some (dec 159 1)) (js "15.9 GB") (js "gigabytes") fresh (js "/proc/meminfo") (js "free swap capacity") frameworkObserved None;
      metric (js "gpu-memory") (js "GPU memory used") (Some (dec 182 1)) (js "18.2 GB") (js "gigabytes") fresh (js "AMD SMI") (js "GPU-reported memory usage") frameworkObserved None ];
  host_storage := [
      {| st_id := js "root"; st_mount := js "/"; st_usage := Some (num_of_Z 58); st_used := js "2.23 TB"; st_total := js "3.85 TB"; st_state := mounted; st_quality := fresh; st_source := js "statfs" |};
      {| st_id := js "models"; st_mount := js "/mnt/models"; st_usage := Some (num_of_Z 71); st_used := js "5.67 TB"; st_total := js "8 TB"; st_state := mounted; st_quality := fresh; st_source := js "statfs" |};
      {| st_id := js "docker"; st_mount := js "docker:node_scope_data"; st_usage := None; st_used := js "Learning"; st_total := js "—"; st_state := learning; st_quality := estimated; st_source := js "Docker API" |} ];
  host_processes := [
      {| p_name := js "AgentZero"; p_status := healthy; p_pid := js "8412"; p_uptime := js "3d 12h"; p_selected := true |};
      {| p_name := js "kodex-ocr"; p_status := healthy; p_pid := js "9107"; p_uptime := js "18h 32m"; p_selected := true |};
      {| p_name := js "nodescope-agent"; p_status := healthy; p_pid := js "1219"; p_uptime := js "5d 4h"; p_selected := true |} ];
  host_containers := [
      {| c_name := js "supabase-db"; c_image := js "supabase/postgres"; c_state := running; c_selected := true; c_age := js "12d" |};
      {| c_name := js "agent-zero"; c_image := js "agent0ai/agent-zero:2.5"; c_state := running; c_selected := true; c_age := js "3d" |};
      {| c_name := js "portainer"; c_image := js "portainer/portainer-ce"; c_state := running; c_selected := false; c_age := js "42d" |};
      {| c_name := js "kodex"; c_image := js "local/kodex-ocr"; c_state := running; c_selected := true; c_age := js "18h" |} ];
  host_runtimes := [
      {| r_kind := vllm; r_endpoint := js "http://framework:8000/v1"; r_state := approved; r_health := healthy |};
      {| r_kind := llama_cpp; r_endpoint := js "http://framework:8080"; r_state := discovered; r_health := healthy |};
      {| r_kind := agentzero; r_endpoint := js "http://framework:50001"; r_state := approved; r_health := healthy |} ];
  host_inference := {|
    i_requestRate := metric (js "requests") (js "Requests") (Some (dec 48 1)) (js "4.8 req/min") (js "req/min") fresh (js "NodeScope proxy") (js "accepted proxy requests") frameworkObserved (Some up);
    i_ttft := metric (js "ttft") (js "P95 TTFT") (Some (num_of_Z 482)) (js "482 ms") (js "milliseconds") fresh (js "NodeScope proxy") (js "end-to-end first token latency") frameworkObserved (Some down);
    i_promptThroughput := metric (js "prompt-rate") (js "Prompt processing") (Some (num_of_Z 1180)) (js "1,180 tok/s") (js "tok/s") fresh (js "vLLM metrics") (js "engine prompt token throughput") frameworkObserved (Some up);
    i_generationThroughput := metric (js "generation-rate") (js "Generation") (Some (num_of_Z 86)) (js "86 tok/s") (js "tok/s") fresh (js "NodeScope proxy") (js "output token throughput") frameworkObserved (Some steady);
    i_activeRequests := metric (js "active") (js "Active requests") (Some (num_of_Z 2)) (js "2") (js "requests") fresh (js "vLLM metrics") (js "active engine requests") frameworkObserved None;
    i_clientUsage := [
      {| cu_client := js "AgentZero"; cu_requests := 38; cu_promptTokens := 148220; cu_outputTokens := 18433; cu_ttft := js "468 ms" |};
      {| cu_client := js "Kodex"; cu_requests := 12; cu_promptTokens := 42098; cu_outputTokens := 5307; cu_ttft := js "512 ms" |} ] |};
  host_preflight := [
      {| pf_capability := js "AMD SMI"; pf_state := cap_available; pf_detail := js "GPU utilization, temperature, process and memory collectors enabled."; pf_installHint := None |};
      {| pf_capability := js "XDNA runtime"; pf_state := cap_available; pf_detail := js "xrt-smi readiness and active-context collector enabled."; pf_installHint := None |};
      {| pf_capability := js "Docker socket"; pf_state := cap_available; pf_detail := js "Container inventory and selected-container health enabled."; pf_installHint := None |};
      {| pf_capability := js "vLLM metrics"; pf_state := cap_available; pf_detail := js "Native metrics endpoint discovered at approved runtime."; pf_installHint := None |} ];
  host_history := makeHistory (num_of_Z 1) now
|}.

(** The fixture host [asus]; [now] and [asusObserved] are the dates of [buildFleetSnapshot]. *)
Definition asus (now asusObserved : Z) : HostSnapshot := {|
  host_id := js "asus"; host_name := js "Asus"; host_hostname := js "asus";
  host_platform := js "DGX OS · ASUS Ascent GX10"; host_architecture := js "linux/arm64"; host_role := secondary;
  host_freshness := {| f_state := fs_fresh; f_ageSeconds := 7; f_observedAt := asusObserved |};
  host_status := degraded;
  host_tags := [ js "Secondary replica"; js "GB10 UMA"; js "ConnectX-7"; js "Docker" ];
  host_quickMetrics := [
      metric (js "cpu") (js "CPU") (Some (num_of_Z 33)) (js "33%") (js "percent") fresh (js "procfs") (js "aggregate host CPU utilization") asusObserved (Some down);
      metric (js "uma") (js "Unified memory") (Some (num_of_Z 54)) (js "69.2 GB / 128 GB") (js "bytes") fresh (js "/proc/meminfo") (js "OS memory utilization under UMA") asusObserved (Some steady);
      metric (js "gpu") (js "Blackwell GPU") (Some (num_of_Z 72)) (js "72%") (js "percent") fresh (js "nvidia-smi") (js "GPU engine utilization") asusObserved (Some up);
      metric (js "npu") (js "NPU") (None) (js "Unsupported") (js "state") unsupported (js "platform inventory") (js "No NPU collector exposed by this platform") asusObserved None;
      metric (js "temp") (js "SoC temperature") (Some (num_of_Z 71)) (js "71°C") (js "celsius") fresh (js "nvidia-smi") (js "platform thermal sensor") asusObserved (Some up);
      metric (js "storage") (js "Primary storage") (Some (num_of_Z 36)) (js "4.1 TB free") (js "bytes") fresh (js "statfs") (js "root filesystem free capacity") asusObserved (Some steady) ];
  host_hardware := [
      metric (js "cpu-util") (js "CPU utilization") (Some (num_of_Z 33)) (js "33%") (js "percent") fresh (js "procfs") (js "aggregate Arm CPU utilization") asusObserved None;
      metric (js "soc-temp") (js "SoC temperature") (Some (num_of_Z 71)) (js "71°C") (js "celsius") fresh (js "nvidia-smi") (js "platform thermal sensor") asusObserved None;
      metric (js "gpu-util") (js "Blackwell GPU utilization") (Some (num_of_Z 72)) (js "72%") (js "percent") fresh (js "nvidia-smi") (js "GPU engine utilization") asusObserved None;
      metric (js "connectx") (js "ConnectX-7") (Some (num_of_Z 1)) (js "Detected") (js "state") fresh (js "lspci") (js "inventory-only device detection") asusObserved None;
      metric (js "dcgm") (js "DCGM metrics") (None) (js "Unsupported") (js "state") unsupported (js "capability probe") (js "No hard DCGM dependency on GX10") asusObserved None;
      metric (js "agent-clock-offset") (js "Agent clock offset") (Some (dec (-742) 1)) (js "−74.2 s") (js "seconds") stale (js "nodescope-server") (js "server receipt time minus agent observation time; stale when absolute offset exceeds 60 seconds") asusObserved None ];
  host_memory := [
      metric (js "uma-os") (js "OS MemAvailable") (Some (dec 527 1)) (js "52.7 GB") (js "gigabytes") fresh (js "/proc/meminfo") (js "OS-reclaimable host memory under unified memory") asusObserved None;
      metric (js "uma-swap") (js "SwapFree") (Some (dec 318 1)) (js "31.8 GB") (js "gigabytes") fresh (js "/proc/meminfo") (js "free swap capacity under unified memory") asusObserved None;
      metric (js "uma-hugepages") (js "Huge-page state") (Some (num_of_Z 6)) (js "6.0 GB reserved") (js "gigabytes") fresh (js "/proc/meminfo") (js "huge-page reservation") asusObserved None;
      metric (js "uma-runtime") (js "CUDA allocatable") (Some (dec 462 1)) (js "46.2 GB") (js "gigabytes") estimated (js "cudaMemGetInfo") (js "runtime-visible allocation estimate; not total reclaimable UMA") asusObserved None;
      metric (js "uma-process") (js "vLLM process GPU memory") (Some (dec 314 1)) (js "31.4 GB") (js "gigabytes") fresh (js "nvidia-smi process query") (js "per-process GPU memory where exposed") asusObserved None;
      metric (js "vram") (js "Dedicated VRAM free") (None) (js "Unavailable") (js "gigabytes") unsupported (js "nvidia-smi") (js "GX10 has unified memory; this field is not synthesized") asusObserved None ];
  host_storage := [
      {| st_id := js "root"; st_mount := js "/"; st_usage := Some (num_of_Z 64); st_used := js "1.28 TB"; st_total := js "2 TB"; st_state := mounted; st_quality := fresh; st_source := js "statfs" |};
      {| st_id := js "models"; st_mount := js "/mnt/models"; st_usage := Some (num_of_Z 49); st_used := js "3.92 TB"; st_total := js "8 TB"; st_state := mounted; st_quality := fresh; st_source := js "statfs" |};
      {| st_id := js "backup"; st_mount := js "/mnt/nodescope-backups"; st_usage := None; st_used := js "Unavailable"; st_total := js "—"; st_state := missing; st_quality := unavailable; st_source := js "mountinfo" |} ];
  host_processes := [
      {| p_name := js "nodescope-agent"; p_status := healthy; p_pid := js "987"; p_uptime := js "5d 4h"; p_selected := true |};
      {| p_name := js "nvidia-persistenced"; p_status := healthy; p_pid := js "612"; p_uptime := js "5d 4h"; p_selected := false |};
      {| p_name := js "vllm"; p_status := degraded; p_pid := js "7251"; p_uptime := js "1d 7h"; p_selected := true |} ];
  host_containers := [
      {| c_name := js "vllm-qwen"; c_image := js "vllm/vllm-openai"; c_state := running; c_selected := true; c_age := js "1d" |};
      {| c_name := js "portainer"; c_image := js "portainer/portainer-ce"; c_state := running; c_selected := false; c_age := js "42d" |};
      {| c_name := js "nodescope-server"; c_image := js "ghcr.io/pakgrou-porg/nodescope"; c_state := running; c_selected := true; c_age := js "5d" |} ];
  host_runtimes := [
      {| r_kind := vllm; r_endpoint := js "http://asus:8000/v1"; r_state := approved; r_health := degraded |};
      {| r_kind := llama_cpp; r_endpoint := js "http://asus:8080"; r_state := discovered; r_health := status_unavailable |} ];
  host_inference := {|
    i_requestRate := metric (js "requests") (js "Requests") (Some (dec 31 1)) (js "3.1 req/min") (js "req/min") fresh (js "NodeScope proxy") (js "accepted proxy requests") asusObserved (Some steady);
    i_ttft := metric (js "ttft") (js "P95 TTFT") (Some (num_of_Z 861)) (js "861 ms") (js "milliseconds") fresh (js "NodeScope proxy") (js "end-to-end first token latency") asusObserved (Some up);
    i_promptThroughput := metric (js "prompt-rate") (js "Prompt processing") (Some (num_of_Z 892)) (js "892 tok/s") (js "tok/s") fresh (js "vLLM metrics") (js "engine prompt token throughput") asusObserved (Some down);
    i_generationThroughput := metric (js "generation-rate") (js "Generation") (Some (num_of_Z 64)) (js "64 tok/s") (js "tok/s") fresh (js "NodeScope proxy") (js "output token throughput") asusObserved (Some down);
    i_activeRequests := metric (js "active") (js "Active requests") (Some (num_of_Z 1)) (js "1") (js "requests") fresh (js "vLLM metrics") (js "active engine requests") asusObserved None;
    i_clientUsage := [
      {| cu_client := js "AgentZero"; cu_requests := 17; cu_promptTokens := 63009; cu_outputTokens := 8084; cu_ttft := js "844 ms" |};
      {| cu_client := js "CLI benchmark"; cu_requests := 5; cu_promptTokens := 9604; cu_outputTokens := 2109; cu_ttft := js "921 ms" |} ] |};
  host_preflight := [
      {| pf_capability := js "nvidia-smi"; pf_state := cap_available; pf_detail := js "GPU utilization and process-memory collector enabled; dedicated framebuffer fields remain capability-gated."; pf_installHint := None |};
      {| pf_capability := js "DGX UMA semantics"; pf_state := cap_available; pf_detail := js "OS, runtime, huge-page, and process views are kept distinct."; pf_installHint := None |};
      {| pf_capability := js "ConnectX-7 inventory"; pf_state := cap_available; pf_detail := js "PCI and link-state inventory enabled; RDMA performance is deferred."; pf_installHint := None |};
      {| pf_capability := js "Shared backup mount"; pf_state := cap_missing; pf_detail := js "Secondary backup takeover cannot run until the shared target is mounted."; pf_installHint := Some (js "Mount the designated backup target at /mnt/nodescope-backups.") |} ];
  host_history := makeHistory (dec 25 1) now
|}.

Definition fixture_alerts (asusObserved : Z) : list Alert := [
      {| a_id := js "alert-backup-mount"; a_severity := warning; a_state := active; a_hostId := js "asus"; a_title := js "Shared backup mount unavailable"; a_detail := js "Asus cannot participate in backup takeover until /mnt/nodescope-backups is mounted and writable."; a_observedAt := asusObserved |};
      {| a_id := js "alert-vllm-ttft"; a_severity := warning; a_state := active; a_hostId := js "asus"; a_title := js "vLLM P95 TTFT above preferred threshold"; a_detail := js "P95 first-token latency is 861 ms for the approved vLLM route."; a_observedAt := asusObserved |} ].

Definition fixture_replicas (frameworkObserved asusObserved : Z) : list Replica := [
      {| rp_id := js "replica-framework"; rp_hostId := js "framework"; rp_role := preferred; rp_status := healthy; rp_version := js "0.1.0-dev"; rp_certificateDaysRemaining := 86; rp_backupFreshness := fs_fresh; rp_sharedBackupMount := mounted; rp_observedAt := frameworkObserved |};
      {| rp_id := js "replica-asus"; rp_hostId := js "asus"; rp_role := secondary; rp_status := degraded; rp_version := js "0.1.0-dev"; rp_certificateDaysRemaining := 86; rp_backupFreshness := fs_stale; rp_sharedBackupMount := missing; rp_observedAt := asusObserved |} ].

(** [buildFleetSnapshot]: [now] is the [new Date()] it starts with. *)
Definition buildFleetSnapshot (now : Z) : FleetSnapshot :=
  let frameworkObserved := (now - 3000)%Z in
  let asusObserved := (now - 7000)%Z in
  {| fl_generatedAt := now;
     fl_developmentPreview := true;
     fl_activeAlertCount := 2;
     fl_hosts := [framework now frameworkObserved; asus now asusObserved];
     fl_alerts := fixture_alerts asusObserved;
     fl_replicas := fixture_replicas frameworkObserved asusObserved;
     fl_globalIntervalSeconds := 5;
     fl_hostOverrides := {[ js "asus" := 10%Z ]} |}.
End Snapshot.
Arguments buildFleetSnapshot : simpl never.

(** ** Consistency of the snapshot *)

Definition inference_metrics (i : Inference) : list Metric :=
  [i_requestRate i; i_ttft i; i_promptThroughput i; i_generationThroughput i; i_activeRequests i].

Definition host_metrics (h : HostSnapshot) : list Metric :=
  host_quickMetrics h ++ host_hardware h ++ host_memory h ++ inference_metrics (host_inference h).

(** A value is missing exactly when the quality says that there is none. *)
Definition honest (quality : Quality) (value : option number) : bool :=
  eqb (bool_decide (quality ∈ [unavailable; unsupported])) (bool_decide (value = None)).

(** A storage entry whose size is still being learned has no usage either. *)
Definition honest_storage (s : StorageEntry) : bool :=
  eqb (bool_decide (st_usage s = None)) (bool_decide (st_state s ∈ [missing; learning])).

(** Everything a screen relies on when it renders one host. *)
Record host_consistent (now : Z) (h : HostSnapshot) : Prop := {
  hc_age : f_observedAt (host_freshness h) = (now - 1000 * f_ageSeconds (host_freshness h))%Z;
  hc_observed : Forall (λ m, m_observedAt m = f_observedAt (host_freshness h)) (host_metrics h);
  hc_honest : Forall (λ m, honest (m_quality m) (m_value m) = true) (host_metrics h);
  hc_storage : Forall (λ s, honest_storage s = true) (host_storage h);
  hc_keys : NoDup (m_id <$> host_quickMetrics h) ∧ NoDup (m_id <$> host_hardware h)
    ∧ NoDup (m_id <$> host_memory h) ∧ NoDup (st_id <$> host_storage h)
    ∧ NoDup (p_name <$> host_processes h) ∧ NoDup (c_name <$> host_containers h)
    ∧ NoDup (r_endpoint <$> host_runtimes h);
  hc_history : h_timestamp <$> host_history h
    = (λ k, toISOString (now - 300000 * Z.of_nat (23 - k))%Z) <$> seq 0 24
}.

#[local] Ltac nodup := by apply (bool_decide_unpack (NoDup _)); vm_compute.

Lemma framework_consistent `{JsMath} now : host_consistent now (framework now (now - 3000)).
Proof.
  split; [done|repeat constructor..|repeat split; nodup|].
  simpl host_history. unfold makeHistory. rewrite <- list_fmap_compose.
  apply Forall_fmap_ext, Forall_seq. intros j Hj. simpl. f_equal. lia.
Qed.

Lemma asus_consistent `{JsMath} now : host_consistent now (asus now (now - 7000)).
Proof.
  split; [done|repeat constructor..|repeat split; nodup|].
  simpl host_history. unfold makeHistory. rewrite <- list_fmap_compose.
  apply Forall_fmap_ext, Forall_seq. intros j Hj. simpl. f_equal. lia.
Qed.

(** C27. The snapshot is consistent whenever it is taken: hosts, alerts and replicas have
    distinct identifiers; alerts and replicas refer to its hosts, a replica with the role of its
    host; the alert count is the number of active alerts; and every host is consistent: what it
    observed is as old as its age says, a value is missing exactly when its quality says so, the
    identifiers of a list are distinct, and the history has 24 points five minutes apart up to
    now. *)
Theorem snapshot_consistent `{JsMath} now :
  let s := buildFleetSnapshot now in
  Forall (host_consistent now) (fl_hosts s)
  ∧ NoDup (host_id <$> fl_hosts s) ∧ NoDup (a_id <$> fl_alerts s)
  ∧ NoDup (rp_id <$> fl_replicas s)
  ∧ Forall (λ a, a_hostId a ∈ host_id <$> fl_hosts s) (fl_alerts s)
  ∧ Forall (λ r, ∃ h, h ∈ fl_hosts s ∧ host_id h = rp_hostId r ∧ host_role h = rp_role r)
      (fl_replicas s)
  ∧ fl_activeAlertCount s
    = Z.of_nat (length (js_filter (λ a, bool_decide (a_state a = active)) (fl_alerts s))).
Proof.
  cbv zeta. split.
  { apply Forall_cons_2, Forall_singleton, asus_consistent. apply framework_consistent. }
  do 3 (split; [nodup|]). split; [|split; [|done]].
  - repeat constructor; apply (bool_decide_unpack (_ ∈ _)); by vm_compute.
  - unfold buildFleetSnapshot, fixture_replicas. cbn [fl_replicas fl_hosts].
    apply Forall_cons_2, Forall_singleton; simpl; [exists (framework now (now - 3000))|
      exists (asus now (now - 7000))]; (split; [|split; reflexivity]); set_solver.
Qed.
