(* ===== verification/Router.v ===== *)
(** The console API of [server/nodescope/router.ts]: the development state, the guards, one
    definition per procedure and the router that composes them. The handlers contain no
    [await], so that each one runs to its end before another starts: a call is one step. *)
From S2P Require Import Prelude JsString JsNumber Json Schema OAuthState Trpc Fixtures.

(** ** State *)

Inductive Operator := op_gt | op_lt.
Inductive Scope := scope_fleet | scope_host.
Inductive AuditOutcome := out_intent | out_acknowledged | out_completed | out_failed | out_denied.
Inductive Transport := https | loopback_http.

#[export] Instance Operator_eq_dec : EqDecision Operator.
Proof. solve_decision. Defined.
#[export] Instance Scope_eq_dec : EqDecision Scope.
Proof. solve_decision. Defined.

Record AlertRule := {
  ar_id : jsstr; ar_metric : jsstr; ar_operator : Operator; ar_threshold : number;
  ar_durationSeconds : Z; ar_severity : Severity; ar_enabled : bool; ar_scope : Scope;
  ar_hostId : option jsstr
}.

Record DevelopmentAudit := {
  ev_id : jsstr; ev_actorId : jsstr; ev_action : jsstr; ev_targetType : jsstr;
  ev_targetId : option jsstr; ev_outcome : AuditOutcome; ev_occurredAt : Z;
  ev_metadata : list (jsstr * json)
}.

Record DevelopmentState := {
  ds_globalIntervalSeconds : Z;
  ds_hostOverrides : gmap jsstr Z;
  ds_acknowledgedAlerts : gset jsstr;
  ds_approvedRuntimeIds : gset jsstr;
  ds_audits : list DevelopmentAudit;
  ds_alertRules : list AlertRule
}.

(** The object literal the module starts with. *)
Definition developmentState : DevelopmentState := {|
  ds_globalIntervalSeconds := 5;
  ds_hostOverrides := {[ js "asus" := 10%Z ]};
  ds_acknowledgedAlerts := ∅;
  ds_approvedRuntimeIds := ∅;
  ds_audits := [];
  ds_alertRules := [
    {| ar_id := js "rule-asus-ttft"; ar_metric := js "inference.ttft_p95_ms"; ar_operator := op_gt;
       ar_threshold := num_of_Z 750; ar_durationSeconds := 300; ar_severity := warning;
       ar_enabled := true; ar_scope := scope_host; ar_hostId := Some (js "asus") |};
    {| ar_id := js "rule-storage"; ar_metric := js "storage.usage_percent"; ar_operator := op_gt;
       ar_threshold := num_of_Z 85; ar_durationSeconds := 600; ar_severity := warning;
       ar_enabled := true; ar_scope := scope_fleet; ar_hostId := None |};
    {| ar_id := js "rule-temperature"; ar_metric := js "device.temperature_celsius";
       ar_operator := op_gt; ar_threshold := num_of_Z 82; ar_durationSeconds := 120;
       ar_severity := critical; ar_enabled := true; ar_scope := scope_fleet; ar_hostId := None |} ]
|}.

(** The module state together with what the handlers read from the platform: successive
    results of [new Date()] and [crypto.randomUUID()], and [NODE_ENV]. *)
Record World := {
  w_state : DevelopmentState;
  w_dates : nat → Z;
  w_uuids : nat → jsstr;
  w_reads : nat;
  w_draws : nat;
  w_production : bool
}.

(** ** Handlers as state transformers that may throw *)

(** A throw keeps the state reached so far: JavaScript rolls nothing back. *)
Definition M (A : Type) : Type := World → result TRPCError A * World.

#[export] Instance M_ret : MRet M := λ A a w, (Ok a, w).
#[export] Instance M_bind : MBind M := λ A B f m w,
  match m w with
  | (Ok a, w') => f a w'
  | (Err e, w') => (Err e, w')
  end.

Definition throw {A} (code : trpc_code) (msg : jsstr) : M A :=
  λ w, (Err {| te_code := code; te_message := msg |}, w).

Definition get_state : M DevelopmentState := λ w, (Ok (w_state w), w).

Definition modify (f : DevelopmentState → DevelopmentState) : M unit := λ w,
  (Ok tt, {| w_state := f (w_state w); w_dates := w_dates w; w_uuids := w_uuids w;
             w_reads := w_reads w; w_draws := w_draws w; w_production := w_production w |}).

Definition newDate : M Z := λ w,
  (Ok (w_dates w (w_reads w)),
   {| w_state := w_state w; w_dates := w_dates w; w_uuids := w_uuids w;
      w_reads := S (w_reads w); w_draws := w_draws w; w_production := w_production w |}).

Definition randomUUID : M jsstr := λ w,
  (Ok (w_uuids w (w_draws w)),
   {| w_state := w_state w; w_dates := w_dates w; w_uuids := w_uuids w;
      w_reads := w_reads w; w_draws := S (w_draws w); w_production := w_production w |}).

Definition in_production : M bool := λ w, (Ok (w_production w), w).

Definition set_audits (l : list DevelopmentAudit) (s : DevelopmentState) : DevelopmentState :=
  {| ds_globalIntervalSeconds := ds_globalIntervalSeconds s;
     ds_hostOverrides := ds_hostOverrides s;
     ds_acknowledgedAlerts := ds_acknowledgedAlerts s;
     ds_approvedRuntimeIds := ds_approvedRuntimeIds s;
     ds_audits := l; ds_alertRules := ds_alertRules s |}.

Definition set_rules (l : list AlertRule) (s : DevelopmentState) : DevelopmentState :=
  {| ds_globalIntervalSeconds := ds_globalIntervalSeconds s;
     ds_hostOverrides := ds_hostOverrides s;
     ds_acknowledgedAlerts := ds_acknowledgedAlerts s;
     ds_approvedRuntimeIds := ds_approvedRuntimeIds s;
     ds_audits := ds_audits s; ds_alertRules := l |}.

Definition set_overrides (m : gmap jsstr Z) (s : DevelopmentState) : DevelopmentState :=
  {| ds_globalIntervalSeconds := ds_globalIntervalSeconds s;
     ds_hostOverrides := m;
     ds_acknowledgedAlerts := ds_acknowledgedAlerts s;
     ds_approvedRuntimeIds := ds_approvedRuntimeIds s;
     ds_audits := ds_audits s; ds_alertRules := ds_alertRules s |}.

Definition set_interval (z : Z) (s : DevelopmentState) : DevelopmentState :=
  {| ds_globalIntervalSeconds := z;
     ds_hostOverrides := ds_hostOverrides s;
     ds_acknowledgedAlerts := ds_acknowledgedAlerts s;
     ds_approvedRuntimeIds := ds_approvedRuntimeIds s;
     ds_audits := ds_audits s; ds_alertRules := ds_alertRules s |}.

Definition add_acknowledged (a : jsstr) (s : DevelopmentState) : DevelopmentState :=
  {| ds_globalIntervalSeconds := ds_globalIntervalSeconds s;
     ds_hostOverrides := ds_hostOverrides s;
     ds_acknowledgedAlerts := {[ a ]} ∪ ds_acknowledgedAlerts s;
     ds_approvedRuntimeIds := ds_approvedRuntimeIds s;
     ds_audits := ds_audits s; ds_alertRules := ds_alertRules s |}.

Definition add_approved (r : jsstr) (s : DevelopmentState) : DevelopmentState :=
  {| ds_globalIntervalSeconds := ds_globalIntervalSeconds s;
     ds_hostOverrides := ds_hostOverrides s;
     ds_acknowledgedAlerts := ds_acknowledgedAlerts s;
     ds_approvedRuntimeIds := {[ r ]} ∪ ds_approvedRuntimeIds s;
     ds_audits := ds_audits s; ds_alertRules := ds_alertRules s |}.

(** ** Shared helpers *)

(** The record takes a fresh identifier and date and goes to the front of the list. *)
Definition createAudit (actorId action targetType : jsstr) (targetId : option jsstr)
    (metadata : list (jsstr * json)) (outcome : AuditOutcome) : M DevelopmentAudit :=
  id ← randomUUID;
  occurredAt ← newDate;
  let audit := {| ev_id := id; ev_actorId := actorId; ev_action := action;
                  ev_targetType := targetType; ev_targetId := targetId; ev_outcome := outcome;
                  ev_occurredAt := occurredAt; ev_metadata := metadata |} in
  modify (λ s, set_audits (audit :: ds_audits s) s);;
  mret audit.

(** The URL class of the WHATWG standard, which the platform provides: [None] is the
    TypeError of an invalid URL. *)
Record URLRecord := {
  u_protocol : jsstr; u_username : jsstr; u_password : jsstr; u_hostname : jsstr;
  u_port : jsstr; u_pathname : jsstr; u_search : jsstr; u_hash : jsstr }.

Class UrlLib := { URL_parse : jsstr → option URLRecord }.

Definition is_loopback_name (hostname : jsstr) : bool :=
  str_eqb hostname (js "localhost") || str_eqb hostname (js "127.0.0.1")
  || str_eqb hostname (js "::1").

Definition validateRuntimeApprovalEndpoint `{UrlLib, UnicodeCase} (rawEndpoint : jsstr)
    : result TRPCError Transport :=
  let bad msg := Err {| te_code := BAD_REQUEST; te_message := msg |} in
  match URL_parse rawEndpoint with
  | None => bad (js "Runtime endpoint must be a valid URL")
  | Some endpoint =>
      let path := strip_one_trailing_slash (u_pathname endpoint) in
      if truthy (u_username endpoint) || truthy (u_password endpoint)
         || truthy (u_search endpoint) || truthy (u_hash endpoint)
         || negb (truthy (u_hostname endpoint))
         || negb (bool_decide (u_protocol endpoint ∈ [js "http:"; js "https:"]))
         || negb (bool_decide (path ∈ [[]; js "/v1"]))
      then bad (js "Runtime endpoint must be a credential-free HTTP(S) base URL or /v1 endpoint")
      else if str_eqb (u_protocol endpoint) (js "http:") then
        if negb (is_loopback_name (toLowerCase (u_hostname endpoint)))
        then bad (js "Runtime endpoint must use HTTPS unless it is loopback")
        else Ok loopback_http
      else Ok https
  end.

Definition lift {A} (r : result TRPCError A) : M A := λ w, (r, w).

(** ** Inputs: what the Zod schemas let through *)

Record HostInput := { hi_hostId : jsstr }.
Definition host_schema (i : HostInput) : bool := truthy (hi_hostId i).

Definition between (lo hi z : Z) : bool := ((lo <=? z) && (z <=? hi))%Z%bool.
Definition min_max (lo hi : nat) (s : jsstr) : bool := ((lo <=? length s) && (length s <=? hi))%nat.
Definition optional {A} (f : A → bool) (o : option A) : bool :=
  match o with Some a => f a | None => true end.

(** The input of [alerts.rules.save] has exactly the fields of a rule. *)
Definition rule_schema (r : AlertRule) : bool :=
  min_max 1 100 (ar_id r) && min_max 1 120 (ar_metric r) && is_finite (ar_threshold r)
  && between 1 86400 (ar_durationSeconds r) && optional truthy (ar_hostId r).

Record AcknowledgeInput := { ai_alertId : jsstr; ai_note : option jsstr }.
Definition acknowledge_schema (i : AcknowledgeInput) : bool :=
  truthy (ai_alertId i)
  && optional (λ n, str_eqb (trim n) n && (length n <=? 500)) (ai_note i).

Record IntervalInput := { ii_hostId : option jsstr; ii_intervalSeconds : Z }.
Definition interval_schema (i : IntervalInput) : bool :=
  optional truthy (ii_hostId i) && between 1 60 (ii_intervalSeconds i).

Record BaselineInput := { bi_hostId : jsstr; bi_acknowledgedDiff : bool }.
Definition baseline_schema (i : BaselineInput) : bool := truthy (bi_hostId i).

Record ApproveInput := { ap_hostId : jsstr; ap_endpoint : jsstr; ap_runtimeKind : RuntimeKind }.
Definition approve_schema (i : ApproveInput) : bool :=
  truthy (ap_hostId i) && str_eqb (trim (ap_endpoint i)) (ap_endpoint i)
  && min_max 1 2048 (ap_endpoint i).

Record BackupInput := { bk_includeRawTelemetry : bool }.
Definition backup_schema (_ : BackupInput) : bool := true.

Record AuditInput := { li_limit : Z }.
Definition audit_schema (i : AuditInput) : bool := between 1 100 (li_limit i).

(** ** Results *)

Inductive Reply :=
| r_snapshot (f : FleetSnapshot)
| r_host (h : HostSnapshot)
| r_alerts (l : list Alert)
| r_rules (l : list AlertRule)
| r_saved (rule : AlertRule) (auditEvent : DevelopmentAudit)
| r_acknowledged (alertId : jsstr) (auditEvent : DevelopmentAudit)
| r_interval (operationId : jsstr) (auditEvent : DevelopmentAudit) (effective : Z)
| r_baseline (operationId : jsstr) (auditEvent : DevelopmentAudit)
| r_approved (candidateId : jsstr) (auditEvent : DevelopmentAudit)
| r_backup (operationId : jsstr) (auditEvent : DevelopmentAudit)
| r_audits (l : list DevelopmentAudit).

Definition severity_text (s : Severity) : jsstr :=
  match s with critical => js "critical" | warning => js "warning" | info => js "info" end.
Definition scope_text (s : Scope) : jsstr :=
  match s with scope_fleet => js "fleet" | scope_host => js "host" end.
Definition kind_text (k : RuntimeKind) : jsstr :=
  match k with
  | vllm => js "vllm" | llama_cpp => js "llama.cpp" | lmstudio => js "lmstudio"
  | agentzero => js "agentzero" | other_runtime => js "other"
  end.
Definition transport_text (t : Transport) : jsstr :=
  match t with https => js "https" | loopback_http => js "loopback_http" end.

(** An acknowledged alert is shown as such; the others keep the state of the snapshot. *)
Definition shown_alert (acked : gset jsstr) (a : Alert) : Alert :=
  {| a_id := a_id a; a_severity := a_severity a;
     a_state := if bool_decide (a_id a ∈ acked) then acknowledged else a_state a;
     a_hostId := a_hostId a; a_title := a_title a; a_detail := a_detail a;
     a_observedAt := a_observedAt a |}.

Section Handlers.
Context `{JsMath}.

Definition snapshot : M FleetSnapshot := now ← newDate; mret (buildFleetSnapshot now).

Definition requireHost (hostId : jsstr) : M HostSnapshot :=
  snap ← snapshot;
  match js_find (λ h, str_eqb (host_id h) hostId) (fl_hosts snap) with
  | Some h => mret h
  | None => throw NOT_FOUND (js "Unknown host " ++ hostId)
  end.

(** ** Procedures *)

Definition preview_error : jsstr := js "Development preview is unavailable in production".

Definition fleet_preview : M Reply :=
  prod ← in_production;
  if prod : bool then throw FORBIDDEN preview_error else snap ← snapshot; mret (r_snapshot snap).

Definition fleet_overview : M Reply :=
  snap ← snapshot;
  st ← get_state;
  mret (r_snapshot
    {| fl_generatedAt := fl_generatedAt snap;
       fl_developmentPreview := fl_developmentPreview snap;
       fl_activeAlertCount := fl_activeAlertCount snap;
       fl_hosts := fl_hosts snap;
       fl_alerts := shown_alert (ds_acknowledgedAlerts st) <$> fl_alerts snap;
       fl_replicas := fl_replicas snap;
       fl_globalIntervalSeconds := ds_globalIntervalSeconds st;
       fl_hostOverrides := ds_hostOverrides st |}).

Definition fleet_host (input : HostInput) : M Reply :=
  host ← requireHost (hi_hostId input); mret (r_host host).

Definition alerts_forHost (input : HostInput) : M Reply :=
  requireHost (hi_hostId input);;
  snap ← snapshot;
  st ← get_state;
  mret (r_alerts (shown_alert (ds_acknowledgedAlerts st) <$>
                  js_filter (λ a, str_eqb (a_hostId a) (hi_hostId input)) (fl_alerts snap))).

Definition rules_preview : M Reply :=
  prod ← in_production;
  if prod : bool then throw FORBIDDEN preview_error
  else st ← get_state; mret (r_rules (ds_alertRules st)).

Definition rules_list : M Reply := st ← get_state; mret (r_rules (ds_alertRules st)).

Definition truthy_opt (o : option jsstr) : bool :=
  match o with Some s => truthy s | None => false end.

Definition actor (c : UserContext) : jsstr := user_openId (au_user (uc_user c)).

(** The rule takes the place of the rule with its identifier, or becomes the first one. *)
Definition store_rule (rule : AlertRule) (rules : list AlertRule) : list AlertRule :=
  match js_findIndex (λ r, str_eqb (ar_id r) (ar_id rule)) rules with
  | Some index => <[index:=rule]> rules
  | None => rule :: rules
  end.

Definition rules_save (c : UserContext) (input : AlertRule) : M Reply :=
  if bool_decide (ar_scope input = scope_host) && negb (truthy_opt (ar_hostId input)) then
    throw BAD_REQUEST (js "A host-scoped alert rule requires hostId")
  else if bool_decide (ar_scope input = scope_fleet) && truthy_opt (ar_hostId input) then
    throw BAD_REQUEST (js "A fleet-scoped alert rule cannot target a host")
  else
    match ar_scope input, ar_hostId input with
    | scope_host, Some hostId => requireHost hostId;; mret tt
    | _, _ => mret tt
    end;;
    modify (λ s, set_rules (store_rule input (ds_alertRules s)) s);;
    audit ← createAudit (actor c) (js "alert_rule.save") (js "alert_rule") (Some (ar_id input))
              [(js "metric", JString (ar_metric input));
               (js "severity", JString (severity_text (ar_severity input)));
               (js "scope", JString (scope_text (ar_scope input)))] out_completed;
    mret (r_saved input audit).

Definition acknowledge (c : UserContext) (input : AcknowledgeInput) : M Reply :=
  snap ← snapshot;
  match js_find (λ a, str_eqb (a_id a) (ai_alertId input)) (fl_alerts snap) with
  | None => throw NOT_FOUND (js "Unknown alert " ++ ai_alertId input)
  | Some alert =>
      modify (add_acknowledged (a_id alert));;
      audit ← createAudit (actor c) (js "alert.acknowledge") (js "alert") (Some (a_id alert))
                [(js "note", match ai_note input with Some n => JString n | None => JNull end);
                 (js "hostId", JString (a_hostId alert))] out_completed;
      mret (r_acknowledged (a_id alert) audit)
  end.

Definition setCollectionInterval (c : UserContext) (input : IntervalInput) : M Reply :=
  match ii_hostId input with
  | Some hostId =>
      if truthy hostId then
        requireHost hostId;;
        modify (λ s, set_overrides (<[hostId := ii_intervalSeconds input]> (ds_hostOverrides s)) s)
      else modify (set_interval (ii_intervalSeconds input))
  | None => modify (set_interval (ii_intervalSeconds input))
  end;;
  audit ← createAudit (actor c) (js "collection_interval.set")
            (if truthy_opt (ii_hostId input) then js "host" else js "fleet") (ii_hostId input)
            [(js "intervalSeconds", JNumber (num_of_Z (ii_intervalSeconds input)))] out_completed;
  operationId ← randomUUID;
  mret (r_interval operationId audit (ii_intervalSeconds input)).

Definition refreshStorageBaseline (c : UserContext) (input : BaselineInput) : M Reply :=
  host ← requireHost (bi_hostId input);
  if negb (bi_acknowledgedDiff input) then
    throw BAD_REQUEST (js "Storage baseline diff acknowledgement is required")
  else
    audit ← createAudit (actor c) (js "storage_baseline.refresh") (js "host")
              (Some (host_id host))
              [(js "resourceCount", JNumber (num_of_Z (Z.of_nat (length (host_storage host)))))] out_completed;
    operationId ← randomUUID;
    mret (r_baseline operationId audit).

Definition runtimes_approve `{UrlLib, UnicodeCase} (c : UserContext) (input : ApproveInput) : M Reply :=
  requireHost (ap_hostId input);;
  transport ← lift (validateRuntimeApprovalEndpoint (ap_endpoint input));
  uuid ← randomUUID;
  let candidateId := js "runtime:" ++ ap_hostId input ++ js ":" ++ uuid in
  modify (add_approved candidateId);;
  audit ← createAudit (actor c) (js "runtime.approve") (js "runtime_candidate") (Some candidateId)
            [(js "runtimeKind", JString (kind_text (ap_runtimeKind input)));
             (js "transport", JString (transport_text transport))] out_completed;
  mret (r_approved candidateId audit).

Definition backups_initiate (c : UserContext) (input : BackupInput) : M Reply :=
  audit ← createAudit (actor c) (js "backup.initiate") (js "backup") None
            [(js "includeRawTelemetry", JBool (bk_includeRawTelemetry input))] out_intent;
  operationId ← randomUUID;
  mret (r_backup operationId audit).

Definition audit_list (input : AuditInput) : M Reply :=
  st ← get_state; mret (r_audits (take (Z.to_nat (li_limit input)) (ds_audits st))).
End Handlers.

(** ** The router *)

Inductive Procedure :=
| p_fleet_preview | p_fleet_overview | p_fleet_host
| p_alerts_forHost | p_rules_preview | p_rules_list | p_rules_save | p_acknowledge
| p_setCollectionInterval | p_refreshStorageBaseline | p_runtimes_approve
| p_backups_initiate | p_audit_list.

#[export] Instance Procedure_eq_dec : EqDecision Procedure.
Proof. solve_decision. Defined.

(** The parsers of the router's inputs, one per schema. *)
Class RouterInputs (Raw : Type) := {
  zod_host :: ZodInput Raw HostInput host_schema;
  zod_rule :: ZodInput Raw AlertRule rule_schema;
  zod_acknowledge :: ZodInput Raw AcknowledgeInput acknowledge_schema;
  zod_interval :: ZodInput Raw IntervalInput interval_schema;
  zod_baseline :: ZodInput Raw BaselineInput baseline_schema;
  zod_approve :: ZodInput Raw ApproveInput approve_schema;
  zod_backup :: ZodInput Raw BackupInput backup_schema;
  zod_audit :: ZodInput Raw AuditInput audit_schema
}.

Section Router.
Context `{JsMath, UrlLib, UnicodeCase, TrpcBuilder} {Raw : Type} `{!RouterInputs Raw}.

Definition fail (e : TRPCError) : M Reply := λ w, (Err e, w).
Definition no_input (_ : Raw) : option unit := Some tt.

Definition nodeScopeRouter (p : Procedure) (ctx : TrpcContext) (raw : Raw) : M Reply :=
  match p with
  | p_fleet_preview =>
      procedure_call fail publicProcedure no_input (λ _ _, fleet_preview) ctx raw
  | p_fleet_overview =>
      procedure_call fail viewerProcedure no_input (λ _ _, fleet_overview) ctx raw
  | p_fleet_host =>
      procedure_call fail viewerProcedure (safeParse host_schema) (λ _, fleet_host) ctx raw
  | p_alerts_forHost =>
      procedure_call fail viewerProcedure (safeParse host_schema) (λ _, alerts_forHost) ctx raw
  | p_rules_preview =>
      procedure_call fail publicProcedure no_input (λ _ _, rules_preview) ctx raw
  | p_rules_list =>
      procedure_call fail viewerProcedure no_input (λ _ _, rules_list) ctx raw
  | p_rules_save =>
      procedure_call fail operatorProcedure (safeParse rule_schema) rules_save ctx raw
  | p_acknowledge =>
      procedure_call fail operatorProcedure (safeParse acknowledge_schema) acknowledge ctx raw
  | p_setCollectionInterval =>
      procedure_call fail operatorProcedure (safeParse interval_schema) setCollectionInterval ctx raw
  | p_refreshStorageBaseline =>
      procedure_call fail operatorProcedure (safeParse baseline_schema) refreshStorageBaseline ctx raw
  | p_runtimes_approve =>
      procedure_call fail administratorProcedure (safeParse approve_schema) runtimes_approve ctx raw
  | p_backups_initiate =>
      procedure_call fail administratorProcedure (safeParse backup_schema) backups_initiate ctx raw
  | p_audit_list =>
      procedure_call fail viewerProcedure (safeParse audit_schema) (λ _, audit_list) ctx raw
  end.
End Router.
