(* ===== verification/RouterSpec.v ===== *)
(** The abstract specification of the console API: the transitions a call may make, and the
    lemmas that the handlers of [Router] make only these. *)
From S2P Require Import Prelude JsString JsNumber Json Schema OAuthState Trpc Fixtures Router.

(** ** Evaluating handlers *)

Section Monad.
Context {A B : Type}.

Lemma bind_Ok (m : M A) (f : A → M B) w r w' :
  (m ≫= f) w = (Ok r, w') ↔ ∃ a w1, m w = (Ok a, w1) ∧ f a w1 = (Ok r, w').
Proof.
  unfold mbind, M_bind. destruct (m w) as [[a|e] w1]; split; intros H; try naive_solver.
Qed.

Lemma bind_Err (m : M A) (f : A → M B) w e w' :
  (m ≫= f) w = (Err e, w') ↔
  m w = (Err e, w') ∨ ∃ a w1, m w = (Ok a, w1) ∧ f a w1 = (Err e, w').
Proof.
  unfold mbind, M_bind. destruct (m w) as [[a|e'] w1]; split; intros H; try naive_solver.
Qed.

Lemma ret_Ok (a : A) w r w' : (mret (M:=M) a) w = (Ok r, w') ↔ r = a ∧ w' = w.
Proof. unfold mret, M_ret. naive_solver. Qed.

Lemma ret_Err (a : A) w e w' : (mret (M:=M) a) w = (Err e, w') ↔ False.
Proof. unfold mret, M_ret. naive_solver. Qed.

Lemma throw_Ok c msg w (r : A) w' : throw c msg w = (Ok r, w') ↔ False.
Proof. unfold throw. naive_solver. Qed.

Lemma throw_Err c msg w e w' :
  throw (A:=A) c msg w = (Err e, w') ↔ e = {| te_code := c; te_message := msg |} ∧ w' = w.
Proof. unfold throw. naive_solver. Qed.
End Monad.

Lemma get_state_Ok w s w' : get_state w = (Ok s, w') ↔ s = w_state w ∧ w' = w.
Proof. unfold get_state. naive_solver. Qed.

Lemma modify_Ok f w w' u :
  modify f w = (Ok u, w') → w_state w' = f (w_state w).
Proof. unfold modify. naive_solver. Qed.

Lemma modify_Err f w e w' : modify f w = (Err e, w') ↔ False.
Proof. unfold modify. naive_solver. Qed.

Lemma newDate_Ok w d w' : newDate w = (Ok d, w') → w_state w' = w_state w.
Proof. unfold newDate. naive_solver. Qed.

Lemma randomUUID_Ok w u w' : randomUUID w = (Ok u, w') → w_state w' = w_state w.
Proof. unfold randomUUID. naive_solver. Qed.

Lemma newDate_Err w e w' : newDate w = (Err e, w') ↔ False.
Proof. unfold newDate. naive_solver. Qed.

Lemma randomUUID_Err w e w' : randomUUID w = (Err e, w') ↔ False.
Proof. unfold randomUUID. naive_solver. Qed.

Lemma get_state_Err w e w' : get_state w = (Err e, w') ↔ False.
Proof. unfold get_state. naive_solver. Qed.

Lemma in_production_Ok w b w' : in_production w = (Ok b, w') ↔ b = w_production w ∧ w' = w.
Proof. unfold in_production. naive_solver. Qed.

Lemma in_production_Err w e w' : in_production w = (Err e, w') ↔ False.
Proof. unfold in_production. naive_solver. Qed.

(** Walks through a handler that returned ([Ok]) or threw ([Err]), one statement at a time. *)
Ltac inv_M :=
  repeat match goal with
  | H : (_ ≫= _) _ = (Ok _, _) |- _ => apply bind_Ok in H as (? & ? & ? & ?)
  | H : (_ ≫= _) _ = (Err _, _) |- _ => apply bind_Err in H as [?|(? & ? & ? & ?)]
  | H : mret _ _ = (Ok _, _) |- _ => apply ret_Ok in H as [??]
  | H : mret _ _ = (Err _, _) |- _ => apply ret_Err in H as []
  | H : throw _ _ _ = (Ok _, _) |- _ => apply throw_Ok in H as []
  | H : throw _ _ _ = (Err _, _) |- _ => apply throw_Err in H as [??]
  | H : get_state _ = (Ok _, _) |- _ => apply get_state_Ok in H as [??]
  | H : get_state _ = (Err _, _) |- _ => apply get_state_Err in H as []
  | H : in_production _ = (Ok _, _) |- _ => apply in_production_Ok in H as [??]
  | H : in_production _ = (Err _, _) |- _ => apply in_production_Err in H as []
  | H : modify _ _ = (Ok _, _) |- _ => apply modify_Ok in H
  | H : modify _ _ = (Err _, _) |- _ => apply modify_Err in H as []
  | H : newDate _ = (Ok _, _) |- _ => apply newDate_Ok in H
  | H : newDate _ = (Err _, _) |- _ => apply newDate_Err in H as []
  | H : randomUUID _ = (Ok _, _) |- _ => apply randomUUID_Ok in H
  | H : randomUUID _ = (Err _, _) |- _ => apply randomUUID_Err in H as []
  | H : lift ?r _ = _ |- _ => unfold lift in H; destruct r eqn:?
  | H : (_, _) = (_, _) |- _ => injection H as ??
  | x : unit |- _ => destruct x
  | _ => progress simplify_eq
  end.

(** ** Audit records *)

(** A record of one completed or intended action of [actor]. *)
Definition audit_of (actor action targetType : jsstr) (targetId : option jsstr)
    (metadata : list (jsstr * json)) (outcome : AuditOutcome) (e : DevelopmentAudit) : Prop :=
  ev_actorId e = actor ∧ ev_action e = action ∧ ev_targetType e = targetType
  ∧ ev_targetId e = targetId ∧ ev_metadata e = metadata ∧ ev_outcome e = outcome.

Lemma createAudit_Ok actor action tt tid meta out w e w' :
  createAudit actor action tt tid meta out w = (Ok e, w') →
  audit_of actor action tt tid meta out e
  ∧ w_state w' = set_audits (e :: ds_audits (w_state w)) (w_state w).
Proof.
  unfold createAudit. intros H. inv_M. unfold audit_of. simpl.
  split; [done|]. congruence.
Qed.

Lemma createAudit_Err actor action tt tid meta out w e w' :
  createAudit actor action tt tid meta out w = (Err e, w') → False.
Proof. unfold createAudit. intros H. inv_M. Qed.

(** ** The fleet of the fixture *)

Definition known_hosts : list jsstr := [js "framework"; js "asus"].
Definition known_alerts : list jsstr := [js "alert-backup-mount"; js "alert-vllm-ttft"].

Section Spec.
Context `{JsMath}.

Lemma snapshot_hosts now : host_id <$> fl_hosts (buildFleetSnapshot now) = known_hosts.
Proof. reflexivity. Qed.

Lemma snapshot_alerts now : a_id <$> fl_alerts (buildFleetSnapshot now) = known_alerts.
Proof. reflexivity. Qed.

Lemma snapshot_Ok w s w' :
  snapshot w = (Ok s, w') → w_state w' = w_state w ∧ ∃ now, s = buildFleetSnapshot now.
Proof.
  unfold snapshot. intros H'. inv_M. eauto.
Qed.

Lemma snapshot_Err w e w' : snapshot w = (Err e, w') → False.
Proof. by unfold snapshot. Qed.

Lemma requireHost_Ok hostId w h w' :
  requireHost hostId w = (Ok h, w') →
  w_state w' = w_state w ∧ hostId ∈ known_hosts ∧ host_id h = hostId.
Proof.
  unfold requireHost. intros Hr. inv_M.
  match goal with Hs : snapshot _ = _ |- _ => apply snapshot_Ok in Hs as (Hs & now & ->) end.
  destruct (js_find _ _) as [h'|] eqn:E; inv_M.
  apply js_find_Some in E as [Hin Heq]. apply str_eqb_eq in Heq.
  split; [done|]. split; [|done]. rewrite <- (snapshot_hosts now), <- Heq.
  by apply list_elem_of_fmap_2.
Qed.

Lemma requireHost_Err hostId w e w' :
  requireHost hostId w = (Err e, w') →
  w_state w' = w_state w ∧ (hostId ∉ known_hosts)
  ∧ e = {| te_code := NOT_FOUND; te_message := js "Unknown host " ++ hostId |}.
Proof.
  unfold requireHost. intros Hr. inv_M.
  match goal with Hs : snapshot _ = _ |- _ => apply snapshot_Ok in Hs as (Hs & now & ->) end.
  destruct (js_find _ _) as [h'|] eqn:E; inv_M.
  split; [done|]. split; [|done]. rewrite <- (snapshot_hosts now).
  intros (h & -> & Hh)%list_elem_of_fmap. rewrite js_find_None in E.
  specialize (E h Hh). by rewrite str_eqb_refl in E.
Qed.
End Spec.

(** ** Transitions *)

(** A rule that targets what its scope says: one known host, or the fleet. *)
Definition coherent_rule (r : AlertRule) : Prop :=
  match ar_scope r with
  | scope_host => ∃ h, ar_hostId r = Some h ∧ h ∈ known_hosts
  | scope_fleet => ar_hostId r = None
  end.

(** [logged e f s]: the state after the change [f] and one new record [e]. *)
Definition logged (e : DevelopmentAudit) (f : DevelopmentState → DevelopmentState)
    (s : DevelopmentState) : DevelopmentState :=
  set_audits (e :: ds_audits s) (f s).

(** What a call of a mutation by [actor] may do, and what it then answers: one change, one
    audit record that names the actor and the target. *)
Inductive transition (actor : jsstr) (s : DevelopmentState) : Reply → DevelopmentState → Prop :=
| t_save rule e :
    rule_schema rule = true → coherent_rule rule →
    audit_of actor (js "alert_rule.save") (js "alert_rule") (Some (ar_id rule))
      [(js "metric", JString (ar_metric rule));
       (js "severity", JString (severity_text (ar_severity rule)));
       (js "scope", JString (scope_text (ar_scope rule)))] out_completed e →
    transition actor s (r_saved rule e)
      (logged e (λ s, set_rules (store_rule rule (ds_alertRules s)) s) s)
| t_acknowledge a note h e :
    a ∈ known_alerts →
    audit_of actor (js "alert.acknowledge") (js "alert") (Some a)
      [(js "note", note); (js "hostId", JString h)] out_completed e →
    transition actor s (r_acknowledged a e) (logged e (add_acknowledged a) s)
| t_interval_host h z op e :
    h ∈ known_hosts → (1 ≤ z ≤ 60)%Z →
    audit_of actor (js "collection_interval.set") (js "host") (Some h)
      [(js "intervalSeconds", JNumber (num_of_Z z))] out_completed e →
    transition actor s (r_interval op e z)
      (logged e (λ s, set_overrides (<[h := z]> (ds_hostOverrides s)) s) s)
| t_interval_fleet z op e :
    (1 ≤ z ≤ 60)%Z →
    audit_of actor (js "collection_interval.set") (js "fleet") None
      [(js "intervalSeconds", JNumber (num_of_Z z))] out_completed e →
    transition actor s (r_interval op e z) (logged e (set_interval z) s)
| t_baseline h n op e :
    h ∈ known_hosts →
    audit_of actor (js "storage_baseline.refresh") (js "host") (Some h)
      [(js "resourceCount", JNumber n)] out_completed e →
    transition actor s (r_baseline op e) (logged e id s)
| t_approve h u k t e :
    h ∈ known_hosts →
    let candidate := js "runtime:" ++ h ++ js ":" ++ u in
    audit_of actor (js "runtime.approve") (js "runtime_candidate") (Some candidate)
      [(js "runtimeKind", JString (kind_text k)); (js "transport", JString (transport_text t))]
      out_completed e →
    transition actor s (r_approved candidate e) (logged e (add_approved candidate) s)
| t_backup b op e :
    audit_of actor (js "backup.initiate") (js "backup") None
      [(js "includeRawTelemetry", JBool b)] out_intent e →
    transition actor s (r_backup op e) (logged e id s).

Lemma transition_eq actor s r s1 s2 :
  transition actor s r s1 → s2 = s1 → transition actor s r s2.
Proof. by intros ? ->. Qed.

(** The calls that may change the state. *)
Definition is_mutation (p : Procedure) : bool :=
  match p with
  | p_rules_save | p_acknowledge | p_setCollectionInterval | p_refreshStorageBaseline
  | p_runtimes_approve | p_backups_initiate => true
  | _ => false
  end.

(** The least role that each procedure asks for; the previews are public. *)
Definition required_role (p : Procedure) : option NodeScopeRole :=
  match p with
  | p_fleet_preview | p_rules_preview => None
  | p_fleet_overview | p_fleet_host | p_alerts_forHost | p_rules_list | p_audit_list => Some viewer
  | p_rules_save | p_acknowledge | p_setCollectionInterval | p_refreshStorageBaseline =>
      Some operator
  | p_runtimes_approve | p_backups_initiate => Some administrator
  end.

(** [refines h s]: a mutation handler that returns makes a specified transition, and one that
    throws leaves the state alone. *)
Definition refines (actor : jsstr) (m : M Reply) : Prop :=
  ∀ w r w', m w = (r, w') →
    match r with
    | Ok reply => transition actor (w_state w) reply (w_state w')
    | Err _ => w_state w' = w_state w
    end.

(** [reads m]: a query changes nothing, whether it returns or throws. *)
Definition reads (m : M Reply) : Prop := ∀ w r w', m w = (r, w') → w_state w' = w_state w.

Ltac use_host :=
  repeat match goal with
  | H : requireHost _ _ = (Ok _, _) |- _ => apply requireHost_Ok in H as (? & ? & ?)
  | H : requireHost _ _ = (Err _, _) |- _ => apply requireHost_Err in H as (? & ? & ?)
  | H : snapshot _ = (Ok _, _) |- _ => apply snapshot_Ok in H as (? & ? & ->)
  | H : snapshot _ = (Err _, _) |- _ => apply snapshot_Err in H as []
  | H : createAudit _ _ _ _ _ _ _ = (Ok _, _) |- _ => apply createAudit_Ok in H as [? ?]
  | H : createAudit _ _ _ _ _ _ _ = (Err _, _) |- _ => apply createAudit_Err in H as []
  end.

(** Evaluates a handler completely: every statement, every branch. *)
Ltac run_handler :=
  repeat (inv_M; use_host; try match goal with
  | H : match ?x with _ => _ end _ = _ |- _ => destruct x eqn:?
  end).

Ltac state_eq :=
  repeat match goal with
  | H : w_state ?x = _ |- context [w_state ?x] => rewrite H
  end.

Section Refinement.
Context `{JsMath}.

Lemma known_alert now a :
  a ∈ fl_alerts (buildFleetSnapshot now) → a_id a ∈ known_alerts.
Proof. intros Ha. rewrite <- (snapshot_alerts now). by apply list_elem_of_fmap_2. Qed.

Lemma rules_save_refines c input :
  rule_schema input = true → refines (actor c) (rules_save c input).
Proof.
  intros Hs w [reply|e] w' Hr; unfold rules_save in Hr; run_handler; try (by state_eq).
  - state_eq. apply t_save; [done| |by rewrite Heqs]. unfold coherent_rule. rewrite Heqs.
    bool_to_prop. unfold truthy_opt in *. destruct (ar_hostId input) as [h|] eqn:Eh; [|done].
    assert (optional truthy (ar_hostId input) = true) as Ht
      by (unfold rule_schema in Hs; by bool_to_prop).
    rewrite Eh in Ht. simpl in Ht. by rewrite Ht in Heqb0.
  - state_eq. apply t_save; [done| |by rewrite Heqs]. unfold coherent_rule. rewrite Heqs. eauto.
Qed.

Lemma acknowledge_refines c input : refines (actor c) (acknowledge c input).
Proof.
  intros w [reply|e] w' Hr; unfold acknowledge in Hr; run_handler; try (by state_eq).
  state_eq. eapply t_acknowledge; [|done].
  match goal with Hf : js_find _ _ = Some _ |- _ => apply js_find_Some in Hf as [Hf _] end.
  by eapply known_alert.
Qed.

Lemma setCollectionInterval_refines c input :
  interval_schema input = true → refines (actor c) (setCollectionInterval c input).
Proof.
  intros Hs w [reply|e] w' Hr.
  2: { unfold setCollectionInterval in Hr. run_handler; by state_eq. }
  unfold interval_schema, between in Hs. bool_to_prop.
  unfold setCollectionInterval, truthy_opt in Hr.
  destruct (ii_hostId input) as [h|] eqn:Eh; simpl in *; run_handler; state_eq.
  - by eapply transition_eq; [apply t_interval_host|].
  - by eapply transition_eq; [apply t_interval_fleet|].
Qed.

Lemma refreshStorageBaseline_refines c input : refines (actor c) (refreshStorageBaseline c input).
Proof.
  intros w [reply|e] w' Hr; unfold refreshStorageBaseline in Hr; run_handler; try (by state_eq).
  state_eq. eapply t_baseline; [|done]. congruence.
Qed.

Lemma runtimes_approve_refines `{UrlLib, UnicodeCase} c input :
  refines (actor c) (runtimes_approve c input).
Proof.
  intros w [reply|e] w' Hr; unfold runtimes_approve in Hr; run_handler; try (by state_eq).
  state_eq. by eapply t_approve.
Qed.

Lemma backups_initiate_refines c input : refines (actor c) (backups_initiate c input).
Proof.
  intros w [reply|e] w' Hr; unfold backups_initiate in Hr; run_handler; try (by state_eq).
  state_eq. by eapply t_backup.
Qed.

Lemma queries_read :
  reads fleet_preview ∧ reads fleet_overview ∧ (∀ i, reads (fleet_host i))
  ∧ (∀ i, reads (alerts_forHost i)) ∧ reads rules_preview ∧ reads rules_list
  ∧ (∀ i, reads (audit_list i)).
Proof.
  repeat split; intros; intros w [reply|e] w' Hr;
    unfold fleet_preview, fleet_overview, fleet_host, alerts_forHost, rules_preview, rules_list,
      audit_list in Hr; run_handler; congruence.
Qed.
End Refinement.

(** ** Invariants of transitions *)

Definition audited (s : DevelopmentState) (action target : jsstr) : Prop :=
  ∃ e, e ∈ ds_audits s ∧ ev_action e = action ∧ ev_targetId e = Some target.

Record invariant (s : DevelopmentState) : Prop := {
  inv_rule_ids : NoDup (ar_id <$> ds_alertRules s);
  inv_rules : Forall (λ r, rule_schema r = true ∧ coherent_rule r) (ds_alertRules s);
  inv_interval : (1 ≤ ds_globalIntervalSeconds s ≤ 60)%Z;
  inv_overrides : map_Forall (λ h z, h ∈ known_hosts ∧ (1 ≤ z ≤ 60)%Z) (ds_hostOverrides s);
  inv_acknowledged : ∀ a, a ∈ ds_acknowledgedAlerts s →
    a ∈ known_alerts ∧ audited s (js "alert.acknowledge") a;
  inv_approved : ∀ r, r ∈ ds_approvedRuntimeIds s → audited s (js "runtime.approve") r
}.

Lemma invariant_initial : invariant developmentState.
Proof.
  split.
  - by apply (bool_decide_unpack (NoDup _)).
  - repeat apply Forall_cons_2; try apply Forall_nil_2; (split; [reflexivity|]);
      unfold coherent_rule; simpl; [|done..]. eexists; split; [done|]. set_solver.
  - simpl. lia.
  - apply map_Forall_singleton. split; [set_solver|lia].
  - set_solver.
  - set_solver.
Qed.

Lemma store_rule_ids rule rules :
  NoDup (ar_id <$> rules) → NoDup (ar_id <$> store_rule rule rules).
Proof.
  intros Hnd. unfold store_rule. destruct (js_findIndex _ _) as [i|] eqn:E.
  - apply js_findIndex_Some in E as (r & Hr & Heq). apply str_eqb_eq in Heq.
    rewrite list_fmap_insert, list_insert_id; [done|].
    rewrite list_lookup_fmap, Hr. simpl. by rewrite Heq.
  - rewrite js_findIndex_None in E. simpl. apply NoDup_cons. split; [|done].
    intros (r & Hr & Hin)%list_elem_of_fmap. specialize (E r Hin).
    rewrite Hr, str_eqb_refl in E. done.
Qed.

Lemma store_rule_Forall (P : AlertRule → Prop) rule rules :
  P rule → Forall P rules → Forall P (store_rule rule rules).
Proof.
  intros Hp Hf. unfold store_rule. destruct (js_findIndex _ _); [by apply Forall_insert|].
  by apply Forall_cons.
Qed.

Lemma audited_logged e f s action target :
  audited s action target → audited (logged e f s) action target.
Proof. intros (e' & He & ?). exists e'. split; [set_solver|done]. Qed.

Lemma audited_now e f s action target :
  ev_action e = action → ev_targetId e = Some target → audited (logged e f s) action target.
Proof. intros ? ?. exists e. split; [set_solver|done]. Qed.

Lemma transition_invariant actor s reply s' :
  transition actor s reply s' → invariant s → invariant s'.
Proof.
  intros Ht [H1 H2 H3 H4 H5 H6].
  destruct Ht; split; simpl in *; try done; try lia;
    try (intros x Hx; destruct (H5 x Hx); split; [done|]; by apply audited_logged);
    try (intros x Hx; apply audited_logged; by apply H6).
  - by apply store_rule_ids.
  - by apply store_rule_Forall.
  - intros x [Hx|Hx]%elem_of_union.
    + apply elem_of_singleton in Hx as ->. unfold audit_of in *. destruct_and!.
      split; [done|]. by apply audited_now.
    + destruct (H5 x Hx). split; [done|]. by apply audited_logged.
  - apply map_Forall_insert_2; [|done]. split; [done|lia].
  - intros x [Hx|Hx]%elem_of_union.
    + apply elem_of_singleton in Hx as ->. unfold audit_of in *. destruct_and!.
      by apply audited_now.
    + apply audited_logged. by apply H6.
Qed.
