(* ===== verification/RouterProps.v ===== *)
(** What the console API guarantees: refinement of the abstract transitions, authorization,
    the reachable-state invariant, the completeness of the audit log, and the privacy of
    approved endpoints. *)
From S2P Require Import Prelude JsString JsNumber Json Schema OAuthState Trpc Fixtures Router RouterSpec.

Section Calls.
Context `{JsMath, UrlLib, UnicodeCase, TrpcBuilder} {Raw : Type} `{!RouterInputs Raw}.

(** The outcomes of a procedure that a role guards. *)
Lemma guarded_call {In} m (parse : Raw → option In) (h : UserContext → In → M Reply) ctx raw w r w' :
  procedure_call fail (requireNodeScopeRole m) parse h ctx raw w = (r, w') →
  (∃ e, r = Err e ∧ w' = w)
  ∨ ∃ c i, requireNodeScopeRole m ctx = Ok c ∧ parse raw = Some i ∧ h c i w = (r, w').
Proof.
  intros Hr. destruct (procedure_cases fail (requireNodeScopeRole m) parse h ctx raw)
    as [(e & _ & E)|[(c & msg & _ & _ & E)|(c & i & Hc & Hi & E)]];
    rewrite E in Hr; [left|left|right]; unfold fail in *; simplify_eq; eauto.
Qed.

Lemma guarded_mutation {In} m (parse : Raw → option In) (h : UserContext → In → M Reply) ctx raw w r w' :
  (∀ c i, parse raw = Some i → refines (actor c) (h c i)) →
  procedure_call fail (requireNodeScopeRole m) parse h ctx raw w = (r, w') →
  match r with
  | Ok reply => ∃ u, ctx_user ctx = Some u
      ∧ transition (user_openId (au_user u)) (w_state w) reply (w_state w')
  | Err _ => w_state w' = w_state w
  end.
Proof.
  intros Hh [(e & -> & ->)|(c & i & Hc & Hi & Hr)]%guarded_call; [done|].
  specialize (Hh c i Hi w r w' Hr). destruct r; [|done].
  apply requireNodeScopeRole_ok in Hc as (Hu & _). eauto.
Qed.

Lemma guarded_query {In} m (parse : Raw → option In) (h : UserContext → In → M Reply) ctx raw w r w' :
  (∀ c i, reads (h c i)) →
  procedure_call fail (requireNodeScopeRole m) parse h ctx raw w = (r, w') →
  w_state w' = w_state w.
Proof.
  intros Hh [(e & -> & ->)|(c & i & Hc & Hi & Hr)]%guarded_call; [done|]. by eapply Hh.
Qed.

Lemma public_query (h : M Reply) ctx (raw : Raw) w r w' :
  reads h →
  procedure_call fail publicProcedure no_input (λ _ _, h) ctx raw w = (r, w') →
  w_state w' = w_state w.
Proof.
  intros Hh Hr. rewrite (call_ok _ _ _ _ _ _ ctx tt) in Hr by done. by eapply Hh.
Qed.

(** The effect of any call on the state. *)
Lemma router_effect p ctx raw w r w' :
  nodeScopeRouter p ctx raw w = (r, w') →
  if is_mutation p then
    match r with
    | Ok reply => ∃ u, ctx_user ctx = Some u
        ∧ transition (user_openId (au_user u)) (w_state w) reply (w_state w')
    | Err _ => w_state w' = w_state w
    end
  else w_state w' = w_state w.
Proof.
  destruct queries_read as (Q1 & Q2 & Q3 & Q4 & Q5 & Q6 & Q7).
  destruct p; simpl; intros Hr;
    first [ by eapply public_query in Hr
          | by eapply guarded_query in Hr
          | eapply guarded_mutation in Hr; [exact Hr|intros c i Hi] ].
  - apply rules_save_refines, (safeParse_sound rule_schema raw i Hi).
  - apply acknowledge_refines.
  - apply setCollectionInterval_refines, (safeParse_sound interval_schema raw i Hi).
  - apply refreshStorageBaseline_refines.
  - apply runtimes_approve_refines.
  - apply backups_initiate_refines.
Qed.

(** A template user who may do more than look is an administrator. *)
Lemma operator_is_admin m ctx c :
  requireNodeScopeRole m ctx = Ok c → m ≠ viewer →
  ctx_user ctx = Some (uc_user c) ∧ user_role_ (au_user (uc_user c)) = role_admin.
Proof.
  intros Hc Hm. apply requireNodeScopeRole_ok in Hc as (Hu & _ & r & Hr & Hle). split; [done|].
  unfold context_role in Hr. rewrite Hu in Hr. injection Hr as <-.
  destruct (user_role_ (au_user (uc_user c))); [|done]. by destruct m.
Qed.

Lemma mutation_role p ctx raw w reply w' :
  nodeScopeRouter p ctx raw w = (Ok reply, w') → is_mutation p = true →
  ∃ u, ctx_user ctx = Some u ∧ user_role_ (au_user u) = role_admin.
Proof.
  intros Hr Hm. destruct p; try done; simpl in Hr;
    apply guarded_call in Hr as [(e & [=] & _)|(c & i & Hc & _)];
    apply operator_is_admin in Hc as [? ?]; try done; eauto.
Qed.

(** C1. Every call of the console API refines the specification: a mutation that returns makes
    exactly one of the specified changes, with one audit record in the name of the signed-in
    caller; a call that throws, for whatever reason, and every query leave the state as it was. *)
Theorem router_refines p ctx raw w :
  match nodeScopeRouter p ctx raw w with
  | (Ok reply, w') =>
      if is_mutation p
      then ∃ u, ctx_user ctx = Some u
           ∧ transition (user_openId (au_user u)) (w_state w) reply (w_state w')
      else w_state w' = w_state w
  | (Err _, w') => w_state w' = w_state w
  end.
Proof.
  destruct (nodeScopeRouter p ctx raw w) as [r w'] eqn:E.
  apply router_effect in E. by destruct r, (is_mutation p).
Qed.

(** C10. Access control: without a signed-in user, or with a role below the one the procedure
    asks for, a call fails with UNAUTHORIZED or FORBIDDEN before its input is even parsed, and
    nothing at all has changed. *)
Theorem router_denies p ctx raw w m :
  required_role p = Some m →
  (∀ r, context_role ctx = Some r → (roleRank r < roleRank m)%Z) →
  ∃ e, nodeScopeRouter p ctx raw w = (Err e, w)
       ∧ te_code e = match ctx_user ctx with Some _ => FORBIDDEN | None => UNAUTHORIZED end.
Proof.
  intros Hm Hr.
  assert (∃ e, requireNodeScopeRole m ctx = Err e
    ∧ te_code e = match ctx_user ctx with Some _ => FORBIDDEN | None => UNAUTHORIZED end)
    as (e & He & Hc).
  { unfold requireNodeScopeRole, context_role in *. destruct (ctx_user ctx) as [u|]; [|eauto].
    rewrite (proj2 (Z.ltb_lt _ _) (Hr _ eq_refl)). eauto. }
  exists e. split; [|done].
  destruct p; simplify_eq/=;
    unfold viewerProcedure, operatorProcedure, administratorProcedure;
    by rewrite (call_denied _ _ _ _ _ _ e He).
Qed.

(** ** Reachable states *)

(** The states that any sequence of calls, by any callers, can lead to. *)
Inductive reachable : DevelopmentState → Prop :=
| reach_init : reachable developmentState
| reach_call w p ctx raw :
    reachable (w_state w) → reachable (w_state (snd (nodeScopeRouter p ctx raw w))).

(** C2. In every reachable state the alert rules have distinct identifiers, satisfy their
    schema and target what their scope says; every interval is between 1 and 60 seconds and
    belongs to a known host; only known alerts are acknowledged; and every acknowledgement and
    every approved runtime has its audit record. *)
Theorem reachable_invariant s : reachable s → invariant s.
Proof.
  induction 1 as [|w p ctx raw _ IH]; [apply invariant_initial|].
  destruct (nodeScopeRouter p ctx raw w) as [r w'] eqn:E. simpl.
  apply router_effect in E. destruct (is_mutation p); [|by rewrite E].
  destruct r as [reply|e]; [|by rewrite E].
  destruct E as (u & _ & Ht). by eapply transition_invariant.
Qed.

(** ** The audit log *)

(** A sequence of calls: the results and the final world. *)
Fixpoint run_calls (w : World) (cs : list (Procedure * TrpcContext * Raw))
    : list (result TRPCError Reply) * World :=
  match cs with
  | [] => ([], w)
  | (p, ctx, raw) :: cs' =>
      let '(r, w1) := nodeScopeRouter p ctx raw w in
      let '(rs, w2) := run_calls w1 cs' in (r :: rs, w2)
  end.

(** The callers of the mutations that returned, in the order of the calls. *)
Fixpoint acting (cs : list (Procedure * TrpcContext * Raw)) (rs : list (result TRPCError Reply))
    : list jsstr :=
  match cs, rs with
  | (p, ctx, _) :: cs', r :: rs' =>
      (if is_mutation p && is_ok r
       then match ctx_user ctx with Some u => [user_openId (au_user u)] | None => [] end
       else []) ++ acting cs' rs'
  | _, _ => []
  end.

Lemma transition_audits a s reply s' :
  transition a s reply s' → ∃ e, ds_audits s' = e :: ds_audits s ∧ ev_actorId e = a.
Proof. intros Ht. destruct Ht; unfold audit_of in *; destruct_and!; simpl; eauto. Qed.

(** C6. The audit log is append-only and complete: after any sequence of calls it is the old
    log with new records in front, one per successful mutation and none for anything else, and
    their actors are the callers, the latest first. *)
Theorem audit_log_complete cs w :
  let '(rs, w') := run_calls w cs in
  ∃ new, ds_audits (w_state w') = new ++ ds_audits (w_state w)
         ∧ ev_actorId <$> new = reverse (acting cs rs).
Proof.
  revert w. induction cs as [|[[p ctx] raw] cs IH]; intros w; simpl; [by exists []|].
  destruct (nodeScopeRouter p ctx raw w) as [r w1] eqn:E1.
  specialize (IH w1). destruct (run_calls w1 cs) as [rs w2].
  destruct IH as (new & Hn & Ha). apply router_effect in E1.
  assert (∃ l, ds_audits (w_state w1) = l ++ ds_audits (w_state w)
    ∧ ev_actorId <$> l = if is_mutation p && is_ok r
      then match ctx_user ctx with Some u => [user_openId (au_user u)] | None => [] end
      else []) as (l & Hl & Hla).
  { destruct (is_mutation p), r as [reply|e]; simpl; try (exists []; by rewrite E1).
    destruct E1 as (u & -> & (e & He & Hea)%transition_audits).
    exists [e]. simpl. by rewrite He, Hea. }
  exists (new ++ l). rewrite Hn, Hl, fmap_app, Ha, Hla, <- app_assoc. split; [done|].
  rewrite reverse_app. f_equal. by repeat case_match.
Qed.
End Calls.

(** ** Runtime approval *)

Section Endpoints.
Context `{JsMath, UrlLib, UnicodeCase}.

(** C25. The endpoint guard accepts exactly the URLs without credentials, query and fragment,
    whose path is the root or [/v1], over HTTPS, or over HTTP when the host is a loopback name;
    the transport it reports is the one of the URL. *)
Theorem endpoint_guard_spec raw t :
  validateRuntimeApprovalEndpoint raw = Ok t ↔
  ∃ u, URL_parse raw = Some u
    ∧ u_username u = [] ∧ u_password u = [] ∧ u_search u = [] ∧ u_hash u = []
    ∧ u_hostname u ≠ []
    ∧ (strip_one_trailing_slash (u_pathname u) = []
       ∨ strip_one_trailing_slash (u_pathname u) = js "/v1")
    ∧ match t with
      | https => u_protocol u = js "https:"
      | loopback_http => u_protocol u = js "http:"
          ∧ toLowerCase (u_hostname u) ∈ [js "localhost"; js "127.0.0.1"; js "::1"]
      end.
Proof.
  unfold validateRuntimeApprovalEndpoint, is_loopback_name.
  destruct (URL_parse raw) as [u|]; [|split; [done|naive_solver]].
  destruct (_ || negb (bool_decide (strip_one_trailing_slash _ ∈ _))) eqn:Eb.
  - split; [done|]. intros (u' & [= <-] & H1' & H2' & H3' & H4' & H5' & H6' & H7').
    rewrite H1', H2', H3', H4' in Eb. simpl in Eb.
    rewrite (proj2 (truthy_spec _) H5') in Eb. simpl in Eb.
    rewrite !bool_decide_eq_true_2 in Eb; [done|set_solver|].
    destruct t; destruct_and?; set_solver.
  - repeat (apply orb_false_iff in Eb as [Eb ?]). bool_to_prop.
    rewrite truthy_false in *. rewrite truthy_spec in *.
    destruct (str_eqb (u_protocol u) (js "http:")) eqn:Ep.
    + apply str_eqb_eq in Ep. destruct (negb _) eqn:El.
      * split; [done|]. intros (u' & [= <-] & _ & _ & _ & _ & _ & _ & Ht).
        apply negb_true_iff in El. bool_to_prop. rewrite !str_eqb_neq in *.
        destruct t; [by rewrite Ep in Ht|]. set_solver.
      * apply negb_false_iff in El. rewrite !orb_true_iff, !str_eqb_eq in El.
        split; [intros [= <-]|intros (u' & [= <-] & _ & _ & _ & _ & _ & _ & Ht)].
        -- exists u. repeat split; try done; set_solver.
        -- destruct t; [by rewrite Ep in Ht|done].
    + apply str_eqb_neq in Ep. split.
      * intros [= <-]. exists u. repeat split; try done; set_solver.
      * intros (u' & [= <-] & _ & _ & _ & _ & _ & _ & Ht). destruct t; [done|]. naive_solver.
Qed.

(** The IPv6 loopback address is refused over HTTP although the guard names it: the URL
    class writes IPv6 hosts in brackets, and the guard compares with the bare address. *)
Theorem ipv6_loopback_rejected raw u :
  URL_parse raw = Some u → u_protocol u = js "http:" → u_hostname u = js "[::1]" →
  ∃ e, validateRuntimeApprovalEndpoint raw = Err e ∧ te_code e = BAD_REQUEST.
Proof.
  intros Hu Hp Hh. unfold validateRuntimeApprovalEndpoint. rewrite Hu.
  destruct (_ || negb (bool_decide (strip_one_trailing_slash _ ∈ _))); [eauto|].
  rewrite Hp, Hh, toLowerCase_ascii by (vm_compute; repeat constructor). eauto.
Qed.

(** Approving a runtime stores nothing of its location: two approvals for the same host and
    kind, whose endpoints the guard answers alike, have the same result, candidate identifier
    and audit record included, and leave the same state. *)
Theorem approve_endpoint_private c i1 i2 w :
  ap_hostId i1 = ap_hostId i2 → ap_runtimeKind i1 = ap_runtimeKind i2 →
  validateRuntimeApprovalEndpoint (ap_endpoint i1) = validateRuntimeApprovalEndpoint (ap_endpoint i2) →
  runtimes_approve c i1 w = runtimes_approve c i2 w.
Proof. intros Hh Hk Hv. unfold runtimes_approve. by rewrite Hh, Hk, Hv. Qed.

(** ** What the queries show *)

(** The identifier, host and state of an alert as the console displays it. *)
Definition alert_view (a : Alert) : jsstr * jsstr * AlertState := (a_id a, a_hostId a, a_state a).

(** The fixture's alerts differ only in their dates from one snapshot to the next. *)
Lemma shown_views acked now1 now2 :
  alert_view <$> (shown_alert acked <$> fl_alerts (buildFleetSnapshot now1))
  = alert_view <$> (shown_alert acked <$> fl_alerts (buildFleetSnapshot now2)).
Proof. reflexivity. Qed.

(** The alerts of one host are the overview's alerts of that host: in the same state both
    queries show the same alerts with the same acknowledgement, whenever each is called. *)
Theorem forHost_agrees_with_overview hostId w l w' w1 f w1' :
  alerts_forHost {| hi_hostId := hostId |} w = (Ok (r_alerts l), w') →
  w_state w1 = w_state w →
  fleet_overview w1 = (Ok (r_snapshot f), w1') →
  alert_view <$> l
  = alert_view <$> js_filter (λ a, str_eqb (a_hostId a) hostId) (fl_alerts f).
Proof.
  intros Hl Hw Hf. unfold alerts_forHost in Hl. unfold fleet_overview in Hf.
  run_handler. cbn [fl_alerts hi_hostId].
  set (view_host := λ v : jsstr * jsstr * AlertState, str_eqb v.1.2 hostId).
  assert (∀ acked al, alert_view <$> (shown_alert acked <$> js_filter (λ a, str_eqb (a_hostId a) hostId) al)
    = js_filter view_host (alert_view <$> (shown_alert acked <$> al))) as Hv.
  { intros. by rewrite !js_filter_fmap. }
  rewrite Hv, (js_filter_fmap _ (shown_alert _)), Hv. state_eq.
  exact (f_equal (js_filter view_host) (shown_views _ _ _)).
Qed.

(** The rule with an identifier, as the evaluator of rules would look it up. *)
Definition rule_of (k : jsstr) (rules : list AlertRule) : option AlertRule :=
  js_find (λ r, str_eqb (ar_id r) k) rules.

Lemma store_rule_find rule rules k :
  rule_of k (store_rule rule rules) = if str_eqb (ar_id rule) k then Some rule else rule_of k rules.
Proof.
  unfold store_rule, rule_of. destruct (js_findIndex _ _) as [i|] eqn:E; [|simpl; by case_match].
  revert i E. induction rules as [|r rules IH]; intros i E; [done|]. simpl in E.
  destruct (str_eqb (ar_id r) (ar_id rule)) eqn:Er; simplify_eq/=.
  - apply str_eqb_eq in Er. rewrite Er. by case_match.
  - destruct (js_findIndex _ rules) as [j|] eqn:Ej; simplify_eq/=.
    rewrite (IH j eq_refl). destruct (str_eqb (ar_id r) k) eqn:Ek; [|done].
    apply str_eqb_eq in Ek as <-. destruct (str_eqb (ar_id rule) (ar_id r)) eqn:Ex; [|done].
    apply str_eqb_eq in Ex. by rewrite Ex, str_eqb_refl in Er.
Qed.

(** Saving a rule is an upsert by identifier: afterwards the list shows the rule under its
    identifier and every other rule as before, one rule longer at most. *)
Theorem saved_rule_listed c input w e w1 l w2 :
  rules_save c input w = (Ok (r_saved input e), w1) →
  rules_list w1 = (Ok (r_rules l), w2) →
  (∀ k, rule_of k l = if str_eqb (ar_id input) k then Some input
                      else rule_of k (ds_alertRules (w_state w)))
  ∧ length l = if rule_of (ar_id input) (ds_alertRules (w_state w)) is Some _
               then length (ds_alertRules (w_state w))
               else S (length (ds_alertRules (w_state w))).
Proof.
  intros Hs Hl. assert (l = store_rule input (ds_alertRules (w_state w))) as ->.
  { unfold rules_list in Hl. unfold rules_save in Hs. run_handler; by state_eq. }
  split; [apply store_rule_find|]. unfold store_rule, rule_of.
  destruct (js_findIndex _ _) as [i|] eqn:E.
  - rewrite length_insert. apply js_findIndex_Some in E as (r & Hr & Heq).
    destruct (js_find_is_Some (λ r, str_eqb (ar_id r) (ar_id input)) (ds_alertRules (w_state w)) r)
      as [r' Hr']; [by eapply list_elem_of_lookup_2|done|]. by rewrite Hr'.
  - rewrite js_findIndex_None in E. apply js_find_None in E. by rewrite E.
Qed.
End Endpoints.

(** ** Concrete instances *)

(** An input of any procedure, before it is parsed. *)
Inductive AnyInput :=
| any_host (i : HostInput) | any_rule (i : AlertRule) | any_acknowledge (i : AcknowledgeInput)
| any_interval (i : IntervalInput) | any_baseline (i : BaselineInput)
| any_approve (i : ApproveInput) | any_backup (i : BackupInput) | any_audit (i : AuditInput).

(** A parser that takes the inputs of one kind and checks their constraints. *)
Definition sum_input {In} (proj : AnyInput → option In) (schema : In → bool)
    : ZodInput AnyInput In schema.
Proof.
  refine {| safeParse r := i ← proj r; guard (schema i);; Some i |}.
  intros r i H. destruct (proj r) as [j|]; simpl in H; [|done].
  case_guard; simplify_eq/=. by apply Is_true_true.
Defined.

Definition example_inputs : RouterInputs AnyInput := {|
  zod_host := sum_input (λ r, match r with any_host i => Some i | _ => None end) _;
  zod_rule := sum_input (λ r, match r with any_rule i => Some i | _ => None end) _;
  zod_acknowledge := sum_input (λ r, match r with any_acknowledge i => Some i | _ => None end) _;
  zod_interval := sum_input (λ r, match r with any_interval i => Some i | _ => None end) _;
  zod_baseline := sum_input (λ r, match r with any_baseline i => Some i | _ => None end) _;
  zod_approve := sum_input (λ r, match r with any_approve i => Some i | _ => None end) _;
  zod_backup := sum_input (λ r, match r with any_backup i => Some i | _ => None end) _;
  zod_audit := sum_input (λ r, match r with any_audit i => Some i | _ => None end) _
|}.

(** The URL class on three texts, as the standard answers them. *)
Definition example_urls : UrlLib := {|
  URL_parse s :=
    let record protocol host path := Some {|
      u_protocol := protocol; u_username := []; u_password := []; u_hostname := host;
      u_port := js "8000"; u_pathname := path; u_search := []; u_hash := [] |} in
    if str_eqb s (js "http://[::1]:8000/v1") then record (js "http:") (js "[::1]") (js "/v1")
    else if str_eqb s (js "https://one.example:8000/") then record (js "https:") (js "one.example") (js "/")
    else if str_eqb s (js "https://two.example:8000/v1") then record (js "https:") (js "two.example") (js "/v1")
    else None
|}.

Definition example_world : World := {|
  w_state := developmentState; w_dates n := (1767225600000 + Z.of_nat n)%Z;
  w_uuids n := js "uuid-" ++ js_of_Z (Z.of_nat n); w_reads := 0; w_draws := 0;
  w_production := false
|}.

Definition example_user (role : user_role) : AuthenticatedUser := plain_user {|
  user_id := 1; user_openId := js "operator-1"; user_name := Some (js "Op"); user_email := None;
  user_loginMethod := None; user_role_ := role; user_createdAt := 0; user_updatedAt := 0;
  user_lastSignedIn := 0 |}.

Definition example_request : Request := {|
  req_protocol := js "https"; req_cookie := None; req_authorization := None;
  req_forwarded_proto := None; req_query := [] |}.

Definition example_context (role : user_role) : TrpcContext :=
  {| ctx_req := example_request; ctx_user := Some (example_user role) |}.

Definition example_caller : UserContext := {|
  uc_ctx := example_context role_admin; uc_user := example_user role_admin;
  uc_role := Some administrator |}.

Definition example_rule : AlertRule := {|
  ar_id := js "rule-new"; ar_metric := js "cpu"; ar_operator := op_lt; ar_threshold := num_of_Z 1;
  ar_durationSeconds := 60; ar_severity := info; ar_enabled := true; ar_scope := scope_host;
  ar_hostId := Some (js "asus") |}.

#[local] Existing Instances example_urls example_inputs.

(** ** The theorems at concrete inputs *)

Lemma router_denies_witness :
  (∀ r, context_role (example_context role_user) = Some r →
     (roleRank r < roleRank administrator)%Z)
  ∧ ∃ e, nodeScopeRouter p_runtimes_approve (example_context role_user)
           (any_backup {| bk_includeRawTelemetry := true |}) example_world = (Err e, example_world)
         ∧ te_code e = FORBIDDEN.
Proof.
  assert (∀ r, context_role (example_context role_user) = Some r →
    (roleRank r < roleRank administrator)%Z) as Hr.
  { intros r [= <-]. reflexivity. }
  split; [exact Hr|]. apply (router_denies p_runtimes_approve (example_context role_user)
    (any_backup {| bk_includeRawTelemetry := true |}) example_world administrator eq_refl Hr).
Defined.

Lemma reachable_invariant_witness :
  let w := snd (nodeScopeRouter p_rules_save (example_context role_admin)
                  (any_rule example_rule) example_world) in
  reachable (w_state w) ∧ invariant (w_state w).
Proof.
  cbv zeta. assert (reachable (w_state (snd (nodeScopeRouter p_rules_save
    (example_context role_admin) (any_rule example_rule) example_world)))) as Hr.
  { apply reach_call, reach_init. }
  split; [exact Hr|]. exact (reachable_invariant _ Hr).
Defined.

Lemma ipv6_loopback_rejected_witness :
  ∃ e, validateRuntimeApprovalEndpoint (js "http://[::1]:8000/v1") = Err e
       ∧ te_code e = BAD_REQUEST.
Proof. eapply ipv6_loopback_rejected; vm_compute; reflexivity. Defined.

Definition example_approval (endpoint : jsstr) : ApproveInput :=
  {| ap_hostId := js "asus"; ap_endpoint := endpoint; ap_runtimeKind := vllm |}.

Lemma approve_endpoint_private_witness :
  runtimes_approve example_caller (example_approval (js "https://one.example:8000/")) example_world
  = runtimes_approve example_caller (example_approval (js "https://two.example:8000/v1")) example_world.
Proof. apply approve_endpoint_private; vm_compute; reflexivity. Defined.

Lemma forHost_agrees_with_overview_witness :
  ∃ l f, alert_view <$> l
    = alert_view <$> js_filter (λ a, str_eqb (a_hostId a) (js "asus")) (fl_alerts f)
    ∧ length l = 2%nat.
Proof.
  destruct (alerts_forHost {| hi_hostId := js "asus" |} example_world) as [r w'] eqn:El.
  destruct (fleet_overview example_world) as [r' w1'] eqn:Ef.
  assert (∃ l, r = Ok (r_alerts l) ∧ length l = 2%nat) as (l & -> & Hl).
  { change r with (r, w').1. rewrite <- El. eexists. split; reflexivity. }
  assert (∃ f, r' = Ok (r_snapshot f)) as (f & ->).
  { change r' with (r', w1').1. rewrite <- Ef. eexists. reflexivity. }
  exists l, f. split; [|exact Hl].
  exact (forHost_agrees_with_overview (js "asus") example_world l w' example_world f w1' El eq_refl Ef).
Defined.

Lemma saved_rule_listed_witness :
  ∃ e l, rules_save example_caller example_rule example_world
           = (Ok (r_saved example_rule e), snd (rules_save example_caller example_rule example_world))
    ∧ rule_of (js "rule-new") l = Some example_rule ∧ length l = 4%nat.
Proof.
  destruct (rules_save example_caller example_rule example_world) as [r w1] eqn:Es.
  assert (∃ e, r = Ok (r_saved example_rule e)) as (e & ->).
  { change r with (r, w1).1. rewrite <- Es. eexists. reflexivity. }
  destruct (saved_rule_listed example_caller example_rule example_world e w1
    (ds_alertRules (w_state w1)) w1 Es eq_refl) as [Hf Hl].
  exists e, (ds_alertRules (w_state w1)). split; [reflexivity|].
  split; [exact (Hf (js "rule-new"))|exact Hl].
Defined.
