(* ===== verification/Node.v ===== *)
(** Effects of the server: asynchronous programs over the platform's operations, the traces they
    leave, and the reasoning principles the server components share. An [await] is an operation;
    the environment chooses every answer, so that a theorem about all executions is a theorem
    about all behaviours of the network, the database, the clock and the libraries. *)
From S2P Require Import Prelude JsString JsNumber Json Schema OAuthState Trpc.

(** ** Exceptions *)

(** What a [throw] or a rejected promise carries. *)
Inductive exn :=
| x_error (name message : jsstr)
| x_http (e : HttpError)
| x_trpc (e : TRPCError)
| x_value (text : jsstr).

Definition JsError (message : jsstr) : exn := x_error (js "Error") message.
Definition TypeError (message : jsstr) : exn := x_error (js "TypeError") message.

(** [e.message] when [e instanceof Error]. *)
Definition exn_message (e : exn) : option jsstr :=
  match e with
  | x_error _ m => Some m
  | x_http h => Some (he_message h)
  | x_trpc t => Some (te_message t)
  | x_value _ => None
  end.

Definition error_text (name message : jsstr) : jsstr :=
  if truthy message then name ++ js ": " ++ message else name.

(** [String(e)]. *)
Definition exn_text (e : exn) : jsstr :=
  match e with
  | x_error n m => error_text n m
  | x_http h => error_text (js "HttpError") (he_message h)
  | x_trpc t => error_text (js "TRPCError") (te_message t)
  | x_value s => s
  end.

(** ** HTTP *)

(** A part of a form: a text, or a file with its size, type and name. *)
Inductive FormPart := form_text (s : jsstr) | form_file (size : Z) (type filename : jsstr).

Inductive Body :=
| no_body | text_body (s : jsstr) | blob_body (size : Z) (type : jsstr)
| form_body (parts : list (jsstr * FormPart)).

Record FetchInit := {
  fi_method : option jsstr; fi_headers : list (jsstr * jsstr); fi_body : Body }.

(** A [Response]: reading its body may fail; binary bodies count by their size. *)
Record Response := {
  rs_status : Z; rs_statusText : jsstr; rs_header : jsstr → option jsstr;
  rs_text : result exn jsstr; rs_json : result exn json; rs_size : result exn Z;
  rs_cancel : result exn unit }.

(** [response.ok]. *)
Definition rs_ok (r : Response) : bool := ((200 <=? rs_status r)%Z && (rs_status r <=? 299)%Z)%bool.

(** Options of a cookie: SameSite is always [none] in this program. *)
Record CookieOptions := {
  co_httpOnly : option bool; co_path : jsstr; co_sameSite : jsstr; co_secure : bool;
  co_maxAge : option Z }.

(** What a handler does to an Express response. *)
Inductive ResAction :=
| res_json (status : Z) (body : json)
| res_send (status : Z) (body : jsstr)
| res_redirect (status : Z) (location : jsstr)
| res_set (header value : jsstr)
| res_cookie (name value : jsstr) (o : CookieOptions)
| res_clearCookie (name : jsstr) (o : CookieOptions).

(** ** Operations *)

Inductive LogLevel := log_info | log_warn | log_error.

#[export] Instance LogLevel_eq_dec : EqDecision LogLevel.
Proof. solve_decision. Defined.

(** The columns an [INSERT] names: the ones left out are [Undefined] or [None]. *)
Record UpdateSet := {
  up_name : field jsstr; up_email : field jsstr; up_loginMethod : field jsstr;
  up_role : option user_role; up_lastSignedIn : option Z }.

#[export] Instance UpdateSet_eq_dec : EqDecision UpdateSet.
Proof. solve_decision. Defined.

(** The three calls of the OAuth service, and what it answers to each. *)
Inductive AxiosRequest :=
| ax_exchange (payload : ExchangeTokenRequest)
| ax_user_info (accessToken : jsstr)
| ax_user_info_jwt (payload : GetUserInfoWithJwtRequest).

Definition axios_path (r : AxiosRequest) : jsstr :=
  match r with
  | ax_exchange _ => js "/webdev.v1.WebDevAuthPublicService/ExchangeToken"
  | ax_user_info _ => js "/webdev.v1.WebDevAuthPublicService/GetUserInfo"
  | ax_user_info_jwt _ => js "/webdev.v1.WebDevAuthPublicService/GetUserInfoWithJwt"
  end.

Definition axios_answer (r : AxiosRequest) : Type :=
  match r with ax_exchange _ => ExchangeTokenResponse | _ => UserInfo end.

(** What the server's application is composed of: handlers of a path, or of every request. *)
Inductive Layer :=
| use_json (limit : jsstr) | use_urlencoded (limit : jsstr)
| get_storage_proxy (path : jsstr) | get_oauth_callback (path : jsstr)
| use_trpc (path : jsstr)
| use_vite | use_vite_page | use_static (directory : jsstr) | use_index (file : jsstr).

#[export] Instance Layer_eq_dec : EqDecision Layer.
Proof. solve_decision. Defined.

Inductive op :=
| op_now | op_random | op_uuid
| op_sleep (ms : number)
| op_console (level : LogLevel) (entry : jsstr)
| op_fetch (url : jsstr) (init : FetchInit)
| op_axios_post (request : AxiosRequest)
| op_jwt_sign (secret : jsstr) (claims : list (jsstr * json)) (expirationSeconds : Z)
| op_jwt_verify (secret token : jsstr)
| op_db_cell
| op_set_db_cell (connected : bool)
| op_drizzle (url : jsstr)
| op_db_upsert (values : InsertUser) (set : UpdateSet)
| op_db_select (openId : jsstr)
| op_res (a : ResAction)
| op_listen (port : Z)
| op_mount (layer : Layer)
| op_vite_server
| op_exists (path : jsstr)
| op_serve (port : Z).

(** The type of the answer; [result exn] where the platform can fail. *)
Definition ans (o : op) : Type :=
  match o with
  | op_now => Z
  | op_random => number
  | op_uuid => jsstr
  | op_sleep _ | op_console _ _ | op_set_db_cell _ | op_res _ | op_mount _ => unit
  | op_fetch _ _ => result exn Response
  | op_axios_post r => result exn (axios_answer r)
  | op_jwt_sign _ _ _ => result exn jsstr
  | op_jwt_verify _ _ => result exn (list (jsstr * json))
  | op_db_cell => bool
  | op_drizzle _ => result exn unit
  | op_db_upsert _ _ => result exn unit
  | op_db_select _ => result exn (list User)
  | op_listen _ | op_exists _ | op_serve _ => bool
  | op_vite_server => result exn unit
  end.

(** ** Programs *)

Inductive prog (A : Type) : Type :=
| Ret (a : A)
| Throw (e : exn)
| Do (o : op) (k : ans o → prog A).
Arguments Ret {A} a.
Arguments Throw {A} e.
Arguments Do {A} o k.

Fixpoint bind {A B} (p : prog A) (f : A → prog B) : prog B :=
  match p with
  | Ret a => f a
  | Throw e => Throw e
  | Do o k => Do o (λ x, bind (k x) f)
  end.

#[export] Instance prog_ret : MRet prog := λ A a, Ret a.
#[export] Instance prog_bind : MBind prog := λ A B f p, bind p f.

(** [try { p } catch (e) { h(e) }]. *)
Fixpoint catch {A} (p : prog A) (h : exn → prog A) : prog A :=
  match p with
  | Ret a => Ret a
  | Throw e => h e
  | Do o k => Do o (λ x, catch (k x) h)
  end.

Definition from_result {A} (r : result exn A) : prog A :=
  match r with Ok a => Ret a | Err e => Throw e end.

(** One operation, awaited. *)
Definition perform (o : op) : prog (ans o) := Do o Ret.

Definition now : prog Z := perform op_now.
Definition random : prog number := perform op_random.
Definition uuid : prog jsstr := perform op_uuid.
Definition sleep (ms : number) : prog unit := perform (op_sleep ms).
Definition fetch (url : jsstr) (init : FetchInit) : prog Response :=
  Do (op_fetch url init) from_result.
Definition axios_post (r : AxiosRequest) : prog (axios_answer r) :=
  Do (op_axios_post r) from_result.
Definition jwt_sign (secret : jsstr) (claims : list (jsstr * json)) (exp : Z) : prog jsstr :=
  Do (op_jwt_sign secret claims exp) from_result.
Definition jwt_verify (secret token : jsstr) : prog (list (jsstr * json)) :=
  Do (op_jwt_verify secret token) from_result.
Definition respond (a : ResAction) : prog unit := perform (op_res a).

(** [v.k] on a value that came out of JSON: [null] has no properties. *)
Definition prop (k : jsstr) (v : json) : prog (option json) :=
  match v with
  | JNull => Throw (TypeError (js "Cannot read properties of null"))
  | _ => Ret (json_get k v)
  end.

(** An object literal to be serialised: members that are [undefined] are left out. *)
Definition object (l : list (jsstr * option json)) : json :=
  JObject (omap (λ kv, (λ v, (kv.1, v)) <$> kv.2) l).

(** ** Executions *)

Inductive event := Ev (o : op) (x : ans o).

(** [exec p t r]: with the answers recorded in [t], the program ends in [r]. *)
Fixpoint exec {A} (p : prog A) (t : list event) (r : result exn A) : Prop :=
  match p with
  | Ret a => t = [] ∧ r = Ok a
  | Throw e => t = [] ∧ r = Err e
  | Do o k => ∃ x t', t = Ev o x :: t' ∧ exec (k x) t' r
  end.

(** One execution, with the answers that [h] computes from a state. *)
Fixpoint run {A S} (h : ∀ o, S → ans o * S) (p : prog A) (s : S) : list event * result exn A * S :=
  match p with
  | Ret a => ([], Ok a, s)
  | Throw e => ([], Err e, s)
  | Do o k =>
      let '(x, s1) := h o s in
      let '(t, r, s2) := run h (k x) s1 in (Ev o x :: t, r, s2)
  end.

Lemma run_exec {A S} (h : ∀ o, S → ans o * S) (p : prog A) s :
  exec p (run h p s).1.1 (run h p s).1.2.
Proof.
  revert s. induction p as [a|e|o k IH]; intros s; simpl; [done|done|].
  destruct (h o s) as [x s1]. specialize (IH x s1).
  destruct (run h (k x) s1) as [[t r] s2]. simpl in *. eauto.
Qed.

(** ** Reasoning about executions *)

Definition event_date (e : event) : option Z :=
  match e with
  | Ev o x => match o return ans o → option Z with op_now => λ d, Some d | _ => λ _, None end x
  end.

Lemma ev_now_inj a b : Ev op_now a = Ev op_now b → a = b.
Proof. intros H%(f_equal event_date). by injection H. Qed.

#[local] Ltac destruct_and_ex :=
  repeat match goal with
  | H : ∃ _, _ |- _ => destruct H
  | H : _ ∧ _ |- _ => destruct H
  end; simplify_eq/=.

Lemma exec_bind {A B} (p : prog A) (f : A → prog B) t r :
  exec (bind p f) t r ↔
  (∃ e, r = Err e ∧ exec p t (Err e))
  ∨ ∃ a t1 t2, t = t1 ++ t2 ∧ exec p t1 (Ok a) ∧ exec (f a) t2 r.
Proof.
  revert t. induction p as [a|e|o k IH]; intros t; simpl.
  - split; [intros Hf; right; by exists a, [], t|]. intros Hf. destruct_or!; by destruct_and_ex.
  - split; [intros [-> ->]; left; eauto|]. intros Hf. destruct_or!; by destruct_and_ex.
  - setoid_rewrite IH. split.
    + intros (x & t' & -> & [(e & -> & Hx)|(a & t1 & t2 & -> & H1 & H2)]); [left; eauto 8|right].
      exists a, (Ev o x :: t1), t2. eauto 6.
    + intros [(e & -> & x & t' & -> & Hx)|(a & t1 & t2 & -> & (x & t' & -> & H1) & H2)].
      * exists x, t'. eauto.
      * exists x, (t' ++ t2). eauto 8.
Qed.

Lemma exec_catch {A} (p : prog A) (h : exn → prog A) t r :
  exec (catch p h) t r ↔
  (∃ a, r = Ok a ∧ exec p t (Ok a))
  ∨ ∃ e t1 t2, t = t1 ++ t2 ∧ exec p t1 (Err e) ∧ exec (h e) t2 r.
Proof.
  revert t. induction p as [a|e|o k IH]; intros t; simpl.
  - split; [intros [-> ->]; left; eauto|]. intros Hf. destruct_or!; by destruct_and_ex.
  - split; [intros Hf; right; by exists e, [], t|]. intros Hf. destruct_or!; by destruct_and_ex.
  - setoid_rewrite IH. split.
    + intros (x & t' & -> & [(a & -> & Hx)|(e & t1 & t2 & -> & H1 & H2)]); [left; eauto 8|right].
      exists e, (Ev o x :: t1), t2. eauto 6.
    + intros [(a & -> & x & t' & -> & Hx)|(e & t1 & t2 & -> & (x & t' & -> & H1) & H2)].
      * exists x, t'. eauto.
      * exists x, (t' ++ t2). eauto 8.
Qed.

(** [ops P p]: every operation that [p] can perform satisfies [P]. *)
Fixpoint ops {A} (P : op → Prop) (p : prog A) : Prop :=
  match p with
  | Ret _ | Throw _ => True
  | Do o k => P o ∧ ∀ x, ops P (k x)
  end.

Definition event_op (e : event) : op := match e with Ev o _ => o end.

Lemma ops_exec {A} (P : op → Prop) (p : prog A) t r :
  ops P p → exec p t r → Forall (λ e, P (event_op e)) t.
Proof.
  revert t. induction p as [a|e|o k IH]; intros t; simpl.
  - by intros _ [-> _].
  - by intros _ [-> _].
  - intros [Ho Hk] (x & t' & -> & H). constructor; [done|]. by eapply IH.
Qed.

Lemma ops_weaken {A} (P Q : op → Prop) (p : prog A) :
  (∀ o, P o → Q o) → ops P p → ops Q p.
Proof.
  intros HPQ. induction p as [a|e|o k IH]; simpl; [done|done|]. intros [??]. split; auto.
Qed.

Lemma ops_bind {A B} (P : op → Prop) (p : prog A) (f : A → prog B) :
  ops P p → (∀ a, ops P (f a)) → ops P (bind p f).
Proof. induction p as [a|e|o k IH]; simpl; [by eauto|done|]. intros [??] ?. split; auto. Qed.

Lemma ops_catch {A} (P : op → Prop) (p : prog A) (h : exn → prog A) :
  ops P p → (∀ e, ops P (h e)) → ops P (catch p h).
Proof. induction p as [a|e|o k IH]; simpl; [done|by eauto|]. intros [??] ?. split; auto. Qed.

Lemma ops_from_result {A} (P : op → Prop) (r : result exn A) : ops P (from_result r).
Proof. by destruct r. Qed.

(** [returns p]: no execution of [p] ends in an exception. *)
Fixpoint returns {A} (p : prog A) : Prop :=
  match p with
  | Ret _ => True
  | Throw _ => False
  | Do o k => ∀ x, returns (k x)
  end.

Lemma returns_exec {A} (p : prog A) t r : returns p → exec p t r → ∃ a, r = Ok a.
Proof.
  revert t. induction p as [a|e|o k IH]; intros t; simpl; [|done|].
  - intros _ [_ ->]. eauto.
  - intros Hr (x & t' & _ & H). by eapply IH.
Qed.

Lemma returns_bind {A B} (p : prog A) (f : A → prog B) :
  returns p → (∀ a, returns (f a)) → returns (bind p f).
Proof. induction p; simpl; eauto. Qed.

Lemma returns_catch {A} (p : prog A) (h : exn → prog A) :
  (∀ e, returns (h e)) → returns (catch p h).
Proof. induction p; simpl; eauto. Qed.

(** [throws P p]: every exception that can leave [p] satisfies [P]. *)
Fixpoint throws {A} (P : exn → Prop) (p : prog A) : Prop :=
  match p with
  | Ret _ => True
  | Throw e => P e
  | Do o k => ∀ x, throws P (k x)
  end.

Lemma throws_exec {A} P (p : prog A) t e : throws P p → exec p t (Err e) → P e.
Proof.
  revert t. induction p as [a|e'|o k IH]; intros t; simpl.
  - by intros _ [_ [=]].
  - by intros H [_ [= ->]].
  - intros Hr (x & t' & _ & H). by eapply IH.
Qed.

(** Follows an execution, one operation or call at a time; an answer that may be an error is
    split at once, so that the rest of the program computes. *)
Ltac exec_step H :=
  lazymatch type of H with
  | ∃ _ _, _ = Ev _ _ :: _ ∧ _ =>
      let x := fresh "x" in let t := fresh "t" in
      destruct H as (x & t & ? & H); simpl in x;
      lazymatch type of x with result _ _ => destruct x as [x|x] | unit => destruct x | _ => idtac end
  | ?t = [] ∧ _ => destruct H as [? ?]
  | exec (mret _) _ _ => destruct H as [? ?]
  | exec (_ ≫= _) _ _ => apply exec_bind in H; destruct H as [(? & ? & H)|(? & ? & ? & ? & ? & H)]
  | exec (prog_bind _ _ _ _) _ _ => apply exec_bind in H; destruct H as [(? & ? & H)|(? & ? & ? & ? & ? & H)]
  | exec (bind _ _) _ _ => apply exec_bind in H; destruct H as [(? & ? & H)|(? & ? & ? & ? & ? & H)]
  | exec (catch _ _) _ _ => apply exec_catch in H; destruct H as [(? & ? & H)|(? & ? & ? & ? & ? & H)]
  | exec (from_result ?r) _ _ => destruct r eqn:?
  | exec (match ?x with _ => _ end) _ _ => destruct x eqn:?
  end.

Ltac run_prog :=
  simpl in *;
  repeat match goal with
  | H : _ |- _ => progress (exec_step H); simplify_eq/=
  | H : _ ∧ exec _ _ _ |- _ => destruct H
  end.

(** Proves that every operation of a program satisfies a predicate, by going through it. *)
Ltac ops_step :=
  simpl;
  match goal with
  | |- True => exact I
  | |- _ ∧ (∀ _, _) => split; [eauto with nodescope|]
  | |- ∀ x : result _ _, _ => intros [?|?]
  | |- ∀ _, _ => intro
  | |- ops _ (match ?x with _ => _ end) => destruct x eqn:?
  | |- ops _ (_ ≫= _) => apply ops_bind
  | |- ops _ (bind _ _) => apply ops_bind
  | |- ops _ (prog_bind _ _ _ _) => apply ops_bind
  | |- ops _ (catch _ _) => apply ops_catch
  | |- ops _ (from_result _) => apply ops_from_result
  | |- ops _ _ => solve [eauto with nodescope]
  end.

Ltac ops_tac := repeat ops_step.

(** ** Requests and pauses of a trace *)

Definition fetch_answer (e : event) : option (result exn Response) :=
  match e with
  | Ev o x =>
      match o return ans o → option (result exn Response) with
      | op_fetch _ _ => λ r, Some r
      | _ => λ _, None
      end x
  end.

(** The answers to the requests of a trace, in order. *)
Definition fetches (tr : list event) : list (result exn Response) := omap fetch_answer tr.

Definition pause (e : event) : option number :=
  match event_op e with op_sleep ms => Some ms | _ => None end.

Definition pauses (tr : list event) : list number := omap pause tr.

Lemma fetches_app tr1 tr2 : fetches (tr1 ++ tr2) = fetches tr1 ++ fetches tr2.
Proof. apply omap_app. Qed.
Lemma pauses_app tr1 tr2 : pauses (tr1 ++ tr2) = pauses tr1 ++ pauses tr2.
Proof. apply omap_app. Qed.
Lemma fetches_cons e tr :
  fetches (e :: tr) = match fetch_answer e with Some r => [r] | None => [] end ++ fetches tr.
Proof. unfold fetches. simpl. by destruct (fetch_answer e). Qed.
Lemma pauses_cons e tr :
  pauses (e :: tr) = match pause e with Some d => [d] | None => [] end ++ pauses tr.
Proof. unfold pauses. simpl. by destruct (pause e). Qed.

(** Operations that neither ask the network nor wait. *)
Definition local_op (o : op) : Prop :=
  match o with op_fetch _ _ | op_sleep _ => False | _ => True end.

Lemma local_trace tr :
  Forall (λ e, local_op (event_op e)) tr → fetches tr = [] ∧ pauses tr = [].
Proof.
  unfold fetches, pauses. induction 1 as [|[o x] tr Ho _ [IH1 IH2]]; [done|]. simpl.
  destruct o; simpl in *; done.
Qed.

(** ** Responses of a trace *)

Definition is_final (e : event) : bool :=
  match event_op e with
  | op_res (res_json _ _) | op_res (res_send _ _) | op_res (res_redirect _ _) => true
  | _ => false
  end.

(** How many times a trace answers the request. *)
Definition answers (tr : list event) : nat := length (js_filter is_final tr).

Lemma answers_app tr1 tr2 : answers (tr1 ++ tr2) = answers tr1 + answers tr2.
Proof. unfold answers. by rewrite js_filter_app, length_app. Qed.

Lemma answers_cons e tr : answers (e :: tr) = (if is_final e then 1 else 0) + answers tr.
Proof. unfold answers, js_filter. simpl. by destruct (is_final e). Qed.

Definition not_res (o : op) : Prop := match o with op_res _ => False | _ => True end.

Lemma answers_silent tr : Forall (λ e, not_res (event_op e)) tr → answers tr = 0.
Proof.
  unfold answers, js_filter. induction 1 as [|e tr He _ IH]; [done|]. simpl.
  unfold is_final at 1. by destruct (event_op e) as [| | | | | | | | | | | | | |[]| | | | |].
Qed.
