(* ===== verification/Logger.v ===== *)
(** Configuration ([server/_core/env.ts]) and structured diagnostics ([server/_core/logger.ts]). *)
From S2P Require Import Prelude JsString JsNumber Json Schema OAuthState Trpc Node.

(** ** Configuration *)

(** [process.env], which the program only reads. *)
Class ProcessEnv := { process_env : jsstr → option jsstr }.

Section Env.
Context `{ProcessEnv}.

Definition env_or_empty (name : jsstr) : jsstr := default [] (process_env name).

Definition ENV_appId : jsstr := env_or_empty (js "VITE_APP_ID").
Definition ENV_cookieSecret : jsstr := env_or_empty (js "JWT_SECRET").
Definition ENV_databaseUrl : jsstr := env_or_empty (js "DATABASE_URL").
Definition ENV_oAuthServerUrl : jsstr := env_or_empty (js "OAUTH_SERVER_URL").
Definition ENV_ownerOpenId : jsstr := env_or_empty (js "OWNER_OPEN_ID").
Definition ENV_isProduction : bool :=
  bool_decide (process_env (js "NODE_ENV") = Some (js "production")).
Definition ENV_forgeApiUrl : jsstr := env_or_empty (js "BUILT_IN_FORGE_API_URL").
Definition ENV_forgeApiKey : jsstr := env_or_empty (js "BUILT_IN_FORGE_API_KEY").
End Env.

(** ** Diagnostics *)

(** The values a field may have. *)
Inductive FieldValue :=
| fv_string (s : jsstr) | fv_number (n : number) | fv_bool (b : bool) | fv_null | fv_undefined.

Definition SafeFields := list (jsstr * FieldValue).

Definition sensitiveWords : list jsstr :=
  [js "authorization"; js "cookie"; js "credential"; js "endpoint"; js "key"; js "password";
   js "secret"; js "token"; js "url"].

(** [sensitiveKey.test(key)]: the pattern is an alternation, without regard to case. *)
Definition sensitiveKey (key : jsstr) : bool := existsb (λ w, includes_i w key) sensitiveWords.

Definition safe_value (v : FieldValue) : FieldValue :=
  match v with fv_string s => fv_string (take 128 s) | _ => v end.

Definition safeFields (fields : SafeFields) : SafeFields :=
  omap (λ kv, if sensitiveKey kv.1 then None else Some (kv.1, safe_value kv.2)) fields.

(** What [JSON.stringify] writes for a member; [undefined] leaves the member out. *)
Definition field_json (v : FieldValue) : option json :=
  match v with
  | fv_string s => Some (JString s)
  | fv_number n => Some (JNumber n)
  | fv_bool b => Some (JBool b)
  | fv_null => Some JNull
  | fv_undefined => None
  end.

Definition level_text (l : LogLevel) : jsstr :=
  match l with log_info => js "info" | log_warn => js "warn" | log_error => js "error" end.

(** [{ level, event, ...safe }]: a later member with the same name takes the earlier's place. *)
Definition spread (base : list (jsstr * FieldValue)) (more : SafeFields) : list (jsstr * FieldValue) :=
  foldl (λ acc kv,
    match list_find (λ p, p.1 = kv.1) acc with
    | Some (i, _) => <[i := kv]> acc
    | None => acc ++ [kv]
    end) base more.

Definition log_members (level : LogLevel) (event : jsstr) (fields : SafeFields) : list (jsstr * FieldValue) :=
  spread [(js "level", fv_string (level_text level)); (js "event", fv_string event)]
    (safeFields fields).

Definition log_entry (level : LogLevel) (event : jsstr) (fields : SafeFields) : jsstr :=
  stringify (object ((λ kv, (kv.1, field_json kv.2)) <$> log_members level event fields)).

Definition write (level : LogLevel) (event : jsstr) (fields : SafeFields) : prog unit :=
  perform (op_console level (log_entry level event fields)).

Definition logger_info (event : jsstr) (fields : SafeFields) : prog unit := write log_info event fields.
Definition logger_warn (event : jsstr) (fields : SafeFields) : prog unit := write log_warn event fields.
Definition logger_error (event : jsstr) (fields : SafeFields) : prog unit := write log_error event fields.

(** ** What reaches the console *)

Lemma spread_members base more kv :
  kv ∈ spread base more → kv ∈ base ∨ kv ∈ more.
Proof.
  unfold spread. revert base. induction more as [|m more IH]; intros base; simpl; [by left|].
  intros [Hb|Hm]%IH; [|right; by right].
  destruct (list_find _ base) as [[i p]|] eqn:E.
  - apply list_elem_of_lookup in Hb as [j Hj]. destruct (decide (i = j)) as [->|Hne].
    + apply list_lookup_insert_Some in Hj as [(_ & <- & _)|[? _]]; [right; by left|done].
    + rewrite list_lookup_insert_ne in Hj by done. left. by eapply list_elem_of_lookup_2.
  - apply elem_of_app in Hb as [Hb|Hb]; [by left|]. apply list_elem_of_singleton in Hb as ->. right. left.
Qed.

(** A member the caller supplied has a name without a sensitive word and, if it is a text, at
    most 128 code units. *)
Lemma safeFields_safe fields kv :
  kv ∈ safeFields fields →
  sensitiveKey kv.1 = false ∧ match kv.2 with fv_string s => (length s ≤ 128)%nat | _ => True end
  ∧ ∃ v, (kv.1, v) ∈ fields.
Proof.
  unfold safeFields. intros ([k v] & Hin & Hk)%list_elem_of_omap. simpl in Hk.
  destruct (sensitiveKey k) eqn:E; simplify_eq/=. split; [done|]. split; [|eauto].
  destruct v; simpl; try done. rewrite length_take. lia.
Qed.

(** Two field lists that a reader of the log must not tell apart: the same names in the same
    order, where the value of a sensitive one is arbitrary and texts agree on 128 units. *)
Definition log_equivalent : SafeFields → SafeFields → Prop :=
  Forall2 (λ a b, a.1 = b.1 ∧ (sensitiveKey a.1 = true ∨ safe_value a.2 = safe_value b.2)).

Lemma log_equivalent_safeFields fields fields' :
  log_equivalent fields fields' → safeFields fields = safeFields fields'.
Proof.
  unfold safeFields. induction 1 as [|[k v] [k' v'] l l' [Hk Hv] _ IH]; [done|]. simpl in *.
  subst k'. destruct (sensitiveKey k) eqn:E; simpl; [exact IH|].
  destruct Hv as [?|Hv]; [congruence|]. rewrite Hv. f_equal. exact IH.
Qed.

(** C32. Diagnostics are bounded and keep secrets: every member of a log entry other than its
    level and event has a name that contains none of the sensitive words, in any case, and a
    text value of at most 128 code units; and the entry does not depend on the value of a
    sensitive field, nor on what follows the first 128 units of a text. *)
Theorem log_entries_safe level event fields :
  (∀ k v, (k, v) ∈ log_members level event fields →
     (k = js "level" ∧ v = fv_string (level_text level)) ∨ (k = js "event" ∧ v = fv_string event)
     ∨ (sensitiveKey k = false ∧ match v with fv_string s => (length s ≤ 128)%nat | _ => True end))
  ∧ ∀ fields', log_equivalent fields fields' →
      log_entry level event fields = log_entry level event fields'.
Proof.
  split.
  - intros k v [Hb|Hs]%spread_members.
    + set_unfold. destruct Hb as [[= -> ->]|[[= -> ->]|[]]]; auto.
    + right. right. apply safeFields_safe in Hs as (? & ? & _). done.
  - intros f' Hf%log_equivalent_safeFields. unfold log_entry, log_members. by rewrite Hf.
Qed.
