(* ===== verification/Users.v ===== *)
(** The user table behind [server/db.ts]: the lazily opened database, the upsert and the lookup,
    with the effect they have on the table. *)
From S2P Require Import Prelude JsString JsNumber Json Schema OAuthState Trpc Node Logger.

Section Users.
Context `{ProcessEnv}.

(** The result says whether there is a database; the module variable keeps the connection. *)
Definition getDb : prog bool :=
  _db ← perform op_db_cell;
  (match process_env (js "DATABASE_URL") with
   | Some url =>
       if negb _db && truthy url then
         catch (Do (op_drizzle url) from_result;; perform (op_set_db_cell true))
               (λ _, logger_warn (js "database.connect_failed") [];; perform (op_set_db_cell false))
       else Ret tt
   | None => Ret tt
   end);;
  perform op_db_cell.

(** [updateSet] before the default for an empty one; [values] has the same columns. *)
Definition assigned (user : InsertUser) : UpdateSet := {|
  up_name := ins_name user; up_email := ins_email user; up_loginMethod := ins_loginMethod user;
  up_role := match ins_role user with
             | Some role => Some role
             | None => if str_eqb (ins_openId user) ENV_ownerOpenId then Some role_admin else None
             end;
  up_lastSignedIn := ins_lastSignedIn user |}.

(** [Object.keys(updateSet).length === 0]. *)
Definition is_empty (s : UpdateSet) : bool :=
  bool_decide (s = {| up_name := Undefined; up_email := Undefined; up_loginMethod := Undefined;
                      up_role := None; up_lastSignedIn := None |}).

Definition with_lastSignedIn (d : Z) (s : UpdateSet) : UpdateSet := {|
  up_name := up_name s; up_email := up_email s; up_loginMethod := up_loginMethod s;
  up_role := up_role s; up_lastSignedIn := Some d |}.

Definition values_of (openId : jsstr) (s : UpdateSet) (lastSignedIn : Z) : InsertUser := {|
  ins_openId := openId; ins_name := up_name s; ins_email := up_email s;
  ins_loginMethod := up_loginMethod s; ins_role := up_role s;
  ins_lastSignedIn := Some lastSignedIn |}.

Definition upsertUser (user : InsertUser) : prog unit :=
  if negb (truthy (ins_openId user)) then Throw (JsError (js "User openId is required for upsert"))
  else
    db ← getDb;
    if negb db then logger_warn (js "database.upsert_unavailable") []
    else
      catch
        (let updateSet := assigned user in
         lastSignedIn ← match up_lastSignedIn updateSet with Some d => Ret d | None => now end;
         updateSet' ← (if is_empty updateSet then d ← now; Ret (with_lastSignedIn d updateSet)
                       else Ret updateSet);
         Do (op_db_upsert (values_of (ins_openId user) updateSet lastSignedIn) updateSet') from_result)
        (λ error, logger_error (js "database.upsert_failed") [];; Throw error).

Definition getUserByOpenId (openId : jsstr) : prog (option User) :=
  db ← getDb;
  if negb db then logger_warn (js "database.lookup_unavailable") [];; Ret None
  else rows ← Do (op_db_select openId) from_result; Ret (head rows).
End Users.

(** ** The table *)

(** The rows by their unique [openId]. *)
Abbreviation Table := (gmap jsstr User).

(** A column after an update: kept when the update does not name it. *)
Definition set_text (f : field jsstr) (old : option jsstr) : option jsstr :=
  match f with Undefined => old | Null => None | Value s => Some s end.

(** [INSERT ... ON DUPLICATE KEY UPDATE] as MySQL documents it: with the row absent the values
    are inserted, with the defaults of the schema for the columns left out; with the row present
    only the columns of the set change, and [updatedAt]. *)
Definition apply_upsert (clock id : Z) (values : InsertUser) (set : UpdateSet) (t : Table) : Table :=
  <[ins_openId values :=
    match t !! ins_openId values with
    | Some u => {|
        user_id := user_id u; user_openId := user_openId u;
        user_name := set_text (up_name set) (user_name u);
        user_email := set_text (up_email set) (user_email u);
        user_loginMethod := set_text (up_loginMethod set) (user_loginMethod u);
        user_role_ := default (user_role_ u) (up_role set);
        user_createdAt := user_createdAt u; user_updatedAt := clock;
        user_lastSignedIn := default (user_lastSignedIn u) (up_lastSignedIn set) |}
    | None => {|
        user_id := id; user_openId := ins_openId values;
        user_name := field_option (ins_name values); user_email := field_option (ins_email values);
        user_loginMethod := field_option (ins_loginMethod values);
        user_role_ := default role_user (ins_role values);
        user_createdAt := clock; user_updatedAt := clock;
        user_lastSignedIn := default clock (ins_lastSignedIn values) |}
    end]> t.

(** What the module and the database hold: whether a connection is open, and the table. *)
Record Store := { db_connected : bool; db_users : Table }.

(** [served s tr s']: the answers in the trace [tr] are those of the store, which goes from [s]
    to [s']: the module variable answers with what was last assigned, a lookup with the row; an
    upsert that succeeds changes the row, at some time and with some fresh identifier, and one
    that fails does not. *)
Fixpoint served (s : Store) (tr : list event) (s' : Store) : Prop :=
  match tr with
  | [] => s' = s
  | Ev o x :: tr' =>
      match o return ans o → Prop with
      | op_db_cell => λ b, b = db_connected s ∧ served s tr' s'
      | op_set_db_cell b => λ _, served {| db_connected := b; db_users := db_users s |} tr' s'
      | op_db_upsert v u => λ x,
          match x with
          | Ok _ => ∃ clock id,
              served {| db_connected := db_connected s;
                        db_users := apply_upsert clock id v u (db_users s) |} tr' s'
          | Err _ => served s tr' s'
          end
      | op_db_select k => λ x,
          match x with
          | Ok rows => rows = match db_users s !! k with Some u => [u] | None => [] end
                       ∧ served s tr' s'
          | Err _ => served s tr' s'
          end
      | _ => λ _, served s tr' s'
      end x
  end.

Lemma served_app s tr1 tr2 s' :
  served s (tr1 ++ tr2) s' ↔ ∃ s1, served s tr1 s1 ∧ served s1 tr2 s'.
Proof.
  revert s. induction tr1 as [|[o x] tr1 IH]; intros s; simpl.
  - split; [eauto|by intros (? & -> & ?)].
  - destruct o; try apply IH; try destruct x; setoid_rewrite IH; naive_solver.
Qed.

(** Operations that leave the table alone. *)
Definition no_upsert (o : op) : Prop := match o with op_db_upsert _ _ => False | _ => True end.

Lemma served_no_upsert s tr s' :
  Forall (λ e, no_upsert (event_op e)) tr → served s tr s' → db_users s' = db_users s.
Proof.
  intros Hf. revert s. induction Hf as [|[o x] tr Ho _ IH]; intros s; simpl; [by intros ->|].
  destruct o; simpl in Ho; try done; try apply IH; intros Hs.
  - by destruct Hs as [_ ?%IH].
  - apply IH in Hs. done.
  - destruct x; [destruct Hs as [_ Hs]|]; by apply IH in Hs.
Qed.

(** ** What the operations do to the table *)

Section Effect.
Context `{ProcessEnv}.

(** The operations of this component: the clock, the database, and diagnostics that are
    constants. *)
Definition store_events : list jsstr :=
  [js "database.connect_failed"; js "database.upsert_unavailable"; js "database.upsert_failed";
   js "database.lookup_unavailable"].

Definition store_op (o : op) : Prop :=
  match o with
  | op_now | op_db_cell | op_set_db_cell _ | op_drizzle _ | op_db_upsert _ _ | op_db_select _ => True
  | op_console level entry => ∃ event, event ∈ store_events ∧ entry = log_entry level event []
  | _ => False
  end.

#[global] Arguments store_op : simpl never.

Lemma store_op_console level event :
  bool_decide (event ∈ store_events) = true → store_op (op_console level (log_entry level event [])).
Proof. intros ?%bool_decide_eq_true. by exists event. Qed.

#[local] Hint Extern 1 (store_op _) => exact I : nodescope.
#[local] Hint Extern 1 (store_op (op_console _ _)) =>
  apply store_op_console; vm_compute; reflexivity : nodescope.

Lemma getDb_ops : ops store_op getDb.
Proof. unfold getDb. ops_tac. Qed.
#[local] Hint Resolve getDb_ops : nodescope.
#[local] Opaque getDb.

Lemma upsertUser_ops u : ops store_op (upsertUser u).
Proof. unfold upsertUser. ops_tac. Qed.

Lemma getUserByOpenId_ops k : ops store_op (getUserByOpenId k).
Proof. unfold getUserByOpenId. ops_tac. Qed.
#[local] Transparent getDb.

(** The row of a user after an upsert of [user]: what it names is set, the rest is kept or has
    its default; the owner becomes an administrator unless a role is named. *)
Definition upserted (user : InsertUser) (old : option User) (u : User) : Prop :=
  user_name u = set_text (ins_name user) (old ≫= user_name)
  ∧ user_email u = set_text (ins_email user) (old ≫= user_email)
  ∧ user_loginMethod u = set_text (ins_loginMethod user) (old ≫= user_loginMethod)
  ∧ user_role_ u = match ins_role user with
                   | Some role => role
                   | None => if str_eqb (ins_openId user) ENV_ownerOpenId then role_admin
                             else default role_user (user_role_ <$> old)
                   end
  ∧ (∀ d, ins_lastSignedIn user = Some d → user_lastSignedIn u = d)
  ∧ user_openId u = from_option user_openId (ins_openId user) old
  ∧ (∀ o, old = Some o → user_id u = user_id o ∧ user_createdAt u = user_createdAt o).

Lemma apply_upsert_upserted clock id user last set t :
  set = assigned user ∨ (∃ d, set = with_lastSignedIn d (assigned user) ∧ ins_lastSignedIn user = None) →
  (∀ d, ins_lastSignedIn user = Some d → last = d) →
  ∃ u, apply_upsert clock id (values_of (ins_openId user) (assigned user) last) set t
       = <[ins_openId user := u]> t
       ∧ upserted user (t !! ins_openId user) u.
Proof.
  intros Hset Hl. eexists. split; [reflexivity|]. unfold upserted. simpl.
  assert (∀ r, default r (up_role (assigned user)) = match ins_role user with
    | Some role => role
    | None => if str_eqb (ins_openId user) ENV_ownerOpenId then role_admin else r end) as Hr.
  { intros r. simpl. by destruct (ins_role user), (str_eqb (ins_openId user) ENV_ownerOpenId). }
  destruct (t !! ins_openId user) as [o|]; simpl; [|rewrite Hr; naive_solver].
  destruct Hset as [->|(d & -> & Hd)]; simpl; simpl in Hr; rewrite Hr; repeat split;
    intros; simplify_eq; try done.
  by match goal with Hs : ins_lastSignedIn user = _ |- _ => rewrite Hs end.
Qed.

(** After [getDb] the module variable is what it answered, and an open connection stays open. *)
Lemma getDb_effect s tr r s' :
  exec getDb tr r → served s tr s' →
  r = Ok (db_connected s') ∧ db_users s' = db_users s
  ∧ (db_connected s = true → db_connected s' = true).
Proof.
  intros He Hs. unfold getDb in He. run_prog; destruct_and?; simplify_eq/=;
    bool_to_prop; repeat split; congruence.
Qed.
#[local] Opaque getDb.

(** Splits the trace between the calls and replaces a call of [getDb] by its effect. *)
Ltac split_served :=
  repeat match goal with
  | Hs : served _ (_ ++ _) _ |- _ => apply served_app in Hs as (? & ? & ?)
  | Hg : exec getDb _ _, Hs : served _ _ _ |- _ =>
      destruct (getDb_effect _ _ _ _ Hg Hs) as (? & ? & ?); clear Hg
  end; destruct_and?; simplify_eq/=; try done.

Lemma getUserByOpenId_effect k s tr r s' :
  exec (getUserByOpenId k) tr r → served s tr s' →
  db_users s' = db_users s
  ∧ match r with
    | Ok o => o = if db_connected s' then db_users s !! k else None
    | Err _ => True
    end.
Proof.
  intros He Hs. unfold getUserByOpenId in He. run_prog; split_served.
  all: bool_to_prop; repeat case_match; destruct_and?; simplify_eq/=; split; congruence.
Qed.

(** A lookup keeps the connection, too. *)
Lemma getUserByOpenId_connected k s tr r s' :
  exec (getUserByOpenId k) tr r → served s tr s' → db_connected s = true → db_connected s' = true.
Proof.
  intros He Hs Hc. unfold getUserByOpenId in He. run_prog; split_served.
  all: bool_to_prop; repeat case_match; destruct_and?; simplify_eq/=; auto; congruence.
Qed.

(** A query that the database refused. *)
Definition db_refused (e : event) : Prop :=
  match e with
  | Ev o x =>
      match o return ans o → Prop with
      | op_db_upsert _ _ | op_db_select _ => λ x, ∃ error, x = Err error
      | _ => λ _, False
      end x
  end.

#[local] Transparent getDb.
Lemma getDb_returns : returns getDb.
Proof.
  unfold getDb. apply returns_bind; [done|]. intros _db. apply returns_bind; [|done].
  destruct (process_env _) as [url|]; [|done]. destruct (_ && _); [|done].
  apply returns_catch. by intros e.
Qed.
#[local] Opaque getDb.

(** Finds the query that was refused in the part of a trace that is given explicitly. *)
Ltac find_refused :=
  apply Exists_app; right; repeat first [apply Exists_cons_hd; by eexists | apply Exists_cons_tl].

(** The store fails only when the database refuses a query, or for an empty identifier. *)
Lemma getUserByOpenId_error k tr e : exec (getUserByOpenId k) tr (Err e) → Exists db_refused tr.
Proof.
  intros He. unfold getUserByOpenId in He. run_prog.
  - by destruct (returns_exec _ _ _ getDb_returns He).
  - find_refused.
Qed.

Lemma upsertUser_error user tr e :
  exec (upsertUser user) tr (Err e) → ins_openId user ≠ [] → Exists db_refused tr.
Proof.
  intros He Hne%truthy_spec. unfold upsertUser in He. rewrite Hne in He. simpl in He.
  run_prog; [by destruct (returns_exec _ _ _ getDb_returns He)|find_refused..].
Qed.

Lemma is_empty_assigned user : is_empty (assigned user) = true → ins_lastSignedIn user = None.
Proof. unfold is_empty. intros Hs%bool_decide_eq_true. by injection Hs. Qed.

Lemma upsertUser_spec user s tr r s' :
  exec (upsertUser user) tr r → served s tr s' →
  match r with
  | Err _ => db_users s' = db_users s
  | Ok _ =>
      ins_openId user ≠ []
      ∧ if db_connected s'
        then ∃ u, db_users s' = <[ins_openId user := u]> (db_users s)
             ∧ upserted user (db_users s !! ins_openId user) u
        else db_users s' = db_users s
  end.
Proof.
  intros He Hs. unfold upsertUser in He. run_prog; split_served;
    bool_to_prop; rewrite truthy_spec in *; (split; [done|]).
  { by match goal with Hc : db_connected _ = false |- _ => rewrite Hc end. }
  all: match goal with
    | Hs : ∃ _ _, _ = _, Hd : db_users _ = db_users _ |- _ =>
        destruct Hs as (clock & id & ->); simpl; rewrite Hd
    end;
    match goal with Hc : db_connected _ = true |- _ => rewrite Hc end;
    apply apply_upsert_upserted; try (by left); intros; try congruence.
  all: apply is_empty_assigned in Heqb1; try congruence; right; eauto.
Qed.
(** C21. Upserting a user: an exception leaves the table as it was, and an empty [openId] always
    raises one; otherwise the table is as before only when there is no database, and else the
    row of this user, and no other, has what the caller named, keeps what it did not name, and
    has the administrator role when it is the owner's and no role was named. *)
Theorem upsertUser_effect user s tr r s' :
  exec (upsertUser user) tr r → served s tr s' →
  match r with
  | Err _ => db_users s' = db_users s
  | Ok _ =>
      ins_openId user ≠ []
      ∧ if db_connected s'
        then ∃ u, db_users s' = <[ins_openId user := u]> (db_users s)
             ∧ upserted user (db_users s !! ins_openId user) u
        else db_users s' = db_users s
  end.
Proof. apply upsertUser_spec. Qed.
End Effect.
