(* ===== verification/Platform.v ===== *)
(** A concrete platform: an interpreter of the operations whose database is a table and whose
    other services answer from given functions. It runs the server's programs, which shows that
    the hypotheses of the theorems about executions can be met. *)
From S2P Require Import Prelude JsString JsNumber Json Schema OAuthState Trpc Node Logger Users.

Record Platform := {
  pf_store : Store;
  pf_clock : Z;
  pf_random : number;
  pf_fetches : list (result exn Response);
  pf_axios : ∀ r, result exn (axios_answer r);
  pf_sign : jsstr → list (jsstr * json) → Z → result exn jsstr;
  pf_verify : jsstr → jsstr → result exn (list (jsstr * json));
  pf_ports : Z → bool
}.

Definition with_store (s : Store) (p : Platform) : Platform := {|
  pf_store := s; pf_clock := pf_clock p; pf_random := pf_random p; pf_fetches := pf_fetches p;
  pf_axios := pf_axios p; pf_sign := pf_sign p; pf_verify := pf_verify p;
  pf_ports := pf_ports p |}.

Definition with_fetches (l : list (result exn Response)) (p : Platform) : Platform := {|
  pf_store := pf_store p; pf_clock := pf_clock p; pf_random := pf_random p; pf_fetches := l;
  pf_axios := pf_axios p; pf_sign := pf_sign p; pf_verify := pf_verify p;
  pf_ports := pf_ports p |}.

Definition network_error : exn := TypeError (js "fetch failed").

(** The clock stands still, requests are answered in the order of the list, and the table is
    the one of [Users]. *)
Definition platform (o : op) (p : Platform) : ans o * Platform :=
  match o return ans o * Platform with
  | op_now => (pf_clock p, p)
  | op_random => (pf_random p, p)
  | op_uuid => (js "0f8fad5b-d9cb-469f-a165-70867728950e", p)
  | op_sleep _ => (tt, p)
  | op_console _ _ => (tt, p)
  | op_fetch _ _ =>
      match pf_fetches p with
      | [] => (Err network_error, p)
      | r :: l => (r, with_fetches l p)
      end
  | op_axios_post r => (pf_axios p r, p)
  | op_jwt_sign secret claims exp => (pf_sign p secret claims exp, p)
  | op_jwt_verify secret token => (pf_verify p secret token, p)
  | op_db_cell => (db_connected (pf_store p), p)
  | op_set_db_cell b =>
      (tt, with_store {| db_connected := b; db_users := db_users (pf_store p) |} p)
  | op_drizzle _ => (Ok tt, p)
  | op_db_upsert v u =>
      (Ok tt, with_store {|
         db_connected := db_connected (pf_store p);
         db_users := apply_upsert (pf_clock p) (Z.of_nat (size (db_users (pf_store p))) + 1) v u
                       (db_users (pf_store p)) |} p)
  | op_db_select k =>
      (Ok match db_users (pf_store p) !! k with Some u => [u] | None => [] end, p)
  | op_res _ => (tt, p)
  | op_listen port => (pf_ports p port, p)
  | op_mount _ => (tt, p)
  | op_vite_server => (Ok tt, p)
  | op_exists _ => (true, p)
  | op_serve port => (pf_ports p port, p)
  end.

(** The database of the platform serves its table. *)
Lemma platform_served {A} (pr : prog A) p :
  served (pf_store p) (run platform pr p).1.1 (pf_store (run platform pr p).2).
Proof.
  revert p. induction pr as [a|e|o k IH]; intros p; simpl; [done|done|].
  destruct (platform o p) as [x p1] eqn:E. specialize (IH x p1).
  destruct (run platform (k x) p1) as [[tr r] p2] eqn:Er. simpl in *.
  destruct o; simpl in E; try (injection E as <- <-); try exact IH; try (by eauto).
  - by destruct (pf_fetches p); injection E as <- <-.
  - eexists _, _. exact IH.
Qed.

(** ** An example *)

Definition example_env : ProcessEnv := {|
  process_env name :=
    if str_eqb name (js "DATABASE_URL") then Some (js "mysql://db/app")
    else if str_eqb name (js "JWT_SECRET") then Some (js "s3cret")
    else if str_eqb name (js "VITE_APP_ID") then Some (js "app-1")
    else if str_eqb name (js "OWNER_OPEN_ID") then Some (js "owner")
    else if str_eqb name (js "BUILT_IN_FORGE_API_URL") then Some (js "https://forge.example/")
    else if str_eqb name (js "BUILT_IN_FORGE_API_KEY") then Some (js "k3y")
    else None |}.
#[local] Existing Instance example_env.

Definition example_row (openId : jsstr) (role : user_role) : User := {|
  user_id := 7; user_openId := openId; user_name := Some (js "Ada"); user_email := None;
  user_loginMethod := Some (js "email"); user_role_ := role; user_createdAt := 0;
  user_updatedAt := 0; user_lastSignedIn := 0 |}.

(** The token is its claims in clear: good enough for an example. *)
Definition example_sign (secret : jsstr) (claims : list (jsstr * json)) (_ : Z) : result exn jsstr :=
  Ok (secret ++ js "." ++ stringify (JObject claims)).

Definition example_verify (secret token : jsstr) : result exn (list (jsstr * json)) :=
  if startsWith (secret ++ js ".") token then
    match JSON_parse (drop (S (length secret)) token) with
    | Some (JObject l) => Ok l
    | _ => Err (JsError (js "JWSInvalid"))
    end
  else Err (JsError (js "JWSSignatureVerificationFailed")).

Definition example_info (openId : jsstr) : UserInfo := {|
  ui_openId := openId; ui_name := Value (js "Ada"); ui_email := Undefined;
  ui_platform := Undefined; ui_loginMethod := Undefined;
  ui_platforms := Some (JArray [JString (js "REGISTERED_PLATFORM_GOOGLE")]);
  ui_taskUid := Undefined |}.

Definition example_axios (r : AxiosRequest) : result exn (axios_answer r) :=
  match r return result exn (axios_answer r) with
  | ax_exchange _ => Ok {| et_accessToken := js "at" |}
  | ax_user_info _ => Ok (example_info (js "ada"))
  | ax_user_info_jwt _ => Ok (example_info (js "ada"))
  end.

Definition example_platform (users : Table) : Platform := {|
  pf_store := {| db_connected := false; db_users := users |};
  pf_clock := 1767225600000; pf_random := dec 5 1; pf_fetches := [];
  pf_axios := example_axios; pf_sign := example_sign; pf_verify := example_verify;
  pf_ports _ := true |}.

Definition example_upsert : InsertUser := {|
  ins_openId := js "owner"; ins_name := Undefined; ins_email := Value (js "a@b"); ins_role := None;
  ins_loginMethod := Null; ins_lastSignedIn := None |}.

(** The table the example starts from. *)
Definition example_table : Table := {[ js "owner" := example_row (js "owner") role_user ]}.

Lemma upsertUser_effect_witness :
  let p := example_platform example_table in
  ∃ u, db_users (pf_store (run platform (upsertUser example_upsert) p).2)
       = <[js "owner" := u]> example_table
       ∧ upserted example_upsert (Some (example_row (js "owner") role_user)) u.
Proof.
  cbv zeta.
  assert (Hr : (run platform (upsertUser example_upsert) (example_platform example_table)).1.2 = Ok tt)
    by (vm_compute; reflexivity).
  assert (Hc : db_connected (pf_store (run platform (upsertUser example_upsert)
    (example_platform example_table)).2) = true) by (vm_compute; reflexivity).
  generalize (upsertUser_effect example_upsert _ _ _ _
    (run_exec platform (upsertUser example_upsert) (example_platform example_table))
    (platform_served (upsertUser example_upsert) (example_platform example_table))).
  rewrite Hr, Hc. intros [_ H]. exact H.
Defined.
