(* ===== verification/Session.v ===== *)
(** Sessions and authentication ([server/_core/sdk.ts]): the OAuth service's client, session
    tokens, and the identification of a request. *)
From S2P Require Import Prelude JsString JsNumber Json Schema OAuthState Trpc Node Logger Users.

(** The [cookie] package: the cookies of a header by name. *)
Class CookieLib := { parseCookieHeader : jsstr → list (jsstr * jsstr) }.

Fixpoint lookup_name {A} (k : jsstr) (l : list (jsstr * A)) : option A :=
  match l with
  | [] => None
  | (k', v) :: l' => if str_eqb k' k then Some v else lookup_name k l'
  end.

Record SessionPayload := { sp_openId : jsstr; sp_appId : jsstr; sp_name : jsstr }.

#[export] Instance SessionPayload_eq_dec : EqDecision SessionPayload.
Proof. solve_decision. Defined.

(** A value that is a text with at least one unit. *)
Definition isNonEmptyString (v : option json) : option jsstr :=
  match v with Some (JString s) => if truthy s then Some s else None | _ => None end.

Definition CRON_OPEN_ID_PREFIX : jsstr := js "cron_".

Section Session.
Context `{ProcessEnv, CookieLib, UnicodeCase}.

(** ** The OAuth service *)

(** The client of the service: where its paths lie and how long it waits, in milliseconds. *)
Record AxiosConfig := { ac_baseURL : jsstr; ac_timeout : Z }.
Definition createOAuthHttpClient : AxiosConfig :=
  {| ac_baseURL := ENV_oAuthServerUrl; ac_timeout := AXIOS_TIMEOUT_MS |}.

(** The constructor of [OAuthService] reports a missing address, and goes on. *)
Definition OAuthService_init : prog unit :=
  logger_info (js "oauth.initialized") [];;
  if negb (truthy ENV_oAuthServerUrl) then logger_error (js "oauth.server_not_configured") [] else Ret tt.

(** [new SDKServer()], which the module does once: the default client goes to the service. *)
Definition SDKServer_init : prog AxiosConfig :=
  let client := createOAuthHttpClient in OAuthService_init;; Ret client.

Definition decodeState (state : jsstr) : jsstr := ds_redirectUri (decodeOAuthState state).

Definition getTokenByCode (code state : jsstr) : prog ExchangeTokenResponse :=
  axios_post (ax_exchange {|
    etr_clientId := ENV_appId; etr_grantType := js "authorization_code"; etr_code := code;
    etr_redirectUri := decodeState state |}).

Definition getUserInfoByToken (token : ExchangeTokenResponse) : prog UserInfo :=
  axios_post (ax_user_info (et_accessToken token)).

(** [Array.from(new Set(l))]: the first occurrences, in order. *)
Definition distinct (l : list jsstr) : list jsstr :=
  foldl (λ acc s, if bool_decide (s ∈ acc) then acc else acc ++ [s]) [] l.

Definition strings_of (l : list json) : list jsstr :=
  omap (λ v, match v with JString s => Some s | _ => None end) l.

Definition deriveLoginMethod (platforms : option json) (fallback : option jsstr) : option jsstr :=
  match fallback with
  | Some (c :: f) => Some (c :: f)
  | _ =>
      match platforms with
      | Some (JArray (v :: l)) =>
          let set := distinct (strings_of (v :: l)) in
          let has p := bool_decide (p ∈ set) in
          if has (js "REGISTERED_PLATFORM_EMAIL") then Some (js "email")
          else if has (js "REGISTERED_PLATFORM_GOOGLE") then Some (js "google")
          else if has (js "REGISTERED_PLATFORM_APPLE") then Some (js "apple")
          else if has (js "REGISTERED_PLATFORM_MICROSOFT") || has (js "REGISTERED_PLATFORM_AZURE")
          then Some (js "microsoft")
          else if has (js "REGISTERED_PLATFORM_GITHUB") then Some (js "github")
          else match set with
               | first :: _ => if truthy first then Some (toLowerCase first) else None
               | [] => None
               end
      | _ => None
      end
  end.

Definition option_field {A} (o : option A) : field A :=
  match o with Some a => Value a | None => Null end.

(** [{ ...data, platform: loginMethod, loginMethod }]. *)
Definition with_login_method (data : UserInfo) : UserInfo :=
  let loginMethod := option_field (deriveLoginMethod (ui_platforms data) (field_option (ui_platform data))) in
  {| ui_openId := ui_openId data; ui_name := ui_name data; ui_email := ui_email data;
     ui_platform := loginMethod; ui_loginMethod := loginMethod;
     ui_platforms := ui_platforms data; ui_taskUid := ui_taskUid data |}.

Definition exchangeCodeForToken (code state : jsstr) : prog ExchangeTokenResponse :=
  getTokenByCode code state.

Definition getUserInfo (accessToken : jsstr) : prog UserInfo :=
  data ← getUserInfoByToken {| et_accessToken := accessToken |};
  Ret (with_login_method data).

Definition getUserInfoWithJwt (jwtToken : jsstr) : prog UserInfo :=
  data ← axios_post (ax_user_info_jwt {| gj_jwtToken := jwtToken; gj_projectId := ENV_appId |});
  Ret (with_login_method data).

(** ** Session tokens *)

Definition getSessionSecret : jsstr := ENV_cookieSecret.

Definition session_claims (payload : SessionPayload) : list (jsstr * json) :=
  [(js "openId", JString (sp_openId payload)); (js "appId", JString (sp_appId payload));
   (js "name", JString (sp_name payload))].

Definition signSession (payload : SessionPayload) (expiresInMs : option Z) : prog jsstr :=
  issuedAt ← now;
  let expirationSeconds := ((issuedAt + default ONE_YEAR_MS expiresInMs) / 1000)%Z in
  jwt_sign getSessionSecret (session_claims payload) expirationSeconds.

Definition createSessionToken (openId : jsstr) (expiresInMs : option Z) (name : option jsstr) : prog jsstr :=
  signSession {| sp_openId := openId; sp_appId := ENV_appId; sp_name := str_or name [] |} expiresInMs.

(** The three claims of a verified payload, when each is a text that is not empty. *)
Definition session_of (payload : list (jsstr * json)) : option SessionPayload :=
  openId ← isNonEmptyString (assoc_get (js "openId") payload);
  appId ← isNonEmptyString (assoc_get (js "appId") payload);
  name ← isNonEmptyString (assoc_get (js "name") payload);
  Some {| sp_openId := openId; sp_appId := appId; sp_name := name |}.

Definition verifySession (cookieValue : option jsstr) : prog (option SessionPayload) :=
  let token := str_or cookieValue [] in
  if negb (truthy token) then logger_warn (js "auth.session_missing") [];; Ret None
  else
    catch
      (payload ← jwt_verify getSessionSecret token;
       match session_of payload with
       | None => logger_warn (js "auth.session_payload_invalid") [];; Ret None
       | Some session => Ret (Some session)
       end)
      (λ _, logger_warn (js "auth.session_verification_failed") [];; Ret None).

(** ** Requests *)

(** [parseCookies]: a missing or empty header has no cookies. *)
Definition parseCookies (cookieHeader : option jsstr) : list (jsstr * jsstr) :=
  let header := str_or cookieHeader [] in
  if truthy header then parseCookieHeader header else [].

Definition bearer : jsstr := js "Bearer ".

(** The cookie, or the bearer token when there is no cookie or an empty one. *)
Definition session_token (req : Request) : option jsstr :=
  let cookie := lookup_name COOKIE_NAME (parseCookies (req_cookie req)) in
  if truthy (str_or cookie []) then cookie
  else match req_authorization req with
       | Some header => if startsWith bearer header then Some (drop 7 header) else cookie
       | None => cookie
       end.

Definition forbidden {A} (msg : jsstr) : prog A := Throw (x_http (ForbiddenError msg)).

Definition buildCronUser (userInfo : UserInfo) : prog AuthenticatedUser :=
  d ← now;
  Ret {| au_user := {|
           user_id := -1; user_openId := ui_openId userInfo;
           user_name := Some (str_or (field_option (ui_name userInfo)) (js "Manus Scheduled Task"));
           user_email := None; user_loginMethod := None; user_role_ := role_user;
           user_createdAt := d; user_updatedAt := d; user_lastSignedIn := d |};
         au_taskUid := field_option (ui_taskUid userInfo); au_isCron := true |}.

(** The row that a login writes for a user of the OAuth service. *)
Definition login_row (userInfo : UserInfo) (signedInAt : Z) : InsertUser := {|
  ins_openId := ui_openId userInfo; ins_name := text_or_null (ui_name userInfo);
  ins_email := field_or_null (ui_email userInfo);
  ins_loginMethod := field_or_null (field_or (ui_loginMethod userInfo) (ui_platform userInfo));
  ins_role := None; ins_lastSignedIn := Some signedInAt |}.

(** The row that only records the time of a visit. *)
Definition visit_row (openId : jsstr) (signedInAt : Z) : InsertUser := {|
  ins_openId := openId; ins_name := Undefined; ins_email := Undefined;
  ins_loginMethod := Undefined; ins_role := None; ins_lastSignedIn := Some signedInAt |}.

(** A user who is not in the table yet is fetched from the OAuth service and stored. *)
Definition syncUser (sessionToken : option jsstr) (signedInAt : Z) : prog (option User) :=
  catch
    (userInfo ← getUserInfoWithJwt (default [] sessionToken);
     upsertUser (login_row userInfo signedInAt);;
     getUserByOpenId (ui_openId userInfo))
    (λ _, logger_error (js "auth.user_sync_failed") [];;
          forbidden (js "Failed to sync user info")).

Definition authenticateRequest (req : Request) : prog AuthenticatedUser :=
  let sessionToken := session_token req in
  session ← verifySession sessionToken;
  match session with
  | None => forbidden (js "Invalid session cookie")
  | Some session =>
      if startsWith CRON_OPEN_ID_PREFIX (sp_openId session) then
        userInfo ← getUserInfoWithJwt (default [] sessionToken);
        if truthy (str_or (field_option (ui_taskUid userInfo)) []) then buildCronUser userInfo
        else forbidden (js "Cron session missing task_uid")
      else
        signedInAt ← now;
        found ← getUserByOpenId (sp_openId session);
        user ← match found with
               | Some u => Ret (Some u)
               | None => syncUser sessionToken signedInAt
               end;
        match user with
        | None => forbidden (js "User not found")
        | Some u =>
            upsertUser (visit_row (user_openId u) signedInAt);;
            Ret (plain_user u)
        end
  end.
End Session.
