(* ===== verification/SessionProps.v ===== *)
(** What sessions and authentication guarantee. *)
From S2P Require Import Prelude JsString JsNumber Json Schema OAuthState Trpc Node Logger Users Platform Session.

#[local] Opaque getDb upsertUser getUserByOpenId verifySession.

(** ** Tokens *)

(** The [jose] package: signing with a secret, and checking at a time. A token that is not
    expired and was signed with the same secret is accepted, with its claims (texts, here). *)
Class JwtLib := {
  jwt_signed : jsstr → list (jsstr * json) → Z → jsstr;
  jwt_checked : Z → jsstr → jsstr → result exn (list (jsstr * json));
  jwt_signed_nonempty secret claims exp : jwt_signed secret claims exp ≠ [];
  jwt_law at_ secret claims exp :
    number_free (JObject claims) = true → (at_ < exp)%Z →
    ∃ payload, jwt_checked at_ secret (jwt_signed secret claims exp) = Ok payload
    ∧ ∀ k, k ≠ js "exp" → assoc_get k payload = assoc_get k claims
}.

(** The token operations of a trace are answered by the library, at the time [at_]. *)
Definition jwt_served `{JwtLib} (at_ : Z) (e : event) : Prop :=
  match e with
  | Ev o x =>
      match o return ans o → Prop with
      | op_jwt_sign secret claims exp => λ x, x = Ok (jwt_signed secret claims exp)
      | op_jwt_verify secret token => λ x, x = jwt_checked at_ secret token
      | _ => λ _, True
      end x
  end.

Section Session.
Context `{ProcessEnv, CookieLib, UnicodeCase}.

(** What [verifySession] does: it never throws, it touches nothing but the console and the token
    library, and it returns a session exactly when the token verifies with complete claims. *)
Definition session_local (o : op) : Prop :=
  match o with op_console _ _ | op_jwt_verify _ _ => True | _ => False end.

Definition verified (tr : list event) (token : option jsstr) (session : SessionPayload) : Prop :=
  ∃ t payload, token = Some t ∧ t ≠ []
    ∧ Ev (op_jwt_verify ENV_cookieSecret t) (Ok payload) ∈ tr
    ∧ session_of payload = Some session.

#[local] Transparent verifySession.
Lemma verifySession_spec c tr r :
  exec (verifySession c) tr r →
  Forall (λ e, session_local (event_op e)) tr
  ∧ ∃ o, r = Ok o ∧ ∀ session, o = Some session → verified tr c session.
Proof.
  intros He. unfold verifySession in He. split.
  { eapply ops_exec; [|exact He]. destruct (negb _); simpl; [done|]. split; [done|].
    intros [payload|e]; simpl; [|done]. by destruct (session_of payload). }
  destruct c as [t|]; simpl in He; [|run_prog; by eexists].
  destruct (truthy t) eqn:Et; simpl in He; [|run_prog; by eexists].
  rewrite Et in He. simpl in He. run_prog; try (by eexists).
  eexists. split; [done|]. intros ? [= <-]. rewrite truthy_spec in Et.
  eexists _, _. split_and!; [done|done|apply list_elem_of_here|done].
Qed.

Lemma verifySession_answer t tr r :
  t ≠ [] → exec (verifySession (Some t)) tr r →
  ∃ x, Ev (op_jwt_verify ENV_cookieSecret t) x ∈ tr
       ∧ r = Ok (match x with Ok payload => session_of payload | Err _ => None end).
Proof.
  intros Ht%truthy_spec He. unfold verifySession in He. simpl in He. rewrite Ht in He.
  simpl in He. rewrite Ht in He. simpl in He.
  run_prog; eexists; (split; [apply list_elem_of_here|]); simpl; congruence.
Qed.
#[local] Opaque verifySession.

Lemma session_of_claims payload session :
  (∀ k, k ≠ js "exp" → assoc_get k payload = assoc_get k (session_claims session)) →
  session_of payload
  = if truthy (sp_openId session) && truthy (sp_appId session) && truthy (sp_name session)
    then Some session else None.
Proof.
  intros Hk. unfold session_of. rewrite !Hk by (by vm_compute). destruct session as [o a n]. simpl.
  destruct (truthy o) eqn:Eo, (truthy a) eqn:Ea, (truthy n) eqn:En; simpl; by rewrite ?Eo, ?Ea, ?En.
Qed.

(** A token that was made verifies to what it was made for, before it expires. *)
Lemma created_verified `{JwtLib} openId expiresInMs name t1 token t2 r at_ :
  exec (createSessionToken openId expiresInMs name) t1 (Ok token) →
  exec (verifySession (Some token)) t2 r →
  Forall (jwt_served at_) t1 → Forall (jwt_served at_) t2 →
  (∀ issuedAt, Ev op_now issuedAt ∈ t1 →
     (at_ < (issuedAt + default ONE_YEAR_MS expiresInMs) / 1000)%Z) →
  r = Ok (if truthy openId && truthy ENV_appId && truthy (str_or name [])
          then Some {| sp_openId := openId; sp_appId := ENV_appId; sp_name := str_or name [] |}
          else None).
Proof.
  intros Hc Hv Hs1 Hs2 Hat. unfold createSessionToken, signSession in Hc. run_prog.
  apply Forall_cons in Hs1 as [_ [Hsign _]%Forall_cons]. simpl in Hsign. injection Hsign as ->.
  specialize (Hat _ (list_elem_of_here _ _)).
  apply verifySession_answer in Hv as (x' & Hin & ->); [|apply jwt_signed_nonempty].
  rewrite Forall_forall in Hs2. specialize (Hs2 _ Hin). simpl in Hs2. subst x'.
  destruct (jwt_law at_ getSessionSecret (session_claims {|
    sp_openId := openId; sp_appId := ENV_appId; sp_name := str_or name [] |})
    _ eq_refl Hat) as (payload & Hp & Hk).
  change getSessionSecret with ENV_cookieSecret in *. rewrite Hp. f_equal. by rewrite (session_of_claims _ _ Hk).
Qed.

(** C19. A session token verifies exactly when it says who it is for: checked before it expires,
    the token made for an [openId] and a name gives back these and the application, provided that
    none of the three is empty; a token made with an empty name never verifies. *)
Theorem session_roundtrip `{JwtLib} openId expiresInMs name t1 token t2 r at_ :
  exec (createSessionToken openId expiresInMs name) t1 (Ok token) →
  exec (verifySession (Some token)) t2 r →
  Forall (jwt_served at_) t1 → Forall (jwt_served at_) t2 →
  (∀ issuedAt, Ev op_now issuedAt ∈ t1 →
     (at_ < (issuedAt + default ONE_YEAR_MS expiresInMs) / 1000)%Z) →
  r = Ok (if truthy openId && truthy ENV_appId && truthy (str_or name [])
          then Some {| sp_openId := openId; sp_appId := ENV_appId; sp_name := str_or name [] |}
          else None).
Proof. apply created_verified. Qed.

(** ** Requests *)

(** The operations of a request that nobody has authenticated. *)
Definition anonymous (e : event) : Prop := session_local (event_op e).

(** C20. A request without a verified session goes nowhere: unless the token in its cookie or its
    Authorization header verifies with complete claims, authentication fails with 403, and
    neither the database nor the OAuth service has been asked anything. *)
Theorem authenticate_denied req tr r :
  exec (authenticateRequest req) tr r →
  (∀ session, ¬ verified tr (session_token req) session) →
  r = Err (x_http (ForbiddenError (js "Invalid session cookie"))) ∧ Forall anonymous tr.
Proof.
  intros He Hno. unfold authenticateRequest in He.
  apply exec_bind in He as [(e & -> & Hv)|(o & t1 & t2 & -> & Hv & He)].
  - apply verifySession_spec in Hv as (_ & o & [=] & _).
  - apply verifySession_spec in Hv as (Hl & o' & [= <-] & Hs).
    destruct o as [session|].
    + destruct (Hno session). destruct (Hs session eq_refl) as (t & p & ? & ? & ? & ?).
      exists t, p. split_and!; try done. set_solver.
    + run_prog. rewrite app_nil_r. done.
Qed.

(** What the OAuth service reported about the token in the execution [tr]. *)
Definition reported (tr : list event) (token : option jsstr) (info : UserInfo) : Prop :=
  ∃ data, Ev (op_axios_post (ax_user_info_jwt {|
            gj_jwtToken := default [] token; gj_projectId := ENV_appId |})) (Ok data) ∈ tr
          ∧ info = with_login_method data.

(** The user that a session identifies, with the table [t]. A scheduled task is an ordinary user
    with the task that the service reported. Anybody else is the row of the session's [openId],
    or else the user that the service reported, with a row from before or with the row that a
    login leaves. *)
Definition identified (tr : list event) (token : option jsstr) (t : Table)
    (session : SessionPayload) (u : AuthenticatedUser) : Prop :=
  if startsWith CRON_OPEN_ID_PREFIX (sp_openId session) then
    ∃ info, reported tr token info ∧ au_isCron u = true ∧ user_role_ (au_user u) = role_user
      ∧ user_openId (au_user u) = ui_openId info
      ∧ ∃ uid, uid ≠ [] ∧ ui_taskUid info = Value uid ∧ au_taskUid u = Some uid
  else
    au_isCron u = false ∧ au_taskUid u = None
    ∧ (t !! sp_openId session = Some (au_user u)
       ∨ ∃ info, reported tr token info
           ∧ (t !! ui_openId info = Some (au_user u)
              ∨ ∃ d, upserted (login_row info d) (t !! ui_openId info) (au_user u))).

Lemma getUserInfoWithJwt_reported token tr info :
  exec (getUserInfoWithJwt (default [] token)) tr (Ok info) → reported tr token info.
Proof.
  intros He. unfold getUserInfoWithJwt in He. run_prog. eexists. split; [|done]. left.
Qed.

Lemma reported_app tr tr1 tr2 token info :
  reported tr token info → reported (tr1 ++ tr ++ tr2) token info.
Proof. intros (d & Hd & ->). exists d. set_solver. Qed.

Lemma getUserInfoWithJwt_served token tr r s s' :
  exec (getUserInfoWithJwt token) tr r → served s tr s' → s' = s.
Proof. intros He Hs. unfold getUserInfoWithJwt in He. run_prog; destruct_and?; done. Qed.

#[local] Opaque getUserInfoWithJwt.

(** The user found in the table, or synchronised with the OAuth service. *)
Lemma syncUser_spec token d s tr u s' :
  exec (syncUser token d) tr (Ok (Some u)) →
  served s tr s' →
  ∃ info, reported tr token info
    ∧ (db_users s !! ui_openId info = Some u
       ∨ upserted (login_row info d) (db_users s !! ui_openId info) u).
Proof.
  intros He Hs. unfold syncUser in He. run_prog.
  match goal with Hi : exec (getUserInfoWithJwt _) _ (Ok ?x) |- _ => rename x into info, Hi into Hinfo end.
  exists info. split.
  { apply getUserInfoWithJwt_reported in Hinfo. by apply (reported_app _ [] _ _ _ Hinfo). }
  apply served_app in Hs as (s1 & Hs1 & (s2 & Hs2 & Hs3)%served_app).
  apply (getUserInfoWithJwt_served _ _ _ _ _ Hinfo) in Hs1 as ->.
  match goal with Hu : exec (upsertUser _) _ _ |- _ =>
    destruct (upsertUser_spec _ _ _ _ _ Hu Hs2) as [_ Hup] end.
  destruct (getUserByOpenId_effect _ _ _ _ _ He Hs3) as [_ Hg].
  destruct (db_connected s'); [|done]. destruct (db_connected s2).
  - destruct Hup as (u' & Hup & Hu'). right. simpl in *. rewrite Hup, lookup_insert_eq in Hg.
    by injection Hg as ->.
  - left. by rewrite <- Hup.
Qed.

#[local] Opaque syncUser.

Lemma authenticate_identified req s tr u s' :
  exec (authenticateRequest req) tr (Ok u) → served s tr s' →
  ∃ session, verified tr (session_token req) session
    ∧ identified tr (session_token req) (db_users s) session u.
Proof.
  intros He Hs. unfold authenticateRequest in He.
  apply exec_bind in He as [(e & [=] & _)|(o & t1 & t2 & -> & Hv & He)].
  apply verifySession_spec in Hv as (Hl & o' & [= <-] & Hsess).
  apply served_app in Hs as (s1 & Hs1 & Hs). destruct o as [session|]; [|run_prog].
  destruct (Hsess session eq_refl) as (tk & p & ? & ? & ? & ?).
  exists session. split. { exists tk, p. split_and!; try done. set_solver. }
  unfold identified. destruct (startsWith _ _).
  - unfold buildCronUser in He. run_prog.
    match goal with Ht : truthy (str_or ?o []) = true |- _ =>
      destruct o as [uid|] eqn:Eu; simpl in Ht; [|done]; destruct (truthy uid) eqn:Etr; [|done] end.
    match goal with Hi : exec (getUserInfoWithJwt _) _ _ |- _ =>
      apply getUserInfoWithJwt_reported in Hi end.
    eexists. split; [by eapply reported_app|]. repeat split. exists uid.
    rewrite truthy_spec in Etr. split; [done|]. split; [|done].
    unfold field_option in Eu. by case_match; simplify_eq.
  - assert (db_users s1 = db_users s) as Hu.
    { eapply served_no_upsert; [|done]. eapply Forall_impl; [done|]. by intros [[] ?]. }
    run_prog; rewrite <- Hu; repeat split; apply served_app in Hs as (s2 & Hs2 & Hs3).
    + left. match goal with Hg : exec (getUserByOpenId _) _ _ |- _ =>
        destruct (getUserByOpenId_effect _ _ _ _ _ Hg Hs2) as [_ Hrow] end.
      by destruct (db_connected s2).
    + right. match goal with Hg : exec (getUserByOpenId _) _ _ |- _ =>
        destruct (getUserByOpenId_effect _ _ _ _ _ Hg Hs2) as [<- _] end.
      apply served_app in Hs3 as (s3 & Hs3 & _).
      match goal with Hg : exec (syncUser _ _) _ _ |- _ =>
        destruct (syncUser_spec _ _ _ _ _ _ Hg Hs3) as (info & Hr & Hrow) end.
      exists info. split; [|naive_solver]. destruct Hr as (data & Hin & ->). exists data. set_solver.
Qed.
(** C4. Authentication is sound: the user it returns is the one that a verified session in the
    request identifies. *)
Theorem authenticate_sound req s tr u s' :
  exec (authenticateRequest req) tr (Ok u) → served s tr s' →
  ∃ session, verified tr (session_token req) session
    ∧ identified tr (session_token req) (db_users s) session u.
Proof. apply authenticate_identified. Qed.

Lemma upserted_admin info d old u :
  upserted (login_row info d) old u → user_role_ u = role_admin →
  ui_openId info = ENV_ownerOpenId ∨ ∃ row, old = Some row ∧ user_role_ row = role_admin.
Proof.
  intros (_ & _ & _ & Hr & _) Hu. rewrite Hu in Hr. simpl in Hr.
  destruct (str_eqb _ _) eqn:E; [left; by apply str_eqb_eq|right].
  destruct old as [row|]; simpl in Hr; [eauto|done].
Qed.

Lemma admin_identified req s tr u s' :
  exec (authenticateRequest req) tr (Ok u) → served s tr s' →
  user_role_ (au_user u) = role_admin →
  au_isCron u = false
  ∧ ∃ session, verified tr (session_token req) session
    ∧ ((∃ row, db_users s !! sp_openId session = Some row ∧ user_role_ row = role_admin)
       ∨ ∃ info, reported tr (session_token req) info
         ∧ (ui_openId info = ENV_ownerOpenId
            ∨ ∃ row, db_users s !! ui_openId info = Some row ∧ user_role_ row = role_admin)).
Proof.
  intros He Hs Ha. destruct (authenticate_identified _ _ _ _ _ He Hs) as (session & Hv & Hi).
  unfold identified in Hi. destruct (startsWith _ _).
  - destruct Hi as (? & ? & ? & Hu & _). congruence.
  - destruct Hi as (Hc & _ & Hi). split; [done|]. exists session. split; [done|].
    destruct Hi as [Hrow|(info & Hr & [Hrow|(d & Hup)])]; [left; eauto|right; eauto 6|].
    right. exists info. split; [done|]. by eapply upserted_admin.
Qed.

End Session.

(** ** Examples *)

(** Cookies are separated by semicolons; a name ends at the first equals sign. *)
Definition example_cookie (s : jsstr) : option (jsstr * jsstr) :=
  match list_find (λ c, c = 61%N) s with
  | Some (i, _) => Some (trim (take i s), trim (drop (S i) s))
  | None => None
  end.
Definition example_cookies : CookieLib :=
  {| parseCookieHeader header := omap example_cookie (split_on 59%N header) |}.

(** Tokens that never expire: the secret and the claims in clear. *)
Definition example_jwt : JwtLib.
Proof.
  refine {|
    jwt_signed secret claims _ := secret ++ js "." ++ stringify (JObject claims);
    jwt_checked _ secret token := example_verify secret token |}.
  - intros secret claims _ []%app_eq_nil. done.
  - intros at_ secret claims exp Hn _. exists claims. split; [|done].
    unfold example_verify. rewrite (proj2 (startsWith_spec _ _)) by (eexists; by rewrite <- app_assoc).
    replace (drop (S (length secret)) (secret ++ js "." ++ stringify (JObject claims)))
      with (stringify (JObject claims)).
    + by rewrite (JSON_parse_stringify _ Hn).
    + rewrite drop_app_ge by lia. by replace (S (length secret) - length secret) with 1 by lia.
Defined.
#[local] Existing Instances example_env example_cookies example_jwt.

Definition example_token : jsstr :=
  js "s3cret." ++ stringify (JObject (session_claims {|
    sp_openId := js "ada"; sp_appId := js "app-1"; sp_name := js "Ada" |})).

Definition example_signed_in : Request := {|
  req_protocol := js "https"; req_cookie := Some (js "a=b; app_session_id=" ++ example_token);
  req_authorization := None; req_forwarded_proto := None; req_query := [] |}.

Definition ada_table : Table := {[ js "ada" := example_row (js "ada") role_admin ]}.

Lemma authenticate_sound_witness :
  let p := example_platform ada_table in
  let '(tr, r, _) := run platform (authenticateRequest example_signed_in) p in
  r = Ok (plain_user (example_row (js "ada") role_admin))
  ∧ ∃ session, verified tr (session_token example_signed_in) session
      ∧ identified tr (session_token example_signed_in) ada_table session
          (plain_user (example_row (js "ada") role_admin)).
Proof.
  cbv zeta.
  pose proof (run_exec platform (authenticateRequest example_signed_in) (example_platform ada_table)) as He.
  pose proof (platform_served (authenticateRequest example_signed_in) (example_platform ada_table)) as Hs.
  assert (Hr : (run platform (authenticateRequest example_signed_in) (example_platform ada_table)).1.2
    = Ok (plain_user (example_row (js "ada") role_admin))) by (vm_compute; reflexivity).
  destruct (run platform _ _) as [[tr r] p']. simpl in Hr. subst r.
  split; [reflexivity|]. exact (authenticate_sound _ _ _ _ _ He Hs).
Defined.


(** A request without any token. *)
Definition example_anonymous : Request := {|
  req_protocol := js "http"; req_cookie := None; req_authorization := None;
  req_forwarded_proto := None; req_query := [] |}.

Lemma authenticate_denied_witness :
  let '(tr, r, _) := run platform (authenticateRequest example_anonymous) (example_platform ada_table) in
  r = Err (x_http (ForbiddenError (js "Invalid session cookie"))) ∧ Forall anonymous tr.
Proof.
  pose proof (run_exec platform (authenticateRequest example_anonymous) (example_platform ada_table)) as He.
  destruct (run platform _ _) as [[tr r] p']. apply (authenticate_denied _ _ _ He).
  intros session (t & payload & Ht & _). discriminate Ht.
Defined.

(** The exchange of a login at time 0 and a later visit. *)
Definition example_login : list event := [
  Ev op_now 0%Z;
  Ev (op_jwt_sign ENV_cookieSecret
        (session_claims {| sp_openId := js "ada"; sp_appId := ENV_appId; sp_name := js "Ada" |})
        (ONE_YEAR_MS / 1000)) (Ok example_token)].

Lemma session_roundtrip_witness :
  let '(tr, r, _) := run platform (verifySession (Some example_token)) (example_platform ∅) in
  Forall (jwt_served 0) tr
  ∧ r = Ok (Some {| sp_openId := js "ada"; sp_appId := js "app-1"; sp_name := js "Ada" |}).
Proof.
  assert (Hc : exec (createSessionToken (js "ada") None (Some (js "Ada"))) example_login (Ok example_token)).
  { eexists _, _. split; [reflexivity|]. eexists _, _. split; [reflexivity|].
    split; reflexivity. }
  assert (Ht1 : Forall (jwt_served 0) example_login).
  { constructor; [exact I|]. constructor; [vm_compute; reflexivity|constructor]. }
  pose proof (run_exec platform (verifySession (Some example_token)) (example_platform ∅)) as Hv.
  assert (Ht2 : Forall (jwt_served 0) (run platform (verifySession (Some example_token)) (example_platform ∅)).1.1).
  { constructor; [vm_compute; reflexivity|constructor]. }
  destruct (run platform _ _) as [[tr r] p']. split; [exact Ht2|].
  refine (session_roundtrip (js "ada") None (Some (js "Ada")) _ example_token _ _ 0 Hc Hv Ht1 Ht2 _).
  intros d [->%ev_now_inj|Hd]%elem_of_cons; [reflexivity|].
  apply list_elem_of_singleton in Hd. discriminate Hd.
Defined.
