(* ===== verification/OAuthCallback.v ===== *)
(** Cookie options ([server/_core/cookies.ts]) and the login callback ([server/_core/oauth.ts]). *)
From S2P Require Import Prelude JsString JsNumber Json Schema OAuthState Trpc Node Logger Users Platform Session SessionProps.

(** ** Cookie options *)

(** [/^\d{1,3}(\.\d{1,3}){3}$/], or a colon somewhere. *)
Definition isIpAddress (host : jsstr) : bool :=
  (bool_decide (length (split_on 46%N host) = 4)
   && forallb (λ part, bool_decide (1 ≤ length part ≤ 3) && forallb is_digit part) (split_on 46%N host))
  || includes (js ":") host.

Section Cookies.
Context `{UnicodeCase}.

Definition isSecureRequest (req : Request) : bool :=
  if str_eqb (req_protocol req) (js "https") then true
  else
    let protoList := match req_forwarded_proto req with
                     | None => []
                     | Some (inl forwardedProto) =>
                         if truthy forwardedProto then split_on 44%N forwardedProto else []
                     | Some (inr l) => l
                     end in
    existsb (λ proto, str_eqb (toLowerCase (trim proto)) (js "https")) protoList.

(** The options of the session cookie, before [maxAge]. *)
Definition getSessionCookieOptions (req : Request) : CookieOptions := {|
  co_httpOnly := Some true; co_path := js "/"; co_sameSite := js "none";
  co_secure := isSecureRequest req; co_maxAge := None |}.

Definition with_maxAge (ms : Z) (o : CookieOptions) : CookieOptions := {|
  co_httpOnly := co_httpOnly o; co_path := co_path o; co_sameSite := co_sameSite o;
  co_secure := co_secure o; co_maxAge := Some ms |}.
End Cookies.

(** ** The callback *)

(** [clearCookie(OAUTH_STATE_COOKIE, { path: "/", secure: true, sameSite: "none" })]. *)
Definition oauth_state_options : CookieOptions := {|
  co_httpOnly := None; co_path := js "/"; co_sameSite := js "none"; co_secure := true;
  co_maxAge := None |}.

Definition error_body (msg : jsstr) : json := JObject [(js "error", JString msg)].

Section Callback.
Context `{ProcessEnv, CookieLib, UnicodeCase}.

Definition getQueryParam (req : Request) (key : jsstr) : option jsstr :=
  match lookup_name key (req_query req) with
  | Some (qv_string s) => Some s
  | _ => None
  end.

(** [!nonce || nonce !== expectedNonce]: the nonce is any JSON value, the cookie a text. *)
Definition nonce_matches (nonce : option json) (expectedNonce : option jsstr) : bool :=
  match nonce, expectedNonce with
  | Some (JString n), Some e => truthy n && str_eqb n e
  | _, _ => false
  end.

Definition expected_nonce (req : Request) : option jsstr :=
  lookup_name OAUTH_STATE_COOKIE (parseCookieHeader (default [] (req_cookie req))).

(** What happens once the request is known to come from the browser that began the login. *)
Definition complete_login (req : Request) (code state : jsstr) : prog unit :=
  catch
    (tokenResponse ← exchangeCodeForToken code state;
     userInfo ← getUserInfo (et_accessToken tokenResponse);
     if negb (truthy (ui_openId userInfo)) then
       respond (res_json 400 (error_body (js "openId missing from user info")))
     else
       d ← now;
       upsertUser (login_row userInfo d);;
       sessionToken ← createSessionToken (ui_openId userInfo) (Some ONE_YEAR_MS)
                        (Some (str_or (field_option (ui_name userInfo)) []));
       respond (res_cookie COOKIE_NAME sessionToken
                  (with_maxAge ONE_YEAR_MS (getSessionCookieOptions req)));;
       respond (res_redirect 302 (js "/")))
    (λ _, logger_error (js "oauth.callback_failed") [];;
          respond (res_json 500 (error_body (js "OAuth callback failed")))).

(** [GET /api/oauth/callback]. *)
Definition oauth_callback (req : Request) : prog unit :=
  let code := str_or (getQueryParam req (js "code")) [] in
  let state := str_or (getQueryParam req (js "state")) [] in
  if negb (truthy code) || negb (truthy state) then
    respond (res_json 400 (error_body (js "code and state are required")))
  else if negb (nonce_matches (ds_nonce (decodeOAuthState state)) (expected_nonce req)) then
    respond (res_json 403 (error_body (js "invalid oauth state")))
  else
    respond (res_clearCookie OAUTH_STATE_COOKIE oauth_state_options);;
    complete_login req code state.
End Callback.

(** ** Cookies of a trace *)

(** The cookies that a trace sets. *)
Definition cookie_of (e : event) : option (jsstr * jsstr * CookieOptions) :=
  match event_op e with op_res (res_cookie n v o) => Some (n, v, o) | _ => None end.

Definition cookies_set (tr : list event) : list (jsstr * jsstr * CookieOptions) := omap cookie_of tr.

Lemma cookies_set_app tr1 tr2 : cookies_set (tr1 ++ tr2) = cookies_set tr1 ++ cookies_set tr2.
Proof. apply omap_app. Qed.

Lemma cookies_set_cons e tr :
  cookies_set (e :: tr) = match cookie_of e with Some c => [c] | None => [] end ++ cookies_set tr.
Proof. unfold cookies_set. simpl. by destruct (cookie_of e). Qed.

Lemma cookies_set_silent tr : Forall (λ e, not_res (event_op e)) tr → cookies_set tr = [].
Proof.
  unfold cookies_set. induction 1 as [|e tr He _ IH]; [done|]. simpl. unfold cookie_of at 1.
  by destruct (event_op e).
Qed.

(** Finds an event in a trace that is given explicitly. *)
Ltac in_trace :=
  repeat first [ apply list_elem_of_here | apply list_elem_of_further
               | apply elem_of_app; right ].

Section CallbackProps.
Context `{ProcessEnv, CookieLib, UnicodeCase}.

Lemma upsertUser_silent u tr r :
  exec (upsertUser u) tr r → Forall (λ e, not_res (event_op e)) tr.
Proof.
  intros He. eapply ops_exec; [|done]. eapply ops_weaken; [|apply upsertUser_ops]. by intros [].
Qed.
#[local] Opaque upsertUser.
(** C14. The login callback always answers its request, exactly once, whatever the OAuth service,
    the database and the token library do; no exception leaves it. *)
Theorem callback_answers req tr r :
  exec (oauth_callback req) tr r → r = Ok tt ∧ answers tr = 1.
Proof.
  intros He. unfold oauth_callback, complete_login in He. run_prog; (split; [done|]); try done.
  all: rewrite ?answers_cons, ?answers_app; rewrite answers_silent by (by eapply upsertUser_silent); reflexivity.
Qed.

(** The request comes from the browser that began the login: the nonce in its state is the text
    in the one-time cookie, and it is not empty. *)
Definition same_browser (req : Request) : Prop :=
  ∃ state n, getQueryParam req (js "state") = Some state ∧ n ≠ []
    ∧ ds_nonce (decodeOAuthState state) = Some (JString n) ∧ expected_nonce req = Some n.

(** The callback refuses, or goes on for a request of the browser that began the login. *)
Lemma callback_cases req tr r :
  exec (oauth_callback req) tr r →
  (∃ status body, tr = [Ev (op_res (res_json status body)) tt] ∧ (status = 400 ∨ status = 403)%Z)
  ∨ same_browser req ∧ ∃ code state tr',
      code = str_or (getQueryParam req (js "code")) []
      ∧ tr = Ev (op_res (res_clearCookie OAUTH_STATE_COOKIE oauth_state_options)) tt :: tr'
      ∧ exec (complete_login req code state) tr' r.
Proof.
  intros He. unfold oauth_callback in He.
  destruct (_ || _) eqn:Eq; [run_prog; left; by eauto 6|].
  destruct (negb (nonce_matches _ _)) eqn:En; [run_prog; left; by eauto 6|].
  right. apply negb_false_iff in En. apply orb_false_iff in Eq as [_ Eq]. split.
  - destruct (getQueryParam req (js "state")) as [state|] eqn:Es; [|done].
    simpl in *. destruct (truthy state) eqn:Et; [|done].
    unfold nonce_matches in En. destruct (ds_nonce _) as [[| | |n| |]|] eqn:Ed; try done.
    destruct (expected_nonce req) as [e|] eqn:Ee; [|done].
    apply andb_true_iff in En as [Hn%truthy_spec ->%str_eqb_eq]. by exists state, e.
  - destruct He as ([] & tr' & -> & He). eauto 6.
Qed.

(** C11. The login callback is safe against forged requests: when the nonce of the state is not the
    one in the cookie, all it does is to refuse with 400 or 403: no service is called, no row
    written, no cookie set. *)
Theorem callback_csrf req tr r :
  exec (oauth_callback req) tr r → ¬ same_browser req →
  ∃ status body, tr = [Ev (op_res (res_json status body)) tt] ∧ (status = 400 ∨ status = 403)%Z.
Proof. by intros [?|[? _]]%callback_cases Hno. Qed.

(** C12. The session a callback hands out is the one of the login: if it sets a cookie, the request
    came from the browser that began the login; the cookie is the session cookie, unreadable for
    scripts, valid for a year, and secure exactly when the request was; its value was signed, with
    the server's secret, for the non-empty [openId] that the OAuth service gave for the code of the
    request; and the answer is a redirect to the start page. *)
Theorem callback_session req tr r name value o :
  exec (oauth_callback req) tr r → (name, value, o) ∈ cookies_set tr →
  same_browser req
  ∧ name = COOKIE_NAME ∧ co_httpOnly o = Some true ∧ co_maxAge o = Some ONE_YEAR_MS
  ∧ co_secure o = isSecureRequest req
  ∧ Ev (op_res (res_redirect 302 (js "/"))) tt ∈ tr
  ∧ ∃ request exchanged info claims exp,
      etr_code request = str_or (getQueryParam req (js "code")) []
      ∧ Ev (op_axios_post (ax_exchange request)) (Ok exchanged) ∈ tr
      ∧ Ev (op_axios_post (ax_user_info (et_accessToken exchanged))) (Ok info) ∈ tr
      ∧ ui_openId info ≠ []
      ∧ Ev (op_jwt_sign ENV_cookieSecret claims exp) (Ok value) ∈ tr
      ∧ assoc_get (js "openId") claims = Some (JString (ui_openId info)).
Proof.
  intros [(st & b & -> & _)|(Hb & code & state & tr' & -> & -> & He)]%callback_cases Hin;
    [set_solver|]. split; [done|]. unfold complete_login in He. run_prog.
  all: rewrite ?cookies_set_cons, ?cookies_set_app, ?cookies_set_cons in Hin;
    try (rewrite (cookies_set_silent _ (upsertUser_silent _ _ _ ltac:(eassumption))) in Hin);
    simpl in Hin; try (by apply elem_of_nil in Hin).
  apply list_elem_of_singleton in Hin. injection Hin as -> -> ->.
  repeat (split; [done|]). split; [in_trace|].
  match goal with Ht : negb (truthy (ui_openId _)) = false |- _ =>
    apply negb_false_iff, truthy_spec in Ht end.
  eexists _, _, _, _, _. split; [|split; [in_trace|split; [in_trace|split; [done|split; [in_trace|]]]]];
    reflexivity.
Qed.
End CallbackProps.

(** ** Examples *)

#[local] Existing Instances example_env example_cookies.

Definition example_oauth_state : jsstr :=
  default [] (encodeOAuthState {| os_redirectUri := js "https://app.example/api/oauth/callback";
                                  os_nonce := Some (js "n0nce") |}).

(** A callback of the service, in the browser whose one-time cookie is [nonce]. *)
Definition example_callback (nonce : jsstr) : Request := {|
  req_protocol := js "https"; req_cookie := Some (js "__Host-oauth_state=" ++ nonce);
  req_authorization := None; req_forwarded_proto := None;
  req_query := [(js "code", qv_string (js "c0de")); (js "state", qv_string example_oauth_state)] |}.

Lemma callback_answers_witness :
  let '(tr, r, _) := run platform (oauth_callback (example_callback (js "n0nce"))) (example_platform ∅) in
  r = Ok tt ∧ answers tr = 1 ∧ length tr = 13.
Proof.
  pose proof (run_exec platform (oauth_callback (example_callback (js "n0nce"))) (example_platform ∅)) as He.
  assert (Hl : length (run platform (oauth_callback (example_callback (js "n0nce"))) (example_platform ∅)).1.1 = 13)
    by (vm_compute; reflexivity).
  destruct (run platform _ _) as [[tr r] p']. simpl in Hl.
  destruct (callback_answers _ _ _ He) as [Hr Ha]. split; [exact Hr|split; [exact Ha|exact Hl]].
Defined.

Lemma callback_csrf_witness :
  let '(tr, _, _) := run platform (oauth_callback (example_callback (js "other"))) (example_platform ∅) in
  ∃ status body, tr = [Ev (op_res (res_json status body)) tt] ∧ (status = 400 ∨ status = 403)%Z.
Proof.
  pose proof (run_exec platform (oauth_callback (example_callback (js "other"))) (example_platform ∅)) as He.
  destruct (run platform _ _) as [[tr r] p']. apply (callback_csrf _ _ _ He).
  intros (state & n & Hs & _ & Hn & He').
  assert (Hq : getQueryParam (example_callback (js "other")) (js "state") = Some example_oauth_state)
    by reflexivity.
  rewrite Hq in Hs. apply (inj Some) in Hs. subst state.
  assert (Hn2 : ds_nonce (decodeOAuthState example_oauth_state) = Some (JString (js "n0nce")))
    by (vm_compute; reflexivity).
  assert (He2 : expected_nonce (example_callback (js "other")) = Some (js "other"))
    by (vm_compute; reflexivity).
  rewrite Hn in Hn2. rewrite He' in He2. injection Hn2 as ->. discriminate He2.
Defined.

Lemma callback_session_witness :
  let '(tr, _, _) := run platform (oauth_callback (example_callback (js "n0nce"))) (example_platform ∅) in
  ∃ value o, cookies_set tr = [(COOKIE_NAME, value, o)]
    ∧ co_secure o = true ∧ same_browser (example_callback (js "n0nce")).
Proof.
  pose proof (run_exec platform (oauth_callback (example_callback (js "n0nce"))) (example_platform ∅)) as He.
  assert (Hc : ∃ value o, cookies_set (run platform (oauth_callback (example_callback (js "n0nce")))
    (example_platform ∅)).1.1 = [(COOKIE_NAME, value, o)])
    by (eexists _, _; vm_compute; reflexivity).
  destruct (run platform _ _) as [[tr r] p']. destruct Hc as (value & o & Hc). simpl in Hc.
  exists value, o. split; [exact Hc|].
  assert (Hin : (COOKIE_NAME, value, o) ∈ cookies_set tr) by (rewrite Hc; apply list_elem_of_here).
  destruct (callback_session _ _ _ _ _ _ He Hin) as (Hb & _ & _ & _ & Ho & _).
  split; [rewrite Ho; vm_compute; reflexivity|exact Hb].
Defined.
