(* ===== verification/SignIn.v ===== *)
(** Signing in, from the callback of the OAuth service to the next request: the session that the
    callback hands out is the one that authentication accepts. *)
From S2P Require Import Prelude JsString JsNumber Json Schema OAuthState Trpc Node Logger Users Platform Session SessionProps OAuthCallback.

Section SignIn.
Context `{ProcessEnv, CookieLib, UnicodeCase}.
#[local] Opaque getDb upsertUser getUserByOpenId verifySession createSessionToken syncUser getUserInfoWithJwt.

(** Operations without effect on the users table and its connection. *)
Definition storeless (o : op) : Prop :=
  match o with op_db_upsert _ _ | op_set_db_cell _ => False | _ => True end.

Lemma served_storeless s tr s' :
  Forall (λ e, storeless (event_op e)) tr → served s tr s' → s' = s.
Proof.
  intros Hf. induction Hf as [|[o x] tr Ho _ IH]; simpl; [done|].
  destruct o; simpl in Ho; try done; try apply IH; intros Hs.
  - by destruct Hs as [_ ?%IH].
  - destruct x; [destruct Hs as [_ Hs]|]; by apply IH in Hs.
Qed.

(** What the OAuth service reported to the callback. *)
Definition login_reported (tr : list event) (info : UserInfo) : Prop :=
  ∃ token data, Ev (op_axios_post (ax_user_info token)) (Ok data) ∈ tr ∧ info = with_login_method data.

Definition session_name (info : UserInfo) : jsstr := str_or (field_option (ui_name info)) [].

#[local] Transparent createSessionToken.
Lemma createSessionToken_ops openId expiresInMs name :
  ops (λ o, storeless o ∧ not_res o) (createSessionToken openId expiresInMs name).
Proof. unfold createSessionToken, signSession. ops_tac; done. Qed.
#[local] Opaque createSessionToken.

Lemma createSessionToken_storeless openId expiresInMs name tr r :
  exec (createSessionToken openId expiresInMs name) tr r →
  Forall (λ e, storeless (event_op e)) tr ∧ cookies_set tr = [].
Proof.
  intros Hf%(ops_exec _ _ _ _ (createSessionToken_ops _ _ _)).
  split; [|apply cookies_set_silent]; (eapply Forall_impl; [exact Hf|]); by intros e [? ?].
Qed.

(** A callback that sets a cookie has written the user's row and made the token for that user. *)
Lemma login_cookie req code state tr r name value o :
  exec (complete_login req code state) tr r → (name, value, o) ∈ cookies_set tr →
  ∃ info d t1 t2 t3 t4, tr = t1 ++ t2 ++ t3 ++ t4
    ∧ login_reported t1 info ∧ ui_openId info ≠ []
    ∧ Forall (λ e, storeless (event_op e)) t1
    ∧ exec (upsertUser (login_row info d)) t2 (Ok tt)
    ∧ exec (createSessionToken (ui_openId info) (Some ONE_YEAR_MS) (Some (session_name info))) t3 (Ok value)
    ∧ Forall (λ e, storeless (event_op e)) t4.
Proof.
  intros He Hin. unfold complete_login in He. run_prog.
  all: repeat rewrite ?cookies_set_cons, ?cookies_set_app in Hin;
    try match goal with Hu : exec (upsertUser _) _ _ |- _ =>
      rewrite (cookies_set_silent _ (upsertUser_silent _ _ _ Hu)) in Hin end;
    try match goal with Hc : exec (createSessionToken _ _ _) _ _ |- _ =>
      rewrite (proj2 (createSessionToken_storeless _ _ _ _ _ Hc)) in Hin end;
    simpl in Hin; try (by apply elem_of_nil in Hin).
  apply list_elem_of_singleton in Hin. injection Hin as -> -> ->.
  match goal with
  | Ht : negb (truthy (ui_openId ?data)) = false, Hu : exec (upsertUser (login_row _ ?d)) ?t2 (Ok ?u),
    Hc : exec (createSessionToken _ _ _) ?t3 _
    |- context [Ev ?a1 ?x1 :: Ev ?a2 ?x2 :: ?e3 :: _] =>
      destruct u; apply negb_false_iff, truthy_spec in Ht;
      exists (with_login_method data), d, [Ev a1 x1; Ev a2 x2; e3], t2, t3; eexists;
      split; [reflexivity|]; split; [|split; [exact Ht|split; [|split; [exact Hu|split; [exact Hc|]]]]]
  end.
  - eexists _, _. split; [|reflexivity]. in_trace.
  - by repeat constructor.
  - by repeat constructor.
Qed.

(** The rows of a table are kept under their own identifiers. *)
Definition keyed (t : Table) : Prop := ∀ k row, t !! k = Some row → user_openId row = k.

(** What the callback did to the table, and the token it made. *)
Lemma callback_login req tr r name value o s s' :
  exec (oauth_callback req) tr r → (name, value, o) ∈ cookies_set tr → served s tr s' →
  keyed (db_users s) → db_connected s' = true →
  ∃ info d u t3, login_reported tr info ∧ ui_openId info ≠ [] ∧ t3 ⊆ tr
    ∧ exec (createSessionToken (ui_openId info) (Some ONE_YEAR_MS) (Some (session_name info))) t3 (Ok value)
    ∧ db_users s' !! ui_openId info = Some u
    ∧ upserted (login_row info d) (db_users s !! ui_openId info) u
    ∧ user_openId u = ui_openId info.
Proof.
  intros [(st & b & -> & _)|(_ & code & state & tr' & _ & -> & He)]%callback_cases Hin Hs Hk Hc;
    [by apply elem_of_nil in Hin|].
  rewrite cookies_set_cons in Hin. simpl in Hin, Hs.
  destruct (login_cookie _ _ _ _ _ _ _ _ He Hin) as
    (info & d & t1 & t2 & t3 & t4 & -> & Hr & Hne & Hl1 & Hu & Ht & Hl4).
  apply served_app in Hs as (sa & ->%served_storeless & (sb & Hsb & (sc & Hsc & Hsd)%served_app)%served_app);
    [|done].
  apply served_storeless in Hsd as ->; [|done].
  apply served_storeless in Hsc as ->; [|by apply (createSessionToken_storeless _ _ _ _ _ Ht)].
  destruct (upsertUser_spec _ _ _ _ _ Hu Hsb) as [_ Hrow]. rewrite Hc in Hrow.
  destruct Hrow as (u & -> & Hup). exists info, d, u, t3. split_and!; try done.
  - destruct Hr as (token & data & Hin' & ->). exists token, data. set_solver.
  - set_solver.
  - by rewrite lookup_insert_eq.
  - destruct Hup as (_ & _ & _ & _ & _ & Hid & _). rewrite Hid. simpl.
    destruct (db_users s !! ui_openId info) as [row|] eqn:E; [|done]. simpl. by apply Hk.
Qed.

(** Authentication of a session whose user is in the table. *)
Lemma authenticate_known req token session t tr r s s' u :
  session_token req = Some token → exec (authenticateRequest req) tr r → served s tr s' →
  (∀ t1 r1, exec (verifySession (Some token)) t1 r1 → t1 ⊆ tr → r1 = Ok (Some session)) →
  startsWith CRON_OPEN_ID_PREFIX (sp_openId session) = false →
  t = db_users s → t !! sp_openId session = Some u → user_openId u ≠ [] → db_connected s = true →
  r = Ok (plain_user u) ∨ ∃ e, r = Err e ∧ Exists db_refused tr.
Proof.
  intros Ht He Hs Hv Hcron -> Hu Hne Hc. unfold authenticateRequest in He. rewrite Ht in He.
  apply exec_bind in He as [(e & -> & He)|(o & t1 & t2 & -> & Hv1 & He)].
  { specialize (Hv _ _ He (reflexivity _)). discriminate. }
  assert (Ok o = Ok (Some session)) as [= ->]
    by (apply (Hv _ _ Hv1); set_solver).
  apply served_app in Hs as (s1 & Hs1 & Hs). apply served_storeless in Hs1 as ->.
  2:{ apply verifySession_spec in Hv1 as [Hl _]. eapply Forall_impl; [exact Hl|]. by intros [[] ?]. }
  rewrite Hcron in He. destruct He as (d & t3 & -> & He). simpl in Hs.
  apply exec_bind in He as [(e & -> & [_ [=]])|(? & ? & ? & -> & [-> [= <-]] & He)].
  rewrite app_nil_l in *.
  apply exec_bind in He as [(e & -> & He)|(found & t4 & t5 & -> & Hf & He)].
  { right. exists e. split; [done|]. apply Exists_app. right. apply Exists_cons_tl.
    by eapply getUserByOpenId_error. }
  apply served_app in Hs as (s2 & Hs2 & Hs).
  destruct (getUserByOpenId_effect _ _ _ _ _ Hf Hs2) as [_ Hfound].
  rewrite (getUserByOpenId_connected _ _ _ _ _ Hf Hs2 Hc), Hu in Hfound. subst found.
  apply exec_bind in He as [(e & -> & He)|(? & t6 & t7 & -> & [-> [= ->]] & He)]; [by destruct He|].
  apply exec_bind in He as [(e & -> & He)|(? & t8 & t9 & -> & _ & [-> ->])]; [|by left].
  right. exists e. split; [done|]. apply Exists_app. right. apply Exists_cons_tl.
  apply Exists_app. right. by eapply upsertUser_error.
Qed.

(** C13. Signing in works from end to end: when the callback has set a session cookie for the user
    whom the OAuth service reported, with a database, then the next request that carries the
    cookie's token before it expires is authenticated as that user, from the row that the callback
    wrote or renewed, unless the database refuses a query; only a user without a name, or a server
    without an application identifier, is refused with 403 although the callback signed the session. *)
Theorem sign_in_works `{JwtLib} req1 t1 r1 name token o s s1 req2 t2 r2 s2 at_ :
  exec (oauth_callback req1) t1 r1 → (name, token, o) ∈ cookies_set t1 → served s t1 s1 →
  keyed (db_users s) → db_connected s1 = true →
  session_token req2 = Some token → exec (authenticateRequest req2) t2 r2 → served s1 t2 s2 →
  Forall (jwt_served at_) t1 → Forall (jwt_served at_) t2 →
  (∀ issuedAt, Ev op_now issuedAt ∈ t1 → (at_ < (issuedAt + ONE_YEAR_MS) / 1000)%Z) →
  ∃ info, login_reported t1 info
    ∧ if truthy ENV_appId && truthy (session_name info) then
        startsWith CRON_OPEN_ID_PREFIX (ui_openId info) = false →
        ∃ u d, db_users s1 !! ui_openId info = Some u
          ∧ upserted (login_row info d) (db_users s !! ui_openId info) u
          ∧ user_openId u = ui_openId info
          ∧ (r2 = Ok (plain_user u) ∨ ∃ e, r2 = Err e ∧ Exists db_refused t2)
      else r2 = Err (x_http (ForbiddenError (js "Invalid session cookie"))).
Proof.
  intros Hl Hin Hs Hk Hc Ht Ha Hs2 Hj1 Hj2 Hat.
  destruct (callback_login _ _ _ _ _ _ _ _ Hl Hin Hs Hk Hc) as
    (info & d & u & t3 & Hr & Hne & Hsub & Htok & Hu & Hup & Hid).
  exists info. split; [done|].
  assert (∀ t r, exec (verifySession (Some token)) t r → t ⊆ t2 →
    r = Ok (if truthy (ui_openId info) && truthy ENV_appId && truthy (session_name info)
            then Some {| sp_openId := ui_openId info; sp_appId := ENV_appId; sp_name := session_name info |}
            else None)) as Hv.
  { intros t r He Hsub2. replace (session_name info) with (str_or (Some (session_name info)) [])
      by (unfold str_or; by destruct (session_name info)).
    eapply (created_verified _ _ _ _ _ _ _ at_); [exact Htok|exact He| | |].
    - rewrite Forall_forall in Hj1 |- *. set_solver.
    - rewrite Forall_forall in Hj2 |- *. set_solver.
    - intros issuedAt Hi. simpl. apply Hat. set_solver. }
  rewrite (proj2 (truthy_spec _) Hne) in Hv. simpl in Hv.
  destruct (truthy ENV_appId && truthy (session_name info)).
  - intros Hcron. exists u, d. split_and!; try done.
    eapply (authenticate_known _ _ _ _ _ _ _ _ u Ht Ha Hs2 Hv); try done. by rewrite Hid.
  - unfold authenticateRequest in Ha. rewrite Ht in Ha.
    apply exec_bind in Ha as [(e & -> & He)|(x & ta & tb & -> & Hx & He)].
    { specialize (Hv _ _ He (reflexivity _)). discriminate. }
    assert (Ok x = Ok None) as [= ->] by (apply (Hv _ _ Hx); set_solver). by destruct He as [_ ->].
Qed.
End SignIn.

(** ** A run *)

#[local] Existing Instances example_env example_cookies example_jwt.

(** The platform of the examples answers for the token library, and its clock stands still. *)
Lemma platform_tokens {A} (pr : prog A) p at_ :
  pf_sign p = example_sign → pf_verify p = example_verify →
  Forall (λ e, jwt_served at_ e ∧ ∀ d, e = Ev op_now d → d = pf_clock p) (run platform pr p).1.1
  ∧ pf_sign (run platform pr p).2 = example_sign ∧ pf_verify (run platform pr p).2 = example_verify.
Proof.
  revert p. induction pr as [a|e|o k IH]; intros p Hs Hv; simpl; [split; [constructor|done]..|].
  destruct (platform o p) as [x p1] eqn:E. specialize (IH x p1).
  destruct (run platform (k x) p1) as [[tr r] p2] eqn:Er. simpl in *.
  assert (pf_sign p1 = pf_sign p ∧ pf_verify p1 = pf_verify p ∧ pf_clock p1 = pf_clock p) as (Hs1 & Hv1 & Hc1).
  { destruct o; simpl in E; try (by injection E as <- <-); by destruct (pf_fetches p); injection E as <- <-. }
  rewrite Hs1, Hv1, Hc1 in IH. destruct (IH Hs Hv) as [Hf He]. split; [|exact He].
  constructor; [|exact Hf].
  destruct o; simpl in E |- *; (split; [try done|]); try (intros d Hd; discriminate Hd).
  - intros d Hd%ev_now_inj. by injection E as <- <-.
  - injection E as <- <-. by rewrite Hs.
  - injection E as <- <-. by rewrite Hv.
Qed.

(** What the service reports to the example, whichever event says so. *)
Definition reports (e : event) : bool :=
  match e with Ev (op_axios_post (ax_user_info _)) _ => true | _ => false end.

Lemma sign_in_works_witness :
  let '(t1, _, p1) := run platform (oauth_callback (example_callback (js "n0nce"))) (example_platform ∅) in
  let '(t2, r2, _) := run platform (authenticateRequest example_signed_in) p1 in
  ∃ info u, login_reported t1 info ∧ r2 = Ok (plain_user u) ∧ user_openId u = ui_openId info.
Proof.
  pose proof (run_exec platform (oauth_callback (example_callback (js "n0nce"))) (example_platform ∅)) as He1.
  pose proof (platform_served (oauth_callback (example_callback (js "n0nce"))) (example_platform ∅)) as Hs1.
  destruct (platform_tokens (oauth_callback (example_callback (js "n0nce"))) (example_platform ∅) 0
    eq_refl eq_refl) as (Hj1 & Hsign & Hverify).
  assert (∃ o, cookies_set (run platform (oauth_callback (example_callback (js "n0nce")))
    (example_platform ∅)).1.1 = [(COOKIE_NAME, example_token, o)]) as [o Hc]
    by (eexists; vm_compute; reflexivity).
  assert ((λ p, db_connected (pf_store p))
    (run platform (oauth_callback (example_callback (js "n0nce"))) (example_platform ∅)).2 = true) as Hdb
    by (vm_compute; reflexivity).
  assert ((λ p, match (run platform (authenticateRequest example_signed_in) p).1.2 with
                | Ok _ => true | Err _ => false end)
    (run platform (oauth_callback (example_callback (js "n0nce"))) (example_platform ∅)).2 = true) as Hok
    by (vm_compute; reflexivity).
  assert (js_filter reports
    (run platform (oauth_callback (example_callback (js "n0nce"))) (example_platform ∅)).1.1
    = [Ev (op_axios_post (ax_user_info (js "at"))) (Ok (example_info (js "ada")))]) as Hrep
    by (vm_compute; reflexivity).
  destruct (run platform (oauth_callback _) _) as [[t1 r1] p1]. 
  cbn [fst snd] in Hc, Hdb, Hok, Hrep, He1, Hs1, Hj1, Hsign, Hverify.
  pose proof (run_exec platform (authenticateRequest example_signed_in) p1) as He2.
  pose proof (platform_served (authenticateRequest example_signed_in) p1) as Hs2.
  destruct (platform_tokens (authenticateRequest example_signed_in) p1 0 Hsign Hverify) as (Hj2 & _ & _).
  destruct (run platform (authenticateRequest _) p1) as [[t2 r2] p2].
  cbn [fst snd] in Hok, He2, Hs2, Hj2.
  assert ((COOKIE_NAME, example_token, o) ∈ cookies_set t1) as Hin by (rewrite Hc; apply list_elem_of_here).
  destruct (sign_in_works (example_callback (js "n0nce")) t1 r1 _ example_token o _
    (pf_store p1) example_signed_in t2 r2 (pf_store p2) 0 He1 Hin Hs1) as (info & Hr & Hx); [intros k row Hk; discriminate Hk|exact Hdb
    |vm_compute; reflexivity|exact He2|exact Hs2|by eapply Forall_impl; [exact Hj1|intros ? [? _]]
    |by eapply Forall_impl; [exact Hj2|intros ? [? _]]| |].
  { intros d Hd. rewrite Forall_forall in Hj1. destruct (Hj1 _ Hd) as [_ Hj]. by rewrite (Hj d eq_refl). }
  assert (info = with_login_method (example_info (js "ada"))) as ->.
  { destruct Hr as (token & data & Hd & ->).
    assert (Ev (op_axios_post (ax_user_info token)) (Ok data) ∈ js_filter reports t1) as Hd'
      by (by apply elem_of_js_filter).
    rewrite Hrep in Hd'. apply list_elem_of_singleton in Hd'.
    apply (f_equal (λ e, match e with
      | Ev o x => match o return ans o → option UserInfo with
                  | op_axios_post (ax_user_info _) => λ x, match x with Ok d => Some d | Err _ => None end
                  | _ => λ _, None end x end)) in Hd'. simpl in Hd'. by injection Hd' as ->. }
  assert (truthy ENV_appId && truthy (session_name (with_login_method (example_info (js "ada")))) = true) as Hn
    by (vm_compute; reflexivity).
  rewrite Hn in Hx.
  destruct Hx as (u & d & _ & _ & Hid & [->|(e & -> & _)]); [vm_compute; reflexivity| |discriminate Hok].
  eexists _, u. split; [exact Hr|]. split; [reflexivity|exact Hid].
Defined.
