(* ===== verification/Forge.v ===== *)
(** Clients of the Forge services: what they share, the owner notifications
    ([server/_core/notification.ts]), the data API ([server/_core/dataApi.ts]) and the maps proxy
    ([server/_core/map.ts]). *)
From S2P Require Import Prelude JsString JsNumber Json Schema OAuthState Trpc Node Logger.

(** ** URLs *)

(** The URL class again, as text: resolution of a reference against a base, parsing, and query
    parameters. [None] is the TypeError of an invalid URL. *)
Class UrlBuilder := {
  URL_resolve : jsstr → jsstr → option jsstr;
  URL_href : jsstr → option jsstr;
  URL_set_param : jsstr → jsstr → jsstr → jsstr;
  URL_append_param : jsstr → jsstr → jsstr → jsstr
}.

Definition invalid_url : exn := TypeError (js "Invalid URL").

Definition from_option {A} (e : exn) (o : option A) : prog A :=
  match o with Some a => Ret a | None => Throw e end.

(** ** Requests *)

Definition json_type : jsstr * jsstr := (js "content-type", js "application/json").
Definition connect_version : jsstr * jsstr := (js "connect-protocol-version", js "1").
Definition accept_json : jsstr * jsstr := (js "accept", js "application/json").

Definition status_text (r : Response) : jsstr := js_of_Z (rs_status r).

(** [detail ? `: ${detail}` : ""]. *)
Definition colon_detail (detail : jsstr) : jsstr := if truthy detail then js ": " ++ detail else [].

(** [await response.text().catch(() => "")]. *)
Definition text_or_empty (r : Response) : jsstr :=
  match rs_text r with Ok s => s | Err _ => [] end.

Section Forge.
Context `{ProcessEnv, UrlBuilder}.

Definition authorization : jsstr := js "Bearer " ++ ENV_forgeApiKey.
Definition auth_header : jsstr * jsstr := (js "authorization", authorization).

(** [new URL(path, base).toString()], the base with a slash at its end. *)
Definition forge_url (path : jsstr) : prog jsstr :=
  from_option invalid_url (URL_resolve path (with_trailing_slash ENV_forgeApiUrl)).

(** A POST of a JSON text with the headers of the Connect protocol; the order of headers means
    nothing. *)
Definition connect_post (url body : jsstr) : prog Response :=
  fetch url {| fi_method := Some (js "POST");
               fi_headers := [accept_json; json_type; connect_version; auth_header];
               fi_body := text_body body |}.

(** The configuration check of the services that throw an [Error]. *)
Definition require_config : prog unit :=
  if negb (truthy ENV_forgeApiUrl) then Throw (JsError (js "BUILT_IN_FORGE_API_URL is not configured"))
  else if negb (truthy ENV_forgeApiKey) then Throw (JsError (js "BUILT_IN_FORGE_API_KEY is not configured"))
  else Ret tt.

(** ** Owner notifications *)

Record NotificationPayload := { np_title : jsstr; np_content : jsstr }.

Definition TITLE_MAX_LENGTH : nat := 1200.
Definition CONTENT_MAX_LENGTH : nat := N.to_nat 20000.

Definition bad_request (msg : jsstr) : TRPCError := {| te_code := BAD_REQUEST; te_message := msg |}.

Definition validatePayload (input : NotificationPayload) : result TRPCError NotificationPayload :=
  if negb (truthy (trim (np_title input))) then
    Err (bad_request (js "Notification title is required."))
  else if negb (truthy (trim (np_content input))) then
    Err (bad_request (js "Notification content is required."))
  else
    let title := trim (np_title input) in
    let content := trim (np_content input) in
    if bool_decide (TITLE_MAX_LENGTH < length title) then
      Err (bad_request (js "Notification title must be at most 1200 characters."))
    else if bool_decide (CONTENT_MAX_LENGTH < length content) then
      Err (bad_request (js "Notification content must be at most 20000 characters."))
    else Ok {| np_title := title; np_content := content |}.

Definition internal_error (msg : jsstr) : exn :=
  x_trpc {| te_code := INTERNAL_SERVER_ERROR; te_message := msg |}.

Definition notifyOwner (payload : NotificationPayload) : prog bool :=
  match validatePayload payload with
  | Err e => Throw (x_trpc e)
  | Ok valid =>
      if negb (truthy ENV_forgeApiUrl) then
        Throw (internal_error (js "Notification service URL is not configured."))
      else if negb (truthy ENV_forgeApiKey) then
        Throw (internal_error (js "Notification service API key is not configured."))
      else
        endpoint ← forge_url (js "webdevtoken.v1.WebDevService/SendNotification");
        catch
          (response ← connect_post endpoint (stringify (JObject
             [(js "title", JString (np_title valid)); (js "content", JString (np_content valid))]));
           if negb (rs_ok response) then
             logger_warn (js "notification.upstream_rejected")
               [(js "status", fv_number (num_of_Z (rs_status response)))];;
             Ret false
           else Ret true)
          (λ _, logger_warn (js "notification.request_failed") [];; Ret false)
  end.

(** ** The data API *)

Record DataApiCallOptions := {
  do_query : option json; do_body : option json; do_pathParams : option json;
  do_formData : option json }.

(** [String(v)]: an array joins its elements, among which [null] is empty. *)
Fixpoint json_text (v : json) : jsstr :=
  match v with
  | JNull => js "null"
  | JBool true => js "true"
  | JBool false => js "false"
  | JNumber n => js_of_num n
  | JString s => s
  | JArray l => join (js ",") (map (λ x, match x with JNull => [] | _ => json_text x end) l)
  | JObject _ => js "[object Object]"
  end.

(** The argument of [JSON.parse(payload.jsonData ?? "{}")], which is turned into a text. *)
Definition json_data_text (v : json) : jsstr :=
  match v with JNull => js "{}" | _ => json_text v end.

Definition callDataApi (apiId : jsstr) (options : DataApiCallOptions) : prog json :=
  require_config;;
  fullUrl ← forge_url (js "webdevtoken.v1.WebDevService/CallApi");
  response ← connect_post fullUrl (stringify (object
    [(js "apiId", Some (JString apiId)); (js "query", do_query options);
     (js "body", do_body options); (js "path_params", do_pathParams options);
     (js "multipart_form_data", do_formData options)]));
  if negb (rs_ok response) then
    Throw (JsError (js "Data API request failed (" ++ status_text response ++ js " "
                    ++ rs_statusText response ++ js ")" ++ colon_detail (text_or_empty response)))
  else
    let payload := match rs_json response with Ok v => v | Err _ => JObject [] end in
    match payload with
    | JObject l =>
        match assoc_get (js "jsonData") l with
        | Some jsonData =>
            match JSON_parse (json_data_text jsonData) with
            | Some v => Ret v
            | None => Ret jsonData
            end
        | None => Ret payload
        end
    | _ => Ret payload
    end.

(** ** The maps proxy *)

Record MapsConfig := { mc_baseUrl : jsstr; mc_apiKey : jsstr }.

Definition getMapsConfig : prog MapsConfig :=
  if negb (truthy ENV_forgeApiUrl) || negb (truthy ENV_forgeApiKey) then
    Throw (JsError (js "Google Maps proxy credentials missing: set BUILT_IN_FORGE_API_URL and BUILT_IN_FORGE_API_KEY"))
  else Ret {| mc_baseUrl := strip_trailing_slashes ENV_forgeApiUrl; mc_apiKey := ENV_forgeApiKey |}.

(** The values of query parameters, as [String] prints them; [None] is [undefined] or [null]. *)
Definition makeRequest (endpoint : jsstr) (params : list (jsstr * option jsstr))
    (method : option jsstr) (body : option json) : prog json :=
  config ← getMapsConfig;
  url ← from_option invalid_url (URL_href (mc_baseUrl config ++ js "/v1/maps/proxy" ++ endpoint));
  let url1 := URL_append_param url (js "key") (mc_apiKey config) in
  let url2 := foldl (λ u kv, match kv.2 with Some v => URL_append_param u kv.1 v | None => u end)
                url1 params in
  response ← fetch url2 {|
    fi_method := Some (str_or method (js "GET"));
    fi_headers := [(js "Content-Type", js "application/json")];
    fi_body := match body with Some v => text_body (stringify v) | None => no_body end |};
  if negb (rs_ok response) then
    errorText ← from_result (rs_text response);
    Throw (JsError (js "Google Maps API request failed (" ++ status_text response ++ js " "
                    ++ rs_statusText response ++ js "): " ++ errorText))
  else from_result (rs_json response).
End Forge.
