(* ===== verification/Heartbeat.v ===== *)
(** Scheduled callbacks ([server/_core/heartbeat.ts]). *)
From S2P Require Import Prelude JsString JsNumber Json Schema OAuthState Trpc Node Logger Forge.

Inductive HeartbeatMethod := m_post | m_put.

Definition method_text (m : HeartbeatMethod) : jsstr :=
  match m with m_post => js "POST" | m_put => js "PUT" end.

(** A payload may be any value; [None] is [undefined]. *)
Record HeartbeatJob := {
  hj_name : jsstr; hj_cron : jsstr; hj_path : jsstr; hj_method : option HeartbeatMethod;
  hj_payload : option json; hj_description : option jsstr }.

Record HeartbeatJobUpdate := {
  hu_cron : option jsstr; hu_path : option jsstr; hu_method : option HeartbeatMethod;
  hu_payload : option json; hu_description : option jsstr; hu_enable : option bool }.

Definition SERVICE : jsstr := js "webdevtoken.v1.WebDevService".

Definition stringifyPayload (payload : option json) : jsstr :=
  match payload with
  | None | Some JNull => js "{}"
  | Some (JString s) => s
  | Some v => stringify v
  end.

Definition callback_prefix : jsstr := js "/api/scheduled/".

Definition validateCallbackPath (path : jsstr) : prog unit :=
  if negb (truthy path) || negb (startsWith callback_prefix path) then
    Throw (x_trpc (bad_request (js "callback path must start with /api/scheduled/")))
  else Ret tt.

Definition mapForgeError (status : Z) (detail rpc : jsstr) : TRPCError := {|
  te_code :=
    if (status =? 401)%Z then UNAUTHORIZED
    else if (status =? 403)%Z then FORBIDDEN
    else if (status =? 404)%Z then NOT_FOUND
    else if ((status =? 400) || (status =? 422))%Z then BAD_REQUEST
    else if (status =? 409)%Z then CONFLICT
    else if (status =? 429)%Z then TOO_MANY_REQUESTS
    else INTERNAL_SERVER_ERROR;
  te_message := js "Heartbeat " ++ rpc ++ js " failed (" ++ js_of_Z status ++ js ")"
                ++ colon_detail detail |}.

Section Heartbeat.
Context `{ProcessEnv, UrlBuilder}.

Definition buildEndpoint (rpc : jsstr) : prog jsstr :=
  if negb (truthy ENV_forgeApiUrl) then
    Throw (internal_error (js "Heartbeat service URL is not configured (BUILT_IN_FORGE_API_URL)."))
  else if negb (truthy ENV_forgeApiKey) then
    Throw (internal_error (js "Heartbeat service API key is not configured (BUILT_IN_FORGE_API_KEY)."))
  else forge_url (SERVICE ++ js "/" ++ rpc).

Definition forge_headers (userSession : jsstr) : list (jsstr * jsstr) :=
  [accept_json; auth_header; json_type; connect_version]
  ++ if truthy userSession then [(js "x-manus-user-session", userSession)] else [].

Definition callForge (rpc : jsstr) (body : list (jsstr * option json)) (userSession : jsstr) : prog json :=
  endpoint ← buildEndpoint rpc;
  response ← catch
    (fetch endpoint {| fi_method := Some (js "POST"); fi_headers := forge_headers userSession;
                       fi_body := text_body (stringify (object body)) |})
    (λ error, Throw (internal_error
       (js "Heartbeat " ++ rpc ++ js " network error: " ++ exn_text error)));
  if negb (rs_ok response) then
    Throw (x_trpc (mapForgeError (rs_status response) (text_or_empty response) rpc))
  else from_result (rs_json response).

Definition createHeartbeatJob (job : HeartbeatJob) (userSession : jsstr) : prog json :=
  validateCallbackPath (hj_path job);;
  callForge (js "CreateHeartbeatJob")
    [(js "name", Some (JString (hj_name job)));
     (js "cronExpression", Some (JString (hj_cron job)));
     (js "callbackPath", Some (JString (hj_path job)));
     (js "callbackMethod", Some (JString (method_text (default m_post (hj_method job)))));
     (js "callbackPayload", Some (JString (stringifyPayload (hj_payload job))));
     (js "description", Some (JString (default [] (hj_description job))))] userSession.

(** The members of the update: a field that is not set is [undefined], which is not sent. *)
Definition update_body (taskUid : jsstr) (patch : HeartbeatJobUpdate) : list (jsstr * option json) :=
  [(js "taskUid", Some (JString taskUid));
   (js "cronExpression", JString <$> hu_cron patch);
   (js "callbackPath", JString <$> hu_path patch);
   (js "callbackMethod", (λ m, JString (method_text m)) <$> hu_method patch);
   (js "callbackPayload", (λ p, JString (stringifyPayload (Some p))) <$> hu_payload patch);
   (js "description", JString <$> hu_description patch);
   (js "enable", JBool <$> hu_enable patch)].

Definition updateHeartbeatJob (taskUid : jsstr) (patch : HeartbeatJobUpdate) (userSession : jsstr)
    : prog json :=
  match hu_path patch with
  | Some path => validateCallbackPath path
  | None => Ret tt
  end;;
  callForge (js "UpdateHeartbeatJob") (update_body taskUid patch) userSession.

Definition deleteHeartbeatJob (taskUid userSession : jsstr) : prog unit :=
  callForge (js "DeleteHeartbeatJob") [(js "taskUid", Some (JString taskUid))] userSession;;
  Ret tt.

Definition listHeartbeatJobs (userSession : jsstr) (page pageSize : option number) : prog json :=
  callForge (js "ListHeartbeatJobs")
    [(js "page", JNumber <$> page); (js "pageSize", JNumber <$> pageSize)] userSession.
End Heartbeat.
