(* ===== verification/Storage.v ===== *)
(** Object storage: the helpers of [server/storage.ts] and the download proxy of
    [server/_core/storageProxy.ts]. *)
From S2P Require Import Prelude JsString JsNumber Json Schema OAuthState Trpc Node Logger Forge.

(** What is uploaded: only its size matters here. *)
Record StoredObject := { so_key : jsstr; so_url : jsstr }.

Definition normalizeKey (relKey : jsstr) : jsstr := strip_leading_slashes relKey.

(** The first eight characters of a UUID without its hyphens. *)
Definition hash_of (id : jsstr) : jsstr := take 8 (js_filter (λ c, negb (c =? 45)%N) id).

Definition dot : N := 46%N.

(** The hash goes before the last dot, or at the end when there is none. *)
Definition with_hash (relKey hash : jsstr) : jsstr :=
  match lastIndexOf dot relKey with
  | None => relKey ++ js "_" ++ hash
  | Some lastDot => take lastDot relKey ++ js "_" ++ hash ++ drop lastDot relKey
  end.

Definition appendHashSuffix (relKey : jsstr) : prog jsstr :=
  id ← uuid; Ret (with_hash relKey (hash_of id)).

Definition download_prefix : jsstr := js "/manus-storage/".

(** [const { url } = await response.json()], when the URL is a text; anything falsy is empty. *)
Definition url_of (v : json) : prog jsstr :=
  o ← prop (js "url") v;
  Ret (match o with Some (JString s) => s | _ => [] end).

Section Storage.
Context `{ProcessEnv, UrlBuilder}.

(** The base URL without slashes at its end, and the key. *)
Definition getForgeConfig : prog (jsstr * jsstr) :=
  if negb (truthy ENV_forgeApiUrl) || negb (truthy ENV_forgeApiKey) then
    Throw (JsError (js "Storage config missing: set BUILT_IN_FORGE_API_URL and BUILT_IN_FORGE_API_KEY"))
  else Ret (strip_trailing_slashes ENV_forgeApiUrl, ENV_forgeApiKey).

Definition bearer_header (key : jsstr) : jsstr * jsstr := (js "Authorization", js "Bearer " ++ key).

(** The address that signs a URL for [key]. *)
Definition presign_url (path forgeUrl key : jsstr) : prog jsstr :=
  url ← from_option invalid_url (URL_resolve path (forgeUrl ++ js "/"));
  Ret (URL_set_param url (js "path") key).

(** [await response.text().catch(() => response.statusText)]. *)
Definition text_or_status (r : Response) : jsstr :=
  match rs_text r with Ok s => s | Err _ => rs_statusText r end.

Definition get_with (header : jsstr * jsstr) : FetchInit :=
  {| fi_method := None; fi_headers := [header]; fi_body := no_body |}.

Definition storagePut (relKey : jsstr) (size : Z) (contentType : jsstr) : prog StoredObject :=
  '(forgeUrl, forgeKey) ← getForgeConfig;
  key ← appendHashSuffix (normalizeKey relKey);
  presignUrl ← presign_url (js "v1/storage/presign/put") forgeUrl key;
  presignResp ← fetch presignUrl (get_with (bearer_header forgeKey));
  if negb (rs_ok presignResp) then
    Throw (JsError (js "Storage presign failed (" ++ status_text presignResp ++ js "): "
                    ++ text_or_status presignResp))
  else
    body ← from_result (rs_json presignResp);
    s3Url ← url_of body;
    if negb (truthy s3Url) then Throw (JsError (js "Forge returned empty presign URL"))
    else
      uploadResp ← fetch s3Url {|
        fi_method := Some (js "PUT"); fi_headers := [(js "Content-Type", contentType)];
        fi_body := blob_body size contentType |};
      if negb (rs_ok uploadResp) then
        Throw (JsError (js "Storage upload to S3 failed (" ++ status_text uploadResp ++ js ")"))
      else Ret {| so_key := key; so_url := download_prefix ++ key |}.

Definition storageGet (relKey : jsstr) : StoredObject :=
  let key := normalizeKey relKey in {| so_key := key; so_url := download_prefix ++ key |}.

(** The signed URL is handed on as the service sent it. *)
Definition storageGetSignedUrl (relKey : jsstr) : prog (option json) :=
  '(forgeUrl, forgeKey) ← getForgeConfig;
  getUrl ← presign_url (js "v1/storage/presign/get") forgeUrl (normalizeKey relKey);
  resp ← fetch getUrl (get_with (bearer_header forgeKey));
  if negb (rs_ok resp) then
    Throw (JsError (js "Storage signed URL failed (" ++ status_text resp ++ js "): "
                    ++ text_or_status resp))
  else
    body ← from_result (rs_json resp);
    prop (js "url") body.

(** ** The download proxy: [GET /manus-storage/*], where the star matched [key] *)

Definition storage_proxy (key : jsstr) : prog unit :=
  if negb (truthy key) then respond (res_send 400 (js "Missing storage key"))
  else if negb (truthy ENV_forgeApiUrl) || negb (truthy ENV_forgeApiKey) then
    respond (res_send 500 (js "Storage proxy not configured"))
  else
    catch
      (forgeUrl ← presign_url (js "v1/storage/presign/get")
                    (strip_trailing_slashes ENV_forgeApiUrl) key;
       forgeResp ← fetch forgeUrl (get_with (bearer_header ENV_forgeApiKey));
       if negb (rs_ok forgeResp) then
         logger_error (js "storage_proxy.upstream_rejected")
           [(js "status", fv_number (num_of_Z (rs_status forgeResp)))];;
         respond (res_send 502 (js "Storage backend error"))
       else
         body ← from_result (rs_json forgeResp);
         url ← url_of body;
         if negb (truthy url) then respond (res_send 502 (js "Empty signed URL from backend"))
         else
           respond (res_set (js "Cache-Control") (js "no-store"));;
           respond (res_redirect 307 url))
      (λ _, logger_error (js "storage_proxy.request_failed") [];;
            respond (res_send 502 (js "Storage proxy error"))).
End Storage.

(** A dot in the name of a directory is taken for the one of the file's extension. *)
Example with_hash_dotted_directory :
  with_hash (js "v1.2/readme") (js "0a1b2c3d") = js "v1_0a1b2c3d.2/readme".
Proof. reflexivity. Qed.
