(* ===== verification/Media.v ===== *)
(** Voice transcription ([server/_core/voiceTranscription.ts]) and image generation
    ([server/_core/imageGeneration.ts]). *)
From S2P Require Import Prelude JsString JsNumber Json Schema OAuthState Trpc Node Logger Forge Storage.

(** ** Voice *)

Record TranscribeOptions := {
  ta_audioUrl : jsstr; ta_language : option jsstr; ta_prompt : option jsstr }.

Inductive TranscriptionCode :=
| FILE_TOO_LARGE | INVALID_FORMAT | TRANSCRIPTION_FAILED | UPLOAD_FAILED | SERVICE_ERROR.

Record TranscriptionError := {
  te_error : jsstr; te_kind : TranscriptionCode; te_details : option jsstr }.

(** The union that the helper returns: the service's answer as it is, or an error. *)
Inductive Transcription := transcribed (response : json) | transcription_error (e : TranscriptionError).

Definition failed (msg : jsstr) (code : TranscriptionCode) (details : jsstr) : TranscriptionError :=
  {| te_error := msg; te_kind := code; te_details := Some details |}.

(** [table[key] || fallback], for keys that are no members of [Object.prototype]. *)
Fixpoint table_or (table : list (jsstr * jsstr)) (key fallback : jsstr) : jsstr :=
  match table with
  | [] => fallback
  | (k, v) :: table' => if str_eqb k key then v else table_or table' key fallback
  end.

Definition getFileExtension (mimeType : jsstr) : jsstr :=
  table_or
    [(js "audio/webm", js "webm"); (js "audio/mp3", js "mp3"); (js "audio/mpeg", js "mp3");
     (js "audio/wav", js "wav"); (js "audio/wave", js "wav"); (js "audio/ogg", js "ogg");
     (js "audio/m4a", js "m4a"); (js "audio/mp4", js "m4a")] mimeType (js "audio").

Definition getLanguageName (langCode : jsstr) : jsstr :=
  table_or
    [(js "en", js "English"); (js "es", js "Spanish"); (js "fr", js "French");
     (js "de", js "German"); (js "it", js "Italian"); (js "pt", js "Portuguese");
     (js "ru", js "Russian"); (js "ja", js "Japanese"); (js "ko", js "Korean");
     (js "zh", js "Chinese"); (js "ar", js "Arabic"); (js "hi", js "Hindi");
     (js "nl", js "Dutch"); (js "pl", js "Polish"); (js "tr", js "Turkish");
     (js "sv", js "Swedish"); (js "da", js "Danish"); (js "no", js "Norwegian");
     (js "fi", js "Finnish")] langCode langCode.

(** [audioBuffer.length / (1024 * 1024)]. *)
Definition sizeMB (size : Z) : number := ndiv (num_of_Z size) (num_of_Z (1024 * 1024)).

Definition error_details (e : exn) (otherwise : jsstr) : jsstr := default otherwise (exn_message e).

(** The audio's size and type, or the error to return. *)
Definition download_audio (audioUrl : jsstr) : prog (TranscriptionError + Z * jsstr) :=
  catch
    (response ← fetch audioUrl {| fi_method := None; fi_headers := []; fi_body := no_body |};
     if negb (rs_ok response) then
       Ret (inl (failed (js "Failed to download audio file") INVALID_FORMAT
                   (js "HTTP " ++ status_text response ++ js ": " ++ rs_statusText response)))
     else
       size ← from_result (rs_size response);
       let mimeType := str_or (rs_header response (js "content-type")) (js "audio/mpeg") in
       if nltb (num_of_Z 16) (sizeMB size) then
         Ret (inl (failed (js "Audio file exceeds maximum size limit") FILE_TOO_LARGE
                     (js "File size is " ++ toFixed 2 (sizeMB size)
                      ++ js "MB, maximum allowed is 16MB")))
       else Ret (inr (size, mimeType)))
    (λ error, Ret (inl (failed (js "Failed to fetch audio file") SERVICE_ERROR
                          (error_details error (js "Unknown error"))))).

Definition transcription_prompt (options : TranscribeOptions) : jsstr :=
  str_or (ta_prompt options)
    (if truthy (str_or (ta_language options) []) then
       js "Transcribe the user's voice to text, the user's working language is "
       ++ getLanguageName (default [] (ta_language options))
     else js "Transcribe the user's voice to text").

Section Media.
Context `{ProcessEnv, UrlBuilder}.

Definition transcription_form (size : Z) (mimeType : jsstr) (options : TranscribeOptions)
    : list (jsstr * FormPart) :=
  [(js "file", form_file size mimeType (js "audio." ++ getFileExtension mimeType));
   (js "model", form_text (js "whisper-1"));
   (js "response_format", form_text (js "verbose_json"));
   (js "prompt", form_text (transcription_prompt options))].

Definition transcribeAudio (options : TranscribeOptions) : prog Transcription :=
  catch
    (if negb (truthy ENV_forgeApiUrl) then
       Ret (transcription_error (failed (js "Voice transcription service is not configured")
              SERVICE_ERROR (js "BUILT_IN_FORGE_API_URL is not set")))
     else if negb (truthy ENV_forgeApiKey) then
       Ret (transcription_error (failed (js "Voice transcription service authentication is missing")
              SERVICE_ERROR (js "BUILT_IN_FORGE_API_KEY is not set")))
     else
       audio ← download_audio (ta_audioUrl options);
       match audio with
       | inl e => Ret (transcription_error e)
       | inr (size, mimeType) =>
           fullUrl ← forge_url (js "v1/audio/transcriptions");
           response ← fetch fullUrl {|
             fi_method := Some (js "POST");
             fi_headers := [auth_header; (js "Accept-Encoding", js "identity")];
             fi_body := form_body (transcription_form size mimeType options) |};
           if negb (rs_ok response) then
             Ret (transcription_error (failed (js "Transcription service request failed")
                    TRANSCRIPTION_FAILED
                    (status_text response ++ js " " ++ rs_statusText response
                     ++ colon_detail (text_or_empty response))))
           else
             whisperResponse ← from_result (rs_json response);
             text ← prop (js "text") whisperResponse;
             match text with
             | Some (JString (_ :: _)) => Ret (transcribed whisperResponse)
             | _ => Ret (transcription_error (failed (js "Invalid transcription response")
                      SERVICE_ERROR
                      (js "Transcription service returned an invalid response format")))
             end
       end)
    (λ error, Ret (transcription_error (failed (js "Voice transcription failed") SERVICE_ERROR
                     (error_details error (js "An unexpected error occurred"))))).

(** ** Images *)

Record OriginalImage := {
  oi_url : option jsstr; oi_b64Json : option jsstr; oi_mimeType : option jsstr }.

Record GenerateImageOptions := {
  gi_prompt : jsstr; gi_originalImages : option (list OriginalImage);
  gi_model : option jsstr; gi_quality : option jsstr }.

Definition DEFAULT_IMAGE_MODEL : jsstr := js "MODEL_GPT_IMAGE_2".
Definition DEFAULT_IMAGE_QUALITY : jsstr := js "medium".

Definition original_image_json (i : OriginalImage) : json :=
  object [(js "url", JString <$> oi_url i); (js "b64Json", JString <$> oi_b64Json i);
          (js "mimeType", JString <$> oi_mimeType i)].

Definition image_quality (options : GenerateImageOptions) : option jsstr :=
  match gi_quality options with
  | Some q => Some q
  | None => if str_eqb (default DEFAULT_IMAGE_MODEL (gi_model options)) DEFAULT_IMAGE_MODEL
            then Some DEFAULT_IMAGE_QUALITY else None
  end.

Definition image_request (options : GenerateImageOptions) : json :=
  object [(js "prompt", Some (JString (gi_prompt options)));
          (js "original_images", Some (JArray (original_image_json <$> default [] (gi_originalImages options))));
          (js "model", Some (JString (default DEFAULT_IMAGE_MODEL (gi_model options))));
          (js "quality", JString <$> str_or_null (image_quality options))].

Definition undefined_member {A} : prog A := Throw (TypeError (js "Cannot read properties of undefined")).

(** [Buffer.from(text, 'base64')] by its size. *)
Class NodeBuffer := { base64_size : jsstr → Z }.

Definition image_failure (what : jsstr) (response : Response) : exn :=
  JsError (what ++ js " (" ++ status_text response ++ js " " ++ rs_statusText response ++ js ")"
           ++ colon_detail (text_or_empty response)).

(** The type of an upload is turned into a text, and has a default when it is undefined; an image
    whose data is not the declared text is taken as an exception. *)
Definition generateImage `{NodeBuffer} (options : GenerateImageOptions) : prog jsstr :=
  require_config;;
  fullUrl ← forge_url (js "images.v1.ImageService/GenerateImage");
  response ← connect_post fullUrl (stringify (image_request options));
  if negb (rs_ok response) then Throw (image_failure (js "Image generation request failed") response)
  else
    result ← from_result (rs_json response);
    image ← prop (js "image") result;
    match image with
    | None => undefined_member
    | Some image =>
        base64Data ← prop (js "b64Json") image;
        match base64Data with
        | Some (JString data) =>
            d ← now;
            mimeType ← prop (js "mimeType") image;
            stored ← storagePut (js "generated/" ++ js_of_Z d ++ js ".png") (base64_size data)
              (match mimeType with Some t => json_text t | None => js "application/octet-stream" end);
            Ret (so_url stored)
        | _ => undefined_member
        end
    end.

Definition listImageModels : prog json :=
  require_config;;
  fullUrl ← forge_url (js "images.v1.ImageService/ListModels");
  response ← connect_post fullUrl (js "{}");
  if negb (rs_ok response) then Throw (image_failure (js "List image models failed") response)
  else
    result ← from_result (rs_json response);
    models ← prop (js "models") result;
    Ret (match models with None | Some JNull => JArray [] | Some v => v end).
End Media.
