(* ===== verification/Llm.v ===== *)
(** The language-model client ([server/_core/llm.ts]): normalisation of requests, and requests
    with retries. *)
From S2P Require Import Prelude JsString JsNumber Json Schema OAuthState Trpc Node Logger Forge.

(** ** Requests *)

Inductive LlmRole := r_system | r_user | r_assistant | r_tool | r_function.

#[export] Instance LlmRole_eq_dec : EqDecision LlmRole.
Proof. solve_decision. Defined.

Definition llm_role_text (r : LlmRole) : jsstr :=
  match r with
  | r_system => js "system" | r_user => js "user" | r_assistant => js "assistant"
  | r_tool => js "tool" | r_function => js "function"
  end.

(** A part of a message; the last constructor is an object of none of the declared types, which
    the code meets with an exception. *)
Inductive MessageContent :=
| mc_string (s : jsstr)
| mc_text (text : jsstr)
| mc_image (url : jsstr) (detail : option jsstr)
| mc_file (url : jsstr) (mime_type : option jsstr)
| mc_other (v : json).

Record Message := {
  msg_role : LlmRole; msg_content : MessageContent + list MessageContent;
  msg_name : option jsstr; msg_tool_call_id : option jsstr }.

Record Tool := { tool_name : jsstr; tool_description : option jsstr; tool_parameters : option json }.

Inductive ToolChoice :=
| tc_none | tc_auto | tc_required | tc_by_name (name : jsstr) | tc_explicit (name : jsstr).

(** [schema] is absent when the caller left it out against the declared type. *)
Record JsonSchema := { sc_name : jsstr; sc_schema : option json; sc_strict : option bool }.

Inductive ResponseFormat :=
| rf_text | rf_json_object | rf_json_schema (json_schema : option JsonSchema).

Record InvokeParams := {
  ip_messages : list Message; ip_tools : option (list Tool);
  ip_toolChoice : option ToolChoice; ip_tool_choice : option ToolChoice;
  ip_maxTokens : option number; ip_max_tokens : option number;
  ip_outputSchema : option JsonSchema; ip_output_schema : option JsonSchema;
  ip_responseFormat : option ResponseFormat; ip_response_format : option ResponseFormat;
  ip_model : option jsstr; ip_thinking : option json; ip_reasoning : option json }.

Definition ensureArray (value : MessageContent + list MessageContent) : list MessageContent :=
  match value with inl part => [part] | inr l => l end.

(** A part as the object it is; a string is itself. *)
Definition part_json (part : MessageContent) : json :=
  match part with
  | mc_string s => JString s
  | mc_text text => JObject [(js "type", JString (js "text")); (js "text", JString text)]
  | mc_image url detail =>
      JObject [(js "type", JString (js "image_url"));
               (js "image_url", object [(js "url", Some (JString url)); (js "detail", JString <$> detail)])]
  | mc_file url mime =>
      JObject [(js "type", JString (js "file_url"));
               (js "file_url", object [(js "url", Some (JString url)); (js "mime_type", JString <$> mime)])]
  | mc_other v => v
  end.

Definition normalizeContentPart (part : MessageContent) : result exn MessageContent :=
  match part with
  | mc_string s => Ok (mc_text s)
  | mc_other _ => Err (JsError (js "Unsupported message content part"))
  | _ => Ok part
  end.

(** [l.map(f)] where [f] may throw: the first exception leaves. *)
Fixpoint map_result {A B} (f : A → result exn B) (l : list A) : result exn (list B) :=
  match l with
  | [] => Ok []
  | a :: l' =>
      match f a with
      | Err e => Err e
      | Ok b => match map_result f l' with Ok bs => Ok (b :: bs) | Err e => Err e end
      end
  end.

Definition newline : jsstr := [10%N].

Definition normalizeMessage (message : Message) : result exn json :=
  let role := JString (llm_role_text (msg_role message)) in
  if bool_decide (msg_role message ∈ [r_tool; r_function]) then
    let content := join newline
      ((λ part, match part with mc_string s => s | _ => stringify (part_json part) end)
         <$> ensureArray (msg_content message)) in
    Ok (object [(js "role", Some role); (js "name", JString <$> msg_name message);
                (js "tool_call_id", JString <$> msg_tool_call_id message);
                (js "content", Some (JString content))])
  else
    match map_result normalizeContentPart (ensureArray (msg_content message)) with
    | Err e => Err e
    | Ok contentParts =>
        let content := match contentParts with
                       | [mc_text text] => JString text
                       | _ => JArray (part_json <$> contentParts)
                       end in
        Ok (object [(js "role", Some role); (js "name", JString <$> msg_name message);
                    (js "content", Some content)])
    end.

Definition tool_json (t : Tool) : json :=
  JObject [(js "type", JString (js "function"));
           (js "function", object [(js "name", Some (JString (tool_name t)));
                                   (js "description", JString <$> tool_description t);
                                   (js "parameters", tool_parameters t)])].

(** [tools && tools.length > 0]. *)
Definition some_tools (tools : option (list Tool)) : list Tool := default [] tools.

Definition normalizeToolChoice (toolChoice : option ToolChoice) (tools : option (list Tool))
    : result exn (option ToolChoice) :=
  match toolChoice with
  | None => Ok None
  | Some tc_none => Ok (Some tc_none)
  | Some tc_auto => Ok (Some tc_auto)
  | Some tc_required =>
      match some_tools tools with
      | [] => Err (JsError (js "tool_choice 'required' was provided but no tools were configured"))
      | [t] => Ok (Some (tc_explicit (tool_name t)))
      | _ => Err (JsError (js "tool_choice 'required' needs a single tool or specify the tool name explicitly"))
      end
  | Some (tc_by_name name) => Ok (Some (tc_explicit name))
  | Some (tc_explicit name) => Ok (Some (tc_explicit name))
  end.

Definition tool_choice_json (c : ToolChoice) : json :=
  match c with
  | tc_none => JString (js "none")
  | tc_auto => JString (js "auto")
  | tc_required => JString (js "required")
  | tc_by_name name => JObject [(js "name", JString name)]
  | tc_explicit name =>
      JObject [(js "type", JString (js "function")); (js "function", JObject [(js "name", JString name)])]
  end.

Definition or_else {A} (a b : option A) : option A := match a with Some _ => a | None => b end.

Definition json_schema_json (s : JsonSchema) : json :=
  object [(js "name", Some (JString (sc_name s))); (js "schema", sc_schema s);
          (js "strict", JBool <$> sc_strict s)].

(** [JSON.stringify] of a format leaves out a schema that is not there. *)
Definition response_format_json (f : ResponseFormat) : json :=
  match f with
  | rf_text => JObject [(js "type", JString (js "text"))]
  | rf_json_object => JObject [(js "type", JString (js "json_object"))]
  | rf_json_schema s =>
      object [(js "type", Some (JString (js "json_schema"))); (js "json_schema", json_schema_json <$> s)]
  end.

Definition normalizeResponseFormat (responseFormat response_format : option ResponseFormat)
    (outputSchema output_schema : option JsonSchema) : result exn (option ResponseFormat) :=
  match or_else responseFormat response_format with
  | Some (rf_json_schema s) =>
      match s ≫= sc_schema with
      | None => Err (JsError (js "responseFormat json_schema requires a defined schema object"))
      | Some _ => Ok (Some (rf_json_schema s))
      end
  | Some f => Ok (Some f)
  | None =>
      match or_else outputSchema output_schema with
      | None => Ok None
      | Some schema =>
          match truthy (sc_name schema), sc_schema schema with
          | true, Some _ => Ok (Some (rf_json_schema (Some schema)))
          | _, _ => Err (JsError (js "outputSchema requires both name and schema"))
          end
      end
  end.

(** ** Retries *)

Definition RETRY_MAX_RETRIES : nat := 4.
Definition RETRY_BASE_DELAY_MS : Z := 500.
Definition RETRY_MAX_DELAY_MS : Z := 30000.

(** [Date.parse], of which ECMA-262 leaves the accepted formats to the implementation: [None] is
    NaN. *)
Class DateParse := { Date_parse : jsstr → option Z }.

Definition computeBackoffDelay (attempt : nat) (retryAfterMs : option number) : prog number :=
  let cap := math_min (num_of_Z (RETRY_BASE_DELAY_MS * 2 ^ Z.of_nat attempt)) (num_of_Z RETRY_MAX_DELAY_MS) in
  let half := ndiv cap (num_of_Z 2) in
  r ← random;
  let jittered := nadd half (nmul r half) in
  Ret (math_min (math_max jittered (default zero retryAfterMs)) (num_of_Z RETRY_MAX_DELAY_MS)).

Section Retry.
Context `{DateParse}.

Definition parseRetryAfter (value : option jsstr) : prog (option number) :=
  let text := str_or value [] in
  if negb (truthy text) then Ret None
  else
    let seconds := Number_of_string text in
    if is_finite seconds then Ret (Some (math_max zero (nmul seconds (num_of_Z 1000))))
    else
      match Date_parse text with
      | None => Ret None
      | Some at_ => d ← now; Ret (Some (math_max zero (num_of_Z (at_ - d))))
      end.

(** One turn of the loop: the response to return, or the error to remember. *)
Definition attempt_fetch (url : jsstr) (init : FetchInit) (attempt : nat) (lastError : option exn)
    : prog (Response + option exn) :=
  let attempt_field := (js "attempt", fv_number (num_of_Z (Z.of_nat attempt + 1))) in
  catch
    (response ← fetch url init;
     if rs_ok response || bool_decide (attempt = RETRY_MAX_RETRIES) then Ret (inl response)
     else
       retryAfterMs ← parseRetryAfter (rs_header response (js "retry-after"));
       catch (from_result (rs_cancel response)) (λ _, Ret tt);;
       logger_warn (js "llm.retryable_status")
         [attempt_field; (js "status", fv_number (num_of_Z (rs_status response)))];;
       delay ← computeBackoffDelay attempt retryAfterMs;
       sleep delay;;
       Ret (inr lastError))
    (λ error,
       if bool_decide (attempt = RETRY_MAX_RETRIES) then Throw error
       else
         logger_warn (js "llm.retryable_network_error") [attempt_field];;
         delay ← computeBackoffDelay attempt None;
         sleep delay;;
         Ret (inr (Some error))).

Definition exhausted (lastError : option exn) : exn :=
  match lastError with
  | Some (x_value _) | None => JsError (js "LLM request failed after exhausting retries")
  | Some e => e
  end.

(** [for (let attempt = ...; attempt <= RETRY_MAX_RETRIES; attempt++)]: [turns] is how many are
    left. *)
Fixpoint retry_loop (url : jsstr) (init : FetchInit) (turns attempt : nat) (lastError : option exn)
    : prog Response :=
  match turns with
  | O => Throw (exhausted lastError)
  | S turns' =>
      outcome ← attempt_fetch url init attempt lastError;
      match outcome with
      | inl response => Ret response
      | inr lastError' => retry_loop url init turns' (S attempt) lastError'
      end
  end.

Definition fetchWithBackoff (url : jsstr) (init : FetchInit) : prog Response :=
  retry_loop url init (S RETRY_MAX_RETRIES) 0 None.
End Retry.

(** ** Calls *)

Section Calls.
Context `{ProcessEnv, DateParse}.

Definition assertApiKey : prog unit :=
  if negb (truthy ENV_forgeApiKey) then Throw (JsError (js "OPENAI_API_KEY is not configured")) else Ret tt.

Definition llm_url (path : jsstr) : jsstr :=
  if truthy (trim ENV_forgeApiUrl) then strip_one_trailing_slash ENV_forgeApiUrl ++ path
  else js "https://forge.manus.im" ++ path.

Definition resolveApiUrl : jsstr := llm_url (js "/v1/chat/completions").

(** The request body, or the exception of the normalisation. *)
Definition llm_payload (params : InvokeParams) : result exn json :=
  match map_result normalizeMessage (ip_messages params) with
  | Err e => Err e
  | Ok messages =>
      match normalizeToolChoice (or_else (ip_toolChoice params) (ip_tool_choice params)) (ip_tools params) with
      | Err e => Err e
      | Ok toolChoice =>
          match normalizeResponseFormat (ip_responseFormat params) (ip_response_format params)
                  (ip_outputSchema params) (ip_output_schema params) with
          | Err e => Err e
          | Ok format =>
              Ok (object
                [(js "messages", Some (JArray messages));
                 (js "model", JString <$> str_or_null (ip_model params));
                 (js "tools", match some_tools (ip_tools params) with
                              | [] => None | l => Some (JArray (tool_json <$> l)) end);
                 (js "tool_choice", tool_choice_json <$> toolChoice);
                 (js "max_tokens", JNumber <$> or_else (ip_max_tokens params) (ip_maxTokens params));
                 (js "thinking", ip_thinking params);
                 (js "reasoning", ip_reasoning params);
                 (js "response_format", response_format_json <$> format)])
          end
      end
  end.

(** The answer of a successful response, or an error with what the service said. *)
Definition llm_answer (what : jsstr) (response : Response) : prog json :=
  if negb (rs_ok response) then
    errorText ← from_result (rs_text response);
    Throw (JsError (what ++ js ": " ++ status_text response ++ js " " ++ rs_statusText response
                    ++ js " – " ++ errorText))
  else from_result (rs_json response).

Definition invokeLLM (params : InvokeParams) : prog json :=
  assertApiKey;;
  payload ← from_result (llm_payload params);
  response ← fetchWithBackoff resolveApiUrl {|
    fi_method := Some (js "POST"); fi_headers := [json_type; (js "authorization", authorization)];
    fi_body := text_body (stringify payload) |};
  llm_answer (js "LLM invoke failed") response.

Definition listLLMModels : prog json :=
  assertApiKey;;
  response ← fetchWithBackoff (llm_url (js "/v1/models")) {|
    fi_method := None; fi_headers := [(js "authorization", authorization)]; fi_body := no_body |};
  llm_answer (js "List LLM models failed") response.
End Calls.
