(* ===== verification/LlmProps.v ===== *)
(** What the language-model client guarantees: bounded retries, and well-formed requests. *)
From S2P Require Import Prelude JsString JsNumber Json Schema OAuthState Trpc Node Logger Users Platform Forge Llm.

(** An answer after which the client tries again. *)
Definition retryable (f : result exn Response) : Prop :=
  match f with Ok response => rs_ok response = false | Err _ => True end.

Section Retry.
Context `{DateParse}.

(** Parsing and jitter neither ask the network, nor wait, nor throw. *)
Definition quiet {A} (p : prog A) : Prop := ops local_op p ∧ returns p.

Lemma quiet_exec {A} (p : prog A) tr r :
  quiet p → exec p tr r → fetches tr = [] ∧ pauses tr = [] ∧ ∃ a, r = Ok a.
Proof.
  intros [Ho Hr] He. pose proof (local_trace _ (ops_exec _ _ _ _ Ho He)) as [? ?].
  pose proof (returns_exec _ _ _ Hr He). done.
Qed.

Lemma parseRetryAfter_quiet v : quiet (parseRetryAfter v).
Proof. split; unfold parseRetryAfter; [ops_tac|]. repeat (simpl; case_match; try done). Qed.

Lemma computeBackoffDelay_quiet a ra : quiet (computeBackoffDelay a ra).
Proof. split; unfold computeBackoffDelay; [ops_tac|done]. Qed.

#[local] Opaque parseRetryAfter computeBackoffDelay.

Ltac quiet_parts :=
  repeat match goal with
  | Hp : exec (parseRetryAfter ?v) _ _ |- _ =>
      apply (quiet_exec _ _ _ (parseRetryAfter_quiet v)) in Hp as (? & ? & ? & ?)
  | Hp : exec (computeBackoffDelay ?a ?ra) _ _ |- _ =>
      apply (quiet_exec _ _ _ (computeBackoffDelay_quiet a ra)) in Hp as (? & ? & ? & ?)
  end; simplify_eq/=.

Lemma attempt_fetch_spec url init attempt le tr r :
  exec (attempt_fetch url init attempt le) tr r →
  ∃ f, fetches tr = [f]
    ∧ match r with
      | Ok (inl response) =>
          f = Ok response ∧ pauses tr = [] ∧ (rs_ok response = true ∨ attempt = RETRY_MAX_RETRIES)
      | Ok (inr _) => retryable f ∧ length (pauses tr) = 1 ∧ attempt ≠ RETRY_MAX_RETRIES
      | Err e => f = Err e ∧ pauses tr = [] ∧ attempt = RETRY_MAX_RETRIES
      end.
Proof.
  intros He. unfold attempt_fetch in He. run_prog; quiet_parts; eexists;
    repeat first
      [ rewrite fetches_app | rewrite fetches_cons | rewrite pauses_app | rewrite pauses_cons
      | match goal with
        | Hf : fetches _ = [] |- _ => rewrite Hf
        | Hf : pauses _ = [] |- _ => rewrite Hf
        end
      | progress simpl ];
    (split; [reflexivity|]); bool_to_prop; repeat split; auto.
  match goal with Hb : _ || _ = true |- _ =>
    apply orb_true_iff in Hb as [?|?%bool_decide_eq_true]; auto end.
Qed.

(** The executions of the loop: the requests that failed, and the last one, whose answer is the
    outcome. *)
Definition retried (turns : nat) (tr : list event) (r : result exn Response) : Prop :=
  ∃ failures, fetches tr = failures ++ [r] ∧ Forall retryable failures
    ∧ length (pauses tr) = length failures ∧ length failures < turns
    ∧ (S (length failures) < turns → ∃ response, r = Ok response ∧ rs_ok response = true).

Lemma retry_loop_spec url init turns attempt le tr r :
  turns + attempt = S RETRY_MAX_RETRIES → 0 < turns →
  exec (retry_loop url init turns attempt le) tr r → retried turns tr r.
Proof.
  revert attempt le tr. induction turns as [|turns IH]; intros attempt le tr Ha Ht He; [lia|].
  change (exec (attempt_fetch url init attempt le ≫= λ o, match o with
    | inl response => Ret response
    | inr lastError' => retry_loop url init turns (S attempt) lastError' end) tr r) in He.
  apply exec_bind in He as [(e & -> & He)|(o & t1 & t2 & -> & H1 & He)].
  - apply attempt_fetch_spec in He as (f & Hf & -> & Hp & Hm). exists []. rewrite Hf, Hp.
    split_and!; try done. simpl. unfold RETRY_MAX_RETRIES in *. lia.
  - apply attempt_fetch_spec in H1 as (f & Hf & Ho). destruct o as [response|le'].
    + destruct He as [-> ->]. destruct Ho as (-> & Hp & Hok). exists [].
      rewrite app_nil_r, Hf, Hp. split_and!; try done. simpl. intros.
      destruct Hok as [Hok| ->]; [eauto|unfold RETRY_MAX_RETRIES in *; lia].
    + destruct Ho as (Hr & Hp & Hm).
      destruct (IH (S attempt) le' t2) as (fs & Hfs & Hall & Hps & Hlen & Hlast); try done;
        [lia|unfold RETRY_MAX_RETRIES in *; lia|].
      exists (f :: fs). rewrite fetches_app, pauses_app, length_app, Hf, Hfs, Hp, Hps.
      simpl. split_and!; try done; [by constructor|lia..|]. intros. apply Hlast. lia.
Qed.

Lemma backoff_retried url init tr r :
  exec (fetchWithBackoff url init) tr r → retried (S RETRY_MAX_RETRIES) tr r.
Proof. apply (retry_loop_spec _ _ (S RETRY_MAX_RETRIES) 0 _ _ _ eq_refl ltac:(lia)). Qed.

(** C23. Requests with backoff end, and say the truth: every execution asks between one and five
    times; the outcome is the answer to the last request, a response or the very network error;
    every earlier answer was an error or a status outside 200-299, and was followed by exactly one
    pause; and before the fifth request only a successful response ends the loop. The error after
    the loop is never reached. *)
Theorem fetchWithBackoff_spec url init tr r :
  exec (fetchWithBackoff url init) tr r →
  ∃ failures, fetches tr = failures ++ [r]
    ∧ length failures ≤ RETRY_MAX_RETRIES
    ∧ Forall retryable failures
    ∧ length (pauses tr) = length failures
    ∧ (length failures < RETRY_MAX_RETRIES → ∃ response, r = Ok response ∧ rs_ok response = true).
Proof.
  intros (fs & Hf & Hr & Hp & Hl & Hok)%backoff_retried.
  exists fs. split_and!; try done; [lia|]. intros. apply Hok. lia.
Qed.
End Retry.

(** ** Calls *)

(** Every request of the program is this one. *)
Definition only_request (url : jsstr) (init : FetchInit) (o : op) : Prop :=
  match o with op_fetch u i => u = url ∧ i = init | _ => True end.
#[global] Arguments only_request : simpl never.

Section Calls.
Context `{ProcessEnv, DateParse}.

#[local] Hint Extern 1 (only_request _ _ (op_fetch _ _)) => split; reflexivity : nodescope.
#[local] Hint Extern 1 (only_request _ _ _) => exact I : nodescope.

Lemma parseRetryAfter_request url init v : ops (only_request url init) (parseRetryAfter v).
Proof. unfold parseRetryAfter. ops_tac. Qed.
Lemma computeBackoffDelay_request url init a ra : ops (only_request url init) (computeBackoffDelay a ra).
Proof. unfold computeBackoffDelay. ops_tac. Qed.
#[local] Hint Resolve parseRetryAfter_request computeBackoffDelay_request : nodescope.
#[local] Opaque parseRetryAfter computeBackoffDelay.

Lemma retry_loop_request url init turns attempt le :
  ops (only_request url init) (retry_loop url init turns attempt le).
Proof.
  revert attempt le. induction turns as [|turns IH]; intros attempt le; [done|].
  apply ops_bind; [unfold attempt_fetch; ops_tac|]. intros [?|?]; [done|]. apply IH.
Qed.

Lemma fetchWithBackoff_request url init tr r :
  exec (fetchWithBackoff url init) tr r → Forall (λ e, only_request url init (event_op e)) tr.
Proof. apply ops_exec, retry_loop_request. Qed.

#[local] Opaque fetchWithBackoff llm_payload.

(** The request that a payload is sent with. *)
Definition llm_request (payload : json) : FetchInit := {|
  fi_method := Some (js "POST"); fi_headers := [json_type; (js "authorization", authorization)];
  fi_body := text_body (stringify payload) |}.

(** C24. A call of the model sends the normalised request, or nothing: without a key, or when the
    messages, the tool choice or the format cannot be normalised, it fails before any request;
    otherwise every request it sends is the POST of the normalised payload to the configured
    address, and it returns the JSON of the last response exactly when that one is successful. *)
Theorem invokeLLM_spec params tr r :
  exec (invokeLLM params) tr r →
  if truthy ENV_forgeApiKey then
    match llm_payload params with
    | Err e => tr = [] ∧ r = Err e
    | Ok payload =>
        Forall (λ e, only_request resolveApiUrl (llm_request payload) (event_op e)) tr
        ∧ ∃ failures final, fetches tr = failures ++ [final] ∧ length failures ≤ RETRY_MAX_RETRIES
          ∧ match final with
            | Err e => r = Err e
            | Ok response =>
                if rs_ok response then r = rs_json response else ∃ e, r = Err e
            end
    end
  else tr = [] ∧ ∃ e, r = Err e.
Proof.
  intros He. unfold invokeLLM, assertApiKey in He.
  destruct (truthy ENV_forgeApiKey); [|run_prog; eauto].
  destruct (llm_payload params) as [payload|e]; [|by run_prog].
  simpl in He. change (exec (fetchWithBackoff resolveApiUrl (llm_request payload)
    ≫= llm_answer (js "LLM invoke failed")) tr r) in He.
  apply exec_bind in He as [(e & -> & Hf)|(response & t1 & t2 & -> & Hf & He)].
  - split; [by eapply fetchWithBackoff_request|].
    destruct (backoff_retried _ _ _ _ Hf) as (fs & Hfs & _ & _ & Hl & _).
    exists fs, (Err e). split_and!; [done|lia|done].
  - pose proof (fetchWithBackoff_request _ _ _ _ Hf) as Hreq.
    destruct (backoff_retried _ _ _ _ Hf) as (fs & Hfs & _ & _ & Hl & _).
    assert (t2 = [] ∧ if rs_ok response then r = rs_json response else ∃ e, r = Err e) as [-> Hr].
    { unfold llm_answer in He. destruct (rs_ok response); run_prog; eauto. }
    rewrite app_nil_r. split; [done|]. exists fs, (Ok response). split_and!; [done|lia|done].
Qed.
End Calls.

(** ** Examples *)

#[local] Existing Instance example_env.
#[local] Instance example_dates : DateParse := {| Date_parse _ := None |}.

Definition example_response (status : Z) (body : json) : Response := {|
  rs_status := status; rs_statusText := js "status"; rs_header name :=
    if str_eqb name (js "retry-after") then Some (js "2") else None;
  rs_text := Ok (stringify body); rs_json := Ok body; rs_size := Ok 0%Z; rs_cancel := Ok tt |}.

(** A service that is busy, then cut off, then well. *)
Definition flaky_platform : Platform := with_fetches
  [Ok (example_response 503 JNull); Err network_error; Ok (example_response 200 (JBool true))]
  (example_platform ∅).

Lemma fetchWithBackoff_spec_witness :
  let '(tr, r, _) := run platform (fetchWithBackoff (js "https://x") (llm_request JNull)) flaky_platform in
  ∃ failures, fetches tr = failures ++ [r] ∧ length failures = 2 ∧ length (pauses tr) = 2.
Proof.
  pose proof (run_exec platform (fetchWithBackoff (js "https://x") (llm_request JNull)) flaky_platform) as He.
  assert (Hl : length (fetches (run platform (fetchWithBackoff (js "https://x") (llm_request JNull))
    flaky_platform).1.1) = 3) by (vm_compute; reflexivity).
  destruct (run platform _ _) as [[tr r] p']. cbn [fst snd] in He, Hl.
  destruct (fetchWithBackoff_spec _ _ _ _ He) as (fs & Hf & _ & _ & Hp & _).
  exists fs. rewrite Hf, length_app in Hl. simpl in Hl. assert (length fs = 2) by lia.
  split; [exact Hf|]. split; [assumption|]. rewrite Hp. assumption.
Defined.

Definition example_params : InvokeParams := {|
  ip_messages := [{| msg_role := r_user; msg_content := inl (mc_string (js "hi"));
                     msg_name := None; msg_tool_call_id := None |}];
  ip_tools := Some [{| tool_name := js "search"; tool_description := None; tool_parameters := None |}];
  ip_toolChoice := Some tc_required; ip_tool_choice := None; ip_maxTokens := None;
  ip_max_tokens := None; ip_outputSchema := None; ip_output_schema := None;
  ip_responseFormat := None; ip_response_format := None; ip_model := None; ip_thinking := None;
  ip_reasoning := None |}.

Lemma invokeLLM_spec_witness :
  let '(tr, r, _) := run platform (invokeLLM example_params) flaky_platform in
  r = Ok (JBool true)
  ∧ ∃ payload, llm_payload example_params = Ok payload
      ∧ Forall (λ e, only_request resolveApiUrl (llm_request payload) (event_op e)) tr.
Proof.
  pose proof (run_exec platform (invokeLLM example_params) flaky_platform) as He.
  assert (Hr : (run platform (invokeLLM example_params) flaky_platform).1.2 = Ok (JBool true))
    by (vm_compute; reflexivity).
  destruct (run platform _ _) as [[tr r] p']. simpl in Hr.
  split; [exact Hr|]. generalize (invokeLLM_spec _ _ _ He).
  assert (Hk : truthy ENV_forgeApiKey = true) by reflexivity. rewrite Hk.
  destruct (llm_payload example_params) as [payload|e].
  - intros [Hall _]. exists payload. split; [reflexivity|exact Hall].
  - intros [_ Hbad]. rewrite Hr in Hbad. discriminate Hbad.
Defined.
