(* ===== verification/ForgeProps.v ===== *)
(** What the clients of the Forge services guarantee, together and one by one. *)
From S2P Require Import Prelude JsString JsNumber Json Schema OAuthState Trpc Node Logger Users Platform Forge Heartbeat Storage Media.

(** ** All calls *)

(** The operations of the service clients, with their arguments. *)
Inductive ForgeCall :=
| fc_notify (p : NotificationPayload)
| fc_data (apiId : jsstr) (o : DataApiCallOptions)
| fc_create (job : HeartbeatJob) (session : jsstr)
| fc_update (taskUid : jsstr) (patch : HeartbeatJobUpdate) (session : jsstr)
| fc_delete (taskUid session : jsstr)
| fc_list (session : jsstr) (page pageSize : option number)
| fc_put (relKey : jsstr) (size : Z) (contentType : jsstr)
| fc_signed_url (relKey : jsstr)
| fc_proxy (key : jsstr)
| fc_transcribe (o : TranscribeOptions)
| fc_image (o : GenerateImageOptions)
| fc_image_models.

Section Calls.
Context `{ProcessEnv, UrlBuilder, NodeBuffer}.

Definition ignore {A} (p : prog A) : prog unit := p;; Ret tt.

Definition forge_call (c : ForgeCall) : prog unit :=
  match c with
  | fc_notify p => ignore (notifyOwner p)
  | fc_data apiId o => ignore (callDataApi apiId o)
  | fc_create job session => ignore (createHeartbeatJob job session)
  | fc_update uid patch session => ignore (updateHeartbeatJob uid patch session)
  | fc_delete uid session => deleteHeartbeatJob uid session
  | fc_list session page size => ignore (listHeartbeatJobs session page size)
  | fc_put key size type => ignore (storagePut key size type)
  | fc_signed_url key => ignore (storageGetSignedUrl key)
  | fc_proxy key => storage_proxy key
  | fc_transcribe o => ignore (transcribeAudio o)
  | fc_image o => ignore (generateImage o)
  | fc_image_models => ignore listImageModels
  end.

(** The addresses of the service: a path resolved against the configured base, with or without
    the path of an object to sign. *)
Definition forge_address (url : jsstr) : Prop :=
  (∃ path, URL_resolve path (with_trailing_slash ENV_forgeApiUrl) = Some url)
  ∨ ∃ path u key, URL_resolve path (strip_trailing_slashes ENV_forgeApiUrl ++ js "/") = Some u
      ∧ url = URL_set_param u (js "path") key.

(** A request with an Authorization header goes to the service. *)
Definition key_confined (o : op) : Prop :=
  match o with
  | op_fetch url init =>
      (∃ kv, kv ∈ fi_headers init ∧ ascii_lower <$> kv.1 = js "authorization") → forge_address url
  | _ => True
  end.
#[global] Arguments key_confined : simpl never.

(** Programs with a postcondition: the operations satisfy [P], the results [Q]. *)
Lemma ops_bind_post {A B} (P : op → Prop) (Q : A → Prop) (p : prog A) (f : A → prog B) :
  ops P p → (∀ tr a, exec p tr (Ok a) → Q a) → (∀ a, Q a → ops P (f a)) → ops P (bind p f).
Proof.
  induction p as [a|e|o k IH]; simpl.
  - intros _ Hq Hf. apply Hf. by apply (Hq []).
  - done.
  - intros [Ho Hk] Hq Hf. split; [done|]. intros x. apply IH; [done| |done].
    intros tr a Ha. apply (Hq (Ev o x :: tr)). eauto.
Qed.

Lemma forge_url_address path : ∀ tr url, exec (forge_url path) tr (Ok url) → forge_address url.
Proof. intros tr url He. unfold forge_url, from_option in He. left. case_match; run_prog; eauto. Qed.

Lemma presign_url_address path key :
  ∀ tr url, exec (presign_url path (strip_trailing_slashes ENV_forgeApiUrl) key) tr (Ok url) →
  forge_address url.
Proof.
  intros tr url He. unfold presign_url, from_option in He. right.
  case_match; run_prog; eauto 8.
Qed.

Lemma from_option_ops {A} P e (o : option A) : ops P (from_option e o).
Proof. by destruct o. Qed.

#[local] Opaque js.

Lemma buildEndpoint_address rpc : ∀ tr url, exec (buildEndpoint rpc) tr (Ok url) → forge_address url.
Proof.
  intros tr url He. unfold buildEndpoint in He.
  destruct (negb (truthy ENV_forgeApiUrl)); [by destruct He|].
  destruct (negb (truthy ENV_forgeApiKey)); [by destruct He|].
  exact (forge_url_address _ _ _ He).
Qed.

Lemma getForgeConfig_value :
  ∀ tr c, exec getForgeConfig tr (Ok c) → c = (strip_trailing_slashes ENV_forgeApiUrl, ENV_forgeApiKey).
Proof.
  unfold getForgeConfig. intros tr c.
  destruct (negb (truthy ENV_forgeApiUrl) || negb (truthy ENV_forgeApiKey)); intros [_ He];
    [discriminate He|]. by injection He as ->.
Qed.

Lemma forge_url_ops P path : ops P (forge_url path).
Proof. apply from_option_ops. Qed.

Lemma presign_url_ops P path base key : ops P (presign_url path base key).
Proof. unfold presign_url. apply ops_bind; [apply from_option_ops|done]. Qed.

Lemma key_confined_address url init : forge_address url → key_confined (op_fetch url init).
Proof. by intros ? _. Qed.

Lemma key_confined_plain url init :
  forallb (λ kv, negb (str_eqb (ascii_lower <$> kv.1) (js "authorization"))) (fi_headers init) = true →
  key_confined (op_fetch url init).
Proof.
  intros Hf (kv & Hin & Hk). rewrite forallb_forall in Hf.
  specialize (Hf kv ltac:(by apply list_elem_of_In)). rewrite Hk, str_eqb_refl in Hf. done.
Qed.

#[local] Hint Extern 1 (key_confined (op_fetch _ _)) =>
  first [ apply key_confined_address; assumption | apply key_confined_plain; reflexivity ] : nodescope.
#[local] Hint Extern 2 (key_confined _) => exact I : nodescope.

Lemma connect_post_confined url body : forge_address url → ops key_confined (connect_post url body).
Proof. intros. unfold connect_post. simpl. split; [by apply key_confined_address|]. by intros [?|?]. Qed.
#[local] Hint Resolve connect_post_confined : nodescope.

(** Goes through a client; a URL that was built for the service is remembered as such. *)
Ltac confined_step :=
  simpl;
  match goal with
  | |- ops _ (bind (forge_url _) _) => eapply ops_bind_post; [|apply forge_url_address|intros ??]
  | |- ops _ (prog_bind _ _ _ (forge_url _)) => eapply ops_bind_post; [|apply forge_url_address|intros ??]
  | |- ops _ (forge_url _ ≫= _) => eapply ops_bind_post; [|apply forge_url_address|intros ??]
  | |- ops _ (buildEndpoint _ ≫= _) => eapply ops_bind_post; [|apply buildEndpoint_address|intros ??]
  | |- ops _ (getForgeConfig ≫= _) => eapply ops_bind_post; [|apply getForgeConfig_value|intros ? ->]
  | |- ops _ (presign_url _ _ _ ≫= _) => eapply ops_bind_post; [|apply presign_url_address|intros ??]
  | |- ops _ (forge_url _) => apply forge_url_ops
  | |- ops _ (presign_url _ _ _) => apply presign_url_ops
  | |- ops _ (from_option _ _) => apply from_option_ops
  | |- ops _ (prop _ ?v) => unfold prop; destruct v
  end.

Ltac confined := repeat first [confined_step | ops_step].

Lemma getForgeConfig_ops P : ops P getForgeConfig.
Proof. unfold getForgeConfig. by case_match. Qed.

Lemma buildEndpoint_ops P rpc : ops P (buildEndpoint rpc).
Proof. unfold buildEndpoint. repeat (case_match; [done|]). apply forge_url_ops. Qed.
#[local] Hint Resolve getForgeConfig_ops buildEndpoint_ops : nodescope.

#[local] Opaque connect_post forge_url presign_url buildEndpoint getForgeConfig stringify object js forge_headers
  with_hash sizeMB toFixed num_of_Z.

Lemma callForge_confined rpc body session : ops key_confined (callForge rpc body session).
Proof.
  unfold callForge. confined.
Qed.

Lemma storagePut_confined key size type : ops key_confined (storagePut key size type).
Proof. unfold storagePut, appendHashSuffix, url_of. confined. Qed.
#[local] Hint Resolve callForge_confined storagePut_confined : nodescope.
#[local] Opaque callForge storagePut.

End Calls.

Section Unconfigured.
Context `{ProcessEnv, UrlBuilder, NodeBuffer}.

Definition no_fetch (o : op) : Prop := match o with op_fetch _ _ => False | _ => True end.
#[global] Arguments no_fetch : simpl never.

Lemma no_fetch_trace tr : Forall (λ e, no_fetch (event_op e)) tr → fetches tr = [].
Proof.
  unfold fetches. induction 1 as [|[o x] tr Ho _ IH]; [done|]. simpl. by destruct o.
Qed.

#[local] Hint Extern 2 (no_fetch _) => exact I : nodescope.
#[local] Opaque js stringify object.

(** Without the address or the key of the service nothing is sent: whatever client is called,
    no request leaves the server, not even the download of an audio file. *)
Theorem unconfigured_sends_nothing c tr r :
  ENV_forgeApiUrl = [] ∨ ENV_forgeApiKey = [] →
  exec (forge_call c) tr r → fetches tr = [].
Proof.
  intros Hc. assert (truthy ENV_forgeApiUrl = false ∨ truthy ENV_forgeApiKey = false) as Hc'
    by (rewrite !truthy_false; done).
  intros He. apply no_fetch_trace. eapply ops_exec; [|exact He].
  destruct c; simpl; unfold ignore, notifyOwner, callDataApi, createHeartbeatJob, updateHeartbeatJob,
    deleteHeartbeatJob, listHeartbeatJobs, storagePut, storageGetSignedUrl, storage_proxy,
    transcribeAudio, generateImage, listImageModels, require_config, callForge, buildEndpoint,
    getForgeConfig, validateCallbackPath;
    (destruct (truthy ENV_forgeApiUrl); [destruct Hc' as [?|Hc']; [done|]; rewrite Hc'|]);
    simpl; ops_tac.
Qed.
End Unconfigured.

(** ** One by one *)

(** The requests of a trace: address, request, answer. *)
Definition request_of (e : event) : option (jsstr * FetchInit * result exn Response) :=
  match e with
  | Ev o x =>
      match o return ans o → option (jsstr * FetchInit * result exn Response) with
      | op_fetch url init => λ r, Some (url, init, r)
      | _ => λ _, None
      end x
  end.

Definition requests (tr : list event) : list (jsstr * FetchInit * result exn Response) :=
  omap request_of tr.

Section Each.
Context `{ProcessEnv, UrlBuilder, NodeBuffer}.
#[local] Opaque js stringify object num_of_Z.

(** Owner notifications: a title or content that is empty when trimmed, or longer than 1200 or
    20000 code units, is refused with BAD_REQUEST before anything is sent; otherwise what is sent
    is trimmed, an exception means that nothing was sent, and the result is [true] exactly when
    the service accepted the one request that was. *)
Theorem notifyOwner_spec payload tr r :
  exec (notifyOwner payload) tr r →
  let title := trim (np_title payload) in
  let content := trim (np_content payload) in
  if bool_decide (0 < length title ≤ 1200 ∧ 0 < length content ≤ N.to_nat 20000)
  then match r with
       | Ok b =>
           Forall (λ q, fi_body q.1.2 = text_body (stringify (JObject
             [(js "title", JString title); (js "content", JString content)]))) (requests tr)
           ∧ (b = true ↔ ∃ response, fetches tr = [Ok response] ∧ rs_ok response = true)
       | Err _ => fetches tr = []
       end
  else tr = [] ∧ ∃ msg, r = Err (x_trpc {| te_code := BAD_REQUEST; te_message := msg |}).
Proof.
  intros He. cbv zeta. unfold notifyOwner, validatePayload in He.
  assert (∀ s, truthy s = bool_decide (0 < length s)) as Ht by (by intros []).
  rewrite (Ht (trim (np_title payload))), (Ht (trim (np_content payload))) in He.
  unfold forge_url, from_option, connect_post, TITLE_MAX_LENGTH, CONTENT_MAX_LENGTH in He.
  repeat case_bool_decide; try lia; run_prog;
    first [ reflexivity | split; [reflexivity|by eexists] | split; [by constructor|] ].
  all: bool_to_prop; split; [eauto; discriminate|intros (response & Hf & Hok); congruence].
Qed.

(** Whether a request body asks for callbacks to [path]. *)
Definition asks_callback (path : jsstr) (q : jsstr * FetchInit * result exn Response) : Prop :=
  ∃ l, fi_body q.1.2 = text_body (stringify (object l))
    ∧ (js "callbackPath", Some (JString path)) ∈ l
    ∧ ∀ v, (js "callbackPath", v) ∈ l → v = Some (JString path).

Definition refused {A} (tr : list event) (r : result exn A) : Prop :=
  tr = [] ∧ ∃ msg, r = Err (x_trpc {| te_code := BAD_REQUEST; te_message := msg |}).

Lemma validateCallbackPath_exec path tr r :
  exec (validateCallbackPath path) tr r →
  tr = [] ∧ if startsWith callback_prefix path then r = Ok tt else refused tr r.
Proof.
  unfold validateCallbackPath, refused. intros He.
  destruct (startsWith callback_prefix path) eqn:Ep.
  - apply startsWith_spec in Ep as [s ->]. simpl in He. by destruct He.
  - rewrite orb_true_r in He. destruct He as [-> ->]. eauto.
Qed.

Lemma callForge_request rpc body session tr r :
  exec (callForge rpc body session) tr r →
  Forall (λ q, fi_body q.1.2 = text_body (stringify (object body))) (requests tr).
Proof.
  intros He. unfold callForge, buildEndpoint, forge_url, from_option in He.
  run_prog; repeat constructor.
Qed.

(** Members of an object literal, whose names are concrete. *)
Ltac in_members := repeat first [apply list_elem_of_here | apply list_elem_of_further].
Ltac in_members_inv H :=
  repeat (apply elem_of_cons in H as [H|H]; [injection H as H; first [discriminate H|by simplify_eq]|]);
  by apply elem_of_nil in H.

(** C29. Callbacks stay under [/api/scheduled/]: a job whose path is elsewhere, or an update that
    moves one elsewhere, is refused with BAD_REQUEST and nothing is sent; otherwise whatever is
    sent asks for the path that the caller gave. *)
Theorem heartbeat_paths job uid patch session tr r :
  (exec (createHeartbeatJob job session) tr r →
     if startsWith callback_prefix (hj_path job)
     then Forall (asks_callback (hj_path job)) (requests tr) else refused tr r)
  ∧ (∀ path, hu_path patch = Some path → exec (updateHeartbeatJob uid patch session) tr r →
     if startsWith callback_prefix path
     then Forall (asks_callback path) (requests tr) else refused tr r).
Proof.
  split.
  - intros He. unfold createHeartbeatJob in He.
    apply exec_bind in He as [(e & -> & Hv)|([] & t1 & t2 & -> & Hv & He)];
      apply validateCallbackPath_exec in Hv as [-> Hv];
      destruct (startsWith callback_prefix (hj_path job)); try done;
      [by destruct Hv as (_ & ? & [= ->]); split; eauto| |by destruct Hv as (_ & ? & ?)].
    apply callForge_request in He. eapply Forall_impl; [exact He|]. intros q Hq.
    eexists. split; [exact Hq|]. split; [in_members|intros v Hv2; by in_members_inv Hv2].
  - intros path Hp He. unfold updateHeartbeatJob in He. rewrite Hp in He.
    apply exec_bind in He as [(e & -> & Hv)|([] & t1 & t2 & -> & Hv & He)];
      apply validateCallbackPath_exec in Hv as [-> Hv];
      destruct (startsWith callback_prefix path); try done;
      [by destruct Hv as (_ & ? & [= ->]); split; eauto| |by destruct Hv as (_ & ? & ?)].
    apply callForge_request in He. eapply Forall_impl; [exact He|]. intros q Hq.
    unfold update_body in Hq. rewrite Hp in Hq.
    eexists. split; [exact Hq|]. split; [in_members|intros v Hv2; by in_members_inv Hv2].
Qed.

Lemma with_hash_parts relKey hash :
  ∃ stem ext, relKey = stem ++ ext ∧ with_hash relKey hash = stem ++ js "_" ++ hash ++ ext
    ∧ (ext = [] ∧ dot ∉ stem ∨ ∃ e, ext = dot :: e ∧ dot ∉ e).
Proof.
  unfold with_hash. destruct (lastIndexOf dot relKey) as [i|] eqn:E.
  - apply lastIndexOf_Some in E as [Hi Hn].
    exists (take i relKey), (drop i relKey). rewrite take_drop. split; [done|]. split; [done|].
    right. exists (drop (S i) relKey). split; [by apply drop_S|done].
  - exists relKey, []. rewrite !app_nil_r. split; [done|]. split; [done|].
    left. split; [done|]. by apply lastIndexOf_None.
Qed.



(** The redirects of a trace. *)
Definition redirect_of (e : event) : option (Z * jsstr) :=
  match event_op e with op_res (res_redirect status url) => Some (status, url) | _ => None end.

Definition redirects (tr : list event) : list (Z * jsstr) := omap redirect_of tr.

(** C31. The download proxy always answers, exactly once, and never throws; it redirects only to
    the non-empty URL that the service signed for this request, and tells caches not to keep the
    redirect. *)
Theorem storage_proxy_answers key tr r :
  exec (storage_proxy key) tr r →
  r = Ok tt ∧ answers tr = 1
  ∧ ∀ status url, (status, url) ∈ redirects tr →
      status = 307%Z ∧ Ev (op_res (res_set (js "Cache-Control") (js "no-store"))) tt ∈ tr
      ∧ ∃ response body, fetches tr = [Ok response] ∧ rs_ok response = true
          ∧ rs_json response = Ok body ∧ json_get (js "url") body = Some (JString url) ∧ url ≠ [].
Proof.
  intros He. unfold storage_proxy, presign_url, url_of, prop, from_option in He.
  run_prog; (split; [done|]); (split; [done|]); intros status url Hin; try (by apply elem_of_nil in Hin).
  apply list_elem_of_singleton in Hin. injection Hin as -> ->. bool_to_prop.
  destruct (assoc_get (js "url") _) as [[| | |s| |]|] eqn:Eu; try done.
  split; [done|]. split; [in_members|]. eexists _, _. split_and!; try done. by apply truthy_spec.
Qed.
End Each.

(** ** Examples *)

#[local] Existing Instance example_env.

(** Resolution by concatenation: right for the relative paths that the clients use. *)
#[export] Instance example_url_builder : UrlBuilder := {|
  URL_resolve path base := Some (base ++ path);
  URL_href s := Some s;
  URL_set_param url k v := url ++ js "?" ++ k ++ js "=" ++ v;
  URL_append_param url k v := url ++ js "&" ++ k ++ js "=" ++ v |}.

#[export] Instance example_buffer : NodeBuffer := {| base64_size s := (Z.of_nat (length s) * 3 / 4)%Z |}.

Definition ok_response (body : json) : Response := {|
  rs_status := 200; rs_statusText := js "OK"; rs_header _ := None; rs_text := Ok (stringify body);
  rs_json := Ok body; rs_size := Ok 1000%Z; rs_cancel := Ok tt |}.

Definition signed : json := JObject [(js "url", JString (js "https://s3.example/put"))].

(** A service that answers [bodies] in turn. *)
Definition service (bodies : list json) : Platform :=
  with_fetches ((λ b, Ok (ok_response b)) <$> bodies) (example_platform ∅).


(** The environment of a server without the service. *)
Definition bare_env : ProcessEnv := {| process_env _ := None |}.

Lemma unconfigured_sends_nothing_witness :
  let '(tr, _, _) := run platform (@forge_call bare_env _ _ (fc_transcribe
    {| ta_audioUrl := js "https://a"; ta_language := None; ta_prompt := None |})) (service []) in
  fetches tr = [].
Proof.
  pose proof (run_exec platform (@forge_call bare_env _ _ (fc_transcribe
    {| ta_audioUrl := js "https://a"; ta_language := None; ta_prompt := None |})) (service [])) as He.
  destruct (run platform _ _) as [[tr r] p'].
  refine (@unconfigured_sends_nothing bare_env _ _ _ tr r _ He). left. reflexivity.
Defined.

Lemma notifyOwner_spec_witness :
  let '(tr, r, _) := run platform (notifyOwner {| np_title := js " hi "; np_content := js "there" |})
    (service [JObject []]) in
  r = Ok true ∧ ∃ response, fetches tr = [Ok response] ∧ rs_ok response = true.
Proof.
  pose proof (run_exec platform (notifyOwner {| np_title := js " hi "; np_content := js "there" |})
    (service [JObject []])) as He.
  assert (Hr : (run platform (notifyOwner {| np_title := js " hi "; np_content := js "there" |})
    (service [JObject []])).1.2 = Ok true) by (vm_compute; reflexivity).
  destruct (run platform _ _) as [[tr r] p']. cbn [fst snd] in Hr, He. subst r.
  split; [reflexivity|]. pose proof (notifyOwner_spec _ _ _ He) as Hn. cbv zeta in Hn.
  rewrite bool_decide_eq_true_2 in Hn.
  - exact (proj1 (proj2 Hn) eq_refl).
  - split; split; apply Nat.leb_le; vm_compute; reflexivity.
Defined.

Lemma heartbeat_paths_witness :
  let job := {| hj_name := js "daily"; hj_cron := js "0 0 9 * * *"; hj_path := js "/api/admin";
                hj_method := None; hj_payload := None; hj_description := None |} in
  let '(tr, r, _) := run platform (createHeartbeatJob job []) (service []) in refused tr r.
Proof.
  cbv zeta.
  pose proof (run_exec platform (createHeartbeatJob {|
    hj_name := js "daily"; hj_cron := js "0 0 9 * * *"; hj_path := js "/api/admin";
    hj_method := None; hj_payload := None; hj_description := None |} []) (service [])) as He.
  destruct (run platform _ _) as [[tr r] p']. exact (proj1 (heartbeat_paths _ [] {|
    hu_cron := None; hu_path := None; hu_method := None; hu_payload := None;
    hu_description := None; hu_enable := None |} _ tr r) He).
Defined.


Definition example_audio : TranscribeOptions :=
  {| ta_audioUrl := js "https://a/x.webm"; ta_language := Some (js "de"); ta_prompt := None |}.


Lemma storage_proxy_answers_witness :
  let '(tr, r, _) := run platform (storage_proxy (js "a/b.png")) (service [signed]) in
  r = Ok tt ∧ answers tr = 1 ∧ redirects tr = [(307%Z, js "https://s3.example/put")].
Proof.
  pose proof (run_exec platform (storage_proxy (js "a/b.png")) (service [signed])) as He.
  assert (Hr : redirects (run platform (storage_proxy (js "a/b.png")) (service [signed])).1.1
    = [(307%Z, js "https://s3.example/put")]) by (vm_compute; reflexivity).
  destruct (run platform _ _) as [[tr r] p']. cbn [fst snd] in Hr, He.
  destruct (storage_proxy_answers _ _ _ He) as (H1 & H2 & _). split; [exact H1|].
  split; [exact H2|exact Hr].
Defined.
