(* ===== verification/App.v ===== *)
(** The server as a whole: the context of a request ([server/_core/context.ts]), the system and
    application routers ([server/_core/systemRouter.ts], [server/routers.ts]). *)
From S2P Require Import Prelude JsString JsNumber Json Schema OAuthState Trpc Fixtures Router RouterSpec Node Logger Users Session OAuthCallback Forge.

(** ** Context *)

Section Context.
Context `{ProcessEnv, CookieLib, UnicodeCase}.

(** Authentication is optional: a failure is a context without a user. *)
Definition createContext (req : Request) : prog TrpcContext :=
  user ← catch (u ← authenticateRequest req; Ret (Some u)) (λ _, Ret None);
  Ret {| ctx_req := req; ctx_user := user |}.
End Context.

(** ** Routers *)

Record HealthInput := { he_timestamp : number }.
Definition health_schema (i : HealthInput) : bool := nleb zero (he_timestamp i).
Definition notify_schema (p : NotificationPayload) : bool :=
  truthy (np_title p) && truthy (np_content p).

Class AppInputs (Raw : Type) := {
  app_console :: RouterInputs Raw;
  zod_health :: ZodInput Raw HealthInput health_schema;
  zod_notify :: ZodInput Raw NotificationPayload notify_schema
}.

Inductive AppProcedure :=
| ap_health | ap_notifyOwner | ap_me | ap_logout
| ap_nodescope (p : Procedure).

Inductive AppReply :=
| a_ok | a_success (success : bool) | a_user (u : option AuthenticatedUser) | a_console (r : Reply).

(** A handler reads and changes the console's state and performs effects; an exception is a
    result, which keeps the state reached. *)
Definition App (A : Type) : Type := World → prog (result exn A * World).

Definition app_fail {A} (e : TRPCError) : App A := λ w, Ret (Err (x_trpc e), w).

(** Effects without the console's state. *)
Definition app_effect {A} (p : prog A) : App A := λ w,
  r ← catch (a ← p; Ret (Ok a)) (λ e, Ret (Err e));
  Ret (r, w).

(** A procedure of the console, which has no other effect. *)
Definition app_of_console (m : M Reply) : App AppReply := λ w,
  let '(r, w') := m w in
  Ret (match r with Ok reply => Ok (a_console reply) | Err e => Err (x_trpc e) end, w').

Section Routers.
Context `{ProcessEnv, UrlBuilder, JsMath, UrlLib, UnicodeCase, TrpcBuilder}.
Context {Raw : Type} `{!AppInputs Raw}.

Definition logout (req : Request) : prog AppReply :=
  respond (res_clearCookie COOKIE_NAME (with_maxAge (-1) (getSessionCookieOptions req)));;
  Ret (a_success true).

Definition systemRouter (p : AppProcedure) (ctx : TrpcContext) (raw : Raw) : App AppReply :=
  match p with
  | ap_health =>
      procedure_call app_fail publicProcedure (safeParse health_schema)
        (λ _ _, app_effect (Ret a_ok)) ctx raw
  | _ =>
      procedure_call app_fail adminProcedure (safeParse notify_schema)
        (λ _ input, app_effect (delivered ← notifyOwner input; Ret (a_success delivered))) ctx raw
  end.

Definition appRouter (p : AppProcedure) (ctx : TrpcContext) (raw : Raw) : App AppReply :=
  match p with
  | ap_health | ap_notifyOwner => systemRouter p ctx raw
  | ap_nodescope q => app_of_console (nodeScopeRouter q ctx raw)
  | ap_me =>
      procedure_call app_fail publicProcedure (λ _ : Raw, Some tt)
        (λ c _, app_effect (Ret (a_user (ctx_user c)))) ctx raw
  | ap_logout =>
      procedure_call app_fail publicProcedure (λ _ : Raw, Some tt)
        (λ c _, app_effect (logout (ctx_req c))) ctx raw
  end.

(** A request to [/api/trpc]: the context first, then the procedure. *)
Definition trpc_request `{CookieLib} (req : Request) (p : AppProcedure) (raw : Raw) : App AppReply := λ w,
  ctx ← createContext req; appRouter p ctx raw w.
End Routers.
