(* ===== verification/AppProps.v ===== *)
(** Guarantees across the whole server. *)
From S2P Require Import Prelude JsString JsNumber Json Schema OAuthState Trpc Fixtures Router RouterSpec RouterProps Node Logger Users Platform Session SessionProps OAuthCallback Forge Storage ForgeProps App.

#[local] Opaque authenticateRequest nodeScopeRouter.

Section Requests.
Context `{ProcessEnv, UrlBuilder, JsMath, UrlLib, UnicodeCase, TrpcBuilder, CookieLib}.
Context {Raw : Type} `{!AppInputs Raw}.

Lemma createContext_exec req tr r :
  exec (createContext req) tr r →
  ∃ ctx, r = Ok ctx ∧ ctx_req ctx = req
    ∧ ∀ u, ctx_user ctx = Some u → exec (authenticateRequest req) tr (Ok u).
Proof.
  intros He. unfold createContext in He. run_prog.
  - eexists. split; [done|]. split; [done|]. intros u [= <-]. by rewrite !app_nil_r.
  - eexists. split; [done|]. split; [done|]. intros u [=].
Qed.

(** Procedures without console access keep the console's state. *)
Lemma app_effect_keeps {A} (g : prog A) w tr r w' :
  exec (app_effect g w) tr (Ok (r, w')) → w' = w.
Proof. intros He. unfold app_effect in He. by run_prog. Qed.

Lemma effect_call_keeps {C In} (mw : TrpcContext → result TRPCError C) (parse : Raw → option In)
    (g : C → In → prog AppReply) ctx raw w tr r w' :
  exec (procedure_call app_fail mw parse (λ c i, app_effect (g c i)) ctx raw w) tr (Ok (r, w')) →
  w' = w.
Proof.
  destruct (procedure_cases app_fail mw parse (λ c i, app_effect (g c i)) ctx raw)
    as [(e & _ & ->)|[(c & msg & _ & _ & ->)|(c & i & _ & _ & ->)]]; intros He.
  - by destruct He as [_ [= _ ->]].
  - by destruct He as [_ [= _ ->]].
  - by eapply app_effect_keeps.
Qed.

End Requests.

(** ** Diagnostics *)

#[local] Transparent authenticateRequest.

(** The events that the request handlers log. *)
Definition request_events : list jsstr :=
  store_events ++
  [js "auth.session_missing"; js "auth.session_payload_invalid"; js "auth.session_verification_failed";
   js "auth.user_sync_failed"; js "oauth.callback_failed"; js "notification.upstream_rejected";
   js "notification.request_failed"; js "storage_proxy.upstream_rejected";
   js "storage_proxy.request_failed"].

(** A diagnostic that says nothing about the request: a constant event, with at most the status
    of a service's answer. *)
Definition impersonal (o : op) : Prop :=
  match o with
  | op_console level entry => ∃ event, event ∈ request_events
      ∧ (entry = log_entry level event []
         ∨ ∃ status, entry = log_entry level event [(js "status", fv_number (num_of_Z status))])
  | _ => True
  end.
#[global] Arguments impersonal : simpl never.

Lemma impersonal_event level event :
  bool_decide (event ∈ request_events) = true → impersonal (op_console level (log_entry level event [])).
Proof. intros ?%bool_decide_eq_true. exists event. auto. Qed.

Lemma impersonal_status level event status :
  bool_decide (event ∈ request_events) = true →
  impersonal (op_console level (log_entry level event [(js "status", fv_number (num_of_Z status))])).
Proof. intros ?%bool_decide_eq_true. exists event. eauto. Qed.

Lemma store_impersonal o : store_op o → impersonal o.
Proof.
  destruct o; try done. intros (event & Hin & ->). exists event. split; [|by left].
  unfold request_events. by apply elem_of_app; left.
Qed.

Section Logs.
Context `{ProcessEnv, UrlBuilder, UnicodeCase, CookieLib}.

#[local] Hint Extern 1 (impersonal (op_console _ (log_entry _ _ []))) =>
  apply impersonal_event; vm_compute; reflexivity : nodescope.
#[local] Hint Extern 1 (impersonal (op_console _ (log_entry _ _ [_]))) =>
  apply impersonal_status; vm_compute; reflexivity : nodescope.
#[local] Hint Extern 2 (impersonal _) => exact I : nodescope.

Lemma upsertUser_impersonal u : ops impersonal (upsertUser u).
Proof. eapply ops_weaken; [apply store_impersonal|apply upsertUser_ops]. Qed.
Lemma getUserByOpenId_impersonal k : ops impersonal (getUserByOpenId k).
Proof. eapply ops_weaken; [apply store_impersonal|apply getUserByOpenId_ops]. Qed.
#[local] Hint Resolve upsertUser_impersonal getUserByOpenId_impersonal : nodescope.
#[local] Opaque upsertUser getUserByOpenId js num_of_Z stringify object.

(** Diagnostics say nothing about the request: whatever a request of the API, a login
    callback, a download or a notification contains and whatever comes of it, each line that is
    logged is one of a fixed list of events, with at most the status of a service's answer. *)
Theorem logs_impersonal req key payload :
  ops impersonal (createContext req) ∧ ops impersonal (oauth_callback req)
  ∧ ops impersonal (storage_proxy key) ∧ ops impersonal (notifyOwner payload).
Proof.
  split_and!.
  - unfold createContext, authenticateRequest, verifySession, syncUser, buildCronUser, getUserInfoWithJwt.
    ops_tac.
  - unfold oauth_callback, complete_login. ops_tac.
  - unfold storage_proxy, presign_url, url_of, prop, from_option. ops_tac.
  - unfold notifyOwner, forge_url, from_option. ops_tac.
Qed.
End Logs.

(** ** Examples *)

#[local] Transparent nodeScopeRouter.
#[local] Existing Instances example_env example_cookies example_urls example_inputs.

(** Inputs of the console only. *)
#[local] Instance example_app_inputs : AppInputs AnyInput.
Proof.
  refine {| app_console := example_inputs;
            zod_health := {| safeParse _ := None |}; zod_notify := {| safeParse _ := None |} |};
    done.
Defined.

Definition example_backup : AnyInput := any_backup {| bk_includeRawTelemetry := true |}.

