(* ===== verification/Start.v ===== *)
(** The start of the server ([server/_core/index.ts], [server/_core/vite.ts]): what the
    application is composed of, in which order, and the port it listens on. *)
From S2P Require Import Prelude JsString JsNumber Json Schema OAuthState Trpc Node Logger Users Platform.

(** ** Numbers in the environment *)

(** The value of the leading hexadecimal digits, and how many there are. *)
Fixpoint read_hex (acc : Z) (n : nat) (s : jsstr) : Z * nat :=
  match s with
  | c :: s' => match hex_value c with
               | Some d => read_hex (acc * 16 + Z.of_N d) (S n) s'
               | None => (acc, n)
               end
  | [] => (acc, n)
  end.

(** [parseInt(s)] without a radix; [None] is NaN. The integer is the exact one: beyond the range
    of ports, where the rounding of numbers would begin, it is only compared with that range. *)
Definition parseInt (s : jsstr) : option Z :=
  let t := drop_while is_space s in
  let '(sign, u) :=
    match t with
    | c :: r => if (c =? 45)%N then ((-1)%Z, r) else if (c =? 43)%N then (1%Z, r) else (1%Z, t)
    | [] => (1%Z, [])
    end in
  let '(value, count) :=
    if startsWith (js "0x") u || startsWith (js "0X") u then read_hex 0 0 (drop 2 u)
    else let '(v, n, _) := read_digits 0 0 u in (v, n) in
  if count =? 0 then None else Some (sign * value)%Z.

(** ** Ports *)

Definition is_port (port : Z) : bool := ((0 <=? port)%Z && (port <? 65536)%Z).

(** The exception of [listen] for a number that is no port. *)
Definition bad_port (port : Z) : exn :=
  x_error (js "RangeError")
    (js "options.port should be >= 0 and < 65536. Received type number (" ++ js_of_Z port ++ js ").").

Definition no_port (startPort : jsstr) : exn :=
  JsError (js "No available port found starting from " ++ startPort).

(** [listen] throws at once when the number is no port; otherwise the answer tells which of the
    two events came. *)
Definition isPortAvailable (port : Z) : prog bool :=
  if is_port port then perform (op_listen port)
  else Throw (bad_port port).

(** [for (let port = startPort; port < startPort + 20; port++)]: [turns] is how many are left. *)
Fixpoint probe_ports (startPort : Z) (turns : nat) (port : Z) : prog Z :=
  match turns with
  | O => Throw (no_port (js_of_Z startPort))
  | S turns' =>
      available ← isPortAvailable port;
      if available : bool then Ret port else probe_ports startPort turns' (port + 1)
  end.

(** The loop is not entered when the start is NaN. *)
Definition findAvailablePort (startPort : option Z) : prog Z :=
  match startPort with
  | Some port => probe_ports port 20 port
  | None => Throw (no_port (js "NaN"))
  end.

(** ** Pages of the client *)

(** [import.meta.dirname] and [path.resolve]. *)
Class ServerPaths := { dirname : jsstr; path_resolve : list jsstr → jsstr }.

(** [s.replace(p, r)] with texts: the first occurrence. *)
Fixpoint replace_first (p r s : jsstr) : jsstr :=
  if startsWith p s then r ++ drop (length p) s
  else match s with [] => [] | c :: s' => c :: replace_first p r s' end.

Definition mount (l : Layer) : prog unit := perform (op_mount l).

Section Start.
Context `{ProcessEnv, ServerPaths}.

Definition is_development : bool := bool_decide (process_env (js "NODE_ENV") = Some (js "development")).

Inductive PageAnswer := page_html (status : Z) (html : jsstr) | page_next (e : exn).

(** The page handler of development builds: [read] is what reading the template gave, [nanoid] a
    fresh identifier, and [transform] Vite's transformation of a page. *)
Definition vite_page (read : result exn jsstr) (nanoid : jsstr)
    (transform : jsstr → jsstr → result exn jsstr) (url : jsstr) : PageAnswer :=
  match read with
  | Err e => page_next e
  | Ok template =>
      let quoted s := quote_unit :: s ++ [quote_unit] in
      let template := replace_first (js "src=" ++ quoted (js "/src/main.tsx"))
                        (js "src=" ++ quoted (js "/src/main.tsx?v=" ++ nanoid)) template in
      match transform url template with
      | Ok page => page_html 200 page
      | Err e => page_next e
      end
  end.

Definition setupVite : prog unit :=
  Do op_vite_server from_result;;
  mount use_vite;;
  mount use_vite_page.

Definition distPath : jsstr :=
  if is_development then path_resolve [dirname; js "../.."; js "dist"; js "public"]
  else path_resolve [dirname; js "public"].

Definition serveStatic : prog unit :=
  exists_ ← perform (op_exists distPath);
  (if exists_ : bool then Ret tt else logger_error (js "server.static_build_missing") []);;
  mount (use_static distPath);;
  mount (use_index (path_resolve [distPath; js "index.html"])).

(** ** The server *)

Definition preferredPort : option Z := parseInt (str_or (process_env (js "PORT")) (js "3000")).

(** The answer to [op_serve] tells whether the server comes to listen; if it does not, the
    process ends with the error event that nobody handles. *)
Definition startServer : prog unit :=
  mount (use_json (js "50mb"));;
  mount (use_urlencoded (js "50mb"));;
  mount (get_storage_proxy (js "/manus-storage/*"));;
  mount (get_oauth_callback (js "/api/oauth/callback"));;
  mount (use_trpc (js "/api/trpc"));;
  (if is_development then setupVite else serveStatic);;
  port ← findAvailablePort preferredPort;
  (if bool_decide (Some port = preferredPort) then Ret tt
   else logger_warn (js "server.preferred_port_unavailable") []);;
  listening ← perform (op_serve port);
  if listening : bool then logger_info (js "server.started") [] else Ret tt.

Definition main : prog unit :=
  catch startServer (λ _, logger_error (js "server.start_failed") []).
End Start.

(** ** What a start leaves in the trace *)

Definition mounted (l : Layer) : event := Ev (op_mount l) tt.
Definition said (level : LogLevel) (event : jsstr) : Node.event :=
  Ev (op_console level (log_entry level event [])) tt.

(** The first [n] ports from [port] were probed and taken. *)
Definition taken (port : Z) (n : nat) : list event :=
  (λ k, Ev (op_listen (port + Z.of_nat k)) false) <$> seq 0 n.

Definition api_layers : list Layer :=
  [use_json (js "50mb"); use_urlencoded (js "50mb"); get_storage_proxy (js "/manus-storage/*");
   get_oauth_callback (js "/api/oauth/callback"); use_trpc (js "/api/trpc")].

Definition start_failed : event := said log_error (js "server.start_failed").

#[local] Arguments js : simpl never.
#[local] Arguments bad_port : simpl never.
#[local] Arguments no_port : simpl never.

Section StartProps.
Context `{ProcessEnv, ServerPaths}.

(** The pages are served by Vite in development, and from files otherwise. *)
Definition pages_served (tr : list event) : Prop :=
  if is_development then tr = Ev op_vite_server (Ok tt) :: (mounted <$> [use_vite; use_vite_page])
  else ∃ built, tr = Ev (op_exists distPath) built
         :: (if built : bool then [] else [said log_error (js "server.static_build_missing")])
         ++ (mounted <$> [use_static distPath; use_index (path_resolve [distPath; js "index.html"])]).

Lemma taken_S port n : taken port (S n) = Ev (op_listen port) false :: taken (port + 1) n.
Proof.
  unfold taken. rewrite <- cons_seq, fmap_cons, <- fmap_S_seq, <- list_fmap_compose, Z.add_0_r.
  f_equal. apply list_fmap_ext. intros _ k _. simpl. by replace (port + Z.of_nat (S k))%Z
    with (port + 1 + Z.of_nat k)%Z by lia.
Qed.

Lemma probe_ports_spec startPort turns port tr r :
  exec (probe_ports startPort turns port) tr r →
  match r with
  | Ok found => ∃ n, n < turns ∧ found = (port + Z.of_nat n)%Z ∧ is_port found = true
      ∧ tr = taken port n ++ [Ev (op_listen found) true]
  | Err _ => ∃ n, n ≤ turns ∧ (n = turns ∨ is_port (port + Z.of_nat n) = false) ∧ tr = taken port n
  end.
Proof.
  revert port tr. induction turns as [|turns IH]; intros port tr He; simpl in He.
  { destruct He as [-> ->]. by exists 0; auto. }
  unfold isPortAvailable in He. destruct (is_port port) eqn:Ep.
  2:{ destruct He as [-> ->]. exists 0. rewrite Z.add_0_r. split; [lia|]. auto. }
  destruct He as ([] & tr' & -> & He); simpl in He.
  { destruct He as [-> ->]. exists 0. rewrite Z.add_0_r. split; [lia|]. auto. }
  apply IH in He. destruct r as [found|e].
  - destruct He as (n & Hn & -> & Hp & ->). exists (S n). rewrite taken_S.
    replace (port + Z.of_nat (S n))%Z with (port + 1 + Z.of_nat n)%Z by lia. split; [lia|]. auto.
  - destruct He as (n & Hn & Hd & ->). exists (S n). rewrite taken_S.
    replace (port + Z.of_nat (S n))%Z with (port + 1 + Z.of_nat n)%Z by lia. split; [lia|].
    split; [|done]. destruct Hd; [left; lia|by right].
Qed.

(** The search for a port ends with the first that is free: the ports from the preferred one are
    probed in order, each once; there is none only after all twenty were busy, or when the next
    number is no port or the preferred one was no number. *)
Theorem findAvailablePort_spec startPort tr r :
  exec (findAvailablePort startPort) tr r →
  match r with
  | Ok found => ∃ port n, startPort = Some port ∧ n < 20 ∧ found = (port + Z.of_nat n)%Z
      ∧ is_port found = true ∧ tr = taken port n ++ [Ev (op_listen found) true]
  | Err _ => (startPort = None ∧ tr = [])
      ∨ ∃ port n, startPort = Some port ∧ n ≤ 20 ∧ (n = 20 ∨ is_port (port + Z.of_nat n) = false)
        ∧ tr = taken port n
  end.
Proof.
  destruct startPort as [port|]; cbn [findAvailablePort exec].
  - intros He%probe_ports_spec. destruct r as [found|e]; [naive_solver|].
    right. exists port. naive_solver.
  - intros [-> ->]. by left.
Qed.

(** What follows once the application is composed: the server listens on the port that was found,
    and says so when it is not the preferred one; or the start failed. *)
Definition listening_start (tr : list event) : Prop :=
  ∃ port n b, preferredPort = Some port ∧ n < 20 ∧ is_port (port + Z.of_nat n) = true
    ∧ tr = taken port n ++ [Ev (op_listen (port + Z.of_nat n)) true]
           ++ (if n =? 0 then [] else [said log_warn (js "server.preferred_port_unavailable")])
           ++ Ev (op_serve (port + Z.of_nat n)) b
           :: (if b : bool then [said log_info (js "server.started")] else []).

Definition portless_start (tr : list event) : Prop :=
  (preferredPort = None ∧ tr = [])
  ∨ ∃ port n, preferredPort = Some port ∧ n ≤ 20 ∧ (n = 20 ∨ is_port (port + Z.of_nat n) = false)
      ∧ tr = taken port n.

Lemma logged_exec level event tr r :
  exec (write level event []) tr r → tr = [said level event] ∧ r = Ok tt.
Proof. intros ([] & tr' & -> & -> & ->). done. Qed.

(** The pages are mounted, or Vite failed to start. *)
Lemma pages_exec tr r :
  exec (if is_development then setupVite else serveStatic) tr r →
  (r = Ok tt ∧ pages_served tr)
  ∨ ∃ e, r = Err e ∧ is_development = true ∧ tr = [Ev op_vite_server (Err e)].
Proof.
  unfold pages_served. destruct is_development.
  - intros ([[]|e] & tr' & -> & He); simpl in He.
    + left. by destruct He as ([] & ? & -> & [] & ? & -> & -> & ->).
    + right. destruct He as [-> ->]. eauto.
  - intros (built & tr' & -> & He). left. destruct built; simpl in He.
    + destruct He as ([] & ? & -> & [] & ? & -> & -> & ->). split; [done|]. by exists true.
    + destruct He as ([] & ? & -> & [] & ? & -> & [] & ? & -> & -> & ->). split; [done|]. by exists false.
Qed.

Lemma mount_exec {A} l (p : prog A) tr r :
  exec (mount l;; p) tr r → ∃ tr', tr = mounted l :: tr' ∧ exec p tr' r.
Proof. intros ([] & tr' & -> & He). eauto. Qed.

Lemma listen_exec port found n tr r :
  preferredPort = Some port → n < 20 → found = (port + Z.of_nat n)%Z → is_port found = true →
  exec ((if bool_decide (Some found = preferredPort) then Ret tt
         else logger_warn (js "server.preferred_port_unavailable") []);;
        listening ← perform (op_serve found);
        if listening : bool then logger_info (js "server.started") [] else Ret tt) tr r →
  r = Ok tt ∧ listening_start (taken port n ++ [Ev (op_listen found) true] ++ tr).
Proof.
  intros Hpref Hn -> Hp He.
  assert (∃ b, tr = (if n =? 0 then [] else [said log_warn (js "server.preferred_port_unavailable")])
           ++ Ev (op_serve (port + Z.of_nat n)) b
           :: (if b : bool then [said log_info (js "server.started")] else []) ∧ r = Ok tt)
    as (b & -> & ->).
  { rewrite Hpref in He. destruct n as [|n].
    - rewrite Z.add_0_r in *. rewrite bool_decide_true in He by done.
      destruct He as (b & tr' & -> & He). exists b.
      destruct b; [apply logged_exec in He|]; by destruct He as [-> ->].
    - rewrite bool_decide_false in He by (intros [=]; lia).
      destruct He as ([] & tr' & -> & b & tr2 & -> & He). exists b.
      destruct b; [apply logged_exec in He|]; by destruct He as [-> ->]. }
  split; [done|]. exists port, n, b. split_and!; try done.
Qed.

Lemma startServer_exec tr r :
  exec startServer tr r →
  (∃ e, r = Err e ∧ is_development = true
     ∧ tr = (mounted <$> api_layers) ++ [Ev op_vite_server (Err e)])
  ∨ ∃ pages rest, pages_served pages ∧ tr = (mounted <$> api_layers) ++ pages ++ rest
     ∧ match r with Ok _ => listening_start rest | Err _ => portless_start rest end.
Proof.
  intros He. unfold startServer in He.
  do 5 (apply mount_exec in He as (? & -> & He)).
  apply exec_bind in He as [(e & -> & He)|([] & t1 & t2 & -> & Hp & He)].
  { apply pages_exec in He as [[? _]|(e' & ? & Hd & ->)]; simplify_eq. left. eauto. }
  apply pages_exec in Hp as [[_ Hp]|(e' & ? & _)]; [|done]. right. exists t1, t2.
  split; [done|]. split; [done|].
  apply exec_bind in He as [(e & -> & He)|(found & t3 & t4 & -> & Hf & He)].
  - by apply findAvailablePort_spec in He.
  - apply findAvailablePort_spec in Hf as (port & n & Hpref & Hn & -> & Hport & ->).
    destruct (listen_exec port _ n _ _ Hpref Hn eq_refl Hport He) as [-> Hs].
    by rewrite <- app_assoc.
Qed.

End StartProps.

(** ** Witnesses *)

(** Ports below 3002 are taken. *)
Definition busy_platform : Platform := {|
  pf_store := pf_store (example_platform ∅); pf_clock := 0; pf_random := zero; pf_fetches := [];
  pf_axios := example_axios; pf_sign := example_sign; pf_verify := example_verify;
  pf_ports p := (3002 <=? p)%Z |}.

Lemma findAvailablePort_spec_witness :
  let '(tr, r, _) := run platform (findAvailablePort (Some 3000%Z)) busy_platform in
  r = Ok 3002%Z ∧ ∃ port n, Some 3000%Z = Some port ∧ n < 20 ∧ 3002%Z = (port + Z.of_nat n)%Z
    ∧ is_port 3002 = true ∧ tr = taken port n ++ [Ev (op_listen 3002) true].
Proof.
  pose proof (run_exec platform (findAvailablePort (Some 3000%Z)) busy_platform) as He.
  assert ((run platform (findAvailablePort (Some 3000%Z)) busy_platform).1.2 = Ok 3002%Z) as Hr
    by (vm_compute; reflexivity).
  destruct (run platform _ _) as [[tr r] p']. cbn [fst snd] in Hr. subst r.
  split; [reflexivity|]. exact (findAvailablePort_spec _ _ _ He).
Defined.

(** A deployed server, started with the ports 3000 and 3001 taken. *)
Definition deployed_env : ProcessEnv := {|
  process_env name := if str_eqb name (js "NODE_ENV") then Some (js "production") else None |}.

Definition deployed_paths : ServerPaths := {|
  dirname := js "/srv/app"; path_resolve l := join [slash] l |}.

#[local] Existing Instance deployed_env.
#[local] Existing Instance deployed_paths.

