(* ===== verification/Evidence.v ===== *)
(** How the console presents evidence and runtimes ([client/src/lib/evidenceState.ts],
    [client/src/lib/runtimeInventory.ts]). *)
From S2P Require Import Prelude JsString JsNumber Fixtures.

Definition metricQualities : list Quality :=
  [fresh; stale; unavailable; unsupported; estimated; experimental].

Definition metricQualityLabel (quality : Quality) : jsstr :=
  match quality with
  | fresh => js "fresh evidence" | stale => js "stale evidence"
  | unavailable => js "unavailable evidence" | unsupported => js "not supported"
  | estimated => js "estimated evidence" | experimental => js "experimental evidence"
  end.

Definition metricQualityAriaLabel (quality : Quality) : jsstr :=
  js "Metric quality: " ++ metricQualityLabel quality.

Record RuntimeInventoryDisplay := {
  rd_kind : jsstr; rd_approvalLabel : jsstr; rd_healthLabel : jsstr;
  rd_stateTone : RuntimeState; rd_healthTone : Status }.

#[export] Instance RuntimeInventoryDisplay_eq_dec : EqDecision RuntimeInventoryDisplay.
Proof. solve_decision. Defined.

Definition runtime_kind_name (k : RuntimeKind) : jsstr :=
  match k with
  | vllm => js "vllm" | llama_cpp => js "llama.cpp" | lmstudio => js "LM Studio"
  | agentzero => js "agentzero" | other_runtime => js "other"
  end.

Definition runtimeInventoryDisplay (entry : RuntimeEntry) : RuntimeInventoryDisplay := {|
  rd_kind := runtime_kind_name (r_kind entry);
  rd_approvalLabel := match r_state entry with
                      | approved => js "Approved route"
                      | discovered => js "Discovered · approval required"
                      | runtime_unavailable => js "Runtime unavailable"
                      end;
  rd_healthLabel := match r_health entry with
                    | healthy => js "Healthy" | degraded => js "Degraded"
                    | status_unavailable => js "Unavailable"
                    end;
  rd_stateTone := r_state entry; rd_healthTone := r_health entry |}.

(** What the console shows of a runtime is its evidence and nothing else: the display does not
    depend on the endpoint, and two runtimes that are shown alike agree in kind, approval and
    health; no two qualities of a metric share a label. *)
Theorem evidence_shown (a b : RuntimeEntry) (q q' : Quality) :
  (runtimeInventoryDisplay a = runtimeInventoryDisplay b
     ↔ r_kind a = r_kind b ∧ r_state a = r_state b ∧ r_health a = r_health b)
  ∧ (metricQualityAriaLabel q = metricQualityAriaLabel q' ↔ q = q')
  ∧ q ∈ metricQualities.
Proof.
  split_and!.
  - destruct a as [ka ea sa ha], b as [kb eb sb hb]. simpl. split.
    + intros Hd. pose proof (f_equal rd_kind Hd) as Hk.
      pose proof (f_equal rd_stateTone Hd) as Hs. pose proof (f_equal rd_healthTone Hd) as Hh.
      simpl in *. split_and!; try done. by destruct ka, kb; try reflexivity; vm_compute in Hk.
    + intros (-> & -> & ->). done.
  - split; [|by intros ->]. intros Hl. by destruct q, q'; try reflexivity; vm_compute in Hl.
  - destruct q; set_solver.
Qed.
