(* ===== verification/Browser.v ===== *)
(** The browser side of sign-in: the page and its storage, the start of a login
    ([client/src/const.ts]), the headers of the API client and the subscribers of its caches
    ([client/src/main.tsx]), what a page knows of its user, the redirect of visitors and signing
    out ([client/src/_core/hooks/useAuth.ts]). *)
From S2P Require Import Prelude JsString JsNumber Json Schema OAuthState Trpc Fixtures Node Logger Users Session Forge.

(** ** The page *)

(** What the build put into [import.meta.env]; [None] is [undefined]. *)
Class ClientEnv := {
  VITE_OAUTH_PORTAL_URL : option jsstr;
  VITE_APP_ID : option jsstr;
  client_DEV : bool
}.

(** A value in a template literal or as a query parameter. *)
Definition text_of (v : option jsstr) : jsstr := default (js "undefined") v.

(** The characters of a cookie that is sent as it was written. *)
Definition cookie_char (c : N) : bool :=
  is_digit c || ((97 <=? c) && (c <=? 122))%N || ((65 <=? c) && (c <=? 90))%N
  || (c =? 45)%N || (c =? 95)%N.
Definition cookie_text (s : jsstr) : bool := truthy s && forallb cookie_char s.

(** The attributes that [startLogin] writes: one-time, for the host that set it, over TLS. *)
Definition state_attributes : jsstr := js "; Path=/; Max-Age=600; SameSite=None; Secure".

(** The cookies of the page, as [document.cookie] writes them and the Cookie header sends them:
    what was written under a name is what the server reads under it. *)
Class DocumentCookies `{CookieLib} := {
  Jar : Type;
  jar_set : jsstr → Jar → Jar;
  jar_header : Jar → jsstr;
  jar_law name value jar :
    cookie_text name = true → cookie_text value = true →
    lookup_name name (parseCookieHeader (jar_header (jar_set (name ++ js "=" ++ value ++ state_attributes) jar)))
    = Some value
}.

(** What a call of the API rejects with: an error of the server or of its transport, with the
    server's code when there is one, or any other exception. *)
Inductive ClientError :=
| ce_trpc (message : jsstr) (code : option trpc_code)
| ce_other (e : exn).

Definition client_exn (e : ClientError) : exn :=
  match e with ce_trpc message _ => x_error (js "TRPCClientError") message | ce_other e => e end.

(** The page: where it is, where it was sent to, its cookies, its session storage and its local
    storage (which may be out of reach), the errors it wrote to the console, the queue of random
    identifiers, and the API client's cached user. *)
Record Browser `{DocumentCookies} := {
  br_origin : jsstr; br_pathname : jsstr; br_href : option jsstr;
  br_jar : Jar;
  br_session : option (gmap jsstr jsstr);
  br_local : option (gmap jsstr jsstr);
  br_console : list (jsstr * option ClientError);
  br_uuids : nat → jsstr; br_draws : nat;
  br_me : option User; br_invalidations : nat
}.

Section Page.
Context `{DocumentCookies}.

(** Code of the page: it may throw, which keeps what was done before. *)
Definition Page (A : Type) : Type := Browser → result exn A * Browser.

#[export] Instance page_ret : MRet Page := λ A a b, (Ok a, b).
#[export] Instance page_bind : MBind Page := λ A B f m b,
  match m b with (Ok a, b') => f a b' | (Err e, b') => (Err e, b') end.

Definition page_done : Page unit := λ b, (Ok tt, b).

Definition page_throw {A} (e : exn) : Page A := λ b, (Err e, b).
Definition page_catch {A} (m : Page A) (h : exn → Page A) : Page A := λ b,
  match m b with (Ok a, b') => (Ok a, b') | (Err e, b') => h e b' end.

(** [try { m } finally { last }]: an exception of [last] replaces the outcome. *)
Definition page_finally {A} (m : Page A) (last : Page unit) : Page A := λ b,
  let '(r, b') := m b in
  match last b' with (Ok _, b'') => (r, b'') | (Err e, b'') => (Err e, b'') end.

Definition page_uuid : Page jsstr := λ b,
  (Ok (br_uuids b (br_draws b)),
   {| br_origin := br_origin b; br_pathname := br_pathname b; br_href := br_href b;
      br_jar := br_jar b; br_session := br_session b;
      br_local := br_local b; br_console := br_console b; br_uuids := br_uuids b;
      br_draws := S (br_draws b); br_me := br_me b; br_invalidations := br_invalidations b |}).

Definition set_document_cookie (text : jsstr) : Page unit := λ b,
  (Ok tt,
   {| br_origin := br_origin b; br_pathname := br_pathname b; br_href := br_href b;
      br_jar := jar_set text (br_jar b); br_session := br_session b;
      br_local := br_local b; br_console := br_console b; br_uuids := br_uuids b;
      br_draws := br_draws b; br_me := br_me b; br_invalidations := br_invalidations b |}).

Definition navigate_to (url : jsstr) : Page unit := λ b,
  (Ok tt,
   {| br_origin := br_origin b; br_pathname := br_pathname b; br_href := Some url;
      br_jar := br_jar b; br_session := br_session b;
      br_local := br_local b; br_console := br_console b; br_uuids := br_uuids b;
      br_draws := br_draws b; br_me := br_me b; br_invalidations := br_invalidations b |}).

Definition set_session (s : gmap jsstr jsstr) : Page unit := λ b,
  (Ok tt,
   {| br_origin := br_origin b; br_pathname := br_pathname b; br_href := br_href b;
      br_jar := br_jar b; br_session := Some s;
      br_local := br_local b; br_console := br_console b; br_uuids := br_uuids b;
      br_draws := br_draws b; br_me := br_me b; br_invalidations := br_invalidations b |}).

Definition set_me (u : option User) : Page unit := λ b,
  (Ok tt,
   {| br_origin := br_origin b; br_pathname := br_pathname b; br_href := br_href b;
      br_jar := br_jar b; br_session := br_session b;
      br_local := br_local b; br_console := br_console b; br_uuids := br_uuids b;
      br_draws := br_draws b; br_me := u; br_invalidations := br_invalidations b |}).

Definition invalidate_me : Page unit := λ b,
  (Ok tt,
   {| br_origin := br_origin b; br_pathname := br_pathname b; br_href := br_href b;
      br_jar := br_jar b; br_session := br_session b;
      br_local := br_local b; br_console := br_console b; br_uuids := br_uuids b;
      br_draws := br_draws b; br_me := br_me b; br_invalidations := S (br_invalidations b) |}).

Definition storage_denied : exn := x_error (js "SecurityError") (js "Access is denied for this document").

Definition set_local (s : gmap jsstr jsstr) : Page unit := λ b,
  (Ok tt,
   {| br_origin := br_origin b; br_pathname := br_pathname b; br_href := br_href b;
      br_jar := br_jar b; br_session := br_session b;
      br_local := Some s; br_console := br_console b; br_uuids := br_uuids b;
      br_draws := br_draws b; br_me := br_me b; br_invalidations := br_invalidations b |}).

Definition console_error (text : jsstr) (error : option ClientError) : Page unit := λ b,
  (Ok tt,
   {| br_origin := br_origin b; br_pathname := br_pathname b; br_href := br_href b;
      br_jar := br_jar b; br_session := br_session b;
      br_local := br_local b; br_console := br_console b ++ [(text, error)]; br_uuids := br_uuids b;
      br_draws := br_draws b; br_me := br_me b; br_invalidations := br_invalidations b |}).

(** [sessionStorage] and [localStorage], which throw where the browser denies them. *)
Definition with_storage {A} (f : gmap jsstr jsstr → Page A) : Page A := λ b,
  match br_session b with Some s => f s b | None => (Err storage_denied, b) end.

Definition session_getItem (key : jsstr) : Page (option jsstr) := with_storage (λ s, mret (s !! key)).
Definition session_removeItem (key : jsstr) : Page unit := with_storage (λ s, set_session (delete key s)).
Definition local_setItem (key value : jsstr) : Page unit := λ b,
  match br_local b with Some s => set_local (<[key := value]> s) b | None => (Err storage_denied, b) end.

(** ** [startLogin] *)

Context `{ClientEnv, UrlBuilder}.

Definition login_redirect (origin : jsstr) : jsstr := origin ++ js "/api/oauth/callback".

(** The cookie with a fresh nonce first, then the navigation with the state that carries it. *)
Definition startLogin : Page unit := λ b,
  let redirectUri := login_redirect (br_origin b) in
  (nonce ← page_uuid;
   set_document_cookie (OAUTH_STATE_COOKIE ++ js "=" ++ nonce ++ state_attributes);;
   match encodeOAuthState {| os_redirectUri := redirectUri; os_nonce := Some nonce |} with
   | None => page_throw (x_error (js "InvalidCharacterError") (js "Invalid character"))
   | Some state =>
       match URL_href (text_of VITE_OAUTH_PORTAL_URL ++ js "/app-auth") with
       | None => page_throw invalid_url
       | Some url =>
           let url := URL_set_param url (js "appId") (text_of VITE_APP_ID) in
           let url := URL_set_param url (js "redirectUri") redirectUri in
           let url := URL_set_param url (js "state") state in
           navigate_to (URL_set_param url (js "type") (js "signIn"))
       end
   end) b.

(** ** The API client *)

Definition mirror_key : jsstr := js "manus-cookie".
Definition session_prefix : jsstr := COOKIE_NAME ++ js "=".
Definition semicolon : N := 59%N.

(** The session token in a list of cookies. *)
Definition mirrored_token (raw : jsstr) : option jsstr :=
  pair ← js_find (λ s, startsWith session_prefix (trim s)) (split_on semicolon raw);
  Some (drop (length session_prefix) (trim pair)).

(** [headers()]: the mirrored session as a bearer token. *)
Definition headers : Page (list (jsstr * jsstr)) :=
  page_catch
    (raw ← session_getItem mirror_key;
     mret match str_or_null (str_or_null raw ≫= mirrored_token) with
          | Some token => [(js "Authorization", bearer ++ token)]
          | None => []
          end)
    (λ _, mret []).

Definition redirectToLoginIfUnauthorized (error : option ClientError) : Page unit :=
  match error with
  | None | Some (ce_other _) => mret tt
  | Some (ce_trpc message _) => if str_eqb message UNAUTHED_ERR_MSG then startLogin else mret tt
  end.

(** An event of the caches of queries and mutations: its type, the type of its action when it has
    one, and the error in the state of its query or mutation. *)
Record CacheEvent := {
  ev_type : jsstr; ev_action : option jsstr; ev_error : option ClientError }.

Definition error_event (event : CacheEvent) : bool :=
  str_eqb (ev_type event) (js "updated") && bool_decide (ev_action event = Some (js "error")).

(** The subscribers of both caches: an error may start a login, then it is written to the console. *)
Definition cache_subscriber (text : jsstr) (event : CacheEvent) : Page unit :=
  if error_event event
  then redirectToLoginIfUnauthorized (ev_error event);; console_error text (ev_error event)
  else mret tt.
Definition query_subscriber : CacheEvent → Page unit := cache_subscriber (js "[API Query Error]").
Definition mutation_subscriber : CacheEvent → Page unit := cache_subscriber (js "[API Mutation Error]").

(** What [fetch] of the client adds to the options of a request: its cookies go with it. *)
Definition fetch_init (init : option (gmap jsstr json)) : gmap jsstr json :=
  <[js "credentials" := JString (js "include")]> (default ∅ init).

(** ** [useAuth] *)

(** [logout], given what the mutation was answered with; its [onSuccess] forgets the user. *)
Definition sign_out (answer : result ClientError unit) : Page unit :=
  page_finally
    match answer with
    | Ok _ => set_me None
    | Err (ce_trpc message (Some UNAUTHORIZED)) => mret tt
    | Err e => page_throw (client_exn e)
    end
    (page_catch (session_removeItem mirror_key) (λ _, mret tt);; set_me None;; invalidate_me).

Record AuthState := {
  as_user : option User; as_loading : bool; as_error : option ClientError;
  as_isAuthenticated : bool }.

(** What [useAuth] is given: the data of the query of the user ([None] before it was answered,
    [Some None] for a visitor), and how query and mutation stand. *)
Record AuthQueries := {
  aq_data : option (option User); aq_isLoading : bool; aq_error : option ClientError;
  aq_isPending : bool; aq_logoutError : option ClientError }.

(** A user as JSON, in the order of the columns. *)
Definition text_json (t : option jsstr) : json := match t with Some t => JString t | None => JNull end.
Definition time_json (t : Z) : json := JString (toISOString t).
Definition user_json (u : User) : json :=
  JObject [(js "id", JNumber (num_of_Z (user_id u))); (js "openId", JString (user_openId u));
           (js "name", text_json (user_name u)); (js "email", text_json (user_email u));
           (js "loginMethod", text_json (user_loginMethod u));
           (js "role", JString (match user_role_ u with role_user => js "user" | role_admin => js "admin" end));
           (js "createdAt", time_json (user_createdAt u)); (js "updatedAt", time_json (user_updatedAt u));
           (js "lastSignedIn", time_json (user_lastSignedIn u))].

(** [JSON.stringify(data)], as the storage coerces it: [undefined] becomes a text. *)
Definition user_info (data : option (option User)) : jsstr :=
  match data with
  | None => js "undefined"
  | Some None => stringify JNull
  | Some (Some u) => stringify (user_json u)
  end.

Definition user_info_key : jsstr := js "manus-runtime-user-info".

(** [state]: what the page knows of its user goes to the local storage first. *)
Definition auth_state (q : AuthQueries) : Page AuthState :=
  local_setItem user_info_key (user_info (aq_data q));;
  mret {|
    as_user := mjoin (aq_data q); as_loading := aq_isLoading q || aq_isPending q;
    as_error := match aq_error q with Some e => Some e | None => aq_logoutError q end;
    as_isAuthenticated := bool_decide (mjoin (aq_data q) ≠ None) |}.

(** The effect that sends visitors who are not signed in elsewhere. *)
Definition redirect_effect (redirectOnUnauthenticated : bool) (redirectPath : option jsstr)
    (state : AuthState) : Page unit := λ b,
  if negb redirectOnUnauthenticated then page_done b
  else if as_loading state then page_done b
  else if bool_decide (as_user state ≠ None) then page_done b
  else match str_or_null redirectPath with
       | Some path => if str_eqb (br_pathname b) path then page_done b else navigate_to path b
       | None => startLogin b
       end.
End Page.
