(* ===== verification/BrowserProps.v ===== *)
(** What sign-in guarantees between the browser and the server: the login that a page starts is
    the one that the server completes, and the mirrored session is the one it checks. *)
From S2P Require Import Prelude JsString JsNumber Json Schema OAuthState Trpc Node Logger Users Platform Session SessionProps OAuthCallback Forge ForgeProps Browser.

Section Login.
Context `{DocumentCookies, ClientEnv, UrlBuilder, ProcessEnv, UnicodeCase}.
#[local] Opaque js.

(** The nonce of the next login, the state it sends, and where it goes. *)
Definition next_nonce (b : Browser) : jsstr := br_uuids b (br_draws b).
Definition state_with (b : Browser) (nonce : jsstr) : option jsstr :=
  encodeOAuthState {| os_redirectUri := login_redirect (br_origin b); os_nonce := Some nonce |}.
Definition login_state (b : Browser) : option jsstr := state_with b (next_nonce b).
Definition login_url (portal : jsstr) (b : Browser) (state : jsstr) : jsstr :=
  URL_set_param (URL_set_param (URL_set_param (URL_set_param portal
    (js "appId") (text_of VITE_APP_ID)) (js "redirectUri") (login_redirect (br_origin b)))
    (js "state") state) (js "type") (js "signIn").

(** A login that does not throw has written its nonce and left for its state. *)
Lemma startLogin_effect b b' :
  startLogin b = (Ok tt, b') →
  ∃ portal state, URL_href (text_of VITE_OAUTH_PORTAL_URL ++ js "/app-auth") = Some portal
    ∧ login_state b = Some state ∧ br_href b' = Some (login_url portal b state)
    ∧ br_jar b' = jar_set (OAUTH_STATE_COOKIE ++ js "=" ++ next_nonce b ++ state_attributes) (br_jar b)
    ∧ br_uuids b' = br_uuids b ∧ br_draws b' = S (br_draws b) ∧ br_origin b' = br_origin b.
Proof.
  unfold startLogin, login_state, state_with, next_nonce, mbind, page_bind. simpl.
  destruct (encodeOAuthState _) as [state|]; [|done]. destruct (URL_href _) as [portal|]; [|done].
  intros [= <-]. by exists portal, state.
Qed.

Lemma startLogin_runs b portal state :
  URL_href (text_of VITE_OAUTH_PORTAL_URL ++ js "/app-auth") = Some portal →
  login_state b = Some state → ∃ b', startLogin b = (Ok tt, b').
Proof.
  intros Hp Hs. unfold startLogin, login_state, state_with, next_nonce, mbind, page_bind in *. simpl. rewrite Hs, Hp. by eexists.
Qed.

Lemma cookie_text_bytes s : cookie_text s = true → bytes s.
Proof.
  intros [_ Hs]%andb_true_iff. apply Forall_forall. intros c Hc%list_elem_of_In.
  rewrite forallb_forall in Hs. apply Hs in Hc. unfold cookie_char, is_digit in Hc.
  repeat (apply orb_true_iff in Hc as [Hc|Hc]); bool_to_prop; lia.
Qed.

Lemma cookie_text_nonempty s : cookie_text s = true → s ≠ [].
Proof. by intros [?%truthy_spec _]%andb_true_iff. Qed.

Lemma state_cookie_text : cookie_text OAUTH_STATE_COOKIE = true.
Proof. by vm_compute. Qed.

Lemma state_with_decodes b nonce :
  bytes (br_origin b) → cookie_text nonce = true →
  ∃ state, state_with b nonce = Some state
    ∧ decodeOAuthState state = {| ds_redirectUri := login_redirect (br_origin b);
                                  ds_nonce := Some (JString nonce) |}.
Proof.
  intros Ho Hn. apply (encoded_state_decodes {|
    os_redirectUri := login_redirect (br_origin b); os_nonce := Some nonce |}); simpl.
  - apply bytes_app; [done|by apply bytes_lit].
  - intros n [= <-]. by apply cookie_text_bytes.
Qed.

(** A request that the browser sends after it started a login: its cookies are the browser's. *)
Definition sent_by (b : Browser) (req : Request) : Prop := req_cookie req = Some (jar_header (br_jar b)).

(** What the server reads back of a nonce that was the last to be written. *)
Lemma nonce_in_jar b nonce jar req :
  br_jar b = jar_set (OAUTH_STATE_COOKIE ++ js "=" ++ nonce ++ state_attributes) jar →
  cookie_text nonce = true → sent_by b req → expected_nonce req = Some nonce.
Proof.
  intros Hj Hn Hr. unfold expected_nonce. rewrite Hr. simpl. rewrite Hj.
  apply jar_law; [apply state_cookie_text|done].
Qed.

(** The callback completes the login of the state [state] of the request. *)
Definition completes (req : Request) (code state : jsstr) (tr : list event) (r : result exn unit) : Prop :=
  ∃ tr', tr = Ev (op_res (res_clearCookie OAUTH_STATE_COOKIE oauth_state_options)) tt :: tr'
    ∧ exec (complete_login req code state) tr' r.

(** The callback answers with a refusal, and does nothing else. *)
Definition refuses (tr : list event) : Prop :=
  ∃ status body, tr = [Ev (op_res (res_json status body)) tt] ∧ (status = 400 ∨ status = 403)%Z.

Lemma callback_completes req state uri nonce code tr r :
  decodeOAuthState state = {| ds_redirectUri := uri; ds_nonce := Some (JString nonce) |} →
  expected_nonce req = Some nonce → cookie_text nonce = true →
  getQueryParam req (js "state") = Some state → getQueryParam req (js "code") = Some code →
  code ≠ [] → exec (oauth_callback req) tr r → completes req code state tr r.
Proof.
  intros Hd Hen Hn Hst Hc Hne He.
  assert (state ≠ []) as Hse by (intros ->; by vm_compute in Hd).
  assert (truthy code = true) as Etc by by apply truthy_spec.
  assert (truthy state = true) as Ets by by apply truthy_spec.
  assert (truthy nonce = true) as Etn by by apply truthy_spec, cookie_text_nonempty.
  unfold oauth_callback in He. rewrite Hst, Hc in He. unfold str_or in He.
  rewrite Etc, Ets in He. rewrite Etc, Ets, Hd, Hen in He. simpl in He.
  rewrite Etn, str_eqb_refl in He. simpl in He. destruct He as ([] & tr' & -> & He). by exists tr'.
Qed.

Lemma callback_refuses req state uri nonce nonce' tr r :
  decodeOAuthState state = {| ds_redirectUri := uri; ds_nonce := Some (JString nonce) |} →
  expected_nonce req = Some nonce' → nonce' ≠ nonce →
  getQueryParam req (js "state") = Some state → exec (oauth_callback req) tr r → refuses tr.
Proof.
  intros Hd Hen Hne Hst He.
  apply callback_cases in He as [?|[(st & n & Hst' & _ & Hds & Hen') _]]; [done|].
  simplify_eq. rewrite Hd in Hds. simpl in Hds. congruence.
Qed.


(** ** Who is sent to sign in *)

(** The API client starts a login exactly for those who are not signed in: when a procedure of
    the server refuses a caller, the handler of the error starts a login if the caller has no
    user, and leaves the page alone if the caller's role is too low. *)
Theorem redirect_unauthenticated (role : option NodeScopeRole) ctx e b :
  match role with Some r => requireNodeScopeRole r ctx | None => protectedProcedure ctx end = Err e →
  redirectToLoginIfUnauthorized (Some (ce_trpc (te_message e) (Some (te_code e)))) b
  = match ctx_user ctx with None => startLogin b | Some _ => page_done b end.
Proof.
  unfold protectedProcedure, requireUser, requireNodeScopeRole. simpl.
  destruct (ctx_user ctx) as [u|]; [|by destruct role; intros [= <-]].
  destruct role as [r|]; [|done]. destruct (_ <? _)%Z; [|done]. intros [= <-]. by destruct r.
Qed.

(** ** The mirrored session *)

(** What the session storage mirrors: the first session cookie of the list is [token]. *)
Definition mirrors (b : Browser) (token : jsstr) : Prop :=
  ∃ storage raw before entry after,
    br_session b = Some storage ∧ storage !! mirror_key = Some raw
    ∧ split_on semicolon raw = before ++ entry :: after
    ∧ Forall (λ s, startsWith session_prefix (trim s) = false) before
    ∧ trim entry = session_prefix ++ token.

(** A request that the API client sends: its Authorization header is the client's. *)
Definition client_request (b : Browser) (req : Request) : Prop :=
  ∃ h, headers b = (Ok h, b) ∧ req_authorization req = lookup_name (js "Authorization") h.

Lemma drop_prefix (p s : jsstr) : drop (length p) (p ++ s) = s.
Proof. by rewrite drop_app_length. Qed.

Lemma headers_mirrors b token :
  mirrors b token → token ≠ [] → headers b = (Ok [(js "Authorization", bearer ++ token)], b).
Proof.
  intros (m & raw & before & entry & after & Hb & Hm & Hs & Hf & He) Hne.
  unfold headers, page_catch, session_getItem, with_storage, mbind, page_bind. rewrite Hb. simpl.
  rewrite Hm. assert (raw ≠ []) as Hr%truthy_spec.
  { intros ->. simpl in Hs. by destruct before as [|x [|y before]]; simplify_eq/=. }
  unfold str_or_null at 2. rewrite Hr. simpl. unfold mirrored_token. rewrite Hs.
  rewrite (js_find_first _ before entry after Hf) by (rewrite He; apply startsWith_spec; eauto).
  simpl. rewrite He, drop_prefix. unfold str_or_null. by rewrite (proj2 (truthy_spec _) Hne).
Qed.

(** The headers never throw and leave the page as it is. *)
Lemma headers_total b : ∃ h, headers b = (Ok h, b).
Proof.
  unfold headers, page_catch, session_getItem, with_storage, mbind, page_bind.
  destruct (br_session b); simpl; eauto.
Qed.


(** Signing out forgets the session, whatever the server answers: afterwards no user is cached
    and the cache is marked stale once more, the API client sends no token, nothing has been
    navigated to and no cookie written; the call throws exactly when the server failed otherwise
    than by not knowing the caller. *)
Theorem sign_out_forgets answer b r b' :
  sign_out answer b = (r, b') →
  br_me b' = None ∧ br_invalidations b' = S (br_invalidations b)
  ∧ headers b' = (Ok [], b') ∧ br_href b' = br_href b ∧ br_jar b' = br_jar b
  ∧ r = match answer with
        | Err (ce_trpc message code) =>
            if bool_decide (code = Some UNAUTHORIZED) then Ok tt
            else Err (client_exn (ce_trpc message code))
        | Err e => Err (client_exn e)
        | Ok _ => Ok tt
        end.
Proof.
  unfold sign_out, page_finally, page_catch, session_removeItem, with_storage, mbind, page_bind.
  destruct answer as [[]|[message [[]|]|e]]; simpl; destruct (br_session b) eqn:Eb; simpl;
    intros [= <- <-]; (split_and!; try done); unfold headers, page_catch, session_getItem,
    with_storage, mbind, page_bind; simpl; rewrite ?Eb; simpl; by rewrite ?lookup_delete_eq.
Qed.
End Login.

(** ** Examples *)

#[local] Existing Instances example_env example_cookies.

Lemma split_on_plain c s : c ∉ s → split_on c s = [s].
Proof.
  induction s as [|d s IH]; [done|]. rewrite not_elem_of_cons. intros [Hd Hs]. simpl.
  rewrite (proj2 (N.eqb_neq d c)) by done. by rewrite (IH Hs).
Qed.

Lemma split_on_first c s t : c ∉ s → split_on c (s ++ c :: t) = s :: split_on c t.
Proof.
  induction s as [|d s IH]; simpl; [by rewrite N.eqb_refl|].
  rewrite not_elem_of_cons. intros [Hd Hs]. rewrite (proj2 (N.eqb_neq d c)) by done. by rewrite IH.
Qed.

Lemma cookie_text_chars s c : cookie_text s = true → c ∈ s → cookie_char c = true.
Proof. intros [_ Hs]%andb_true_iff Hc%list_elem_of_In. rewrite forallb_forall in Hs. auto. Qed.

Lemma cookie_text_avoids s c : cookie_text s = true → cookie_char c = false → c ∉ s.
Proof. intros Hs Hc Hin. by rewrite (cookie_text_chars _ _ Hs Hin) in Hc. Qed.

Lemma cookie_char_space c : cookie_char c = true → is_space c = false.
Proof.
  unfold cookie_char, is_digit, is_space. intros Hc. apply orb_false_iff. split.
  - apply bool_decide_eq_false. intros Hs. set_unfold.
    repeat (apply orb_true_iff in Hc as [Hc|Hc]); bool_to_prop; lia.
  - apply andb_false_iff. left. apply N.leb_gt. repeat (apply orb_true_iff in Hc as [Hc|Hc]); bool_to_prop; lia.
Qed.

Lemma cookie_text_trim s : cookie_text s = true → trim s = s.
Proof.
  intros Hs. unfold trim. rewrite (drop_while_id _ s).
  - apply drop_while_end_id. intros c r ->. apply cookie_char_space.
    eapply cookie_text_chars; [exact Hs|]. set_solver.
  - intros c r ->. apply cookie_char_space. eapply cookie_text_chars; [exact Hs|]. set_solver.
Qed.

(** A jar that keeps what was written before the attributes, the latest first. *)
Definition example_set (text : jsstr) (jar : list jsstr) : list jsstr :=
  default [] (head (split_on semicolon text)) :: jar.

Lemma example_cookie_pair name value :
  cookie_text name = true → cookie_text value = true →
  example_cookie (name ++ js "=" ++ value) = Some (name, value).
Proof.
  intros Hn Hv. unfold example_cookie. change (js "=" ++ value) with (61%N :: value).
  assert (list_find (λ c, c = 61%N) (name ++ 61%N :: value) = Some (length name, 61%N)) as ->.
  { apply list_find_Some. split_and!; [by rewrite list_lookup_middle|done|].
    intros j c Hj Hlt ->. rewrite lookup_app_l in Hj by done.
    by apply (cookie_text_avoids _ 61%N Hn); [|eapply list_elem_of_lookup_2]. }
  rewrite take_app_length. rewrite drop_app_ge by lia.
  replace (S (length name) - length name) with 1 by lia. simpl.
  by rewrite !cookie_text_trim.
Qed.

Definition attributes_rest : jsstr := drop 1 state_attributes.
Lemma state_attributes_rest : state_attributes = semicolon :: attributes_rest.
Proof. by vm_compute. Qed.
#[local] Opaque state_attributes.

Lemma pair_avoids name value :
  cookie_text name = true → cookie_text value = true → semicolon ∉ name ++ js "=" ++ value.
Proof.
  intros Hn Hv. rewrite !not_elem_of_app. split_and!; try (by eapply cookie_text_avoids).
  change (js "=") with [61%N]. set_solver.
Qed.

Lemma example_set_pair name value jar :
  cookie_text name = true → cookie_text value = true →
  example_set (name ++ js "=" ++ value ++ state_attributes) jar = (name ++ js "=" ++ value) :: jar.
Proof.
  intros Hn Hv. unfold example_set.
  replace (name ++ js "=" ++ value ++ state_attributes)
    with ((name ++ js "=" ++ value) ++ semicolon :: attributes_rest)
    by (rewrite state_attributes_rest, <- !app_assoc; reflexivity).
  rewrite split_on_first; [done|]. by apply pair_avoids.
Qed.

Lemma example_header pair jar :
  semicolon ∉ pair → ∃ l, split_on semicolon (join (js "; ") (pair :: jar)) = pair :: l.
Proof.
  intros Hs. destruct jar as [|entry jar].
  - exists []. by apply split_on_plain.
  - change (join (js "; ") (pair :: entry :: jar))
      with (pair ++ semicolon :: 32%N :: join (js "; ") (entry :: jar)).
    rewrite split_on_first by done. eauto.
Qed.

#[local] Instance example_document : DocumentCookies.
Proof.
  refine {| Jar := list jsstr; jar_set := example_set; jar_header := join (js "; ") |}.
  intros name value jar Hn Hv. rewrite example_set_pair by done.
  destruct (example_header (name ++ js "=" ++ value) jar) as [l Hl]; [by apply pair_avoids|].
  unfold semicolon in Hl. cbn [parseCookieHeader example_cookies]. rewrite Hl. cbn [omap list_omap].
  rewrite example_cookie_pair by done. cbn [lookup_name]. by rewrite str_eqb_refl.
Defined.

#[local] Instance example_client : ClientEnv := {|
  VITE_OAUTH_PORTAL_URL := Some (js "https://portal.example"); VITE_APP_ID := Some (js "app-1");
  client_DEV := false |}.

(** A page whose session storage mirrors a session, among other cookies. *)
Definition example_storage : gmap jsstr jsstr :=
  {[ mirror_key := js "theme=dark; app_session_id=t0ken; b=c" ]}.

Definition example_page : Browser := {|
  br_origin := js "https://app.example"; br_pathname := js "/hosts"; br_href := None;
  br_jar := [js "theme=dark"]; br_session := Some example_storage;
  br_local := Some ∅; br_console := []; br_uuids k := js "nonce" ++ replicate k 120%N; br_draws := 0; br_me := None;
  br_invalidations := 0 |}.

(** The callback that the portal sends [b] to, with the state it was given. *)
Definition returned (b : Browser) (state : jsstr) : Request := {|
  req_protocol := js "https"; req_cookie := Some (jar_header (br_jar b));
  req_authorization := None; req_forwarded_proto := None;
  req_query := [(js "code", qv_string (js "c0de")); (js "state", qv_string state)] |}.


Definition forbidden_viewer : TrpcContext := {|
  ctx_req := returned example_page []; ctx_user := Some (plain_user (example_row (js "ada") role_user)) |}.

Lemma redirect_unauthenticated_witness :
  ∃ e, requireNodeScopeRole operator forbidden_viewer = Err e
    ∧ redirectToLoginIfUnauthorized (Some (ce_trpc (te_message e) (Some (te_code e)))) example_page
      = match ctx_user forbidden_viewer with
        | None => startLogin example_page | Some _ => page_done example_page end.
Proof.
  destruct (requireNodeScopeRole operator forbidden_viewer) as [c|e] eqn:E; [vm_compute in E; discriminate E|].
  exists e. split; [reflexivity|].
  exact (redirect_unauthenticated (Some operator) forbidden_viewer e example_page E).
Defined.

(** A request of the API client, when the browser blocks the cookies of the frame. *)
Definition framed_request : Request := {|
  req_protocol := js "https"; req_cookie := None;
  req_authorization := Some (bearer ++ js "t0ken"); req_forwarded_proto := None; req_query := [] |}.

Lemma example_mirrors : mirrors example_page (js "t0ken").
Proof.
  exists example_storage, (js "theme=dark; app_session_id=t0ken; b=c"), [js "theme=dark"],
    (js " app_session_id=t0ken"), [js " b=c"].
  split; [reflexivity|]. split; [vm_compute; reflexivity|]. split; [vm_compute; reflexivity|].
  split; [repeat constructor|vm_compute; reflexivity].
Qed.


Lemma sign_out_forgets_witness :
  let b' := (sign_out (Ok tt) example_page).2 in headers b' = (Ok [], b') ∧ br_me b' = None.
Proof.
  destruct (sign_out (Ok tt) example_page) as [r b'] eqn:E. cbn [snd].
  destruct (sign_out_forgets _ _ _ _ E) as (Hm & _ & Hh & _). split; [exact Hh|exact Hm].
Defined.
