(* ===== verification/Logins.v ===== *)
(** The life of a page between sign-ins: whatever sequence of cache events, renders, requests,
    sign-outs and logins happens on it, exactly its latest login is completed by the server. *)
From S2P Require Import Prelude JsString JsNumber Json Schema OAuthState Trpc Fixtures Node Logger Users Platform Session SessionProps OAuthCallback Forge ForgeProps Browser BrowserProps.

Section History.
Context `{DocumentCookies, ClientEnv, UrlBuilder, ProcessEnv, UnicodeCase}.
#[local] Opaque js.

(** ** What happens on a page *)

(** The address that [useAuth] of the page sends visitors to, when it has one. *)
Variable redirectPath : option jsstr.

Inductive PageAction :=
| pa_query (event : CacheEvent)
| pa_mutation (event : CacheEvent)
| pa_render (queries : AuthQueries) (redirectOnUnauthenticated : bool)
| pa_request
| pa_sign_out (answer : result ClientError unit)
| pa_login.

(** One of them: a render is the state of [useAuth] with the effect that follows it. *)
Definition perform (a : PageAction) : Page unit :=
  match a with
  | pa_query event => query_subscriber event
  | pa_mutation event => mutation_subscriber event
  | pa_render queries redirect =>
      state ← auth_state queries; redirect_effect redirect redirectPath state
  | pa_request => headers;; mret tt
  | pa_sign_out answer => sign_out answer
  | pa_login => startLogin
  end.

(** A page after a sequence of them; one that throws is over, the next still happens. *)
Definition visit (actions : list PageAction) (b : Browser) : Browser :=
  foldl (λ b a, (perform a b).2) b actions.

(** ** What each does to the login of the page *)

(** Neither the logins of the page nor where it was sent to differ. *)
Definition same_login (b b' : Browser) : Prop :=
  br_origin b' = br_origin b ∧ br_uuids b' = br_uuids b ∧ br_draws b' = br_draws b
  ∧ br_jar b' = br_jar b ∧ br_href b' = br_href b.

#[local] Instance same_login_preorder : PreOrder same_login.
Proof. split; [by intros b|]. unfold same_login. intros b1 b2 b3; intuition congruence. Qed.

Lemma same_login_local b key value : same_login b (local_setItem key value b).2.
Proof. unfold local_setItem. by destruct (br_local b). Qed.

Lemma same_login_sign_out answer b : same_login b (sign_out answer b).2.
Proof.
  unfold sign_out, page_finally, page_catch, session_removeItem, with_storage, mbind, page_bind.
  by destruct answer as [[]|[message [[]|]|e]]; simpl; destruct (br_session b).
Qed.

Lemma same_login_headers b : same_login b (perform pa_request b).2.
Proof.
  unfold perform, mbind, page_bind. destruct (headers_total b) as [h Hh]. by rewrite Hh.
Qed.

(** A page that starts its logins without an exception. *)
Definition can_login (b : Browser) : Prop := ∃ b', startLogin b = (Ok tt, b').

(** What an action does to the login: nothing, an excursion to the path of the page, or one login. *)
Inductive login_effect (b b' : Browser) : Prop :=
| le_same : same_login b b' → login_effect b b'
| le_moved path b1 : redirectPath = Some path → same_login b b1 →
    b' = (navigate_to path b1).2 → login_effect b b'
| le_login b1 b2 : same_login b b1 → startLogin b1 = (Ok tt, b2) → same_login b2 b' →
    login_effect b b'.

(** A login does not depend on what else the page holds. *)
Lemma can_login_same b b1 : can_login b → same_login b b1 → can_login b1.
Proof.
  intros [b' Hb] (Ho & Hu & Hd & _).
  apply startLogin_effect in Hb as (portal & state & Hp & Hs & _).
  eapply startLogin_runs; [done|]. unfold login_state, state_with, next_nonce in *.
  rewrite Ho, Hu, Hd. exact Hs.
Qed.

Lemma cache_subscriber_effect text event b :
  can_login b → login_effect b (cache_subscriber text event b).2.
Proof.
  intros [b' Hb]. unfold cache_subscriber, mbind, page_bind.
  destruct (error_event event); [|by apply le_same].
  destruct (ev_error event) as [[message code|e]|]; simpl; try by apply le_same.
  destruct (str_eqb message UNAUTHED_ERR_MSG); [|by apply le_same].
  rewrite Hb. by apply (le_login _ _ b b').
Qed.

Lemma redirect_effect_effect redirect state b b1 :
  same_login b b1 → can_login b1 →
  login_effect b (redirect_effect redirect redirectPath state b1).2.
Proof.
  intros Hs [b' Hb]. unfold redirect_effect.
  destruct (negb redirect); [by apply le_same|]. destruct (as_loading state); [by apply le_same|].
  destruct (bool_decide _); [by apply le_same|].
  destruct (str_or_null redirectPath) as [path|] eqn:Ep.
  - destruct (str_eqb _ path); [by apply le_same|]. apply (le_moved _ _ path b1); [|done..].
    unfold str_or_null in Ep. destruct redirectPath as [p|]; [|done]. by destruct (truthy p); simplify_eq.
  - rewrite Hb. by apply (le_login _ _ b1 b').
Qed.

Lemma perform_effect a b : can_login b → login_effect b (perform a b).2.
Proof.
  intros Hc. destruct a as [event|event|queries redirect| |answer|].
  - by apply cache_subscriber_effect.
  - by apply cache_subscriber_effect.
  - pose proof (same_login_local b user_info_key (user_info (aq_data queries))) as Hs.
    unfold perform, auth_state, mbind, page_bind. destruct (local_setItem _ _ b) as [[[]|e] b1]; simpl in *.
    + apply redirect_effect_effect; [done|]. by eapply can_login_same.
    + by apply le_same.
  - apply le_same, same_login_headers.
  - apply le_same, same_login_sign_out.
  - destruct Hc as [b' Hb]. simpl. rewrite Hb. by apply (le_login _ _ b b').
Qed.

(** ** The invariant of a page *)

(** The state of the login with the identifier of number [n]. *)
Definition nth_state (b : Browser) (n : nat) : option jsstr := state_with b (br_uuids b n).

(** Since the page was [b0]: either it has started no login, or the nonce of the latest is the one
    its cookie holds; and it was sent nowhere else than to its path or to the latest login. *)
Definition latest_kept (portal : jsstr) (b0 b : Browser) : Prop :=
  br_origin b = br_origin b0 ∧ br_uuids b = br_uuids b0 ∧ br_draws b0 ≤ br_draws b
  ∧ (br_draws b0 < br_draws b → ∃ n jar, br_draws b = S n ∧
       br_jar b = jar_set (OAUTH_STATE_COOKIE ++ js "=" ++ br_uuids b0 n ++ state_attributes) jar)
  ∧ (br_href b = br_href b0 ∨ (∃ path, redirectPath = Some path ∧ br_href b = Some path)
     ∨ ∃ n state, br_draws b = S n ∧ br_draws b0 ≤ n ∧ nth_state b0 n = Some state
         ∧ br_href b = Some (login_url portal b0 state)).

Lemma latest_kept_same portal b0 b b' :
  latest_kept portal b0 b → same_login b b' → latest_kept portal b0 b'.
Proof. unfold latest_kept. intros Hk (-> & -> & -> & -> & ->). exact Hk. Qed.

Lemma latest_kept_login portal b0 b b' :
  URL_href (text_of VITE_OAUTH_PORTAL_URL ++ js "/app-auth") = Some portal →
  latest_kept portal b0 b → startLogin b = (Ok tt, b') → latest_kept portal b0 b'.
Proof.
  intros Hp (Ho & Hu & Hd & _ & _) Hb.
  apply startLogin_effect in Hb as (portal' & state & Hp' & Hs & Hh & Hj & Hu' & Hd' & Ho'). simplify_eq.
  unfold latest_kept. rewrite Ho', Hu', Hd', Hj, Hh. split_and!; [done|done|lia| |].
  - intros _. exists (br_draws b), (br_jar b). unfold next_nonce. by rewrite Hu.
  - do 2 right. exists (br_draws b), state. split_and!; [done|done| |].
    + unfold nth_state. unfold login_state, next_nonce, state_with in *. by rewrite <- Ho, <- Hu.
    + unfold login_url. by rewrite Ho.
Qed.

Lemma latest_kept_effect portal b0 b b' :
  URL_href (text_of VITE_OAUTH_PORTAL_URL ++ js "/app-auth") = Some portal →
  latest_kept portal b0 b → login_effect b b' → latest_kept portal b0 b'.
Proof.
  intros Hp Hk [Hs|path b1 Hr Hs ->|b1 b2 Hs Hb Hs2].
  - by eapply latest_kept_same.
  - eapply latest_kept_same in Hk as (Ho & Hu & Hd & Hj & _); [|exact Hs].
    unfold latest_kept. simpl. split_and!; eauto.
  - eapply latest_kept_same; [|exact Hs2]. eapply latest_kept_login; [done| |done].
    by eapply latest_kept_same.
Qed.

Lemma latest_kept_visit portal actions b0 b :
  URL_href (text_of VITE_OAUTH_PORTAL_URL ++ js "/app-auth") = Some portal →
  bytes (br_origin b0) → (∀ n, cookie_text (br_uuids b0 n) = true) →
  latest_kept portal b0 b → latest_kept portal b0 (visit actions b).
Proof.
  intros Hp Ho Hn. revert b. induction actions as [|a actions IH]; intros b Hk; [done|]. simpl.
  apply IH. eapply latest_kept_effect; [done..|]. apply perform_effect.
  destruct Hk as (Ho' & Hu & _).
  destruct (state_with_decodes b (next_nonce b)) as (state & Hs & _);
    [by rewrite Ho'|unfold next_nonce; by rewrite Hu|].
  by eapply startLogin_runs.
Qed.

Lemma latest_kept_refl portal b : latest_kept portal b b.
Proof. unfold latest_kept. split_and!; auto. lia. Qed.

(** C35. Whatever happens on a page, in whatever order (errors of queries and mutations, renders with
    their redirects, requests, sign-outs, logins of the user), exactly its latest login counts.
    The page has been sent nowhere, or to its own path, or to the portal with the state of its latest
    login; and when a request of this browser brings the state of one of its logins and a code to
    the callback, the callback completes the login if it is the latest one, and otherwise refuses
    it with 400 or 403 and does nothing else. *)
Theorem latest_login portal actions b :
  URL_href (text_of VITE_OAUTH_PORTAL_URL ++ js "/app-auth") = Some portal →
  bytes (br_origin b) → (∀ n, cookie_text (br_uuids b n) = true) →
  (∀ n m, br_uuids b n = br_uuids b m → n = m) →
  let b' := visit actions b in
  (br_href b' = br_href b ∨ (∃ path, redirectPath = Some path ∧ br_href b' = Some path)
   ∨ ∃ n state, br_draws b' = S n ∧ br_draws b ≤ n ∧ nth_state b n = Some state
       ∧ br_href b' = Some (login_url portal b state))
  ∧ ∀ n, br_draws b ≤ n < br_draws b' → ∃ state, nth_state b n = Some state ∧
      ∀ req code tr r, sent_by b' req → getQueryParam req (js "state") = Some state →
        getQueryParam req (js "code") = Some code → code ≠ [] →
        exec (oauth_callback req) tr r →
        if bool_decide (S n = br_draws b') then completes req code state tr r else refuses tr.
Proof.
  intros Hp Ho Hn Hinj b'.
  destruct (latest_kept_visit portal actions b b Hp Ho Hn (latest_kept_refl portal b))
    as (Ho' & Hu' & _ & Hj & Hh). fold b' in Ho', Hu', Hj, Hh. split; [done|].
  intros n [Hle Hlt]. destruct (state_with_decodes b _ Ho (Hn n)) as (state & Hs & Hd).
  exists state. split; [done|]. intros req code tr r Hr Hst Hc Hne He.
  destruct Hj as (m & jar & Hm & Hj); [lia|].
  pose proof (nonce_in_jar _ _ _ _ Hj (Hn m) Hr) as Hen. case_bool_decide as E.
  - assert (m = n) as -> by lia. by eapply callback_completes.
  - eapply callback_refuses; [done..| |done|done]. intros ?%Hinj. lia.
Qed.

(** ** Signing out *)

(** What a page keeps of a session: the user in its cache and the token in its session storage. *)
Definition forgotten (b : Browser) : Prop :=
  br_me b = None ∧ (∀ s, br_session b = Some s → s !! mirror_key = None).

Lemma forgotten_headers b : forgotten b → headers b = (Ok [], b).
Proof.
  intros [_ Hs]. unfold headers, page_catch, session_getItem, with_storage, mbind, page_bind.
  destruct (br_session b) as [s|] eqn:E; [|done]. simpl. by rewrite (Hs s eq_refl).
Qed.

Lemma forgotten_same b b' :
  br_me b' = br_me b → br_session b' = br_session b → forgotten b → forgotten b'.
Proof. unfold forgotten. by intros -> ->. Qed.

(** Neither the user, nor the session, nor the local storage differ. *)
Definition same_data (b b' : Browser) : Prop :=
  br_me b' = br_me b ∧ br_session b' = br_session b ∧ br_local b' = br_local b.

Lemma startLogin_data b : same_data b (startLogin b).2.
Proof.
  unfold startLogin, mbind, page_bind. simpl. destruct (encodeOAuthState _); [|done]. by destruct (URL_href _).
Qed.

Lemma cache_subscriber_data text event b : same_data b (cache_subscriber text event b).2.
Proof.
  unfold cache_subscriber, mbind, page_bind. destruct (error_event event); [|done].
  destruct (ev_error event) as [[message code|e]|]; simpl; try done.
  destruct (str_eqb message UNAUTHED_ERR_MSG); [|done].
  pose proof (startLogin_data b). by destruct (startLogin b) as [[[]|e] b'].
Qed.

Lemma redirect_effect_data redirect state b :
  same_data b (redirect_effect redirect redirectPath state b).2.
Proof. unfold redirect_effect. repeat (case_match; try done); apply startLogin_data. Qed.

(** A render changes of the data only what the local storage holds of the user. *)
Lemma render_data queries redirect b :
  let b' := (perform (pa_render queries redirect) b).2 in
  br_me b' = br_me b ∧ br_session b' = br_session b
  ∧ br_local b' = (<[user_info_key := user_info (aq_data queries)]>) <$> br_local b.
Proof.
  unfold perform, auth_state, mbind, page_bind, local_setItem.
  destruct (br_local b) as [s|] eqn:E; simpl; [|by rewrite E].
  match goal with |- context [redirect_effect redirect redirectPath ?st ?b1] =>
    destruct (redirect_effect_data redirect st b1) as (-> & -> & ->) end. done.
Qed.

Lemma sign_out_forgotten answer b : forgotten (sign_out answer b).2.
Proof.
  unfold sign_out, page_finally, page_catch, session_removeItem, with_storage, mbind, page_bind, forgotten.
  destruct answer as [[]|[message [[]|]|e]]; simpl; destruct (br_session b) eqn:Eb; simpl;
    (split; [done|]); intros s; rewrite ?Eb; intros [= <-]; by rewrite ?lookup_delete_eq.
Qed.

Lemma perform_forgotten a b : forgotten b → forgotten (perform a b).2.
Proof.
  intros Hf. destruct a as [event|event|queries redirect| |answer|];
    [| | | |by apply sign_out_forgotten|].
  - by apply (forgotten_same b); [apply cache_subscriber_data..|].
  - by apply (forgotten_same b); [apply cache_subscriber_data..|].
  - by apply (forgotten_same b); [apply render_data..|].
  - unfold perform, mbind, page_bind. by rewrite (forgotten_headers _ Hf).
  - by apply (forgotten_same b); [apply startLogin_data..|].
Qed.

(** A page that has signed out stays so, whatever the server answered and whatever happens on the
    page afterwards: no user is cached, its requests carry no token, and once a render knows that
    there is no user, the local storage holds none. *)
Theorem sign_out_lasts answer actions b :
  let b' := visit actions (sign_out answer b).2 in
  br_me b' = None ∧ headers b' = (Ok [], b')
  ∧ ∀ queries redirect s, aq_data queries = Some None → br_local b' = Some s →
      br_local (perform (pa_render queries redirect) b').2 = Some (<[user_info_key := stringify JNull]> s).
Proof.
  intros b'. assert (forgotten b') as Hf.
  { unfold b'. generalize (sign_out_forgotten answer b). generalize (sign_out answer b).2.
    induction actions as [|a actions IH]; intros b0 Hb0; [done|]. by apply IH, perform_forgotten. }
  split_and!; [apply Hf|by apply forgotten_headers|]. intros queries redirect s Hq Hs.
  rewrite (proj2 (proj2 (render_data queries redirect b'))), Hs, Hq. done.
Qed.

(** Where the browser denies the local storage, the render itself throws. *)
Lemma denied_render queries redirect b :
  br_local b = None → perform (pa_render queries redirect) b = (Err storage_denied, b).
Proof. intros Hb. unfold perform, auth_state, mbind, page_bind, local_setItem. by rewrite Hb. Qed.
End History.

(** Before the query of the user is answered, what is stored of the user is not JSON. *)
Lemma unanswered_info : JSON_parse (user_info None) = None ∧ JSON_parse (user_info (Some None)) = Some JNull.
Proof. by vm_compute. Qed.

(** ** Examples *)

#[local] Existing Instances example_env example_cookies example_document example_client.

Lemma example_uuids_text n : cookie_text (br_uuids example_page n) = true.
Proof.
  unfold cookie_text. apply andb_true_iff. split; [done|].
  change (br_uuids example_page n) with (js "nonce" ++ replicate n 120%N).
  rewrite forallb_app. apply andb_true_iff. split; [by vm_compute|]. by induction n.
Qed.

Lemma example_uuids_inj n m : br_uuids example_page n = br_uuids example_page m → n = m.
Proof. intros Hl%app_inv_head%(f_equal length). by rewrite !length_replicate in Hl. Qed.

(** A query is refused, which starts a login; the page renders, and the user starts another one. *)
Definition example_actions : list PageAction :=
  [pa_query {| ev_type := js "updated"; ev_action := Some (js "error");
               ev_error := Some (ce_trpc UNAUTHED_ERR_MSG (Some UNAUTHORIZED)) |};
   pa_render {| aq_data := Some None; aq_isLoading := false; aq_error := None; aq_isPending := false;
                aq_logoutError := None |} false; pa_login].

Lemma latest_login_witness :
  let b' := visit None example_actions example_page in
  ∃ first second, nth_state example_page 0 = Some first ∧ nth_state example_page 1 = Some second
    ∧ (let '(tr, _, _) := run platform (oauth_callback (returned b' first)) (example_platform ∅) in refuses tr)
    ∧ let '(tr, r, _) := run platform (oauth_callback (returned b' second)) (example_platform ∅) in
      completes (returned b' second) (js "c0de") second tr r.
Proof.
  destruct (latest_login None (js "https://portal.example/app-auth") example_actions example_page)
    as [_ Hn]; [vm_compute; reflexivity|apply bytes_lit; vm_compute; reflexivity
      |exact example_uuids_text|exact example_uuids_inj|].
  assert (br_draws (visit None example_actions example_page) = 2) as E2 by (vm_compute; reflexivity).
  intros b'. fold b' in Hn, E2.
  destruct (Hn 0) as (first & H1 & R1); [rewrite E2; change (br_draws example_page) with 0; lia|].
  destruct (Hn 1) as (second & H2 & R2); [rewrite E2; change (br_draws example_page) with 0; lia|].
  exists first, second. split; [exact H1|]. split; [exact H2|]. rewrite E2 in R1, R2. split.
  - pose proof (run_exec platform (oauth_callback (returned b' first)) (example_platform ∅)) as He.
    destruct (run platform _ _) as [[tr r] p'].
    exact (R1 (returned b' first) (js "c0de") tr r eq_refl eq_refl eq_refl ltac:(discriminate) He).
  - pose proof (run_exec platform (oauth_callback (returned b' second)) (example_platform ∅)) as He.
    destruct (run platform _ _) as [[tr r] p'].
    exact (R2 (returned b' second) (js "c0de") tr r eq_refl eq_refl eq_refl ltac:(discriminate) He).
Defined.
