(* ===== verification/Composition.v ===== *)
(** Input methods ([client/src/hooks/useComposition.ts]): the handlers of a text field share a
    flag and two timers, and the browser interleaves them with the timers' callbacks. *)
From S2P Require Import Prelude JsString.

(** ** State *)

(** The two callbacks that the hook hands to [setTimeout]. *)
Inductive Callback := cb_outer | cb_inner.

(** [c.current], [timer.current] and [timer2.current], with the timers that are still to fire and
    the next identifier the browser gives out. *)
Record Composition := {
  co_c : bool; co_timer : option positive; co_timer2 : option positive;
  co_pending : list (positive * Callback); co_next : positive }.

Definition composition_init : Composition := {|
  co_c := false; co_timer := None; co_timer2 := None; co_pending := []; co_next := 1 |}.

(** [clearTimeout]: a timer that has fired, or none, is no error. *)
Definition clearTimeout (id : option positive) (l : list (positive * Callback)) : list (positive * Callback) :=
  match id with
  | Some i => js_filter (λ t, negb (bool_decide (t.1 = i))) l
  | None => l
  end.

(** ** Handlers *)

Definition onCompositionStart (s : Composition) : Composition := {|
  co_c := true; co_timer := None; co_timer2 := None;
  co_pending := clearTimeout (co_timer2 s) (clearTimeout (co_timer s) (co_pending s));
  co_next := co_next s |}.

Definition onCompositionEnd (s : Composition) : Composition := {|
  co_c := co_c s; co_timer := Some (co_next s); co_timer2 := co_timer2 s;
  co_pending := co_pending s ++ [(co_next s, cb_outer)]; co_next := Pos.succ (co_next s) |}.

(** A timer fires: it is no longer pending, and its callback runs. *)
Definition fire (id : positive) (cb : Callback) (s : Composition) : Composition :=
  let rest := clearTimeout (Some id) (co_pending s) in
  match cb with
  | cb_outer => {| co_c := co_c s; co_timer := co_timer s; co_timer2 := Some (co_next s);
                   co_pending := rest ++ [(co_next s, cb_inner)]; co_next := Pos.succ (co_next s) |}
  | cb_inner => {| co_c := false; co_timer := co_timer s; co_timer2 := co_timer2 s;
                   co_pending := rest; co_next := co_next s |}
  end.

Record KeyboardEvent := { ke_key : jsstr; ke_shiftKey : bool }.

(** [onKeyDown]: whether the event goes on to the field's own handler; otherwise it is stopped. *)
Definition onKeyDown (e : KeyboardEvent) (s : Composition) : bool :=
  negb (co_c s && (str_eqb (ke_key e) (js "Escape")
                   || (str_eqb (ke_key e) (js "Enter") && negb (ke_shiftKey e)))).

Definition isComposing (s : Composition) : bool := co_c s.

(** ** Interleavings *)

(** What the browser does to the field, while the user is composing or not: a composition begins
    and ends in turn, and a pending timer fires at any time. *)
Inductive composition_step : bool * Composition → bool * Composition → Prop :=
| step_start s : composition_step (false, s) (true, onCompositionStart s)
| step_end s : composition_step (true, s) (false, onCompositionEnd s)
| step_fire u id cb s :
    (id, cb) ∈ co_pending s → composition_step (u, s) (u, fire id cb s).

(** While the user composes, the flag is set and no timer is left that could reset it; otherwise
    at most one timer is left, it is the one the hook remembers, and the flag is set exactly while
    there is one. *)
Definition composition_inv (x : bool * Composition) : Prop :=
  let '(composing, s) := x in
  if composing then co_c s = true ∧ co_pending s = []
  else (co_c s = false ∧ co_pending s = [])
    ∨ (co_c s = true ∧ ∃ id, (co_timer s = Some id ∧ co_pending s = [(id, cb_outer)])
                            ∨ (co_timer2 s = Some id ∧ co_pending s = [(id, cb_inner)])).

Lemma clear_only id cb : clearTimeout (Some id) [(id, cb)] = [].
Proof. simpl. by rewrite bool_decide_true. Qed.

Lemma clear_nil id : clearTimeout id [] = [].
Proof. by destruct id. Qed.

Lemma composition_step_inv x y : composition_step x y → composition_inv x → composition_inv y.
Proof.
  destruct 1 as [s|s|u id cb s Hin]; simpl.
  - intros [[_ ->]|(_ & id & [[-> ->]|[-> ->]])]; (split; [done|]).
    + by rewrite !clear_nil.
    + by rewrite clear_only, clear_nil.
    + destruct (co_timer s) as [t|]; [|by apply clear_only]. simpl.
      destruct (bool_decide (id = t)); simpl; [done|]. by rewrite bool_decide_true.
  - intros [-> ->]. right. split; [done|]. eauto.
  - destruct u; simpl.
    + intros [_ Hp]. rewrite Hp in Hin. by apply elem_of_nil in Hin.
    + intros [[_ Hp]|(Hc & i & [[Ht Hp]|[Ht Hp]])]; rewrite Hp in Hin; [by apply elem_of_nil in Hin| |];
        apply list_elem_of_singleton in Hin; injection Hin as -> ->; unfold fire; rewrite Hp, clear_only; simpl.
      * right. split; [done|]. eauto.
      * by left.
Qed.

Definition composition_reachable (x : bool * Composition) : Prop :=
  rtc composition_step (false, composition_init) x.

Lemma composition_reachable_inv x : composition_reachable x → composition_inv x.
Proof.
  intros Hr. assert (composition_inv (false, composition_init)) as Hi by by left.
  revert Hi. induction Hr as [x|x y z Hs _ IH]; [done|]. eauto using composition_step_inv.
Qed.

(** The timers that a composition leaves behind fire at most this many times. *)
Definition timers_left (s : Composition) : nat :=
  list_sum ((λ t, match t.2 with cb_outer => 2 | cb_inner => 1 end) <$> co_pending s).

(** Enter and Escape belong to the input method while the user composes, whatever the order in
    which compositions and timers follow each other: in every reachable state the two keys (Enter
    without shift) reach the field's handler exactly when the user is not composing and no timer
    of the last composition is left; other keys always do; and each timer that fires brings the
    field closer to that, so that the keys are released after at most two. *)
Theorem composition_safe composing s e :
  composition_reachable (composing, s) →
  (onKeyDown e s = true ↔
     composing = false ∧ co_pending s = []
     ∨ (ke_key e ≠ js "Escape" ∧ (ke_key e ≠ js "Enter" ∨ ke_shiftKey e = true)))
  ∧ timers_left s ≤ 2
  ∧ ∀ id cb, (id, cb) ∈ co_pending s → timers_left (fire id cb s) < timers_left s.
Proof.
  intros Hi%composition_reachable_inv. assert (isComposing s = negb (negb composing && bool_decide (co_pending s = []))) as Hc.
  { unfold isComposing. destruct composing; simpl in *; [by destruct Hi as [-> _]|].
    by destruct Hi as [[-> ->]|(-> & id & [[_ ->]|[_ ->]])]. }
  split_and!.
  - unfold onKeyDown, isComposing in *. rewrite Hc.
    destruct (str_eqb (ke_key e) (js "Escape")) eqn:E1, (str_eqb (ke_key e) (js "Enter")) eqn:E2;
      autorewrite with nodescope in E1, E2; destruct (ke_shiftKey e), composing; simpl;
      try case_bool_decide; simpl; naive_solver.
  - unfold timers_left. destruct composing; simpl in *; [by destruct Hi as [_ ->]; simpl; lia|].
    destruct Hi as [[_ ->]|(_ & id & [[_ ->]|[_ ->]])]; simpl; lia.
  - intros id cb Hin. destruct composing; simpl in *; [destruct Hi as [_ Hp]; rewrite Hp in Hin; set_solver|].
    destruct Hi as [[_ Hp]|(_ & i & [[_ Hp]|[_ Hp]])]; rewrite Hp in Hin; [set_solver| |];
      apply list_elem_of_singleton in Hin; injection Hin as -> ->; unfold timers_left, fire;
      rewrite Hp, clear_only; simpl; lia.
Qed.

(** A key that ends a composition arrives after the end of it (Safari): it is still stopped. *)
Lemma composition_safe_witness :
  let s := onCompositionEnd (onCompositionStart composition_init) in
  onKeyDown {| ke_key := js "Enter"; ke_shiftKey := false |} s = false
  ∧ timers_left s ≤ 2.
Proof.
  assert (composition_reachable (false, onCompositionEnd (onCompositionStart composition_init))) as Hr.
  { apply (rtc_l _ _ (true, onCompositionStart composition_init)); [constructor|].
    apply rtc_once. constructor. }
  destruct (composition_safe _ _ {| ke_key := js "Enter"; ke_shiftKey := false |} Hr) as (Hk & Ht & _).
  split; [|exact Ht]. destruct (onKeyDown _ _); [|reflexivity].
  destruct (proj1 Hk eq_refl) as [[_ Hp]|[_ [He|He]]]; [discriminate Hp|by destruct He|discriminate He].
Defined.
