(* ===== verification/Fields.v ===== *)
(** Text fields and dialogs ([client/src/components/ui/input.tsx], [textarea.tsx], [dialog.tsx]):
    the fields of a dialog share its composition flags, so that neither the Enter that confirms a
    composition reaches a field's handler nor the Escape that cancels one closes the dialog. *)
From S2P Require Import Prelude JsString Composition.

(** ** The composition context of a dialog *)

(** The callbacks with a delay: [setComposing(false)] of a field and the one of
    [markCompositionEnd]. *)
Inductive DelayedCallback := dc_release | dc_forget.

#[export] Instance DelayedCallback_eq_dec : EqDecision DelayedCallback.
Proof. solve_decision. Defined.

(** A pending timer, with the time from which it may fire. *)
Record Timer := { ti_id : positive; ti_callback : DelayedCallback; ti_due : Z }.

(** [composingRef], [justEndedRef] and [endTimerRef], with the pending timers of the dialog and
    its fields and the next identifier the browser gives out. *)
Record Dialog := {
  dg_composing : bool; dg_justEnded : bool; dg_endTimer : option positive;
  dg_pending : list Timer; dg_next : positive }.

Definition dialog_init : Dialog := {|
  dg_composing := false; dg_justEnded := false; dg_endTimer := None; dg_pending := []; dg_next := 1 |}.

Definition setComposing (composing : bool) (d : Dialog) : Dialog := {|
  dg_composing := composing; dg_justEnded := dg_justEnded d; dg_endTimer := dg_endTimer d;
  dg_pending := dg_pending d; dg_next := dg_next d |}.

Definition clear_timer (id : option positive) (l : list Timer) : list Timer :=
  match id with
  | Some i => js_filter (λ t, negb (bool_decide (ti_id t = i))) l
  | None => l
  end.

Definition markCompositionEnd (now : Z) (d : Dialog) : Dialog := {|
  dg_composing := dg_composing d; dg_justEnded := true; dg_endTimer := Some (dg_next d);
  dg_pending := clear_timer (dg_endTimer d) (dg_pending d)
                ++ [{| ti_id := dg_next d; ti_callback := dc_forget; ti_due := now + 150 |}];
  dg_next := Pos.succ (dg_next d) |}.

(** A timer fires when the others are [rest]. *)
Definition run_timer (t : Timer) (rest : list Timer) (d : Dialog) : Dialog := {|
  dg_composing := match ti_callback t with dc_release => false | dc_forget => dg_composing d end;
  dg_justEnded := match ti_callback t with dc_release => dg_justEnded d | dc_forget => false end;
  dg_endTimer := dg_endTimer d; dg_pending := rest; dg_next := dg_next d |}.

(** The context a component sees: that of its dialog, or the one without effect. *)
Definition ctx_isComposing (d : option Dialog) : bool :=
  match d with Some d => dg_composing d | None => false end.
Definition ctx_justEndedComposing (d : option Dialog) : bool :=
  match d with Some d => dg_justEnded d | None => false end.

(** [handleEscapeKeyDown] of the dialog: whether the dialog stays open; [native] is the flag of
    the event itself. *)
Definition escape_prevented (native : bool) (d : option Dialog) : bool := native || ctx_isComposing d.

(** ** Fields *)

(** The composition handlers that both kinds of field hand to the hook. *)
Definition field_compositionStart (d : Dialog) : Dialog := setComposing true d.

Definition field_compositionEnd (now : Z) (d : Dialog) : Dialog :=
  let d := markCompositionEnd now d in
  {| dg_composing := dg_composing d; dg_justEnded := dg_justEnded d; dg_endTimer := dg_endTimer d;
     dg_pending := dg_pending d ++ [{| ti_id := dg_next d; ti_callback := dc_release; ti_due := now + 100 |}];
     dg_next := Pos.succ (dg_next d) |}.

(** Whether a key that is pressed in an [Input] reaches the handler of the page: it passes the
    hook and then the field's own check. *)
Definition input_keydown (native : bool) (e : KeyboardEvent) (hook : Composition) (d : option Dialog) : bool :=
  onKeyDown e hook
  && negb (str_eqb (ke_key e) (js "Enter") && (native || ctx_justEndedComposing d)).

(** The same for a [Textarea], where Enter with shift is a new line. *)
Definition textarea_keydown (native : bool) (e : KeyboardEvent) (hook : Composition) (d : option Dialog) : bool :=
  onKeyDown e hook
  && negb (str_eqb (ke_key e) (js "Enter") && negb (ke_shiftKey e) && (native || ctx_justEndedComposing d)).

(** ** A dialog in use *)

(** A dialog with its fields, at a time. *)
Record Form := { fm_now : Z; fm_dialog : Dialog; fm_fields : list Composition }.

(** What the user did: the field that a composition is under way in, when the last one ended, and
    whether the last one began while the release timer of an earlier one was still pending. *)
Record Typist := { ty_composing : option nat; ty_lastEnd : option Z; ty_overlap : bool }.

Definition is_release (t : Timer) : bool := bool_decide (ti_callback t = dc_release).

Inductive form_step : Typist * Form → Typist * Form → Prop :=
| fs_start u s i hook :
    ty_composing u = None → fm_fields s !! i = Some hook →
    form_step (u, s)
      ({| ty_composing := Some i; ty_lastEnd := ty_lastEnd u;
          ty_overlap := existsb is_release (dg_pending (fm_dialog s)) |},
       {| fm_now := fm_now s; fm_dialog := field_compositionStart (fm_dialog s);
          fm_fields := <[i := onCompositionStart hook]> (fm_fields s) |})
| fs_end u s i hook :
    ty_composing u = Some i → fm_fields s !! i = Some hook →
    form_step (u, s)
      ({| ty_composing := None; ty_lastEnd := Some (fm_now s); ty_overlap := ty_overlap u |},
       {| fm_now := fm_now s; fm_dialog := field_compositionEnd (fm_now s) (fm_dialog s);
          fm_fields := <[i := onCompositionEnd hook]> (fm_fields s) |})
| fs_hook_timer u s i hook id cb :
    fm_fields s !! i = Some hook → (id, cb) ∈ co_pending hook →
    form_step (u, s)
      (u, {| fm_now := fm_now s; fm_dialog := fm_dialog s;
             fm_fields := <[i := fire id cb hook]> (fm_fields s) |})
| fs_timer u s t l1 l2 :
    dg_pending (fm_dialog s) = l1 ++ t :: l2 → (ti_due t ≤ fm_now s)%Z →
    form_step (u, s)
      (u, {| fm_now := fm_now s; fm_dialog := run_timer t (l1 ++ l2) (fm_dialog s);
             fm_fields := fm_fields s |})
| fs_time u s d :
    (0 ≤ d)%Z →
    form_step (u, s)
      (u, {| fm_now := fm_now s + d; fm_dialog := fm_dialog s; fm_fields := fm_fields s |}).

Definition form_init (fields : nat) (now : Z) : Typist * Form :=
  ({| ty_composing := None; ty_lastEnd := None; ty_overlap := false |},
   {| fm_now := now; fm_dialog := dialog_init; fm_fields := replicate fields composition_init |}).

Definition form_reachable (x : Typist * Form) : Prop :=
  ∃ fields now, rtc form_step (form_init fields now) x.

(** ** Invariants *)

(** The hook of each field knows whether the user composes in it. *)
Definition hooks_inv (x : Typist * Form) : Prop :=
  ∀ i hook, fm_fields x.2 !! i = Some hook →
    composition_inv (bool_decide (ty_composing x.1 = Some i), hook).

(** The one timer that forgets the end of a composition belongs to the last end, and is the one
    the dialog remembers; the timers that release the dialog are due by then. *)
Definition timer_inv (u : Typist) (d : Dialog) (t : Timer) : Prop :=
  (ti_id t < dg_next d)%positive
  ∧ ∃ e, ty_lastEnd u = Some e
    ∧ match ti_callback t with
      | dc_forget => dg_endTimer d = Some (ti_id t) ∧ ti_due t = (e + 150)%Z
      | dc_release => dg_endTimer d ≠ Some (ti_id t) ∧ (ti_due t ≤ e + 100)%Z
      end.

Definition timers_inv (x : Typist * Form) : Prop :=
  (∀ t, t ∈ dg_pending (fm_dialog x.2) → timer_inv x.1 (fm_dialog x.2) t)
  ∧ (∀ i, dg_endTimer (fm_dialog x.2) = Some i → (i < dg_next (fm_dialog x.2))%positive)
  ∧ (∀ e, ty_lastEnd x.1 = Some e → (e ≤ fm_now x.2)%Z).

(** The flags are set for long enough, and not for longer than their timers are pending. *)
Definition flags_inv (x : Typist * Form) : Prop :=
  let d := fm_dialog x.2 in
  (dg_justEnded d = false → ∀ e, ty_lastEnd x.1 = Some e → (e + 150 ≤ fm_now x.2)%Z)
  ∧ (dg_justEnded d = true → ∃ t, t ∈ dg_pending d ∧ ti_callback t = dc_forget)
  ∧ (dg_composing d = true → ty_composing x.1 ≠ None ∨ ∃ t, t ∈ dg_pending d ∧ ti_callback t = dc_release).

(** Compositions that do not overlap with the release of an earlier one keep the dialog open. *)
Definition open_inv (x : Typist * Form) : Prop :=
  let d := fm_dialog x.2 in
  ty_overlap x.1 = false →
  match ty_composing x.1 with
  | Some _ => dg_composing d = true ∧ ∀ t, t ∈ dg_pending d → ti_callback t = dc_forget
  | None => ∀ e, ty_lastEnd x.1 = Some e →
      (∀ t, t ∈ dg_pending d → ti_callback t = dc_release → ti_due t = (e + 100)%Z)
      ∧ (dg_composing d = true ∨ (e + 100 ≤ fm_now x.2)%Z)
  end.

Lemma elem_of_clear_timer t id l :
  t ∈ clear_timer id l ↔ t ∈ l ∧ id ≠ Some (ti_id t).
Proof.
  destruct id as [i|]; simpl; [|naive_solver].
  rewrite elem_of_js_filter, negb_true_iff, bool_decide_eq_false. naive_solver.
Qed.

(** What is pending after a composition ended. *)
Lemma elem_of_ended t now d :
  t ∈ dg_pending (field_compositionEnd now d) ↔
  (t ∈ dg_pending d ∧ dg_endTimer d ≠ Some (ti_id t))
  ∨ t = {| ti_id := dg_next d; ti_callback := dc_forget; ti_due := now + 150 |}
  ∨ t = {| ti_id := Pos.succ (dg_next d); ti_callback := dc_release; ti_due := now + 100 |}.
Proof.
  simpl. rewrite !elem_of_app, !list_elem_of_singleton, elem_of_clear_timer. tauto.
Qed.

Lemma elem_of_rest {A} (t t' : A) l1 l2 : t' ∈ l1 ++ l2 → t' ∈ l1 ++ t :: l2.
Proof. rewrite !elem_of_app, elem_of_cons. tauto. Qed.

Lemma elem_of_fired {A} (t t' : A) l1 l2 : t' ∈ l1 ++ t :: l2 → t' = t ∨ t' ∈ l1 ++ l2.
Proof. rewrite !elem_of_app, elem_of_cons. tauto. Qed.

Lemma form_step_hooks x y : form_step x y → hooks_inv x → hooks_inv y.
Proof.
  unfold hooks_inv. destruct 1 as [u s i h Hc Hf|u s i h Hc Hf|u s i h id cb Hf Hin|u s t l1 l2|u s d];
    cbn [fst snd fm_fields ty_composing] in *; intros Hi j hook; try exact (Hi j hook).
  - intros [(-> & <- & _)|[Hne Hj]]%list_lookup_insert_Some.
    + specialize (Hi _ _ Hf). rewrite bool_decide_true by done.
      rewrite Hc, bool_decide_false in Hi by done.
      exact (composition_step_inv _ _ (step_start h) Hi).
    + specialize (Hi _ _ Hj). rewrite Hc in Hi. rewrite bool_decide_false in Hi |- * by congruence. done.
  - intros [(-> & <- & _)|[Hne Hj]]%list_lookup_insert_Some.
    + specialize (Hi _ _ Hf). rewrite Hc, bool_decide_true in Hi by done.
      exact (composition_step_inv _ _ (step_end h) Hi).
    + specialize (Hi _ _ Hj). rewrite Hc in Hi. rewrite bool_decide_false in Hi |- * by congruence. done.
  - intros [(-> & <- & _)|[Hne Hj]]%list_lookup_insert_Some; [|by apply Hi].
    exact (composition_step_inv _ _ (step_fire _ id cb h Hin) (Hi _ _ Hf)).
Qed.

Lemma timer_inv_ended u u' now d t :
  (∀ e, ty_lastEnd u = Some e → (e ≤ now)%Z) →
  (∀ t, t ∈ dg_pending d → timer_inv u d t) → ty_lastEnd u' = Some now →
  t ∈ dg_pending (field_compositionEnd now d) → timer_inv u' (field_compositionEnd now d) t.
Proof.
  intros Hle Ht Hi [[Hin Hne]|[->| ->]]%elem_of_ended; unfold timer_inv; simpl.
  - destruct (Ht _ Hin) as (Hlt & e & He & Hd). split; [lia|]. exists now. split; [done|].
    specialize (Hle _ He). destruct (ti_callback t); [|by destruct Hd].
    split; [|lia]. intros [= Heq]. lia.
  - split; [lia|]. exists now. auto.
  - split; [lia|]. exists now. split; [done|]. split; [|lia]. intros [= Heq]. lia.
Qed.

Lemma form_step_timers x y : form_step x y → timers_inv x → timers_inv y.
Proof.
  unfold timers_inv.
  destruct 1 as [u s i h Hc Hf|u s i h Hc Hf|u s i h id cb Hf Hin|u s t l1 l2 Hp Hd|u s d Hd];
    cbn [fst snd fm_dialog fm_now fm_fields] in *; intros (Ht & Hi & Hn).
  - split; [exact Ht|]. done.
  - split; [intros t; by apply (timer_inv_ended u)|]. simpl.
    split; [intros j [= <-]; lia|]. intros e [= <-]. lia.
  - done.
  - split; [|by split]. intros t' Hin. apply Ht. rewrite Hp. by apply elem_of_rest.
  - split; [done|]. split; [done|]. intros e He. specialize (Hn e He). lia.
Qed.

(** A timer that is due has done its work; the others are still to do theirs. *)
Lemma flags_fired u s t l1 l2 :
  dg_pending (fm_dialog s) = l1 ++ t :: l2 → (ti_due t ≤ fm_now s)%Z →
  timer_inv u (fm_dialog s) t →
  (∀ t', t' ∈ l1 ++ l2 → timer_inv u (fm_dialog s) t') →
  flags_inv (u, s) → flags_inv (u, {| fm_now := fm_now s; fm_dialog := run_timer t (l1 ++ l2) (fm_dialog s);
                                       fm_fields := fm_fields s |}).
Proof.
  unfold flags_inv. cbn [fst snd fm_dialog fm_now]. intros Hp Hdue (_ & e & He & Ht) Hrest (Hj & Hk & Hc).
  destruct t as [id cb due]; simpl in *. destruct cb; simpl in *.
  - split_and!; [done| |done]. intros (t' & Hin & Hcb)%Hk. exists t'.
    rewrite Hp in Hin. apply elem_of_fired in Hin as [->|Hin]; [discriminate|done].
  - split_and!; [|done|].
    + intros _ e' He'. rewrite He in He'. injection He' as <-. lia.
    + intros [?|(t' & Hin & Hcb)]%Hc; [by left|right]. exists t'.
      rewrite Hp in Hin. apply elem_of_fired in Hin as [->|Hin]; [discriminate|done].
Qed.

Lemma form_step_flags x y : form_step x y → timers_inv x → flags_inv x → flags_inv y.
Proof.
  intros Hs (Ht & _ & Hn).
  destruct Hs as [u s i h Hc Hf|u s i h Hc Hf|u s i h id cb Hf Hin|u s t l1 l2 Hp Hd|u s d Hd];
    cbn [fst snd fm_dialog fm_now fm_fields] in *.
  - intros (Hj & Hk & _). split_and!; [exact Hj|exact Hk|]. by left.
  - intros _. split_and!; [done| |]; cbn [fst snd fm_dialog fm_now].
    + intros _. eexists. split; [apply elem_of_ended; right; by left|done].
    + intros _. right. eexists. split; [apply elem_of_ended; right; by right|done].
  - done.
  - apply flags_fired; try done.
    + apply Ht. rewrite Hp. set_solver.
    + intros t' Hin. apply Ht. rewrite Hp. by apply elem_of_rest.
  - intros (Hj & Hk & Hc). split_and!; [|exact Hk|exact Hc]. cbn [fst snd fm_dialog fm_now].
    intros E e He. specialize (Hj E e He). cbn [fst snd] in Hj. lia.
Qed.

Lemma existsb_release_false l :
  existsb is_release l = false → ∀ t, t ∈ l → ti_callback t = dc_forget.
Proof.
  intros Hl t Hin. destruct (ti_callback t) eqn:Et; [|done]. exfalso.
  rewrite <- not_true_iff_false, existsb_exists in Hl. apply Hl. exists t.
  split; [by apply list_elem_of_In|]. unfold is_release. by apply bool_decide_true.
Qed.

Lemma form_step_open x y : form_step x y → timers_inv x → open_inv x → open_inv y.
Proof.
  intros Hs (Ht & _ & Hn). unfold open_inv.
  destruct Hs as [u s i h Hc Hf|u s i h Hc Hf|u s i h id cb Hf Hin|u s t l1 l2 Hp Hd|u s d Hd];
    cbn [fst snd fm_dialog fm_now fm_fields ty_overlap ty_composing ty_lastEnd] in *; intros Ho Hov.
  - split; [done|]. by apply existsb_release_false.
  - rewrite Hc in Ho. destruct (Ho Hov) as [Hcomp Hno]. intros e [= <-].
    split; [|left; done]. intros t [[Hin _]|[->| ->]]%elem_of_ended Hr; [|done|done].
    rewrite (Hno t Hin) in Hr. discriminate.
  - by apply Ho.
  - specialize (Ho Hov). destruct (ty_composing u) as [i|].
    + destruct Ho as [Hcomp Hno]. simpl. assert (ti_callback t = dc_forget) as ->
        by (apply Hno; rewrite Hp; set_solver).
      split; [done|]. intros t' Hin. apply Hno. rewrite Hp. by apply elem_of_rest.
    + intros e He. destruct (Ho e He) as [Hr Hc]. simpl. split.
      * intros t' Hin. apply Hr. rewrite Hp. by apply elem_of_rest.
      * destruct (ti_callback t) eqn:Et; [right|done].
        rewrite <- (Hr t); [lia| |done]. rewrite Hp. set_solver.
  - specialize (Ho Hov). destruct (ty_composing u); [done|]. intros e He.
    destruct (Ho e He) as [Hr [Hc|Hc]]; split; auto. right. lia.
Qed.

Lemma form_reachable_inv x :
  form_reachable x → hooks_inv x ∧ timers_inv x ∧ flags_inv x ∧ open_inv x.
Proof.
  intros (n & now & Hr).
  assert (hooks_inv (form_init n now) ∧ timers_inv (form_init n now)
          ∧ flags_inv (form_init n now) ∧ open_inv (form_init n now)) as Hi.
  { split_and!.
    - intros i hook [-> _]%lookup_replicate. rewrite bool_decide_false by done. by left.
    - by split_and!; [intros t Hin; apply elem_of_nil in Hin| |].
    - by split_and!.
    - by intros _ e [=]. }
  revert Hi. induction Hr as [x|x y z Hs _ IH]; [done|]. intros (H1 & H2 & H3 & H4). apply IH.
  split_and!; [by eapply form_step_hooks|by eapply form_step_timers|by eapply form_step_flags|by eapply form_step_open].
Qed.

(** ** What fields and dialogs guarantee *)

Definition enter (shift : bool) : KeyboardEvent := {| ke_key := js "Enter"; ke_shiftKey := shift |}.
Definition escape : KeyboardEvent := {| ke_key := js "Escape"; ke_shiftKey := false |}.

Lemma composing_key u s i hook e :
  hooks_inv (u, s) → fm_fields s !! i = Some hook → ty_composing u = Some i →
  e = enter false ∨ e = escape → onKeyDown e hook = false.
Proof.
  intros Hi Hf Hc He. specialize (Hi i hook Hf). cbn [fst] in Hi.
  rewrite bool_decide_true in Hi by done. destruct Hi as [Hi _].
  unfold onKeyDown. rewrite Hi. by destruct He as [->| ->]; vm_compute.
Qed.

Lemma quiet_key u s i hook e :
  hooks_inv (u, s) → fm_fields s !! i = Some hook → ty_composing u ≠ Some i → co_pending hook = [] →
  onKeyDown e hook = true.
Proof.
  intros Hi Hf Hc Hp. specialize (Hi i hook Hf). cbn [fst] in Hi.
  rewrite bool_decide_false in Hi by done. unfold onKeyDown.
  destruct Hi as [[-> _]|(_ & id & [[_ Hp']|[_ Hp']])]; [done| |]; by rewrite Hp in Hp'.
Qed.


(** ** Two runs *)

Definition typing (composing : option nat) (lastEnd : option Z) (overlap : bool) : Typist :=
  {| ty_composing := composing; ty_lastEnd := lastEnd; ty_overlap := overlap |}.

(** The form after one composition in its only field, and later. *)
Definition composed_once : Form :=
  let d := field_compositionEnd 0 (field_compositionStart dialog_init) in
  {| fm_now := 0; fm_dialog := d; fm_fields := [onCompositionEnd (onCompositionStart composition_init)] |}.

Definition at_time (now : Z) (s : Form) : Form :=
  {| fm_now := now; fm_dialog := fm_dialog s; fm_fields := fm_fields s |}.

Lemma composed_once_reachable now :
  (0 ≤ now)%Z → rtc form_step (form_init 1 0) (typing None (Some 0%Z) false, at_time now composed_once).
Proof.
  intros Hn. eapply rtc_l; [by apply (fs_start _ _ 0 composition_init)|].
  eapply rtc_l; [by eapply (fs_end _ _ 0)|].
  apply rtc_once. exact (fs_time (typing None (Some 0%Z) false) composed_once now Hn).
Qed.


(** The release timer of one composition is not cleared when the next begins: it then lets an
    Escape without the flag close the dialog in the middle of that composition. *)
Lemma overlapping_compositions :
  ∃ u s, form_reachable (u, s) ∧ ty_composing u = Some 0 ∧ ty_overlap u = true
    ∧ escape_prevented false (Some (fm_dialog s)) = false.
Proof.
  eexists _, _. split.
  { exists 1, 0%Z. etrans; [by apply (composed_once_reachable 50)|].
    eapply rtc_l; [by eapply (fs_start _ _ 0)|]. eapply rtc_l; [by apply (fs_time _ _ 50)|].
    apply rtc_once. eapply (fs_timer _ _ _ [_] []); [reflexivity|]. done. }
  by split_and!.
Qed.
