(* ===== verification/Chat.v ===== *)
(** The chat box ([client/src/components/AIChatBox.tsx]): what it shows of a conversation, and what
    it sends when keys, compositions, timers and clicks interleave. Its field is a [Textarea]
    outside a dialog. *)
From S2P Require Import Prelude JsString Composition Fields.

(** ** Properties and state *)

Inductive ChatRole := cr_system | cr_user | cr_assistant.

#[export] Instance ChatRole_eq_dec : EqDecision ChatRole.
Proof. solve_decision. Defined.

Record ChatMessage := { cm_role : ChatRole; cm_content : jsstr }.

Record ChatProps := {
  cp_messages : list ChatMessage; cp_isLoading : bool; cp_emptyStateMessage : jsstr;
  cp_suggestedPrompts : option (list jsstr) }.

(** [input], [minHeightForLastMessage] and the hook of the field. *)
Record ChatBox := { cb_input : jsstr; cb_minHeight : Z; cb_hook : Composition }.

Definition chat_init : ChatBox := {| cb_input := []; cb_minHeight := 0; cb_hook := composition_init |}.

Definition set_input (text : jsstr) (s : ChatBox) : ChatBox := {|
  cb_input := text; cb_minHeight := cb_minHeight s; cb_hook := cb_hook s |}.
Definition set_hook (hook : Composition) (s : ChatBox) : ChatBox := {|
  cb_input := cb_input s; cb_minHeight := cb_minHeight s; cb_hook := hook |}.

(** The effect after the first render; the heights are those of the container and of the form. *)
Definition measured (containerHeight inputHeight : Z) (s : ChatBox) : ChatBox := {|
  cb_input := cb_input s; cb_minHeight := Z.max 0 (containerHeight - inputHeight - 32 - 56);
  cb_hook := cb_hook s |}.

(** ** What it shows *)

Definition displayMessages (p : ChatProps) : list ChatMessage :=
  js_filter (λ msg, negb (bool_decide (cm_role msg = cr_system))) (cp_messages p).

(** A message with the height it is given at least. *)
Record Bubble := { bu_role : ChatRole; bu_content : jsstr; bu_minHeight : option Z }.

Inductive ChatArea :=
| chat_empty (message : jsstr) (prompts : list jsstr)
| chat_list (bubbles : list Bubble) (loading : option (option Z)).

Definition bubble (p : ChatProps) (s : ChatBox) (index : nat) (message : ChatMessage) : Bubble :=
  let isLastMessage := index =? length (displayMessages p) - 1 in
  {| bu_role := cm_role message; bu_content := cm_content message;
     bu_minHeight := if isLastMessage && negb (cp_isLoading p) && (0 <? cb_minHeight s)%Z
                     then Some (cb_minHeight s) else None |}.

Definition chat_area (p : ChatProps) (s : ChatBox) : ChatArea :=
  match displayMessages p with
  | [] => chat_empty (cp_emptyStateMessage p) (default [] (cp_suggestedPrompts p))
  | messages =>
      chat_list (imap (bubble p s) messages)
        (if cp_isLoading p
         then Some (if (0 <? cb_minHeight s)%Z then Some (cb_minHeight s) else None) else None)
  end.

(** The prompts that are shown, and whether the button that sends is enabled. *)
Definition shown_prompts (p : ChatProps) (s : ChatBox) : list jsstr :=
  match chat_area p s with chat_empty _ prompts => prompts | chat_list _ _ => [] end.

Definition send_enabled (p : ChatProps) (s : ChatBox) : bool :=
  negb (negb (truthy (trim (cb_input s))) || cp_isLoading p).

(** ** What it sends *)

(** [handleSubmit]: the message that is sent, if any. *)
Definition handleSubmit (p : ChatProps) (s : ChatBox) : option jsstr * ChatBox :=
  let trimmedInput := trim (cb_input s) in
  if negb (truthy trimmedInput) || cp_isLoading p then (None, s)
  else (Some trimmedInput, set_input [] s).

(** [handleKeyDown] of the box. *)
Definition handleKeyDown (p : ChatProps) (e : KeyboardEvent) (s : ChatBox) : option jsstr * ChatBox :=
  if str_eqb (ke_key e) (js "Enter") && negb (ke_shiftKey e) then handleSubmit p s else (None, s).

Inductive ChatEvent :=
| ce_change (text : jsstr)
| ce_key (native : bool) (e : KeyboardEvent)
| ce_send
| ce_prompt (prompt : jsstr)
| ce_measure (containerHeight inputHeight : Z)
| ce_compositionStart | ce_compositionEnd
| ce_timer (id : positive) (cb : Callback).

(** One event, with what is sent. A button that is disabled or not shown is not pressed. *)
Definition chat_step (p : ChatProps) (ev : ChatEvent) (s : ChatBox) : option jsstr * ChatBox :=
  match ev with
  | ce_change text => (None, set_input text s)
  | ce_key native e =>
      if textarea_keydown native e (cb_hook s) None then handleKeyDown p e s else (None, s)
  | ce_send => if send_enabled p s then handleSubmit p s else (None, s)
  | ce_prompt prompt =>
      (if bool_decide (prompt ∈ shown_prompts p s) && negb (cp_isLoading p) then Some prompt else None, s)
  | ce_measure c i => (None, measured c i s)
  | ce_compositionStart => (None, set_hook (onCompositionStart (cb_hook s)) s)
  | ce_compositionEnd => (None, set_hook (onCompositionEnd (cb_hook s)) s)
  | ce_timer id cb => (None, set_hook (fire id cb (cb_hook s)) s)
  end.

(** The events the browser may deliver, while the user composes or not, and what follows. *)
Definition possible (composing : bool) (s : ChatBox) (ev : ChatEvent) : Prop :=
  match ev with
  | ce_compositionStart => composing = false
  | ce_compositionEnd => composing = true
  | ce_timer id cb => (id, cb) ∈ co_pending (cb_hook s)
  | _ => True
  end.

Definition composes (composing : bool) (ev : ChatEvent) : bool :=
  match ev with ce_compositionStart => true | ce_compositionEnd => false | _ => composing end.

(** A conversation so far: the parent may give the box other properties at every event. *)
Inductive conversation : bool → ChatBox → Prop :=
| conv_init : conversation false chat_init
| conv_step composing s p ev :
    conversation composing s → possible composing s ev →
    conversation (composes composing ev) (chat_step p ev s).2.

(** ** What the chat box guarantees *)

Lemma handleSubmit_hook p s : cb_hook (handleSubmit p s).2 = cb_hook s.
Proof. unfold handleSubmit. by destruct (_ || _). Qed.

Lemma handleKeyDown_hook p e s : cb_hook (handleKeyDown p e s).2 = cb_hook s.
Proof. unfold handleKeyDown. destruct (_ && _); [apply handleSubmit_hook|done]. Qed.

Lemma conversation_composition composing s :
  conversation composing s → composition_reachable (composing, cb_hook s).
Proof.
  assert (∀ u u' h h', composition_reachable (u, h) → composition_step (u, h) (u', h') →
    composition_reachable (u', h')) as Hs by (intros; by eapply rtc_r).
  induction 1 as [|composing s p ev _ IH Hp]; [by apply rtc_refl|].
  destruct ev; simpl in *; try done.
  - destruct (textarea_keydown _ _ _ _); [by rewrite handleKeyDown_hook|done].
  - destruct (send_enabled p s); [by rewrite handleSubmit_hook|done].
  - subst composing. eapply Hs; [done|]. constructor.
  - subst composing. eapply Hs; [done|]. constructor.
  - eapply Hs; [done|]. by constructor.
Qed.

(** An Enter that gets through the field comes when nobody composes and no composition is just
    over. *)
Lemma enter_through composing s native e :
  conversation composing s → ke_key e = js "Enter" → ke_shiftKey e = false →
  textarea_keydown native e (cb_hook s) None = true →
  composing = false ∧ co_pending (cb_hook s) = [] ∧ native = false.
Proof.
  intros Hc%conversation_composition Hk Hs Ht. unfold textarea_keydown in Ht.
  apply andb_true_iff in Ht as [Ho Hn].
  destruct (composition_safe composing (cb_hook s) e Hc) as ([Hsafe _] & _).
  destruct (Hsafe Ho) as [[-> ->]|[_ [?|?]]]; [|done|congruence].
  rewrite Hk, Hs, (proj2 (str_eqb_eq _ _) eq_refl) in Hn. by destruct native.
Qed.

Lemma handleSubmit_spec p s :
  handleSubmit p s =
    if send_enabled p s then (Some (trim (cb_input s)), set_input [] s) else (None, s).
Proof. unfold handleSubmit, send_enabled. by destruct (_ || _). Qed.

Lemma send_enabled_spec p s : send_enabled p s = true ↔ trim (cb_input s) ≠ [] ∧ cp_isLoading p = false.
Proof.
  unfold send_enabled. rewrite negb_true_iff, orb_false_iff, negb_false_iff, truthy_spec. done.
Qed.

(** What is shown of the messages, and that none of the system's is. *)
Lemma displayMessages_role p m : m ∈ displayMessages p → cm_role m ≠ cr_system.
Proof.
  unfold displayMessages. rewrite elem_of_js_filter. intros [Hm _].
  by apply negb_true_iff, bool_decide_eq_false in Hm.
Qed.

Lemma bubbles_parts p s (l : list ChatMessage) f :
  ((λ b, (bu_role b, bu_content b)) <$> imap (λ i, bubble p s (f i)) l)
  = (λ m, (cm_role m, cm_content m)) <$> l.
Proof.
  revert f. induction l as [|m l IH]; intros f; [done|]. csimpl. f_equal.
  apply (IH (λ i, f (S i))).
Qed.

Lemma chat_area_shows p s :
  match chat_area p s with
  | chat_empty _ _ => Forall (λ m, cm_role m = cr_system) (cp_messages p)
  | chat_list bubbles _ =>
      ((λ b, (bu_role b, bu_content b)) <$> bubbles)
      = (λ m, (cm_role m, cm_content m)) <$> displayMessages p
      ∧ Forall (λ b, bu_role b ≠ cr_system) bubbles
  end.
Proof.
  unfold chat_area. destruct (displayMessages p) as [|m l] eqn:E.
  - apply Forall_forall. intros m Hin. destruct (decide (cm_role m = cr_system)) as [|Hne]; [done|].
    assert (m ∈ displayMessages p) as Hd.
    { unfold displayMessages. rewrite elem_of_js_filter. split; [|done].
      by apply negb_true_iff, bool_decide_eq_false. }
    rewrite E in Hd. by apply elem_of_nil in Hd.
  - split; [apply (bubbles_parts p s (m :: l) id)|]. apply Forall_forall. intros b Hb.
    assert ((bu_role b, bu_content b) ∈ (λ m, (cm_role m, cm_content m)) <$> (m :: l)) as Hin.
    { rewrite <- (bubbles_parts p s (m :: l) id).
      apply list_elem_of_fmap. by exists b. }
    apply list_elem_of_fmap in Hin as (m' & [= -> _] & Hm'). apply (displayMessages_role p). by rewrite E.
Qed.

Lemma key_through composing s e :
  conversation composing s → composing = false → co_pending (cb_hook s) = [] →
  textarea_keydown false e (cb_hook s) None = true.
Proof.
  intros Hc%conversation_composition Hu Hp. unfold textarea_keydown. apply andb_true_iff. split.
  - apply (composition_safe composing (cb_hook s) e Hc). by left.
  - simpl. by rewrite !andb_false_r.
Qed.

(** C40. The chat box sends what the user meant to send, once: whatever keys, compositions, timers,
    clicks and changes of its properties came before, a message is sent only while no answer is
    awaited, and it is a suggested prompt that is shown and was clicked, or the text of the field,
    trimmed and not empty, on a click of the button or on an Enter without shift that came neither
    during a composition nor before its timers fired; the field is empty afterwards, and is changed
    by nothing else than typing. Conversely such a click or Enter sends the text. And no system
    message is shown. *)
Theorem chat_sends composing s p ev :
  conversation composing s → possible composing s ev →
  let '(sent, s') := chat_step p ev s in
  (∀ m, sent = Some m → cp_isLoading p = false
     ∧ ((ev = ce_prompt m ∧ m ∈ shown_prompts p s ∧ s' = s)
        ∨ m = trim (cb_input s) ∧ m ≠ [] ∧ cb_input s' = []
          ∧ (ev = ce_send
             ∨ composing = false ∧ co_pending (cb_hook s) = [] ∧ ev = ce_key false (enter false))))
  ∧ (sent = None → cb_input s' = cb_input s ∨ ev = ce_change (cb_input s'))
  ∧ (trim (cb_input s) ≠ [] → cp_isLoading p = false →
     ev = ce_send ∨ (composing = false ∧ co_pending (cb_hook s) = [] ∧ ev = ce_key false (enter false)) →
     sent = Some (trim (cb_input s)))
  ∧ match chat_area p s with
    | chat_empty _ _ => Forall (λ m, cm_role m = cr_system) (cp_messages p)
    | chat_list bubbles _ =>
        ((λ b, (bu_role b, bu_content b)) <$> bubbles)
        = (λ m, (cm_role m, cm_content m)) <$> displayMessages p
        ∧ Forall (λ b, bu_role b ≠ cr_system) bubbles
    end.
Proof.
  intros Hc _. destruct (chat_step p ev s) as [sent s'] eqn:Es.
  split_and!; [| | |apply chat_area_shows].
  - intros m ->. destruct ev; simpl in Es; try by simplify_eq.
    + destruct (textarea_keydown native e (cb_hook s) None) eqn:Et; [|by simplify_eq].
      unfold handleKeyDown in Es. destruct (_ && _) eqn:Ek; [|by simplify_eq].
      apply andb_true_iff in Ek as [Ek%str_eqb_eq Eh%negb_true_iff].
      destruct (enter_through _ _ _ _ Hc Ek Eh Et) as (-> & Hp & ->).
      rewrite handleSubmit_spec in Es. destruct (send_enabled p s) eqn:En; simplify_eq/=.
      apply send_enabled_spec in En as [Hne Hl]. split; [done|]. right. split_and!; try done.
      right. split_and!; try done. destruct e. simpl in *. by subst.
    + rewrite handleSubmit_spec in Es. destruct (send_enabled p s) eqn:En; simplify_eq/=.
      apply send_enabled_spec in En as [Hne Hl]. split; [done|]. right. by split_and!; try left.
    + destruct (bool_decide _ && _) eqn:Eb; simplify_eq.
      apply andb_true_iff in Eb as [Hin%bool_decide_eq_true Hl%negb_true_iff].
      split; [done|]. by left.
  - intros ->. destruct ev; simpl in Es; try (simplify_eq/=; by left).
    + simplify_eq. by right.
    + left. destruct (textarea_keydown _ _ _ _); [|by simplify_eq].
      unfold handleKeyDown in Es. destruct (_ && _); [|by simplify_eq].
      rewrite handleSubmit_spec in Es. by destruct (send_enabled p s); simplify_eq.
    + left. rewrite handleSubmit_spec in Es. by destruct (send_enabled p s); simplify_eq.
  - intros Hne Hl Hev. assert (send_enabled p s = true) as En by by apply send_enabled_spec.
    destruct Hev as [->|(Hu & Hp & ->)]; simpl in Es.
    + rewrite En, handleSubmit_spec, En in Es. by injection Es.
    + rewrite (key_through _ _ _ Hc Hu Hp) in Es. unfold handleKeyDown in Es.
      change (str_eqb (ke_key (enter false)) (js "Enter") && negb (ke_shiftKey (enter false))) with true in Es.
      rewrite handleSubmit_spec, En in Es. by injection Es.
Qed.

(** ** A run *)

Definition example_chat : ChatProps := {|
  cp_messages := [{| cm_role := cr_system; cm_content := js "be brief" |}]; cp_isLoading := false;
  cp_emptyStateMessage := js "Start"; cp_suggestedPrompts := Some [js "Hi"] |}.

(** A text that was composed is sent by the Enter after the timers, and not by the one before. *)
Lemma chat_sends_witness :
  let step ev s := (chat_step example_chat ev s).2 in
  let composed := step ce_compositionEnd (step (ce_change (js " ok ")) (step ce_compositionStart chat_init)) in
  let settled := step (ce_timer 2 cb_inner) (step (ce_timer 1 cb_outer) composed) in
  (chat_step example_chat (ce_key false (enter false)) composed).1 = None
  ∧ (chat_step example_chat (ce_key false (enter false)) settled).1 = Some (js "ok").
Proof.
  intros step composed settled.
  assert (conversation false composed) as Hc.
  { unfold composed, step. apply (conv_step true _ _ ce_compositionEnd); [|done].
    apply (conv_step true _ _ (ce_change _)); [|done].
    apply (conv_step false _ _ ce_compositionStart); [constructor|done]. }
  assert (conversation false settled) as Hs.
  { unfold settled, step. apply (conv_step false _ _ (ce_timer _ _)); [|by left].
    apply (conv_step false _ _ (ce_timer _ _)); [done|by left]. }
  split.
  - pose proof (chat_sends false composed example_chat (ce_key false (enter false)) Hc I) as Hx.
    destruct (chat_step _ _ composed) as [[m|] s'] eqn:E; [|done].
    destruct Hx as (Hm & _). destruct (Hm m eq_refl) as (_ & [(? & _)|(_ & _ & _ & [?|(_ & Hp & _)])]);
      [discriminate|discriminate|]. discriminate Hp.
  - pose proof (chat_sends false settled example_chat (ce_key false (enter false)) Hs I) as Hx.
    destruct (chat_step _ _ settled) as [sent s'] eqn:E. destruct Hx as (_ & _ & Hk & _).
    assert (trim (cb_input settled) = js "ok") as Ht by (vm_compute; reflexivity).
    rewrite Ht in Hk. apply Hk; [discriminate|reflexivity|]. right. split_and!; reflexivity.
Defined.
