(* ===== verification/Showcase.v ===== *)
(** The demonstration page of the widgets ([client/src/pages/ComponentShowcase.tsx]): its controls,
    and its conversation, which goes through the chat box with a simulated answer. *)
From S2P Require Import Prelude JsString JsNumber Json Schema OAuthState Trpc Node Logger Users Platform Start Composition Fields Chat.

(** ** State *)

(** The wall clock in milliseconds, where a day has 24 hours; [None] is an invalid date. *)
Definition LocalDate : Type := option Z.

(** A timer of the conversation: what it will put back, and the message it answers. *)
Record Reply := { rp_newMessages : list ChatMessage; rp_content : jsstr }.

(** What the page writes to the console and what it announces. *)
Inductive ShowcaseEffect := sx_log (text value : jsstr) | sx_toast (kind title description : jsstr).

Record Showcase := {
  sw_datePickerDate : option LocalDate;
  sw_selectedFramework : jsstr; sw_openCombobox : bool;
  sw_progress : Z; sw_currentPage : Z;
  sw_dialogInput : jsstr; sw_dialogOpen : bool; sw_effects : list ShowcaseEffect;
  sw_chatMessages : list ChatMessage; sw_isChatLoading : bool; sw_chat : ChatBox;
  sw_timers : list Reply
}.

Definition system_message : ChatMessage :=
  {| cm_role := cr_system; cm_content := js "You are a helpful assistant." |}.

Definition showcase_init : Showcase := {|
  sw_datePickerDate := None; sw_selectedFramework := []; sw_openCombobox := false;
  sw_progress := 33; sw_currentPage := 2; sw_dialogInput := []; sw_dialogOpen := false; sw_effects := [];
  sw_chatMessages := [system_message]; sw_isChatLoading := false; sw_chat := chat_init; sw_timers := [] |}.

(** ** The controls *)

Definition set_picked (d : option LocalDate) (s : Showcase) : Showcase := {|
  sw_datePickerDate := d; sw_selectedFramework := sw_selectedFramework s; sw_openCombobox := sw_openCombobox s;
  sw_progress := sw_progress s; sw_currentPage := sw_currentPage s; sw_dialogInput := sw_dialogInput s;
  sw_dialogOpen := sw_dialogOpen s; sw_effects := sw_effects s; sw_chatMessages := sw_chatMessages s;
  sw_isChatLoading := sw_isChatLoading s; sw_chat := sw_chat s; sw_timers := sw_timers s |}.

Definition set_framework (framework : jsstr) (isOpen : bool) (s : Showcase) : Showcase := {|
  sw_datePickerDate := sw_datePickerDate s; sw_selectedFramework := framework; sw_openCombobox := isOpen;
  sw_progress := sw_progress s; sw_currentPage := sw_currentPage s; sw_dialogInput := sw_dialogInput s;
  sw_dialogOpen := sw_dialogOpen s; sw_effects := sw_effects s; sw_chatMessages := sw_chatMessages s;
  sw_isChatLoading := sw_isChatLoading s; sw_chat := sw_chat s; sw_timers := sw_timers s |}.

Definition set_counters (progress page : Z) (s : Showcase) : Showcase := {|
  sw_datePickerDate := sw_datePickerDate s; sw_selectedFramework := sw_selectedFramework s;
  sw_openCombobox := sw_openCombobox s; sw_progress := progress; sw_currentPage := page;
  sw_dialogInput := sw_dialogInput s; sw_dialogOpen := sw_dialogOpen s; sw_effects := sw_effects s;
  sw_chatMessages := sw_chatMessages s; sw_isChatLoading := sw_isChatLoading s; sw_chat := sw_chat s;
  sw_timers := sw_timers s |}.

Definition set_form (input : jsstr) (isOpen : bool) (effects : list ShowcaseEffect) (s : Showcase) : Showcase := {|
  sw_datePickerDate := sw_datePickerDate s; sw_selectedFramework := sw_selectedFramework s;
  sw_openCombobox := sw_openCombobox s; sw_progress := sw_progress s; sw_currentPage := sw_currentPage s;
  sw_dialogInput := input; sw_dialogOpen := isOpen; sw_effects := effects;
  sw_chatMessages := sw_chatMessages s; sw_isChatLoading := sw_isChatLoading s; sw_chat := sw_chat s;
  sw_timers := sw_timers s |}.

Definition set_conversation (messages : list ChatMessage) (loading : bool) (chat : ChatBox)
    (timers : list Reply) (s : Showcase) : Showcase := {|
  sw_datePickerDate := sw_datePickerDate s; sw_selectedFramework := sw_selectedFramework s;
  sw_openCombobox := sw_openCombobox s; sw_progress := sw_progress s; sw_currentPage := sw_currentPage s;
  sw_dialogInput := sw_dialogInput s; sw_dialogOpen := sw_dialogOpen s; sw_effects := sw_effects s;
  sw_chatMessages := messages; sw_isChatLoading := loading; sw_chat := chat; sw_timers := timers |}.

(** [setHours] and [setMinutes], which leave an invalid date as it is; [None] is NaN. *)
Definition setHours (hours : option Z) (d : LocalDate) : LocalDate :=
  t ← d; h ← hours; Some (t / 86400000 * 86400000 + h * 3600000 + t mod 3600000)%Z.
Definition setMinutes (minutes : option Z) (d : LocalDate) : LocalDate :=
  t ← d; m ← minutes; Some (t / 3600000 * 3600000 + m * 60000 + t mod 60000)%Z.

Definition colon : N := 58%N.

(** The change of the time field, whose value is empty when it was cleared. *)
Definition pick_time (now : Z) (picked : option LocalDate) (value : jsstr) : LocalDate :=
  let parts := split_on colon value in
  let part i := parseInt (default (js "undefined") (parts !! i)) in
  setMinutes (part 1) (setHours (part 0) (default (Some now) picked)).

(** The choices of the searchable list. *)
Definition frameworks : list (jsstr * jsstr) :=
  [(js "react", js "React"); (js "vue", js "Vue"); (js "angular", js "Angular"); (js "svelte", js "Svelte");
   (js "nextjs", js "Next.js"); (js "nuxt", js "Nuxt"); (js "remix", js "Remix")].

Definition select_framework (currentValue : jsstr) (s : Showcase) : Showcase :=
  set_framework (if str_eqb currentValue (sw_selectedFramework s) then [] else currentValue) false s.

(** What the button of the list shows; [undefined] shows nothing. *)
Definition framework_label (s : Showcase) : option jsstr :=
  if truthy (sw_selectedFramework s)
  then snd <$> js_find (λ fw, str_eqb fw.1 (sw_selectedFramework s)) frameworks
  else Some (js "Select framework...").

Definition shown_pages : list Z := [1; 2; 3; 4; 5]%Z.

(** [handleDialogSubmit], with what it logs and announces. *)
Definition handleDialogSubmit (s : Showcase) : Showcase :=
  set_form [] false
    (sw_effects s ++ [sx_log (js "Dialog submitted with value:") (sw_dialogInput s);
                      sx_toast (js "success") (js "Submitted successfully")
                        (js "Input: " ++ sw_dialogInput s)]) s.

(** A key of the dialog's field: whether its default is prevented, and what it does. *)
Definition handleDialogKeyDown (key : jsstr) (isComposing : bool) (s : Showcase) : bool * Showcase :=
  if str_eqb key (js "Enter") && negb isComposing then (true, handleDialogSubmit s) else (false, s).

(** ** The conversation *)

Definition quoted (text : jsstr) : jsstr := [34%N] ++ text ++ [34%N].
Definition fence : jsstr := [96; 96; 96]%N.

(** The simulated answer. *)
Definition demo_response (content : jsstr) : jsstr :=
  join [10%N] [
    js "This is a **demo response**. In a real app, you would call a tRPC mutation here:";
    [];
    fence ++ js "typescript";
    js "const chatMutation = trpc.ai.chat.useMutation({";
    js "  onSuccess: (response) => {";
    js "    setChatMessages(prev => [...prev, {";
    js "      role: " ++ quoted (js "assistant") ++ js ",";
    js "      content: response.choices[0].message.content";
    js "    }]);";
    js "  }";
    js "});";
    [];
    js "chatMutation.mutate({ messages: newMessages });";
    fence;
    [];
    js "Your message was: " ++ quoted content].

Definition user_message (content : jsstr) : ChatMessage := {| cm_role := cr_user; cm_content := content |}.
Definition aiResponse (content : jsstr) : ChatMessage :=
  {| cm_role := cr_assistant; cm_content := demo_response content |}.

(** [handleChatSend]: the message is added, and a timer keeps the list it belongs to. *)
Definition handleChatSend (content : jsstr) (s : Showcase) : Showcase :=
  let newMessages := sw_chatMessages s ++ [user_message content] in
  set_conversation newMessages true (sw_chat s)
    (sw_timers s ++ [{| rp_newMessages := newMessages; rp_content := content |}]) s.

(** The timer of number [n] fires: the answer goes to the list that the timer kept. *)
Definition reply_arrives (n : nat) (s : Showcase) : Showcase :=
  match sw_timers s !! n with
  | None => s
  | Some r => set_conversation (rp_newMessages r ++ [aiResponse (rp_content r)]) false (sw_chat s)
                (delete n (sw_timers s)) s
  end.

(** The properties that the page gives its chat box. *)
Definition showcase_chat (s : Showcase) : ChatProps := {|
  cp_messages := sw_chatMessages s; cp_isLoading := sw_isChatLoading s;
  cp_emptyStateMessage := js "How can I help you today?";
  cp_suggestedPrompts := Some [js "What is React?"; js "Explain TypeScript"; js "How to use tRPC?";
                               js "Best practices for web development"] |}.

(** An event of the chat box, with what it sends to the page. *)
Definition chat_event (ev : ChatEvent) (s : Showcase) : option jsstr * Showcase :=
  let '(sent, chat) := chat_step (showcase_chat s) ev (sw_chat s) in
  let s' := set_conversation (sw_chatMessages s) (sw_isChatLoading s) chat (sw_timers s) s in
  (sent, match sent with Some content => handleChatSend content s' | None => s' end).

(** ** The page in use *)

Inductive ShowcaseEvent :=
| se_day (day : option Z)
| se_time (now : Z) (value : jsstr)
| se_combobox (isOpen : bool)
| se_framework (choice : jsstr * jsstr)
| se_progress_less | se_progress_more
| se_page_previous | se_page (page : Z) | se_page_next
| se_dialog (isOpen : bool) | se_input (text : jsstr) | se_key (key : jsstr) (isComposing : bool)
| se_submit
| se_chat (ev : ChatEvent)
| se_reply (n : nat).

(** One event, with the message that the chat box sent. What is not offered is not pressed. *)
Definition showcase_step (ev : ShowcaseEvent) (s : Showcase) : option jsstr * Showcase :=
  match ev with
  | se_day day => (None, set_picked (Some <$> day) s)
  | se_time now value => (None, set_picked (Some (pick_time now (sw_datePickerDate s) value)) s)
  | se_combobox isOpen => (None, set_framework (sw_selectedFramework s) isOpen s)
  | se_framework choice =>
      (None, if bool_decide (choice ∈ frameworks) then select_framework choice.1 s else s)
  | se_progress_less => (None, set_counters (Z.max 0 (sw_progress s - 10)) (sw_currentPage s) s)
  | se_progress_more => (None, set_counters (Z.min 100 (sw_progress s + 10)) (sw_currentPage s) s)
  | se_page_previous => (None, set_counters (sw_progress s) (Z.max 1 (sw_currentPage s - 1)) s)
  | se_page page => (None, if bool_decide (page ∈ shown_pages) then set_counters (sw_progress s) page s else s)
  | se_page_next => (None, set_counters (sw_progress s) (Z.min 5 (sw_currentPage s + 1)) s)
  | se_dialog isOpen => (None, set_form (sw_dialogInput s) isOpen (sw_effects s) s)
  | se_input text => (None, set_form text (sw_dialogOpen s) (sw_effects s) s)
  | se_key key isComposing => (None, (handleDialogKeyDown key isComposing s).2)
  | se_submit => (None, handleDialogSubmit s)
  | se_chat ev => chat_event ev s
  | se_reply n => (None, reply_arrives n s)
  end.

(** A visit of the page, with the messages that were sent so far, in order. *)
Inductive showcase_visit : list jsstr → Showcase → Prop :=
| sv_start : showcase_visit [] showcase_init
| sv_event asked s ev :
    showcase_visit asked s →
    showcase_visit (asked ++ option_list (showcase_step ev s).1) (showcase_step ev s).2.

(** ** What holds of every visit *)

(** A conversation in which every message has its answer. *)
Definition conversation_of (asked : list jsstr) : list ChatMessage :=
  system_message :: flat_map (λ content, [user_message content; aiResponse content]) asked.

(** Either nothing is awaited, or the last message, and the timer keeps the list that is shown. *)
Definition conversation_kept (asked : list jsstr) (s : Showcase) : Prop :=
  match sw_timers s with
  | [] => sw_isChatLoading s = false ∧ sw_chatMessages s = conversation_of asked
  | [r] => sw_isChatLoading s = true ∧ rp_newMessages r = sw_chatMessages s
           ∧ ∃ before, asked = before ++ [rp_content r]
               ∧ sw_chatMessages s = conversation_of before ++ [user_message (rp_content r)]
  | _ => False
  end.

Definition controls_kept (s : Showcase) : Prop :=
  (0 <= sw_progress s <= 100)%Z ∧ (1 <= sw_currentPage s <= 5)%Z ∧ is_Some (framework_label s).

Lemma conversation_of_snoc asked content :
  conversation_of (asked ++ [content]) = conversation_of asked ++ [user_message content; aiResponse content].
Proof. unfold conversation_of. by rewrite flat_map_app. Qed.

(** A message is sent only while none is awaited. *)
Lemma chat_step_sends p ev s content : (chat_step p ev s).1 = Some content → cp_isLoading p = false.
Proof.
  assert (∀ m, (handleSubmit p s).1 = Some m → cp_isLoading p = false) as Hs.
  { intros m. rewrite handleSubmit_spec. destruct (send_enabled p s) eqn:E; [|done].
    by apply send_enabled_spec in E as [_ ?]. }
  destruct ev; simpl; try done.
  - destruct (textarea_keydown _ _ _ _); [|done]. unfold handleKeyDown. destruct (_ && _); [apply Hs|done].
  - destruct (send_enabled p s); [apply Hs|done].
  - destruct (bool_decide _); [|done]. by destruct (cp_isLoading p).
Qed.

Lemma conversation_other asked s s' :
  sw_timers s' = sw_timers s → sw_isChatLoading s' = sw_isChatLoading s →
  sw_chatMessages s' = sw_chatMessages s → conversation_kept asked s → conversation_kept asked s'.
Proof. unfold conversation_kept. by intros -> -> ->. Qed.

Lemma chat_event_kept asked ev s :
  conversation_kept asked s →
  conversation_kept (asked ++ option_list (chat_event ev s).1) (chat_event ev s).2.
Proof.
  intros Hk. unfold chat_event.
  pose proof (chat_step_sends (showcase_chat s) ev (sw_chat s)) as Hl.
  destruct (chat_step _ ev _) as [[content|] chat]; simpl in *; [|by rewrite app_nil_r].
  specialize (Hl content eq_refl). unfold conversation_kept in *. simpl in *.
  destruct (sw_timers s) as [|r [|r' timers]]; simpl; [|destruct Hk; congruence|done].
  destruct Hk as [_ Hm]. rewrite Hm. eauto 6.
Qed.

Lemma reply_kept asked n s : conversation_kept asked s → conversation_kept asked (reply_arrives n s).
Proof.
  intros Hk. unfold reply_arrives. destruct (sw_timers s !! n) as [r|] eqn:Er; [|done].
  unfold conversation_kept in *. destruct (sw_timers s) as [|r1 [|r2 timers]]; [done| |done].
  destruct n as [|n]; [|done]. simplify_eq/=. destruct Hk as (_ & Hr & before & -> & Hm).
  split; [done|]. rewrite Hr, Hm, conversation_of_snoc. unfold conversation_of. simpl. by rewrite <- app_assoc.
Qed.

Lemma framework_choice choice : choice ∈ frameworks →
  is_Some (js_find (λ fw, str_eqb fw.1 choice.1) frameworks).
Proof. intros Hin. eapply js_find_is_Some; [exact Hin|]. apply str_eqb_refl. Qed.

(** Whatever is pressed, typed and awaited on the page: the progress stays between 0 and 100, the
    page among those that exist, the chosen framework one of the list; and every message that the
    chat box sends gets one answer: the conversation shows the messages in order, each with its
    answer, but for the last while it is awaited. *)
Theorem showcase_kept asked s :
  showcase_visit asked s → controls_kept s ∧ conversation_kept asked s.
Proof.
  induction 1 as [|asked s ev _ [Hc Hk]]; [by split; [split_and!; [done..|by eexists]|done]|].
  split.
  - destruct Hc as (Hp & Hg & Hf). unfold controls_kept.
    destruct ev; simpl; try (by split_and!; (lia || done)).
    + case_bool_decide as Hin; [|done]. simpl. split_and!; [lia|lia|lia|lia|].
      unfold framework_label, select_framework. simpl.
      destruct (str_eqb choice.1 (sw_selectedFramework s)); [by eexists|].
      destruct (truthy choice.1); [|by eexists]. by apply fmap_is_Some, framework_choice.
    + case_bool_decide as Hin; [|done]. simpl. unfold shown_pages in Hin.
      split_and!; try done; set_unfold; lia.
    + unfold handleDialogKeyDown. by destruct (_ && _).
    + unfold chat_event. by destruct (chat_step _ _ _) as [[content|] chat].
    + unfold reply_arrives. by destruct (sw_timers s !! n).
  - destruct ev; simpl; rewrite ?app_nil_r; try (by eapply conversation_other; [..|exact Hk]).
    + case_bool_decide; by eapply conversation_other; [..|exact Hk].
    + case_bool_decide; by eapply conversation_other; [..|exact Hk].
    + unfold handleDialogKeyDown. destruct (_ && _); by eapply conversation_other; [..|exact Hk].
    + by apply chat_event_kept.
    + by apply reply_kept.
Qed.

(** A cleared time field makes the date of the page invalid, and a later time does not repair it. *)
Lemma cleared_time now picked : pick_time now picked [] = None.
Proof. unfold pick_time. simpl. by destruct (default (Some now) picked). Qed.

Lemma cleared_time_stays now value : pick_time now (Some None) value = None.
Proof. done. Qed.

(** A time that is picked is the time of the date, on the day it was. *)
Example picked_time : pick_time 0 (Some (Some 1700000000000%Z)) (js "09:30") = Some 1699954220000%Z.
Proof. by vm_compute. Qed.
