(* ===== verification/Shell.v ===== *)
(** The shell around the pages: the width of the screen ([client/src/hooks/useMobile.tsx]), the
    state of the sidebar ([client/src/components/ui/sidebar.tsx]), the theme
    ([client/src/contexts/ThemeContext.tsx]), the sign-in dialog
    ([client/src/components/ManusDialog.tsx]), what is shown after an error
    ([client/src/components/ErrorBoundary.tsx]) and the map ([client/src/components/Map.tsx]). *)
From S2P Require Import Prelude JsString.

(** ** The width of the screen *)

Definition MOBILE_BREAKPOINT : Z := 768.

(** [isMobile], which is [undefined] before the first effect, and what the hook returns. *)
Definition width_changed (innerWidth : Z) : option bool := Some (innerWidth <? MOBILE_BREAKPOINT)%Z.
Definition useIsMobile (isMobile : option bool) : bool := default false isMobile.

(** ** The sidebar *)

(** The properties of [SidebarProvider]: whether it is controlled, and by which value. *)
Record ProviderProps := { pp_defaultOpen : bool; pp_open : option bool; pp_onOpenChange : bool }.

(** [isMobile] of the hook, [_open] and [openMobile]. *)
Record Provider := { pv_isMobile : option bool; pv_open : bool; pv_openMobile : bool }.

Definition provider_init (p : ProviderProps) : Provider := {|
  pv_isMobile := None; pv_open := pp_defaultOpen p; pv_openMobile := false |}.

Inductive ProviderEffect := pe_onOpenChange (open : bool) | pe_cookie (text : jsstr).

Definition provider_open (p : ProviderProps) (s : Provider) : bool := default (pv_open s) (pp_open p).

Definition bool_text (b : bool) : jsstr := if b then js "true" else js "false".

Definition SIDEBAR_COOKIE_MAX_AGE : Z := 60 * 60 * 24 * 7.
Definition sidebar_cookie (open : bool) : jsstr :=
  js "sidebar_state=" ++ bool_text open ++ js "; path=/; max-age=" ++ js_of_Z SIDEBAR_COOKIE_MAX_AGE.

(** A handler belongs to a render and sees the state of that render, [seen]; the state it changes
    is the current one. [setOpen] with a function applies it to what the render saw. *)
Definition setOpen (p : ProviderProps) (seen : Provider) (value : bool → bool) (s : Provider)
    : list ProviderEffect * Provider :=
  let openState := value (provider_open p seen) in
  if pp_onOpenChange p then ([pe_onOpenChange openState; pe_cookie (sidebar_cookie openState)], s)
  else ([pe_cookie (sidebar_cookie openState)],
        {| pv_isMobile := pv_isMobile s; pv_open := openState; pv_openMobile := pv_openMobile s |}).

(** The setter of [openMobile] applies the function to the current state. *)
Definition toggleSidebar (p : ProviderProps) (seen s : Provider) : list ProviderEffect * Provider :=
  if useIsMobile (pv_isMobile seen) then
    ([], {| pv_isMobile := pv_isMobile s; pv_open := pv_open s; pv_openMobile := negb (pv_openMobile s) |})
  else setOpen p seen negb s.

Record ShortcutEvent := { sc_key : jsstr; sc_metaKey : bool; sc_ctrlKey : bool }.

Definition sidebar_keydown (p : ProviderProps) (e : ShortcutEvent) (seen s : Provider)
    : list ProviderEffect * Provider :=
  if str_eqb (sc_key e) (js "b") && (sc_metaKey e || sc_ctrlKey e) then toggleSidebar p seen s else ([], s).

(** [state === "collapsed"]. *)
Definition sidebar_collapsed (p : ProviderProps) (s : Provider) : bool := negb (provider_open p s).

Inductive Collapsible := co_offcanvas | co_icon | co_none.

#[export] Instance Collapsible_eq_dec : EqDecision Collapsible.
Proof. solve_decision. Defined.

(** What [Sidebar] renders: its children alone, a sheet that is open or not, or the fixed sidebar,
    which is collapsed in a way or not. *)
Inductive SidebarView := sv_plain | sv_sheet (open : bool) | sv_fixed (collapsed : option Collapsible).

Definition sidebar_view (p : ProviderProps) (collapsible : Collapsible) (s : Provider) : SidebarView :=
  if bool_decide (collapsible = co_none) then sv_plain
  else if useIsMobile (pv_isMobile s) then sv_sheet (pv_openMobile s)
  else sv_fixed (if sidebar_collapsed p s then Some collapsible else None).

(** Whether the tooltip of a menu button is hidden. *)
Definition tooltip_hidden (p : ProviderProps) (s : Provider) : bool :=
  negb (sidebar_collapsed p s) || useIsMobile (pv_isMobile s).

(** *** The sidebar in use *)

(** What happens to the sidebar: its toggles, keys, and changes of the width; each handler is the
    one of the current render. *)
Inductive ShellEvent := sh_toggle | sh_key (e : ShortcutEvent) | sh_width (innerWidth : Z).

Definition shell_step (p : ProviderProps) (ev : ShellEvent) (s : Provider) : list ProviderEffect * Provider :=
  match ev with
  | sh_toggle => toggleSidebar p s s
  | sh_key e => sidebar_keydown p e s s
  | sh_width w => ([], {| pv_isMobile := width_changed w; pv_open := pv_open s; pv_openMobile := pv_openMobile s |})
  end.

Definition is_toggle (ev : ShellEvent) : bool :=
  match ev with
  | sh_toggle => true
  | sh_key e => str_eqb (sc_key e) (js "b") && (sc_metaKey e || sc_ctrlKey e)
  | sh_width _ => false
  end.

(** The uncontrolled provider of the console. *)
Definition console_provider : ProviderProps := {|
  pp_defaultOpen := true; pp_open := None; pp_onOpenChange := false |}.

(** A toggle changes what is shown of the sidebar and nothing else: on a wide screen the fixed
    sidebar, whose new state goes into the cookie; on a narrow one the sheet, without a cookie. *)
Lemma toggle_shown ev s :
  is_toggle ev = true →
  let '(effects, s') := shell_step console_provider ev s in
  pv_isMobile s' = pv_isMobile s
  ∧ if useIsMobile (pv_isMobile s)
    then effects = [] ∧ sidebar_view console_provider co_icon s' = sv_sheet (negb (pv_openMobile s))
         ∧ sidebar_collapsed console_provider s' = sidebar_collapsed console_provider s
    else effects = [pe_cookie (sidebar_cookie (negb (pv_open s)))]
         ∧ sidebar_collapsed console_provider s' = negb (sidebar_collapsed console_provider s)
         ∧ pv_openMobile s' = pv_openMobile s.
Proof.
  intros Ht. assert (shell_step console_provider ev s = toggleSidebar console_provider s s) as ->.
  { destruct ev; simpl in *; [done| |done]. unfold sidebar_keydown. by rewrite Ht. }
  unfold toggleSidebar, setOpen, sidebar_view, sidebar_collapsed, provider_open. simpl.
  destruct (useIsMobile (pv_isMobile s)) eqn:E; simpl; rewrite ?E; by rewrite ?negb_involutive.
Qed.

(** A sidebar that was collapsed on a wide screen stays collapsed on a narrow one, where its sheet
    then shows no labels: no key and no toggle changes that. *)
Lemma narrow_collapsed evs s :
  useIsMobile (pv_isMobile s) = true → Forall (λ ev, match ev with sh_width _ => False | _ => True end) evs →
  let s' := foldl (λ s ev, (shell_step console_provider ev s).2) s evs in
  sidebar_collapsed console_provider s' = sidebar_collapsed console_provider s.
Proof.
  intros Hm Hevs. revert s Hm. induction Hevs as [|ev evs Hev _ IH]; intros s Hm; [done|]. simpl.
  destruct (is_toggle ev) eqn:Et.
  - pose proof (toggle_shown ev s Et) as Hx. destruct (shell_step console_provider ev s) as [ef s'].
    rewrite Hm in Hx. destruct Hx as (He & _ & _ & <-). apply IH. simpl. by rewrite He.
  - assert ((shell_step console_provider ev s).2 = s) as ->; [|by apply IH].
    destruct ev; simpl in *; [done| |done]. unfold sidebar_keydown. by rewrite Et.
Qed.

(** Two toggles of one render count twice in the sheet, but once in the fixed sidebar, whose setter
    applies the change to what the render saw. *)
Lemma toggles_of_one_render s :
  let twice := (toggleSidebar console_provider s (toggleSidebar console_provider s s).2).2 in
  if useIsMobile (pv_isMobile s) then pv_openMobile twice = pv_openMobile s
  else pv_open twice = negb (pv_open s).
Proof.
  unfold toggleSidebar, setOpen, provider_open. simpl.
  destruct (useIsMobile (pv_isMobile s)); simpl; [by rewrite negb_involutive|done].
Qed.

(** ** The theme *)

(** A theme as it is stored: [light], [dark], or whatever text the storage holds. *)
Record ThemeProps := { th_defaultTheme : jsstr; th_switchable : bool }.

(** The first state; [stored] is [localStorage.getItem("theme")]. *)
Definition initial_theme (p : ThemeProps) (stored : option jsstr) : jsstr :=
  if th_switchable p then str_or stored (th_defaultTheme p) else th_defaultTheme p.

(** The effect: whether the page has the class [dark], and what is stored. *)
Definition theme_effect (p : ThemeProps) (theme : jsstr) (stored : option jsstr) : bool * option jsstr :=
  (str_eqb theme (js "dark"), if th_switchable p then Some theme else stored).

(** [toggleTheme], which only a switchable provider offers. *)
Definition toggleTheme (p : ThemeProps) : option (jsstr → jsstr) :=
  if th_switchable p then Some (λ prev, if str_eqb prev (js "light") then js "dark" else js "light")
  else None.

(** A theme that is switched is the one of the next visit, and the class follows it. *)
Lemma theme_kept p stored toggle :
  toggleTheme p = Some toggle →
  let theme := toggle (initial_theme p stored) in
  let '(dark, stored') := theme_effect p theme stored in
  initial_theme p stored' = theme ∧ dark = str_eqb (initial_theme p stored) (js "light").
Proof.
  unfold toggleTheme, theme_effect, initial_theme. destruct (th_switchable p); [|done].
  intros [= <-]. destruct (str_eqb _ (js "light")); by vm_compute.
Qed.

(** ** The sign-in dialog *)

Record DialogProps := { dp_open : bool; dp_onOpenChange : bool; dp_onClose : bool }.

Inductive DialogCall := dl_onOpenChange (open : bool) | dl_onClose.

(** The effect of a change of the properties on [internalOpen]. *)
Definition sync_open (p : DialogProps) (internalOpen : bool) : bool :=
  if dp_onOpenChange p then internalOpen else dp_open p.

Definition handleOpenChange (p : DialogProps) (nextOpen internalOpen : bool) : list DialogCall * bool :=
  ((if dp_onOpenChange p then [dl_onOpenChange nextOpen] else [])
   ++ (if negb nextOpen && dp_onClose p then [dl_onClose] else []),
   if dp_onOpenChange p then internalOpen else nextOpen).

Definition shown_open (p : DialogProps) (internalOpen : bool) : bool :=
  if dp_onOpenChange p then dp_open p else internalOpen.

(** A dialog that its parent does not control shows what was asked for last; one that it controls
    shows the parent's value, and the parent is told. *)
Lemma handleOpenChange_shown p next internal :
  let '(calls, internal') := handleOpenChange p next internal in
  (dl_onClose ∈ calls ↔ next = false ∧ dp_onClose p = true)
  ∧ if dp_onOpenChange p then shown_open p internal' = dp_open p ∧ dl_onOpenChange next ∈ calls
    else shown_open p internal' = next.
Proof.
  unfold handleOpenChange, shown_open.
  destruct (dp_onOpenChange p), next, (dp_onClose p); simpl; set_solver.
Qed.

(** ** Errors of the pages *)

(** [ErrorBoundary]: the state after a child threw, and what is shown. *)
Record ErrorState := { eb_hasError : bool; eb_error : option (option jsstr) }.
Definition error_init : ErrorState := {| eb_hasError := false; eb_error := None |}.

(** [stack] is that of the error, which may lack one. *)
Definition getDerivedStateFromError (stack : option jsstr) : ErrorState :=
  {| eb_hasError := true; eb_error := Some stack |}.

Inductive BoundaryView (Page : Type) := bv_children (page : Page) | bv_error (stack : option jsstr).
Arguments bv_children {Page} page.
Arguments bv_error {Page} stack.

Definition boundary_view {Page} (s : ErrorState) (children : Page) : BoundaryView Page :=
  if eb_hasError s then bv_error (mjoin (eb_error s)) else bv_children children.

(** ** The map *)

(** What the script element does, if anything, and what [MapView] then does. *)
Inductive ScriptEvent := script_load | script_error.
Inductive MapEffect := me_script_removed | me_console_error (text : jsstr) | me_map_created | me_ready.

#[export] Instance MapEffect_eq_dec : EqDecision MapEffect.
Proof. solve_decision. Defined.

(** [VITE_FRONTEND_FORGE_API_URL] and [VITE_FRONTEND_FORGE_API_KEY] of the build. *)
Definition map_script (apiUrl apiKey : option jsstr) : jsstr :=
  str_or apiUrl (js "https://forge.butterfly-effect.dev") ++ js "/v1/maps/proxy/maps/api/js?key="
  ++ default (js "undefined") apiKey ++ js "&v=weekly&libraries=marker,places,geocoding,geometry".

(** [init]: [container] is whether the element is still there when the script has loaded. When the
    script fails, the promise is never settled, and nothing follows. *)
Definition map_init (script : option ScriptEvent) (container onMapReady : bool) : list MapEffect :=
  match script with
  | None => []
  | Some script_error => [me_console_error (js "Failed to load Google Maps script")]
  | Some script_load =>
      me_script_removed ::
      if container then me_map_created :: (if onMapReady then [me_ready] else [])
      else [me_console_error (js "Map container not found")]
  end.

(** The caller is told of a map at most once, after it was created; and exactly when the script
    loaded while the element was still there. *)
Lemma map_ready script container onMapReady :
  let effects := map_init script container onMapReady in
  (me_map_created ∈ effects ↔ script = Some script_load ∧ container = true)
  ∧ (me_ready ∈ effects ↔ me_map_created ∈ effects ∧ onMapReady = true)
  ∧ NoDup effects.
Proof.
  assert (∀ effects, bool_decide (NoDup effects) = true → NoDup (A:=MapEffect) effects) as Hd
    by (intros effects; apply bool_decide_eq_true).
  destruct script as [[]|], container, onMapReady;
    (split_and!; [set_solver|set_solver|apply Hd; vm_compute; reflexivity]).
Qed.
