(* ===== verification/Widgets.v ===== *)
(** The widgets of the component library that hold logic of their own: the carousel
    ([client/src/components/ui/carousel.tsx]), the colours and labels of charts ([chart.tsx]) and
    the errors of form fields ([field.tsx], [form.tsx]). *)
From S2P Require Import Prelude JsString JsNumber Json.

(** ** The carousel *)

(** The events of the slide library that the carousel listens to. *)
Inductive SlideEvent := reInit | select.

(** An instance of the slide library is a number; what the carousel asks of it and tells its parent. *)
Inductive CarouselCall :=
| cc_on (api : nat) (event : SlideEvent)
| cc_off (api : nat) (event : SlideEvent)
| cc_scrollPrev (api : nat)
| cc_scrollNext (api : nat)
| cc_setApi (api : nat)
| cc_preventDefault.

#[export] Instance SlideEvent_eq_dec : EqDecision SlideEvent.
Proof. solve_decision. Defined.
#[export] Instance CarouselCall_eq_dec : EqDecision CarouselCall.
Proof. solve_decision. Defined.

(** The instance and the setter (by a number) of the current render, of which there may be none, and
    what the buttons were last told. *)
Record Carousel := {
  ca_api : option nat; ca_setApi : option nat; ca_canScrollPrev : bool; ca_canScrollNext : bool }.

Definition carousel_init : Carousel :=
  {| ca_api := None; ca_setApi := None; ca_canScrollPrev := false; ca_canScrollNext := false |}.

(** What an instance answers to [canScrollPrev()] and [canScrollNext()]. *)
Definition CanScroll : Type := bool * bool.

Definition carousel_onSelect (api : option nat) (can : CanScroll) (s : Carousel) : Carousel :=
  match api with
  | None => s
  | Some _ => {| ca_api := ca_api s; ca_setApi := ca_setApi s;
                 ca_canScrollPrev := can.1; ca_canScrollNext := can.2 |}
  end.

Definition carousel_scrollPrev (s : Carousel) : list CarouselCall :=
  match ca_api s with Some api => [cc_scrollPrev api] | None => [] end.
Definition carousel_scrollNext (s : Carousel) : list CarouselCall :=
  match ca_api s with Some api => [cc_scrollNext api] | None => [] end.

Definition carousel_keydown (key : jsstr) (s : Carousel) : list CarouselCall :=
  if str_eqb key (js "ArrowLeft") then cc_preventDefault :: carousel_scrollPrev s
  else if str_eqb key (js "ArrowRight") then cc_preventDefault :: carousel_scrollNext s
  else [].

(** The effect that shares the instance with a parent that asked for it. *)
Definition share_effect (api setApi : option nat) : list CarouselCall :=
  match api, setApi with Some api, Some _ => [cc_setApi api] | _, _ => [] end.

(** The effect that listens to an instance, and its cleanup. *)
Definition listen_effect (api : option nat) (can : CanScroll) (s : Carousel) : list CarouselCall * Carousel :=
  match api with
  | None => ([], s)
  | Some i => ([cc_on i reInit; cc_on i select], carousel_onSelect api can s)
  end.
Definition listen_cleanup (api : option nat) : list CarouselCall :=
  match api with Some i => [cc_off i select] | None => [] end.

(** What happens to a carousel: a render, an event that the instance [api] reports to a listener, a
    key, and its end. *)
Inductive CarouselEvent :=
| ca_render (api setApi : option nat) (can : CanScroll)
| ca_report (api : nat) (can : CanScroll)
| ca_key (key : jsstr)
| ca_unmount.

Definition with_render (api setApi : option nat) (s : Carousel) : Carousel :=
  {| ca_api := api; ca_setApi := setApi;
     ca_canScrollPrev := ca_canScrollPrev s; ca_canScrollNext := ca_canScrollNext s |}.

(** After a render the effects run whose dependencies differ, cleanups first. *)
Definition carousel_step (s : Carousel) (ev : CarouselEvent) : list CarouselCall * Carousel :=
  match ev with
  | ca_render api setApi can =>
      let s1 := with_render api setApi s in
      if bool_decide (api = ca_api s) then
        (if bool_decide (setApi = ca_setApi s) then [] else share_effect api setApi, s1)
      else
        let '(calls, s') := listen_effect api can s1 in
        (listen_cleanup (ca_api s) ++ share_effect api setApi ++ calls, s')
  | ca_report api can => ([], carousel_onSelect (Some api) can s)
  | ca_key key => (carousel_keydown key s, s)
  | ca_unmount => (listen_cleanup (ca_api s), with_render None None s)
  end.

Fixpoint carousel_run (s : Carousel) (evs : list CarouselEvent) : list CarouselCall * Carousel :=
  match evs with
  | [] => ([], s)
  | ev :: evs =>
      let '(calls, s') := carousel_step s ev in
      let '(calls', s'') := carousel_run s' evs in (calls ++ calls', s'')
  end.

(** How often an instance was asked for events, less how often it was released. *)
Definition listens (event : SlideEvent) (api : nat) (c : CarouselCall) : Z :=
  if bool_decide (c = cc_on api event) then 1 else if bool_decide (c = cc_off api event) then -1 else 0.
Definition listening (event : SlideEvent) (api : nat) (calls : list CarouselCall) : Z :=
  foldr (λ c n, listens event api c + n)%Z 0%Z calls.

Definition is_current (api : nat) (s : Carousel) : Z := if bool_decide (ca_api s = Some api) then 1 else 0.

Lemma listening_app event api calls calls' :
  listening event api (calls ++ calls') = (listening event api calls + listening event api calls')%Z.
Proof. induction calls as [|c calls IH]; [done|]. simpl. rewrite IH. lia. Qed.

Lemma listening_keydown event api key s : listening event api (carousel_keydown key s) = 0%Z.
Proof.
  unfold carousel_keydown, carousel_scrollPrev, carousel_scrollNext.
  by repeat case_match.
Qed.

Lemma listening_share event api current setApi : listening event api (share_effect current setApi) = 0%Z.
Proof. by destruct current, setApi. Qed.

Lemma listening_select api s ev :
  let '(calls, s') := carousel_step s ev in
  (listening select api calls = is_current api s' - is_current api s)%Z.
Proof.
  destruct ev as [current setApi can|current can|key|]; simpl.
  - case_bool_decide as E.
    + subst. case_bool_decide; simpl; rewrite ?listening_share; unfold is_current; simpl; lia.
    + destruct (listen_effect _ _ _) as [calls s'] eqn:El. rewrite !listening_app, listening_share.
      unfold listen_effect, listen_cleanup, is_current in *.
      destruct current as [i|], (ca_api s) as [j|]; simpl in *; simplify_eq; simpl;
        unfold listens; repeat case_bool_decide; simplify_eq; try lia; congruence.
  - unfold is_current. simpl. lia.
  - rewrite listening_keydown. lia.
  - unfold listen_cleanup, is_current. destruct (ca_api s); simpl; unfold listens;
      repeat case_bool_decide; simplify_eq; try lia; congruence.
Qed.

(** Whatever happens to a carousel, it listens to the selections of its current instance exactly
    once and of no other; but it never stops listening to the new starts of an instance it had. *)
Lemma carousel_listens evs api s :
  let '(calls, s') := carousel_run s evs in
  (listening select api calls = is_current api s' - is_current api s)%Z
  ∧ cc_off api reInit ∉ calls.
Proof.
  revert s. induction evs as [|ev evs IH]; intros s; simpl; [split; [lia|set_solver]|].
  assert (cc_off api reInit ∉ (carousel_step s ev).1) as Ho.
  { clear IH. destruct ev as [current setApi can|current can|key|]; simpl; rewrite list_elem_of_In.
    - unfold listen_effect, listen_cleanup, share_effect.
      repeat (case_match || case_bool_decide); simplify_eq/=; naive_solver.
    - by intros [].
    - unfold carousel_keydown, carousel_scrollPrev, carousel_scrollNext. repeat case_match; simpl; naive_solver.
    - unfold listen_cleanup. case_match; simpl; naive_solver. }
  pose proof (listening_select api s ev) as Hs.
  destruct (carousel_step s ev) as [calls s1]. specialize (IH s1).
  destruct (carousel_run s1 evs) as [calls' s2]. destruct IH as [IH1 IH2].
  rewrite listening_app. split; [lia|]. set_solver.
Qed.

(** A carousel that has ended still listens to its instance. *)
Lemma carousel_leak can :
  let '(calls, s) := carousel_run carousel_init [ca_render (Some 0) None can; ca_unmount] in
  ca_api s = None ∧ listening select 0 calls = 0%Z ∧ listening reInit 0 calls = 1%Z.
Proof. by vm_compute. Qed.

(** ** The colours and labels of charts *)

(** An entry of a chart's configuration: its label, whether it has an icon, and one colour or a
    colour for each theme. *)
Record ChartItem := {
  ci_label : option jsstr; ci_icon : bool; ci_color : option jsstr; ci_theme : option (jsstr * jsstr) }.

(** A configuration, in the order of [Object.entries]. *)
Definition ChartConfig : Type := list (jsstr * ChartItem).

Inductive ChartTheme := ct_light | ct_dark.
Definition THEMES : list (ChartTheme * jsstr) := [(ct_light, []); (ct_dark, js ".dark")].

Definition theme_color (theme : ChartTheme) (item : ChartItem) : option jsstr :=
  '(light, dark) ← ci_theme item; Some (match theme with ct_light => light | ct_dark => dark end).

Definition has_color (item : ChartItem) : bool :=
  match ci_theme item with Some _ => true | None => truthy (default [] (ci_color item)) end.

(** The declaration of an entry under a theme; [join] writes [null] as the empty text. *)
Definition color_line (theme : ChartTheme) (entry : jsstr * ChartItem) : jsstr :=
  match str_or_null (Some (str_or (theme_color theme entry.2) (default [] (ci_color entry.2)))) with
  | Some color => js "  --color-" ++ entry.1 ++ js ": " ++ color ++ js ";"
  | None => []
  end.

Definition newline : jsstr := [10%N].

Definition theme_block (id : jsstr) (colorConfig : ChartConfig) (theme : ChartTheme * jsstr) : jsstr :=
  newline ++ theme.2 ++ js " [data-chart=" ++ id ++ js "] {" ++ newline
  ++ join newline (color_line theme.1 <$> colorConfig) ++ newline ++ js "}" ++ newline.

(** The text of the style element; [None] when there is none. *)
Definition ChartStyle (id : jsstr) (config : ChartConfig) : option jsstr :=
  let colorConfig := js_filter (λ entry, has_color entry.2) config in
  match colorConfig with
  | [] => None
  | _ => Some (join newline (theme_block id colorConfig <$> THEMES))
  end.

(** The identifier of a chart: that of its properties, or the one of React without its colons. *)
Definition chart_id (id : option jsstr) (uniqueId : jsstr) : jsstr :=
  js "chart-" ++ str_or id (js_filter (λ c, negb (c =? 58)%N) uniqueId).

(** *** The entry of a series *)

(** The names that every object inherits. *)
Definition object_prototype : list jsstr :=
  [js "constructor"; js "hasOwnProperty"; js "isPrototypeOf"; js "propertyIsEnumerable";
   js "toLocaleString"; js "toString"; js "valueOf"; js "__proto__"; js "__defineGetter__";
   js "__defineSetter__"; js "__lookupGetter__"; js "__lookupSetter__"].

(** [config[key]]: an entry, or an inherited function, which has no label and no icon. *)
Definition inherited_item : ChartItem :=
  {| ci_label := None; ci_icon := false; ci_color := None; ci_theme := None |}.
Definition config_get (config : ChartConfig) (key : jsstr) : option ChartItem :=
  match js_find (λ entry, str_eqb entry.1 key) config with
  | Some entry => Some entry.2
  | None => if bool_decide (key ∈ object_prototype) then Some inherited_item else None
  end.

(** [typeof v[key] === "string"] of an object; what it inherits are no texts. *)
Definition text_at (key : jsstr) (v : json) : option jsstr :=
  match json_get key v with Some (JString t) => Some t | _ => None end.

Definition is_object (v : json) : bool := match v with JObject _ => true | _ => false end.

(** [getPayloadConfigFromPayload], for a payload that the chart library passes (an object) or a
    value that is none. *)
Definition getPayloadConfigFromPayload (config : ChartConfig) (payload : option json) (key : jsstr)
    : option ChartItem :=
  match payload with
  | Some (JObject fields) =>
      let payload := JObject fields in
      let payloadPayload := match json_get (js "payload") payload with
                            | Some v => if is_object v then Some v else None | None => None end in
      let configLabelKey :=
        match text_at key payload with
        | Some t => t
        | None => default key (payloadPayload ≫= text_at key)
        end in
      match config_get config configLabelKey with
      | Some item => Some item
      | None => config_get config key
      end
  | _ => None
  end.

(** ** The errors of form fields *)

(** What [FieldError] shows: what it was given, one message, or a list of messages. *)
Inductive FieldErrorContent := fc_children (text : jsstr) | fc_message (text : jsstr) | fc_list (items : list jsstr).

(** An entry of [errors] may be missing, and so may its message. *)
Definition error_message (error : option (option jsstr)) : option jsstr := str_or_null (mjoin error).

(** [content]; an alert is shown when there is one. *)
Definition field_error (children : option jsstr) (errors : option (list (option (option jsstr))))
    : option FieldErrorContent :=
  match str_or_null children, errors with
  | Some text, _ => Some (fc_children text)
  | None, None => None
  | None, Some [error] =>
      Some (match error_message error with Some text => fc_message text | None => fc_list [] end)
  | None, Some errors => Some (fc_list (omap error_message errors))
  end.

(** The texts that are read to the user. *)
Definition content_texts (c : option FieldErrorContent) : list jsstr :=
  match c with
  | None => [] | Some (fc_children t) | Some (fc_message t) => [t] | Some (fc_list l) => l end.

(** Every message of the errors is shown, in order, and nothing else, unless there are children. *)
Lemma field_error_shows errors :
  content_texts (field_error None (Some errors)) = omap error_message errors.
Proof. destruct errors as [|e [|e' errors]]; try done. simpl. by destruct (error_message e). Qed.

(** Without an error an alert is still shown, and it is empty. *)
Lemma field_error_empty : field_error None (Some []) = Some (fc_list []).
Proof. done. Qed.

(** The identifiers that [useFormField] derives of the one of its item. *)
Definition formItemId (id : jsstr) : jsstr := id ++ js "-form-item".
Definition formDescriptionId (id : jsstr) : jsstr := id ++ js "-form-item-description".
Definition formMessageId (id : jsstr) : jsstr := id ++ js "-form-item-message".

(** [aria-describedby] of a control; an error is there or not, and may lack a message. *)
Definition describedby (id : jsstr) (error : option (option jsstr)) : jsstr :=
  match error with
  | None => formDescriptionId id
  | Some _ => formDescriptionId id ++ js " " ++ formMessageId id
  end.

(** [FormMessage]: the text of the element with the identifier of the message, if it is shown. *)
Definition form_message (error : option (option jsstr)) (children : option jsstr) : option jsstr :=
  match error with
  | Some message => str_or_null (Some (default [] message))
  | None => str_or_null children
  end.

(** An error without a message is described by an element that is not shown. *)
Lemma describedby_dangles id :
  form_message (Some None) None = None
  ∧ describedby id (Some None) = formDescriptionId id ++ js " " ++ formMessageId id.
Proof. done. Qed.

(** ** The colours of a chart *)

(** A chart has a style exactly when an entry has a colour. *)
Lemma ChartStyle_spec id config :
  ChartStyle id config = None ↔ ∀ entry, entry ∈ config → has_color entry.2 = false.
Proof.
  unfold ChartStyle, js_filter. split.
  - intros Hn entry Hin. destruct (has_color entry.2) eqn:E; [|done]. exfalso.
    assert (In entry (List.filter (λ e, has_color e.2) config)) as Hf
      by (apply filter_In; split; [by apply list_elem_of_In|done]).
    by destruct (List.filter _ config).
  - intros Hn. destruct (List.filter _ config) as [|e l] eqn:E; [done|].
    assert (In e (e :: l)) as Hf by by left. rewrite <- E in Hf.
    apply filter_In in Hf as [Hf1 Hf2]. rewrite Hn in Hf2; [done|]. by apply list_elem_of_In.
Qed.

Example chart_style_text :
  ChartStyle (js "chart-1") [(js "load", {| ci_label := None; ci_icon := false;
                                          ci_color := Some (js "red"); ci_theme := None |})]
  = Some (join newline [join newline [[]; js " [data-chart=chart-1] {"; js "  --color-load: red;"; js "}"; []];
                        join newline [[]; js ".dark [data-chart=chart-1] {"; js "  --color-load: red;"; js "}"; []]]).
Proof. by vm_compute. Qed.
