(* ===== verification/Console.v ===== *)
(** The pages of the console that show evidence: the fleet overview, the host directory, the host
    page and the alert queue ([client/src/pages/]). A page is a function of the answers of its
    queries and of its own state to what it shows: texts, and buttons with what they do; style and
    layout are left out. *)
From S2P Require Import Prelude JsString JsNumber Json Schema OAuthState Trpc Fixtures Router Evidence.

(** ** Queries, requests and buttons *)

(** What a page knows of one of its queries. *)
Record Query (A : Type) := { q_isLoading : bool; q_isError : bool; q_data : option A }.
Arguments q_isLoading {A} q.
Arguments q_isError {A} q.
Arguments q_data {A} q.

(** The form of an alert rule: numbers as the inputs give them. *)
Record EditableRule := {
  er_id : jsstr; er_metric : jsstr; er_operator : Operator; er_threshold : number;
  er_durationSeconds : number; er_severity : Severity; er_enabled : bool; er_scope : Scope;
  er_hostId : option jsstr }.

(** The mutations that the pages send to the console API. *)
Inductive ConsoleRequest :=
| rq_acknowledge (alertId : jsstr)
| rq_interval (hostId : option jsstr) (intervalSeconds : number)
| rq_baseline (hostId : jsstr) (acknowledgedDiff : bool)
| rq_approve (hostId endpoint : jsstr) (runtimeKind : RuntimeKind)
| rq_backup (includeRawTelemetry : bool)
| rq_save (rule : EditableRule).

(** What pressing a button does: go to a path, send a mutation, ask a query again, or change the
    state of the page. *)
Inductive Action (U : Type) :=
| act_navigate (path : jsstr)
| act_request (rq : ConsoleRequest)
| act_refetch
| act_update (ui : U).
Arguments act_navigate {U} path.
Arguments act_request {U} rq.
Arguments act_refetch {U}.
Arguments act_update {U} ui.

Record Button (U : Type) := { bt_label : jsstr; bt_disabled : bool; bt_action : Action U }.
Arguments bt_label {U} b.
Arguments bt_disabled {U} b.
Arguments bt_action {U} b.
Arguments Build_Button {U} _ _ _.

(** A disabled button does nothing. *)
Definition press {U} (b : Button U) : option (Action U) :=
  if bt_disabled b then None else Some (bt_action b).

Definition link {U} (label path : jsstr) : Button U := Build_Button label false (act_navigate path).

(** What a page shows. *)
Inductive PageView (V : Type) := pv_loading | pv_error | pv_content (v : V).
Arguments pv_loading {V}.
Arguments pv_error {V}.
Arguments pv_content {V} v.

Definition choose {A} (preview : bool) (previewQuery liveQuery : A) : A :=
  if preview then previewQuery else liveQuery.

(** [targetPath] of the queue and of the host directory, and of the overview and the sidebar. *)
Definition targetPath (preview : bool) (path : jsstr) : jsstr :=
  if preview then js "/preview" ++ path else path.
Definition rootedPath (preview : bool) (path : jsstr) : jsstr :=
  if preview then js "/preview" ++ (if str_eqb path (js "/") then [] else path) else path.

Definition dot_join : jsstr := js " · ".
Definition status_word (s : Status) : jsstr :=
  match s with healthy => js "healthy" | degraded => js "degraded" | status_unavailable => js "unavailable" end.
Definition freshness_word (s : FreshnessState) : jsstr :=
  match s with fs_fresh => js "fresh" | fs_stale => js "stale" | fs_unavailable => js "unavailable" end.
Definition role_word (r : HostRole) : jsstr :=
  match r with preferred => js "preferred" | secondary => js "secondary" end.
Definition role_badge (r : HostRole) : jsstr :=
  match r with preferred => js "PRIMARY" | secondary => js "SECONDARY" end.
Definition state_word (s : AlertState) : jsstr :=
  match s with active => js "active" | acknowledged => js "acknowledged" | resolved => js "resolved" end.

Definition has_state (s : AlertState) (a : Alert) : bool := bool_decide (a_state a = s).
Definition count {A} (f : A → bool) (l : list A) : nat := length (js_filter f l).
Definition nat_text (n : nat) : jsstr := js_of_Z (Z.of_nat n).

(** ** The alert queue ([AlertsPage]) *)

Inductive AlertStateFilter := sf_all | sf_active | sf_acknowledged.
Inductive AlertSeverityFilter := vf_all | vf_critical | vf_warning.

#[export] Instance AlertStateFilter_eq_dec : EqDecision AlertStateFilter.
Proof. solve_decision. Defined.
#[export] Instance AlertSeverityFilter_eq_dec : EqDecision AlertSeverityFilter.
Proof. solve_decision. Defined.

Definition stateFilters : list AlertStateFilter := [sf_all; sf_active; sf_acknowledged].
Definition severityFilters : list AlertSeverityFilter := [vf_all; vf_critical; vf_warning].

Definition state_filter_word (f : AlertStateFilter) : jsstr :=
  match f with sf_all => js "all" | sf_active => js "active" | sf_acknowledged => js "acknowledged" end.
Definition severity_filter_word (f : AlertSeverityFilter) : jsstr :=
  match f with vf_all => js "all" | vf_critical => js "critical" | vf_warning => js "warning" end.

Definition matches_state (f : AlertStateFilter) (s : AlertState) : bool :=
  match f with sf_all => true | sf_active => bool_decide (s = active)
             | sf_acknowledged => bool_decide (s = acknowledged) end.
Definition matches_severity (f : AlertSeverityFilter) (s : Severity) : bool :=
  match f with vf_all => true | vf_critical => bool_decide (s = critical)
             | vf_warning => bool_decide (s = warning) end.

(** The page's [useState]. *)
Record AlertsUi := { al_stateFilter : AlertStateFilter; al_severityFilter : AlertSeverityFilter }.
Definition alerts_ui_init : AlertsUi := {| al_stateFilter := sf_all; al_severityFilter := vf_all |}.

Definition filteredAlerts (ui : AlertsUi) (alerts : list Alert) : list Alert :=
  js_filter (λ a, matches_state (al_stateFilter ui) (a_state a)
                  && matches_severity (al_severityFilter ui) (a_severity a)) alerts.

Definition filtersActive (ui : AlertsUi) : bool :=
  bool_decide (al_stateFilter ui ≠ sf_all) || bool_decide (al_severityFilter ui ≠ vf_all).

(** A filter button, with [aria-pressed]. *)
Record Toggle (U : Type) := { tg_button : Button U; tg_pressed : bool }.
Arguments tg_button {U} t.
Arguments tg_pressed {U} t.

Definition state_toggle (ui : AlertsUi) (f : AlertStateFilter) : Toggle AlertsUi := {|
  tg_button := Build_Button (state_filter_word f) false
    (act_update {| al_stateFilter := f; al_severityFilter := al_severityFilter ui |});
  tg_pressed := bool_decide (al_stateFilter ui = f) |}.
Definition severity_toggle (ui : AlertsUi) (f : AlertSeverityFilter) : Toggle AlertsUi := {|
  tg_button := Build_Button (severity_filter_word f) false
    (act_update {| al_stateFilter := al_stateFilter ui; al_severityFilter := f |});
  tg_pressed := bool_decide (al_severityFilter ui = f) |}.
Definition clear_button {U} (label : jsstr) (init : U) : Button U := Build_Button label false (act_update init).

(** The article of an alert; the time is shown in the locale of the browser. *)
Record AlertCard := {
  ac_id : jsstr; ac_severity : Severity; ac_title : jsstr; ac_badge : jsstr; ac_detail : jsstr;
  ac_observedAt : Z; ac_host : Button AlertsUi; ac_acknowledge : option (Button AlertsUi) }.

Definition alert_card (preview isPending : bool) (fleet : FleetSnapshot) (a : Alert) : AlertCard :=
  let host := js_find (λ candidate, str_eqb (host_id candidate) (a_hostId a)) (fl_hosts fleet) in
  {| ac_id := a_id a; ac_severity := a_severity a; ac_title := a_title a;
     ac_badge := state_word (a_state a); ac_detail := a_detail a; ac_observedAt := a_observedAt a;
     ac_host := link (match host with Some h => host_name h | None => a_hostId a end)
                  (targetPath preview (js "/hosts/" ++ a_hostId a));
     ac_acknowledge :=
       if has_state active a then
         Some (Build_Button (if preview then js "Preview only" else js "Acknowledge")
                 (preview || isPending) (act_request (rq_acknowledge (a_id a))))
       else None |}.

Record AlertsView := {
  av_activeCount : nat; av_acknowledgedCount : nat;
  av_stateFilters : list (Toggle AlertsUi); av_severityFilters : list (Toggle AlertsUi);
  av_clear : option (Button AlertsUi); av_shown : jsstr; av_cards : list AlertCard;
  av_empty : option (Button AlertsUi) }.

Definition alerts_view (preview isPending : bool) (ui : AlertsUi) (fleet : FleetSnapshot) : AlertsView :=
  let alerts := fl_alerts fleet in
  let filtered := filteredAlerts ui alerts in
  {| av_activeCount := count (has_state active) alerts;
     av_acknowledgedCount := count (has_state acknowledged) alerts;
     av_stateFilters := state_toggle ui <$> stateFilters;
     av_severityFilters := severity_toggle ui <$> severityFilters;
     av_clear := if filtersActive ui then Some (clear_button (js "Clear filters") alerts_ui_init) else None;
     av_shown := js "Showing " ++ nat_text (length filtered) ++ js " of "
                 ++ nat_text (length alerts) ++ js " alerts.";
     av_cards := alert_card preview isPending fleet <$> filtered;
     av_empty := match filtered with
                 | [] => Some (clear_button (js "Clear alert filters") alerts_ui_init)
                 | _ => None end |}.

Definition AlertsPage (preview isPending : bool) (ui : AlertsUi) (previewQuery liveQuery : Query FleetSnapshot)
    : PageView AlertsView :=
  match q_data (choose preview previewQuery liveQuery) with
  | None => pv_loading
  | Some fleet => pv_content (alerts_view preview isPending ui fleet)
  end.

Definition alerts_buttons (v : AlertsView) : list (Button AlertsUi) :=
  (tg_button <$> av_stateFilters v) ++ (tg_button <$> av_severityFilters v)
  ++ option_list (av_clear v) ++ option_list (av_empty v)
  ++ mbind (λ c, ac_host c :: option_list (ac_acknowledge c)) (av_cards v).

(** ** The host directory ([HostsPage]) *)

(** [toLocaleLowerCase], which depends on the locale of the browser. *)
Class LocaleCase := { toLocaleLowerCase : jsstr → jsstr }.

Inductive AvailabilityFilter := hf_all | hf_status (s : Status).

#[export] Instance AvailabilityFilter_eq_dec : EqDecision AvailabilityFilter.
Proof. solve_decision. Defined.

Definition availabilityFilters : list AvailabilityFilter :=
  [hf_all; hf_status healthy; hf_status degraded; hf_status status_unavailable].
Definition availability_word (f : AvailabilityFilter) : jsstr :=
  match f with hf_all => js "all" | hf_status s => status_word s end.

Record HostsUi := { ho_search : jsstr; ho_availability : AvailabilityFilter }.
Definition hosts_ui_init : HostsUi := {| ho_search := []; ho_availability := hf_all |}.

Section Hosts.
Context `{LocaleCase}.

Definition searchableText (h : HostSnapshot) : jsstr :=
  toLocaleLowerCase (join (js " ")
    (host_name h :: host_platform h :: host_architecture h :: role_word (host_role h) :: host_tags h)).

Definition matches_availability (f : AvailabilityFilter) (s : Status) : bool :=
  match f with hf_all => true | hf_status t => bool_decide (s = t) end.

Definition matches_host (ui : HostsUi) (h : HostSnapshot) : bool :=
  let normalizedSearch := toLocaleLowerCase (trim (ho_search ui)) in
  matches_availability (ho_availability ui) (host_status h)
  && (negb (truthy normalizedSearch) || includes normalizedSearch (searchableText h)).

Definition visibleHosts (ui : HostsUi) (hosts : list HostSnapshot) : list HostSnapshot :=
  js_filter (matches_host ui) hosts.

Record HostCard := {
  hc_button : Button HostsUi; hc_role : jsstr; hc_platform : jsstr; hc_status : jsstr;
  hc_freshness : jsstr; hc_tags : jsstr }.

Definition host_card (preview : bool) (h : HostSnapshot) : HostCard := {|
  hc_button := link (host_name h) (targetPath preview (js "/hosts/" ++ host_id h));
  hc_role := role_badge (host_role h);
  hc_platform := host_platform h ++ dot_join ++ host_architecture h;
  hc_status := status_word (host_status h);
  hc_freshness := match f_state (host_freshness h) with
                  | fs_fresh => js_of_Z (f_ageSeconds (host_freshness h)) ++ js "s since evidence"
                  | s => freshness_word s end;
  hc_tags := str_or (Some (join dot_join (take 3 (host_tags h)))) (js "No host tags") |}.

Record HostsView := {
  hv_configured : jsstr; hv_clearSearch : option (Button HostsUi); hv_filters : list (Toggle HostsUi); hv_clear : option (Button HostsUi);
  hv_shown : jsstr; hv_cards : list HostCard; hv_empty : option (Button HostsUi);
  hv_links : list (Button HostsUi) }.

(** Typing into the search field. *)
Definition typed_search (text : jsstr) (ui : HostsUi) : HostsUi :=
  {| ho_search := text; ho_availability := ho_availability ui |}.

Definition availability_toggle (ui : HostsUi) (f : AvailabilityFilter) : Toggle HostsUi := {|
  tg_button := Build_Button (availability_word f) false
    (act_update {| ho_search := ho_search ui; ho_availability := f |});
  tg_pressed := bool_decide (ho_availability ui = f) |}.

Definition hosts_view (preview : bool) (ui : HostsUi) (hosts : list HostSnapshot) : HostsView :=
  let visible := visibleHosts ui hosts in
  {| hv_configured := nat_text (length hosts) ++ js " configured hosts";
     hv_clearSearch := if truthy (ho_search ui)
                       then Some (clear_button (js "Clear host search") (typed_search [] ui)) else None;
     hv_filters := availability_toggle ui <$> availabilityFilters;
     hv_clear := if truthy (trim (ho_search ui)) || bool_decide (ho_availability ui ≠ hf_all)
                 then Some (clear_button (js "Clear filters") hosts_ui_init) else None;
     hv_shown := js "Showing " ++ nat_text (length visible) ++ js " of "
                 ++ nat_text (length hosts) ++ js " configured hosts.";
     hv_cards := host_card preview <$> visible;
     hv_empty := match visible with
                 | [] => Some (clear_button (js "Clear directory filters") hosts_ui_init)
                 | _ => None end;
     hv_links := [link (js "Open alert queue") (targetPath preview (js "/alerts"));
                  link (js "Open operations") (targetPath preview (js "/operations"))] |}.

Definition HostsPage (preview : bool) (ui : HostsUi) (previewQuery liveQuery : Query FleetSnapshot)
    : PageView HostsView :=
  let query := choose preview previewQuery liveQuery in
  match q_isLoading query, q_data query with
  | true, _ | _, None => pv_loading
  | false, Some fleet =>
      if q_isError query then pv_error else pv_content (hosts_view preview ui (fl_hosts fleet))
  end.
End Hosts.

Definition hosts_buttons (v : HostsView) : list (Button HostsUi) :=
  option_list (hv_clearSearch v) ++ (tg_button <$> hv_filters v) ++ option_list (hv_clear v) ++ option_list (hv_empty v)
  ++ (hc_button <$> hv_cards v) ++ hv_links v.

(** ** Buttons of a view *)

(** Takes lists of buttons apart: [tac] is tried on each button that is given in full. *)
Ltac each_button_with tac :=
  repeat first
    [ apply Forall_app; split
    | apply Forall_nil; exact I
    | apply Forall_cons; split; [try tac|]
    | match goal with
      | |- Forall _ (option_list (if ?c then _ else _)) => destruct c
      | |- Forall _ (option_list (match ?l with [] => _ | _ => _ end)) => destruct l
      | |- Forall _ (option_list (Some _)) => unfold option_list
      | |- Forall _ (option_list None) => apply Forall_nil; exact I
      end ].
