(* ===== verification/Overview.v ===== *)
(** The fleet overview and the page of a host ([client/src/pages/FleetOverview.tsx],
    [client/src/pages/HostDetail.tsx]), shown as the texts and buttons of their queries. *)
From S2P Require Import Prelude JsString JsNumber Json Schema OAuthState Trpc Fixtures Router Evidence Console.

(** ** The fleet overview *)

(** A tile of the posture row; its tone is a colour. *)
Inductive Tone := tone_emerald | tone_amber | tone_cyan.

Record Tile := { ti_label : jsstr; ti_value : jsstr; ti_note : jsstr; ti_tone : Tone; ti_button : Button bool }.

(** The page's state is whether a refresh is under way. *)
Definition posture (label value note : jsstr) (tone : Tone) (path : jsstr) : Tile :=
  {| ti_label := label; ti_value := value; ti_note := note; ti_tone := tone; ti_button := link label path |}.

Definition value_or_zero (m : Metric) : number := default zero (m_value m).

(** [reduce] from 0, in the order of the hosts. *)
Definition totalThroughput (hosts : list HostSnapshot) : number :=
  fold_left (λ sum h, nadd sum (value_or_zero (i_generationThroughput (host_inference h)))) hosts zero.

(** [Math.max] of the temperatures: of none it is -Infinity. *)
Definition maxTemperature (hosts : list HostSnapshot) : number :=
  fold_left math_max
    (value_or_zero <$> mbind (λ h, js_filter (λ m, str_eqb (m_id m) (js "temp")) (host_quickMetrics h)) hosts)
    (S754_infinity true).

Record MetricTile := { mt_label : jsstr; mt_quality : jsstr; mt_display : jsstr; mt_source : jsstr }.
Definition metric_tile (m : Metric) : MetricTile := {|
  mt_label := m_label m; mt_quality := metricQualityLabel (m_quality m); mt_display := m_display m;
  mt_source := m_source m |}.

Record FleetCard := {
  fc_name : jsstr; fc_role : jsstr; fc_platform : jsstr; fc_freshness : jsstr;
  fc_metrics : list MetricTile; fc_tags : list jsstr; fc_inspect : Button bool }.

(** [Freshness]. *)
Definition freshness_label (f : Freshness) : jsstr :=
  match f_state f with
  | fs_fresh => js_of_Z (f_ageSeconds f) ++ js "s ago"
  | fs_stale => js "stale · " ++ js_of_Z (f_ageSeconds f) ++ js "s"
  | fs_unavailable => js "unavailable"
  end.

Definition fleet_card (preview : bool) (h : HostSnapshot) : FleetCard := {|
  fc_name := host_name h; fc_role := role_badge (host_role h);
  fc_platform := host_platform h ++ dot_join ++ host_architecture h;
  fc_freshness := freshness_label (host_freshness h);
  fc_metrics := metric_tile <$> take 6 (host_quickMetrics h);
  fc_tags := take 3 (host_tags h);
  fc_inspect := link (js "Inspect") (rootedPath preview (js "/hosts/" ++ host_id h)) |}.

Record AlertLine := { an_title : jsstr; an_detail : jsstr; an_critical : bool; an_button : Button bool }.
Definition alert_line (preview : bool) (a : Alert) : AlertLine := {|
  an_title := a_title a; an_detail := a_detail a; an_critical := bool_decide (a_severity a = critical);
  an_button := link (js "Open alert details") (rootedPath preview (js "/alerts")) |}.

(** A replica; the name of a host that is not in the snapshot is [undefined]. *)
Record ReplicaLine := {
  rl_host : option jsstr; rl_role : jsstr; rl_version : jsstr; rl_certificate : jsstr;
  rl_backup : jsstr; rl_mounted : bool; rl_button : Button bool }.
Definition replica_line (preview : bool) (fleet : FleetSnapshot) (r : Replica) : ReplicaLine := {|
  rl_host := host_name <$> js_find (λ h, str_eqb (host_id h) (rp_hostId r)) (fl_hosts fleet);
  rl_role := role_word (rp_role r); rl_version := rp_version r;
  rl_certificate := js "Cert " ++ js_of_Z (rp_certificateDaysRemaining r) ++ js "d";
  rl_backup := js "Backup " ++ freshness_word (rp_backupFreshness r);
  rl_mounted := bool_decide (rp_sharedBackupMount r = mounted);
  rl_button := link (js "Inspect host") (rootedPath preview (js "/hosts/" ++ rp_hostId r)) |}.

Record FleetView := {
  fv_developmentPreview : bool; fv_generatedAt : Z; fv_interval : jsstr;
  fv_refresh : Button bool; fv_tiles : list Tile; fv_cards : list FleetCard;
  fv_alerts : list AlertLine; fv_replicas : list ReplicaLine; fv_links : list (Button bool) }.

Definition fleet_tiles (preview : bool) (fleet : FleetSnapshot) : list Tile :=
  let hosts := fl_hosts fleet in
  [posture (js "Host availability")
     (nat_text (count (λ h, bool_decide (host_status h = healthy)) hosts) ++ js "/" ++ nat_text (length hosts))
     (js "Select a host to inspect freshness and evidence") tone_emerald (rootedPath preview (js "/hosts"));
   posture (js "Active alerts") (nat_text (count (has_state active) (fl_alerts fleet)))
     (js "Open the alert queue")
     (if (fl_activeAlertCount fleet =? 0)%Z then tone_emerald else tone_amber) (rootedPath preview (js "/alerts"));
   posture (js "Generation throughput") (js_of_num (math_round (totalThroughput hosts)) ++ js " tok/s")
     (js "Review runtime and proxy operations") tone_cyan (rootedPath preview (js "/operations"));
   posture (js "Peak temperature") (js_of_num (maxTemperature hosts) ++ js "°C")
     (js "Select a host to inspect device evidence")
     (if nltb (num_of_Z 80) (maxTemperature hosts) then tone_amber else tone_cyan)
     (rootedPath preview (js "/hosts"))].

Definition fleet_view (preview refreshing : bool) (fleet : FleetSnapshot) : FleetView := {|
  fv_developmentPreview := fl_developmentPreview fleet; fv_generatedAt := fl_generatedAt fleet;
  fv_interval := js_of_Z (fl_globalIntervalSeconds fleet) ++ js "s global interval";
  fv_refresh := Build_Button (if refreshing then js "Refreshing" else js "Refresh") refreshing act_refetch;
  fv_tiles := fleet_tiles preview fleet; fv_cards := fleet_card preview <$> fl_hosts fleet;
  fv_alerts := alert_line preview <$> fl_alerts fleet;
  fv_replicas := replica_line preview fleet <$> fl_replicas fleet;
  fv_links := [link (js "Review operations") (rootedPath preview (js "/operations"));
               link (js "Choose a host") (rootedPath preview (js "/hosts"));
               link (js "Open alert queue") (rootedPath preview (js "/alerts"));
               link (js "Open operations") (rootedPath preview (js "/operations"))] |}.

Definition FleetOverview (preview refreshing : bool) (previewQuery liveQuery : Query FleetSnapshot)
    : PageView FleetView :=
  let query := choose preview previewQuery liveQuery in
  match q_isLoading query, q_data query with
  | true, _ | _, None => pv_loading
  | false, Some fleet =>
      if q_isError query then pv_error else pv_content (fleet_view preview refreshing fleet)
  end.

Definition fleet_buttons (v : FleetView) : list (Button bool) :=
  fv_refresh v :: (ti_button <$> fv_tiles v) ++ (fc_inspect <$> fv_cards v)
  ++ (an_button <$> fv_alerts v) ++ (rl_button <$> fv_replicas v) ++ fv_links v.

(** ** The page of a host *)

(** The host that is shown, with its alerts: of the preview, those of the snapshot; otherwise the
    answers of two queries. *)
Definition detail_host (preview : bool) (hostId : jsstr) (previewQuery : Query FleetSnapshot)
    (hostQuery : Query HostSnapshot) : option HostSnapshot :=
  if preview then
    fleet ← q_data previewQuery; js_find (λ candidate, str_eqb (host_id candidate) hostId) (fl_hosts fleet)
  else q_data hostQuery.

Definition detail_alerts (preview : bool) (hostId : jsstr) (previewQuery : Query FleetSnapshot)
    (hostAlertsQuery : Query (list Alert)) : list Alert :=
  default [] (if preview then
                (λ fleet, js_filter (λ a, str_eqb (a_hostId a) hostId) (fl_alerts fleet)) <$> q_data previewQuery
              else q_data hostAlertsQuery).

Definition isGX10 (h : HostSnapshot) : bool := includes (js "GX10") (host_platform h).
Definition nonFreshMetricCount (h : HostSnapshot) : nat :=
  count (λ m, bool_decide (m_quality m ≠ fresh)) (host_hardware h ++ host_memory h ++ host_quickMetrics h).
Definition preflightAttentionCount (h : HostSnapshot) : nat :=
  count (λ c, match pf_state c with cap_available => false | _ => true end) (host_preflight h).

Definition counted (label : jsstr) (n : nat) : jsstr :=
  if (0 <? n)%nat then label ++ js " (" ++ nat_text n ++ js ")" else label.

Definition tabLabels (h : HostSnapshot) (alerts : list Alert) : list (jsstr * jsstr) :=
  [(js "hardware", js "Hardware");
   (js "memory", if isGX10 h then js "UMA memory" else js "Memory");
   (js "storage", js "Storage"); (js "processes", js "Processes"); (js "containers", js "Containers");
   (js "inference", js "Inference");
   (js "alerts", counted (js "Alerts") (count (has_state active) alerts));
   (js "preflight", counted (js "Preflight") (preflightAttentionCount h));
   (js "history", js "History")].

(** The two halves of the unified-memory panel. *)
Definition osMetrics (memory : list Metric) : list Metric :=
  js_filter (λ m, bool_decide (m_id m ∈ [js "uma-os"; js "uma-swap"; js "uma-hugepages"])) memory.
Definition processMetrics (memory : list Metric) : list Metric :=
  js_filter (λ m, bool_decide (m_id m ∈ [js "uma-process"; js "uma-runtime"; js "vram"])) memory.

Record MetricLine := {
  ml_label : jsstr; ml_semantics : jsstr; ml_quality : jsstr; ml_display : jsstr; ml_source : jsstr }.
Definition MetricRow (m : Metric) : MetricLine := {|
  ml_label := m_label m; ml_semantics := m_semantics m;
  ml_quality := metricQualityLabel (m_quality m); ml_display := m_display m;
  ml_source := js "Source: " ++ m_source m |}.

(** The memory tab: one list, or two on a unified-memory host. *)
Definition memory_panel (h : HostSnapshot) : list (list MetricLine) :=
  if isGX10 h then [MetricRow <$> osMetrics (host_memory h); MetricRow <$> processMetrics (host_memory h)]
  else [MetricRow <$> host_memory h].

(** A line of the inventories. *)
Record InventoryRow := { iv_primary : jsstr; iv_secondary : jsstr; iv_state : Status; iv_selected : bool }.

Definition process_row (p : ProcessEntry) : InventoryRow := {|
  iv_primary := p_name p; iv_secondary := js "PID " ++ p_pid p ++ dot_join ++ p_uptime p;
  iv_state := p_status p; iv_selected := p_selected p |}.
Definition container_row (c : ContainerEntry) : InventoryRow := {|
  iv_primary := c_name c; iv_secondary := c_image c ++ dot_join ++ c_age c;
  iv_state := match c_state c with running => healthy | restarting => degraded | exited => status_unavailable end;
  iv_selected := c_selected c |}.

(** The usage of a mount: without a percentage, the text in its place. *)
Definition mount_usage (m : StorageEntry) : jsstr :=
  match st_usage m with
  | None => st_used m
  | Some usage => js_of_num usage ++ js "% · " ++ st_used m ++ js " / " ++ st_total m
  end.

(** [HostAlertSummaryPanel]'s line about the queue. *)
Definition alert_summary (alerts : list Alert) : jsstr :=
  match count (has_state active) alerts with
  | O => js "No active alerts for this host."
  | n => nat_text n ++ js " active " ++ (if (n =? 1)%nat then js "alert requires" else js "alerts require")
         ++ js " operator attention."
  end ++ js " Acknowledgement is an operator workflow state and does not change the evidence-quality guard.".

(** A reading of the posture column and of the inference tab. *)
Definition reading (m : Metric) : MetricTile := {|
  mt_label := m_label m; mt_quality := metricQualityLabel (m_quality m); mt_display := m_display m;
  mt_source := js "Source: " ++ m_source m |}.

Definition quality_word (q : Quality) : jsstr :=
  match q with
  | fresh => js "fresh" | stale => js "stale" | unavailable => js "unavailable"
  | unsupported => js "unsupported" | estimated => js "estimated" | experimental => js "experimental"
  end.
Definition mount_word (s : MountState) : jsstr :=
  match s with
  | mounted => js "mounted" | read_only => js "read-only" | missing => js "missing" | learning => js "learning"
  end.

Record MountRow := { mr_mount : jsstr; mr_usage : jsstr; mr_state : jsstr; mr_provenance : jsstr }.
Definition mount_row (m : StorageEntry) : MountRow := {|
  mr_mount := st_mount m; mr_usage := mount_usage m; mr_state := mount_word (st_state m);
  mr_provenance := st_source m ++ dot_join ++ quality_word (st_quality m) |}.

(** The readings of the inference tab. *)
Definition inference_readings (i : Inference) : list Metric :=
  [i_requestRate i; i_ttft i; i_promptThroughput i; i_generationThroughput i; i_activeRequests i].

Record CapabilityRow := {
  cr_capability : jsstr; cr_state : CapabilityState; cr_detail : jsstr; cr_remediation : option jsstr }.
(** [installHint &&]: an empty hint is not shown. *)
Definition capability_row (c : PreflightEntry) : CapabilityRow := {|
  cr_capability := pf_capability c; cr_state := pf_state c; cr_detail := pf_detail c;
  cr_remediation := match pf_installHint c with
                    | Some hint => if truthy hint then Some (js "Remediation: " ++ hint) else None
                    | None => None end |}.

(** A line of the alerts tab; the time is shown in the locale of the browser. *)
Record AlertRow := {
  lr_title : jsstr; lr_detail : jsstr; lr_severity : jsstr; lr_state : jsstr; lr_observedAt : Z }.
Definition alert_row (a : Alert) : AlertRow := {|
  lr_title := a_title a; lr_detail := a_detail a; lr_severity := severity_text (a_severity a);
  lr_state := state_word (a_state a); lr_observedAt := a_observedAt a |}.

(** [toUpperCase] of the role. *)
Definition role_upper (r : HostRole) : jsstr :=
  match r with preferred => js "PREFERRED" | secondary => js "SECONDARY" end.

Record HostView := {
  dv_name : jsstr; dv_status : Status; dv_role : jsstr; dv_freshness : jsstr; dv_platform : jsstr;
  dv_tags : list jsstr; dv_activeAlerts : nat; dv_nonFresh : nat; dv_preflightAttention : nat;
  dv_tabs : list (jsstr * jsstr); dv_hardware : list MetricLine; dv_posture : list MetricTile;
  dv_memory : list (list MetricLine); dv_storage : list MountRow; dv_processes : list InventoryRow;
  dv_containers : list InventoryRow; dv_inference : list MetricTile;
  dv_runtimes : list RuntimeInventoryDisplay; dv_clients : list ClientUsage; dv_alertSummary : jsstr;
  dv_alerts : list AlertRow; dv_preflight : list CapabilityRow; dv_history : list HistoryPoint;
  dv_links : list (Button unit) }.

Definition host_view (preview : bool) (h : HostSnapshot) (alerts : list Alert) : HostView :=
  let gateway := if preview then js "/preview" else [] in
  {| dv_name := host_name h; dv_status := host_status h; dv_role := role_upper (host_role h);
     dv_freshness := freshness_word (f_state (host_freshness h)) ++ dot_join
                     ++ js_of_Z (f_ageSeconds (host_freshness h)) ++ js "s ago";
     dv_platform := host_platform h ++ dot_join ++ host_architecture h; dv_tags := host_tags h;
     dv_activeAlerts := count (has_state active) alerts;
     dv_nonFresh := nonFreshMetricCount h; dv_preflightAttention := preflightAttentionCount h;
     dv_tabs := tabLabels h alerts; dv_hardware := MetricRow <$> host_hardware h;
     dv_posture := reading <$> host_quickMetrics h;
     dv_memory := memory_panel h; dv_storage := mount_row <$> host_storage h;
     dv_processes := process_row <$> host_processes h;
     dv_containers := container_row <$> host_containers h;
     dv_inference := reading <$> inference_readings (host_inference h);
     dv_runtimes := runtimeInventoryDisplay <$> host_runtimes h;
     dv_clients := i_clientUsage (host_inference h);
     dv_alertSummary := alert_summary alerts; dv_alerts := alert_row <$> alerts;
     dv_preflight := capability_row <$> host_preflight h; dv_history := host_history h;
     dv_links := [link (js "Fleet overview") (str_or (Some gateway) (js "/"));
                  link (js "All hosts") (gateway ++ js "/hosts")] |}.

Definition HostDetail (preview : bool) (hostId : jsstr) (previewQuery : Query FleetSnapshot)
    (hostQuery : Query HostSnapshot) (hostAlertsQuery : Query (list Alert)) : PageView HostView :=
  let loading := if preview then q_isLoading previewQuery else q_isLoading hostQuery in
  match loading, detail_host preview hostId previewQuery hostQuery with
  | true, _ | _, None => pv_loading
  | false, Some h => pv_content (host_view preview h (detail_alerts preview hostId previewQuery hostAlertsQuery))
  end.
