(* ===== verification/Operations.v ===== *)
(** The pages of the console with forms: operations, administration and alert rules
    ([client/src/pages/OperationsPage.tsx], [AdministrationPage.tsx], [AlertRulesPage.tsx]). *)
From S2P Require Import Prelude JsString JsNumber Json Schema OAuthState Trpc Fixtures Router Evidence Console.

(** ** Operations *)

(** The page's state; the scope of the interval is ["global"] or a host. *)
Record OperationsUi := { op_interval : number; op_selectedHost : jsstr; op_baselineAcknowledged : bool }.

Definition operations_ui_init : OperationsUi := {|
  op_interval := num_of_Z 5; op_selectedHost := js "global"; op_baselineAcknowledged := false |}.

Definition global_scope : jsstr := js "global".

(** [selectedHost === "global" ? fleet.globalIntervalSeconds : fleet.hostOverrides[selectedHost] ??
    fleet.globalIntervalSeconds]. *)
Definition effectiveInterval (fleet : FleetSnapshot) (selectedHost : jsstr) : Z :=
  if str_eqb selectedHost global_scope then fl_globalIntervalSeconds fleet
  else default (fl_globalIntervalSeconds fleet) (fl_hostOverrides fleet !! selectedHost).

(** The handlers of the form: choosing a scope loads its interval, typing is clamped. *)
Definition select_scope (fleet : FleetSnapshot) (value : jsstr) (ui : OperationsUi) : OperationsUi := {|
  op_interval := num_of_Z (effectiveInterval fleet value); op_selectedHost := value;
  op_baselineAcknowledged := op_baselineAcknowledged ui |}.

Definition clamp_interval (text : jsstr) : number :=
  math_max (num_of_Z 1) (math_min (num_of_Z 60) (Number_of_string text)).

Definition type_interval (text : jsstr) (ui : OperationsUi) : OperationsUi := {|
  op_interval := clamp_interval text; op_selectedHost := op_selectedHost ui;
  op_baselineAcknowledged := op_baselineAcknowledged ui |}.

Definition set_baselineAcknowledged (b : bool) (ui : OperationsUi) : OperationsUi := {|
  op_interval := op_interval ui; op_selectedHost := op_selectedHost ui; op_baselineAcknowledged := b |}.

(** The mutations that are under way. *)
Record Pending := { pe_interval : bool; pe_baseline : bool; pe_approve : bool }.

Definition interval_button (preview : bool) (p : Pending) (ui : OperationsUi) : Button OperationsUi :=
  Build_Button (js "Apply collection interval") (preview || pe_interval p)
    (act_request (rq_interval
       (if str_eqb (op_selectedHost ui) global_scope then None else Some (op_selectedHost ui))
       (op_interval ui))).

Definition baseline_button (preview : bool) (p : Pending) (ui : OperationsUi) (h : HostSnapshot)
    : Button OperationsUi :=
  Build_Button (js "Refresh") (preview || pe_baseline p || negb (op_baselineAcknowledged ui))
    (act_request (rq_baseline (host_id h) (op_baselineAcknowledged ui))).

Definition baseline_switch (preview : bool) (ui : OperationsUi) : Button OperationsUi :=
  Build_Button (js "I reviewed the storage diff and approve replacing the learned baseline.") preview
    (act_update (set_baselineAcknowledged (negb (op_baselineAcknowledged ui)) ui)).

Definition nonFinalMounts (h : HostSnapshot) : nat :=
  count (λ m, bool_decide (st_state m ∈ [learning; missing])) (host_storage h).

(** The runtimes that wait for approval, with their hosts. *)
Definition runtimeCandidates (fleet : FleetSnapshot) : list (HostSnapshot * RuntimeEntry) :=
  mbind (λ h, pair h <$> js_filter (λ r, bool_decide (r_state r = discovered)) (host_runtimes h)) (fl_hosts fleet).

Definition approve_button (preview : bool) (p : Pending) (c : HostSnapshot * RuntimeEntry) : Button OperationsUi :=
  Build_Button (js "Approve") (preview || pe_approve p)
    (act_request (rq_approve (host_id c.1) (r_endpoint c.2) (r_kind c.2))).

(** A candidate shows its kind and host; where it runs is withheld. *)
Record CandidateLine := { cl_title : jsstr; cl_note : jsstr; cl_approve : Button OperationsUi }.
Definition candidate_line (preview : bool) (p : Pending) (c : HostSnapshot * RuntimeEntry) : CandidateLine := {|
  cl_title := kind_text (r_kind c.2) ++ dot_join ++ host_name c.1;
  cl_note := js "Discovered endpoint location intentionally withheld";
  cl_approve := approve_button preview p c |}.

Record BaselineLine := { bl_host : jsstr; bl_mounts : jsstr; bl_refresh : Button OperationsUi }.

Record OperationsView := {
  ov_previewBadge : bool; ov_scopes : list (jsstr * jsstr); ov_interval : number; ov_effective : jsstr;
  ov_effectiveNote : jsstr; ov_apply : Button OperationsUi; ov_baselines : list BaselineLine;
  ov_acknowledge : Button OperationsUi; ov_queue : jsstr; ov_candidates : list CandidateLine }.

Definition operations_view (preview : bool) (p : Pending) (ui : OperationsUi) (fleet : FleetSnapshot)
    : OperationsView :=
  let candidates := runtimeCandidates fleet in
  {| ov_previewBadge := preview;
     ov_scopes := (global_scope, js "Global default")
       :: ((λ h, (host_id h, host_name h ++ js " override")) <$> fl_hosts fleet);
     ov_interval := op_interval ui;
     ov_effective := js_of_Z (effectiveInterval fleet (op_selectedHost ui)) ++ js "s";
     ov_effectiveNote :=
       match js_find (λ h, str_eqb (host_id h) (op_selectedHost ui)) (fl_hosts fleet) with
       | Some h => host_name h ++ js " falls back to global when no override is set."
       | None => js "Applied fleet-wide unless a host override exists."
       end;
     ov_apply := interval_button preview p ui;
     ov_baselines := (λ h, {| bl_host := host_name h;
                              bl_mounts := nat_text (nonFinalMounts h) ++ js " non-final mount states";
                              bl_refresh := baseline_button preview p ui h |}) <$> fl_hosts fleet;
     ov_acknowledge := baseline_switch preview ui;
     ov_queue := nat_text (length candidates) ++ js " discovered "
       ++ (if (length candidates =? 1)%nat then js "runtime awaits" else js "runtimes await")
       ++ js " administrative review. Approval changes route eligibility, not evidence provenance.";
     ov_candidates := candidate_line preview p <$> candidates |}.

Definition OperationsPage (preview : bool) (p : Pending) (ui : OperationsUi)
    (previewQuery liveQuery : Query FleetSnapshot) : PageView OperationsView :=
  match q_data (choose preview previewQuery liveQuery) with
  | None => pv_loading
  | Some fleet => pv_content (operations_view preview p ui fleet)
  end.

Definition operations_buttons (v : OperationsView) : list (Button OperationsUi) :=
  ov_apply v :: ov_acknowledge v :: (bl_refresh <$> ov_baselines v) ++ (cl_approve <$> ov_candidates v).

(** What happens to the form of a fleet: its fields are edited, in any order. *)
Inductive OperationsEvent := oe_scope (value : jsstr) | oe_type (text : jsstr) | oe_acknowledge (b : bool).

Definition operations_event (fleet : FleetSnapshot) (e : OperationsEvent) (ui : OperationsUi) : OperationsUi :=
  match e with
  | oe_scope value => select_scope fleet value ui
  | oe_type text => type_interval text ui
  | oe_acknowledge b => set_baselineAcknowledged b ui
  end.

(** ** Administration *)

Record AuditLine := { aa_action : jsstr; aa_outcome : AuditOutcome; aa_occurredAt : Z; aa_targetType : jsstr }.

Record AdministrationView := {
  dm_previewBadge : bool; dm_alertRules : Button unit; dm_backup : Button unit; dm_auditStatus : jsstr;
  dm_audits : list AuditLine + jsstr }.

Definition audit_line (e : DevelopmentAudit) : AuditLine := {|
  aa_action := ev_action e; aa_outcome := ev_outcome e; aa_occurredAt := ev_occurredAt e;
  aa_targetType := ev_targetType e |}.

Definition AdministrationPage (preview isPending : bool) (audits : Query (list DevelopmentAudit))
    : AdministrationView := {|
  dm_previewBadge := preview;
  dm_alertRules := link (js "Alert rules")
    (if preview then js "/preview/administration/alert-rules" else js "/administration/alert-rules");
  dm_backup := Build_Button (js "Queue summary backup") (preview || isPending) (act_request (rq_backup false));
  dm_auditStatus :=
    if preview then js "Preview mode: server audit events are not emulated."
    else if q_isLoading audits then js "Loading server-recorded audit activity…"
    else nat_text (length (default [] (q_data audits))) ++ js " recent server-recorded events.";
  dm_audits :=
    if preview then inr (js "Development preview does not emulate audit events. Production actions are surfaced here from the server-side audit log.")
    else match default [] (q_data audits) with
         | [] => inr (js "No operator actions recorded in this session.")
         | l => inl (audit_line <$> l)
         end |}.

Definition administration_buttons (v : AdministrationView) : list (Button unit) :=
  [dm_alertRules v; dm_backup v].

(** ** Alert rules *)

(** The fields that a patch may carry. *)
Record RulePatch := {
  pt_operator : option Operator; pt_threshold : option number; pt_durationSeconds : option number;
  pt_severity : option Severity; pt_enabled : option bool }.

(** [{ ...rule, ...values }]. *)
Definition apply_patch (v : RulePatch) (r : EditableRule) : EditableRule := {|
  er_id := er_id r; er_metric := er_metric r; er_operator := default (er_operator r) (pt_operator v);
  er_threshold := default (er_threshold r) (pt_threshold v);
  er_durationSeconds := default (er_durationSeconds r) (pt_durationSeconds v);
  er_severity := default (er_severity r) (pt_severity v);
  er_enabled := default (er_enabled r) (pt_enabled v); er_scope := er_scope r; er_hostId := er_hostId r |}.

(** The drafts by the identifier of their rule. *)
Abbreviation Drafts := (gmap jsstr EditableRule).

Definition effectiveRules (rules : list EditableRule) (drafts : Drafts) : list EditableRule :=
  (λ r, default r (drafts !! er_id r)) <$> rules.

(** [patch], whose identifier is that of a rule that is shown; [shown] is the list of the render
    that made the handler, which may be older than [drafts]. *)
Definition patch (shown : list EditableRule) (id : jsstr) (values : RulePatch) (drafts : Drafts) : Drafts :=
  match drafts !! id with
  | Some draft => <[id := apply_patch values draft]> drafts
  | None =>
      match js_find (λ r, str_eqb (er_id r) id) shown with
      | Some rule => <[id := apply_patch values rule]> drafts
      | None => drafts
      end
  end.

(** A rule of the server as the page holds it. *)
Definition editable (r : AlertRule) : EditableRule := {|
  er_id := ar_id r; er_metric := ar_metric r; er_operator := ar_operator r; er_threshold := ar_threshold r;
  er_durationSeconds := num_of_Z (ar_durationSeconds r); er_severity := ar_severity r;
  er_enabled := ar_enabled r; er_scope := ar_scope r; er_hostId := ar_hostId r |}.

Record RuleCard := {
  ru_rule : EditableRule; ru_scope : jsstr; ru_disabled : bool; ru_save : Button unit; ru_summary : jsstr }.

Definition rule_card (preview isPending : bool) (r : EditableRule) : RuleCard := {|
  ru_rule := r;
  ru_scope := match er_scope r with
              | scope_fleet => js "Fleet-wide"
              | scope_host => js "Host: " ++ default (js "null") (er_hostId r) end;
  ru_disabled := preview;
  ru_save := Build_Button (js "Save") (preview || isPending) (act_request (rq_save r));
  ru_summary := js "Threshold " ++ (match er_operator r with op_gt => js "exceeds" | op_lt => js "falls below" end)
    ++ js " " ++ js_of_num (er_threshold r) ++ js " for " ++ js_of_num (er_durationSeconds r) ++ js "s · "
    ++ severity_text (er_severity r) |}.

Definition AlertRulesPage (preview isPending : bool) (drafts : Drafts)
    (previewRules liveRules : option (list AlertRule)) : PageView (list RuleCard) :=
  match choose preview previewRules liveRules with
  | None => pv_loading
  | Some rules => pv_content (rule_card preview isPending <$> effectiveRules (editable <$> rules) drafts)
  end.
