(* ===== verification/Routes.v ===== *)
(** The console's routes and its frame ([client/src/App.tsx],
    [client/src/components/DashboardLayout.tsx]): which page a path shows, who gets to see it, and
    what the sidebar marks. *)
From S2P Require Import Prelude JsString JsNumber Json Schema OAuthState Trpc Fixtures Router Evidence Console Overview Operations Node Logger Users Session Forge Browser.

(** ** Paths *)

(** The characters of the paths that the console makes of its own. *)
Definition path_char (c : N) : bool := ((97 <=? c) && (c <=? 122))%N || is_digit c || (c =? 45)%N.
(** One segment, such as the identifier of a host. *)
Definition segment (s : jsstr) : bool := truthy s && forallb path_char s.
Definition plain_path (s : jsstr) : bool :=
  forallb (λ c, path_char c || (c =? slash)%N) s && (str_eqb s (js "/") || negb (endsWith [slash] s)).

(** The rest of a text after a prefix. *)
Definition after (prefix s : jsstr) : option jsstr :=
  if startsWith prefix s then Some (drop (length prefix) s) else None.

Definition colon : N := 58%N.

(** The router library, for the two forms of patterns that the console uses: a pattern without
    parameters matches its own path, and one that ends in a parameter matches one more segment. *)
Class Wouter := {
  matchRoute : jsstr → jsstr → option (list (jsstr * jsstr));
  match_plain pattern path :
    plain_path pattern = true → plain_path path = true →
    matchRoute pattern path = if str_eqb pattern path then Some [] else None;
  match_param base name path :
    plain_path base = true → base ≠ js "/" → colon ∉ name → plain_path path = true →
    matchRoute (base ++ js "/:" ++ name) path
    = match after (base ++ [slash]) path with
      | Some s => if segment s then Some [(name, s)] else None
      | None => None
      end
}.

(** ** [Router] *)

Inductive Page :=
| pg_rules (preview : bool) | pg_administration (preview : bool) | pg_operations (preview : bool)
| pg_alerts (preview : bool) | pg_hosts (preview : bool) | pg_host (preview : bool) (hostId : jsstr)
| pg_fleet (preview : bool) | pg_not_found.

(** The parameter [hostId] of a match. *)
Definition hostId_of (params : list (jsstr * jsstr)) : jsstr :=
  default [] (lookup_name (js "hostId") params).

(** The children of [Switch], in order. *)
Definition routes : list (jsstr * (list (jsstr * jsstr) → Page)) :=
  [(js "/preview/administration/alert-rules", λ _, pg_rules true);
   (js "/preview/administration", λ _, pg_administration true);
   (js "/preview/operations", λ _, pg_operations true);
   (js "/preview/alerts", λ _, pg_alerts true);
   (js "/preview/hosts", λ _, pg_hosts true);
   (js "/preview/hosts" ++ js "/:" ++ js "hostId", λ params, pg_host true (hostId_of params));
   (js "/preview", λ _, pg_fleet true);
   (js "/hosts", λ _, pg_hosts false);
   (js "/hosts" ++ js "/:" ++ js "hostId", λ params, pg_host false (hostId_of params));
   (js "/alerts", λ _, pg_alerts false);
   (js "/operations", λ _, pg_operations false);
   (js "/administration/alert-rules", λ _, pg_rules false);
   (js "/administration", λ _, pg_administration false);
   (js "/", λ _, pg_fleet false);
   (js "/404", λ _, pg_not_found)].

Section Switch.
Context `{Wouter}.

(** [Switch]: the first child that matches, and the last one for every other path. *)
Fixpoint switch (table : list (jsstr * (list (jsstr * jsstr) → Page))) (path : jsstr) : Page :=
  match table with
  | [] => pg_not_found
  | (pattern, page) :: table' =>
      match matchRoute pattern path with Some params => page params | None => switch table' path end
  end.

Definition route (path : jsstr) : Page := switch routes path.
End Switch.

(** ** [DashboardLayout] *)

Record NavigationItem := { ni_label : jsstr; ni_path : jsstr }.

Definition navigation : list NavigationItem :=
  [{| ni_label := js "Fleet overview"; ni_path := js "/" |};
   {| ni_label := js "Hosts"; ni_path := js "/hosts" |};
   {| ni_label := js "Alerts"; ni_path := js "/alerts" |};
   {| ni_label := js "Operations"; ni_path := js "/operations" |};
   {| ni_label := js "Administration"; ni_path := js "/administration" |}].

Definition preview_prefix : jsstr := js "/preview".

(** [/^\/preview(?:\/|$)/.test(path)]. *)
Definition under_preview (path : jsstr) : bool :=
  match after preview_prefix path with
  | Some [] => true
  | Some (c :: _) => (c =? slash)%N
  | None => false
  end.

(** [location.replace(/^\/preview(?=\/|$)/, "") || "/"] in the preview. *)
Definition normalizedLocation (preview : bool) (location : jsstr) : jsstr :=
  if preview then
    str_or (Some (if under_preview location then drop (length preview_prefix) location else location)) (js "/")
  else location.

(** The first two parts of a path, as [split("/").slice(0, 2).join("/")]. *)
Definition section_of (path : jsstr) : jsstr := join [slash] (take 2 (split_on slash path)).

Definition nav_active (preview : bool) (location : jsstr) (i : NavigationItem) : bool :=
  if str_eqb (ni_path i) (js "/") then str_eqb (normalizedLocation preview location) (js "/")
  else startsWith (section_of (ni_path i)) (normalizedLocation preview location).

Definition nav_button (preview : bool) (i : NavigationItem) : Button unit :=
  link (ni_label i) (rootedPath preview (ni_path i)).

(** The user the sidebar names. *)
Record SidebarUser := { su_name : jsstr; su_email : jsstr; su_role : jsstr }.
Definition previewUser : SidebarUser := {|
  su_name := js "Development preview"; su_email := js "fixture-only"; su_role := js "Administrator" |}.
Definition sidebar_user (u : option User) : SidebarUser :=
  match u with
  | Some u => {| su_name := default (js "Operator") (user_name u); su_email := default [] (user_email u);
                 su_role := user_role_text (user_role_ u) |}
  | None => previewUser
  end.

(** What the frame shows: a skeleton, the invitation to sign in, or the page with the sidebar, in
    which signing out is offered outside of the preview only. *)
Record Sidebar := {
  sb_user : SidebarUser; sb_preview : bool; sb_items : list (Button unit * bool); sb_signOut : bool }.
Inductive Frame := fr_skeleton | fr_sign_in | fr_page (s : Sidebar).

Definition layout_preview (dev : bool) (pathname : jsstr) : bool := dev && under_preview pathname.

Definition DashboardLayout (dev : bool) (pathname : jsstr) (loading : bool) (user : option User) : Frame :=
  let preview := layout_preview dev pathname in
  if loading && negb preview then fr_skeleton
  else if bool_decide (user = None) && negb preview then fr_sign_in
  else fr_page {|
    sb_user := sidebar_user user; sb_preview := preview;
    sb_items := (λ i, (nav_button preview i, nav_active preview pathname i)) <$> navigation;
    sb_signOut := negb preview |}.
