(* ===== verification/RoutesProps.v ===== *)
(** Where the console's buttons lead, and who sees its pages. *)
From S2P Require Import Prelude JsString JsNumber Json Schema OAuthState Trpc Fixtures Router Evidence Console Overview Operations Node Logger Users Session Forge Browser Routes.

(** ** Paths that the console makes *)

Lemma after_app prefix s : after prefix (prefix ++ s) = Some s.
Proof. unfold after. rewrite (proj2 (startsWith_spec _ _)) by eauto. by rewrite drop_app_length. Qed.

Lemma segment_slash s : segment s = true → slash ∉ s.
Proof.
  intros [_ Hs]%andb_true_iff Hin%list_elem_of_In. rewrite forallb_forall in Hs.
  apply Hs in Hin. by vm_compute in Hin.
Qed.

Definition path_unit (c : N) : bool := path_char c || (c =? slash)%N.

Lemma segment_path base s :
  forallb path_unit base = true → segment s = true → plain_path (base ++ s) = true.
Proof.
  intros Hb Hs. unfold plain_path. rewrite forallb_app. apply andb_true_iff. split.
  - apply andb_true_iff. split; [exact Hb|]. apply andb_true_iff in Hs as [_ Hs].
    apply forallb_forall. intros c Hc. rewrite forallb_forall in Hs. by rewrite (Hs _ Hc).
  - apply orb_true_iff. right. apply negb_true_iff, bool_decide_eq_false. intros [k Hk].
    pose proof (segment_slash _ Hs) as Hn. apply andb_true_iff in Hs as [Ht%truthy_spec _].
    destruct s as [|c s _] using rev_ind; [done|]. rewrite app_assoc in Hk.
    apply app_inj_2 in Hk as [_ [= ->]]; [|done]. set_solver.
Qed.

Section Routes.
Context `{Wouter}.

(** Patterns of [routes] on plain paths: what the library does with them, computed. *)
Ltac pattern_step :=
  match goal with
  | |- context [matchRoute (?base ++ js "/:" ++ ?name) ?path] =>
      rewrite (match_param base name path)
        by first [assumption | by vm_compute | by (intros Hc; vm_compute in Hc)
                 | intros Hc%list_elem_of_In; vm_compute in Hc; intuition discriminate]
  | |- context [matchRoute ?p ?path] => rewrite (match_plain p path) by first [assumption | by vm_compute]
  end;
  repeat match goal with
  | |- context [str_eqb ?a ?b] =>
      let E := fresh in
      first [assert (str_eqb a b = false) as E by (vm_compute; reflexivity)
            |assert (str_eqb a b = true) as E by (vm_compute; reflexivity)]; rewrite E; clear E
  | |- context [after ?a ?b] =>
      let E := fresh in assert (after a b = None) as E by (vm_compute; reflexivity); rewrite E; clear E
  end; cbn beta iota.

(** A path without parameters. *)
Ltac route_static := unfold route, routes; cbn [switch]; repeat pattern_step; reflexivity.

Lemma route_host preview s :
  segment s = true → route (targetPath preview (js "/hosts/" ++ s)) = pg_host preview s.
Proof.
  intros Hs. unfold targetPath. destruct preview.
  - rewrite app_assoc. pose proof (segment_path (js "/preview" ++ js "/hosts/") s eq_refl Hs) as Hp.
    unfold route, routes. cbn [switch]. repeat pattern_step.
    change (js "/preview/hosts" ++ [slash]) with (js "/preview" ++ js "/hosts/").
    rewrite after_app, Hs. unfold hostId_of. cbn [lookup_name]. by rewrite str_eqb_refl.
  - pose proof (segment_path (js "/hosts/") s eq_refl Hs) as Hp.
    unfold route, routes. cbn [switch]. repeat pattern_step.
    change (js "/hosts" ++ [slash]) with (js "/hosts/").
    rewrite after_app, Hs. unfold hostId_of. cbn [lookup_name]. by rewrite str_eqb_refl.
Qed.

Lemma rooted_host preview s : rootedPath preview (js "/hosts/" ++ s) = targetPath preview (js "/hosts/" ++ s).
Proof.
  unfold rootedPath, targetPath. destruct preview; [|done].
  assert (str_eqb (js "/hosts/" ++ s) (js "/") = false) as -> by (vm_compute; reflexivity). done.
Qed.

(** The pages with a path of their own. *)
Definition fixed_pages (preview : bool) : list (jsstr * Page) :=
  [(js "/", pg_fleet preview); (js "/hosts", pg_hosts preview); (js "/alerts", pg_alerts preview);
   (js "/operations", pg_operations preview); (js "/administration", pg_administration preview);
   (js "/administration/alert-rules", pg_rules preview)].

Lemma route_fixed preview : Forall (λ e, route (rootedPath preview e.1) = e.2) (fixed_pages preview).
Proof.
  destruct preview; repeat (apply Forall_cons; split); try apply Forall_nil; try done; cbn [fst snd].
  1: replace (rootedPath true (js "/")) with (js "/preview") by (vm_compute; reflexivity); route_static.
  1: replace (rootedPath true (js "/hosts")) with (js "/preview/hosts") by (vm_compute; reflexivity); route_static.
  1: replace (rootedPath true (js "/alerts")) with (js "/preview/alerts") by (vm_compute; reflexivity); route_static.
  1: replace (rootedPath true (js "/operations")) with (js "/preview/operations") by (vm_compute; reflexivity); route_static.
  1: replace (rootedPath true (js "/administration")) with (js "/preview/administration") by (vm_compute; reflexivity); route_static.
  1: replace (rootedPath true (js "/administration/alert-rules")) with (js "/preview/administration/alert-rules") by (vm_compute; reflexivity); route_static.
  all: unfold rootedPath; cbn beta iota; route_static.
Qed.

(** ** Buttons *)

Definition page_preview (p : Page) : option bool :=
  match p with
  | pg_rules b | pg_administration b | pg_operations b | pg_alerts b | pg_hosts b | pg_host b _ | pg_fleet b => Some b
  | pg_not_found => None
  end.

(** A button that navigates leads to a page, and stays in the preview or outside of it. *)
Definition leads {U} (preview : bool) (b : Button U) : Prop :=
  match press b with
  | Some (act_navigate path) => page_preview (route path) = Some preview
  | _ => True
  end.

Lemma fixed_previews preview : Forall (λ e, page_preview e.2 = Some preview) (fixed_pages preview).
Proof. repeat constructor. Qed.

Lemma fixed_leads {U} preview label path p :
  (path, p) ∈ fixed_pages preview → leads (U := U) preview (link label (rootedPath preview path)).
Proof.
  intros Hin. pose proof (route_fixed preview) as Hf. rewrite Forall_forall in Hf.
  specialize (Hf _ Hin). simpl in Hf. unfold leads, press, link. simpl. rewrite Hf.
  pose proof (fixed_previews preview) as Hq. rewrite Forall_forall in Hq. exact (Hq _ Hin).
Qed.

Lemma host_leads {U} preview label s :
  segment s = true → leads (U := U) preview (link label (targetPath preview (js "/hosts/" ++ s))).
Proof.
  intros Hs. change (page_preview (route (targetPath preview (js "/hosts/" ++ s))) = Some preview).
  by rewrite route_host.
Qed.

Lemma rooted_target preview path : path ≠ js "/" → rootedPath preview path = targetPath preview path.
Proof. intros Hp. unfold rootedPath, targetPath. by rewrite (proj2 (str_eqb_neq _ _) Hp). Qed.

Lemma target_leads {U} preview label path p :
  (path, p) ∈ fixed_pages preview → path ≠ js "/" →
  leads (U := U) preview (link label (targetPath preview path)).
Proof. intros Hin Hp. rewrite <- rooted_target by done. by eapply fixed_leads. Qed.

(** Lists of buttons, taken apart; the buttons that do not navigate are done. *)
Ltac each_button :=
  each_button_with ltac:(idtac; match goal with
    | |- leads _ (Build_Button _ _ _) => exact I
    | |- leads _ (clear_button _ _) => exact I
    end).

Lemma disabled_leads {U} preview label disabled rq :
  leads (U := U) preview (Build_Button label disabled (act_request rq)).
Proof. by destruct disabled. Qed.

Lemma alerts_lead preview isPending ui fleet :
  (∀ a, a ∈ fl_alerts fleet → segment (a_hostId a) = true) →
  Forall (leads preview) (alerts_buttons (alerts_view preview isPending ui fleet)).
Proof.
  intros Ha. unfold alerts_buttons, alerts_view. cbn -[alert_card filtersActive filteredAlerts]. each_button.
  apply Forall_forall. intros b (c & Hb & (a & -> & Hin)%list_elem_of_fmap)%list_elem_of_bind.
  apply elem_of_js_filter in Hin as [_ Hin]. unfold alert_card in Hb. cbn [ac_host ac_acknowledge] in Hb.
  apply elem_of_cons in Hb as [->|Hb]; [by apply host_leads, Ha|].
  destruct (has_state active a); [|by apply elem_of_nil in Hb].
  apply list_elem_of_singleton in Hb as ->. apply disabled_leads.
Qed.

(** A link to one of the fixed pages. *)
Ltac in_fixed := unfold fixed_pages; repeat first [apply list_elem_of_here | apply list_elem_of_further].
Ltac fixed_link :=
  first [eapply fixed_leads; in_fixed
        |eapply target_leads; [in_fixed|intros Heq; vm_compute in Heq; discriminate Heq]].

(** A list of links, one per element. *)
Lemma Forall_link {A U V} (f : A → V) (g : V → Button U) preview (l : list A) :
  (∀ x, x ∈ l → leads preview (g (f x))) → Forall (leads preview) (g <$> (f <$> l)).
Proof. intros Hl. rewrite <- list_fmap_compose. apply Forall_fmap, Forall_forall. exact Hl. Qed.

Lemma hosts_lead `{LocaleCase} preview ui hosts :
  (∀ h, h ∈ hosts → segment (host_id h) = true) →
  Forall (leads preview) (hosts_buttons (hosts_view preview ui hosts)).
Proof.
  intros Hh. unfold hosts_buttons, hosts_view. cbn -[host_card visibleHosts targetPath]. each_button.
  - apply Forall_link. intros h [_ Hin]%elem_of_js_filter. by apply host_leads, Hh.
  - fixed_link.
  - fixed_link.
Qed.

Lemma fleet_lead preview refreshing fleet :
  (∀ h, h ∈ fl_hosts fleet → segment (host_id h) = true) →
  (∀ r, r ∈ fl_replicas fleet → segment (rp_hostId r) = true) →
  Forall (leads preview) (fleet_buttons (fleet_view preview refreshing fleet)).
Proof.
  intros Hh Hr. unfold fleet_buttons, fleet_view.
  cbn -[fleet_card alert_line replica_line rootedPath]. each_button; try (apply Forall_link); try fixed_link.
  - by destruct refreshing.
  - intros h Hin. unfold fleet_card. cbn [fc_inspect]. rewrite rooted_host. by apply host_leads, Hh.
  - intros a _. unfold alert_line. cbn [an_button]. fixed_link.
  - intros r Hin. unfold replica_line. cbn [rl_button]. rewrite rooted_host. by apply host_leads, Hr.
Qed.

Lemma host_view_leads preview h alerts : Forall (leads preview) (dv_links (host_view preview h alerts)).
Proof.
  pose proof (route_fixed preview) as Hf. rewrite Forall_forall in Hf.
  unfold host_view. cbn [dv_links]. each_button; unfold leads, press, link; cbn [bt_disabled bt_action].
  - replace (str_or (Some (if preview then js "/preview" else [])) (js "/")) with (rootedPath preview (js "/"))
      by (by destruct preview; vm_compute).
    pose proof (Hf (js "/", pg_fleet preview) ltac:(in_fixed)) as E. cbn [fst snd] in E. by rewrite E.
  - replace ((if preview then js "/preview" else []) ++ js "/hosts") with (rootedPath preview (js "/hosts"))
      by (by destruct preview; vm_compute).
    pose proof (Hf (js "/hosts", pg_hosts preview) ltac:(in_fixed)) as E. cbn [fst snd] in E. by rewrite E.
Qed.

Lemma administration_lead preview isPending audits :
  Forall (leads preview) (administration_buttons (AdministrationPage preview isPending audits)).
Proof.
  unfold administration_buttons, AdministrationPage. cbn [dm_alertRules dm_backup].
  repeat (apply Forall_cons; split); [|apply disabled_leads|by apply Forall_nil].
  replace (if preview then js "/preview/administration/alert-rules" else js "/administration/alert-rules")
    with (rootedPath preview (js "/administration/alert-rules")) by (by destruct preview; vm_compute).
  fixed_link.
Qed.

Lemma navigation_leads preview : Forall (leads preview) (nav_button preview <$> navigation).
Proof. cbn -[rootedPath]. repeat (apply Forall_cons; split; [fixed_link|]). by apply Forall_nil. Qed.

(** Hosts, alerts and replicas whose identifiers are segments of a path. *)
Definition plain_fleet (fleet : FleetSnapshot) : bool :=
  forallb (λ h, segment (host_id h)) (fl_hosts fleet)
  && forallb (λ a, segment (a_hostId a)) (fl_alerts fleet)
  && forallb (λ r, segment (rp_hostId r)) (fl_replicas fleet).

Lemma forallb_In {A} (f : A → bool) l x : forallb f l = true → x ∈ l → f x = true.
Proof. rewrite forallb_forall. intros Hl Hx%list_elem_of_In. auto. Qed.

(** C36. No button of the console leads nowhere, and the preview is closed: whatever fleet is shown,
    when its identifiers are segments of a path, every button of the overview, the directory, the
    host page, the queue, the administration page and the sidebar that navigates leads to a page,
    and to one of the preview exactly when it was pressed there; and the link of a host leads to
    the page of that host. *)
Theorem navigation_closed `{LocaleCase} preview busy fleet alertsUi hostsUi audits :
  plain_fleet fleet = true →
  Forall (leads preview) (fleet_buttons (fleet_view preview busy fleet))
  ∧ Forall (leads preview) (hosts_buttons (hosts_view preview hostsUi (fl_hosts fleet)))
  ∧ Forall (leads preview) (alerts_buttons (alerts_view preview busy alertsUi fleet))
  ∧ Forall (leads preview) (administration_buttons (AdministrationPage preview busy audits))
  ∧ Forall (leads preview) (nav_button preview <$> navigation)
  ∧ ∀ h, h ∈ fl_hosts fleet →
      Forall (leads preview) (dv_links (host_view preview h (fl_alerts fleet)))
      ∧ ∃ path, press (hc_button (host_card preview h)) = Some (act_navigate path)
        ∧ route path = pg_host preview (host_id h).
Proof.
  intros [[Hh Ha]%andb_true_iff Hr]%andb_true_iff.
  pose proof (λ x, forallb_In _ _ x Hh) as Hh'. pose proof (λ x, forallb_In _ _ x Ha) as Ha'.
  pose proof (λ x, forallb_In _ _ x Hr) as Hr'.
  split_and!; [by apply fleet_lead|by apply hosts_lead|by apply alerts_lead|
    apply administration_lead|apply navigation_leads|].
  intros h Hin. split; [apply host_view_leads|]. eexists. split; [reflexivity|]. by apply route_host, Hh'.
Qed.
End Routes.

(** ** An example *)

(** The two forms of patterns, as the laws say. *)
Definition example_match (pattern path : jsstr) : option (list (jsstr * jsstr)) :=
  match lastIndexOf colon pattern with
  | None => if str_eqb pattern path then Some [] else None
  | Some i =>
      match after (take i pattern) path with
      | Some s => if segment s then Some [(drop (S i) pattern, s)] else None
      | None => None
      end
  end.

Lemma lastIndexOf_app s t : colon ∉ t → lastIndexOf colon (s ++ colon :: t) = Some (length s).
Proof.
  intros Ht. induction s as [|c s IH]; simpl; [|by rewrite IH].
  by rewrite (proj2 (lastIndexOf_None _ _) Ht).
Qed.

#[local] Instance example_wouter : Wouter.
Proof.
  refine {| matchRoute := example_match |}; unfold example_match.
  - intros pattern path Hp _. rewrite (proj2 (lastIndexOf_None _ _)); [done|].
    intros Hc%list_elem_of_In. apply andb_true_iff in Hp as [Hp _]. rewrite forallb_forall in Hp.
    apply Hp in Hc. by vm_compute in Hc.
  - intros base name path _ _ Hn _.
    change (base ++ js "/:" ++ name) with (base ++ slash :: colon :: name).
    change (slash :: colon :: name) with ([slash] ++ colon :: name). rewrite app_assoc.
    rewrite lastIndexOf_app by done. rewrite take_app_length.
    replace (drop (S (length (base ++ [slash]))) ((base ++ [slash]) ++ colon :: name)) with name; [done|].
    rewrite drop_app_ge by lia. by replace (S (length (base ++ [slash])) - length (base ++ [slash])) with 1 by lia.
Defined.

#[local] Instance plain_case : LocaleCase := {| toLocaleLowerCase s := ascii_lower <$> s |}.

Lemma navigation_closed_witness :
  let fleet := buildFleetSnapshot 1767225600000 in
  Forall (leads true) (fleet_buttons (fleet_view true false fleet))
  ∧ Forall (leads false) (fleet_buttons (fleet_view false false fleet)).
Proof.
  intros fleet. assert (plain_fleet fleet = true) as Hf by (vm_compute; reflexivity).
  pose (audits := {| q_isLoading := false; q_isError := false; q_data := None |} : Query (list DevelopmentAudit)).
  split.
  - apply (navigation_closed true false fleet alerts_ui_init hosts_ui_init audits Hf).
  - apply (navigation_closed false false fleet alerts_ui_init hosts_ui_init audits Hf).
Defined.
