(* ===== verification/ConsoleProps.v ===== *)
(** What the pages of the console do to the console API: the requests they send, the bounds of
    their forms, and what an operator sees after acting. *)
From S2P Require Import Prelude JsString JsNumber Json Schema OAuthState Trpc Fixtures Router RouterSpec RouterProps Evidence Console Overview Operations.

(** ** The requests of the pages *)

(** The request that a button sends when it is pressed. *)
Definition sends {U} (b : Button U) : option ConsoleRequest :=
  match press b with Some (act_request rq) => Some rq | _ => None end.

(** A request that is about what the fleet shows, and that says what its page asked for. *)
Definition about_fleet (fleet : FleetSnapshot) (rq : ConsoleRequest) : Prop :=
  match rq with
  | rq_acknowledge id => ∃ a, a ∈ fl_alerts fleet ∧ a_id a = id ∧ a_state a = active
  | rq_interval scope _ => scope ≠ Some global_scope
  | rq_baseline h reviewed => reviewed = true ∧ h ∈ host_id <$> fl_hosts fleet
  | rq_approve h endpoint kind => ∃ host r, host ∈ fl_hosts fleet ∧ r ∈ host_runtimes host
      ∧ r_state r = discovered ∧ (h, endpoint, kind) = (host_id host, r_endpoint r, r_kind r)
  | rq_backup raw => raw = false
  | rq_save _ => False
  end.

Section Requests.
Context `{LocaleCase}.

(** A button that sends nothing in the preview, and otherwise only what is about the fleet. *)
Definition guarded {U} (preview : bool) (fleet : FleetSnapshot) (b : Button U) : Prop :=
  ∀ rq, sends b = Some rq → preview = false ∧ about_fleet fleet rq.

Lemma guarded_link {U} preview fleet label path : guarded (U:=U) preview fleet (link label path).
Proof. done. Qed.

Lemma guarded_update {U} preview fleet label disabled (u : U) :
  guarded preview fleet (Build_Button label disabled (act_update u)).
Proof. by destruct disabled. Qed.

Lemma guarded_request {U} preview fleet label disabled rq :
  (disabled = false → about_fleet fleet rq) →
  guarded (U:=U) preview fleet (Build_Button label (preview || disabled) (act_request rq)).
Proof.
  intros Ha rq' Hs. destruct preview, disabled; try done. unfold sends in Hs. simpl in Hs.
  injection Hs as <-. auto.
Qed.

(** Lists of buttons, taken apart; the buttons that cannot send are done. *)
Ltac each_button :=
  each_button_with ltac:(idtac; match goal with
    | |- guarded _ _ (link _ _) => apply guarded_link
    | |- guarded _ _ (Build_Button _ _ (act_update _)) => apply guarded_update
    | |- guarded _ _ (clear_button _ _) => apply guarded_update
    | |- guarded _ _ (tg_button _) => apply guarded_update
    end).

Lemma alerts_guarded preview pending ui fleet :
  Forall (guarded preview fleet) (alerts_buttons (alerts_view preview pending ui fleet)).
Proof.
  unfold alerts_buttons, alerts_view. cbn -[alert_card filtersActive filteredAlerts]. each_button.
  apply Forall_forall. intros b (c & Hb & (a & -> & Hin)%list_elem_of_fmap)%list_elem_of_bind.
  apply elem_of_js_filter in Hin as [_ Hin]. unfold alert_card in Hb. cbn [ac_host ac_acknowledge] in Hb.
  apply elem_of_cons in Hb as [->|Hb]; [apply guarded_link|].
  destruct (has_state active a) eqn:E; [|by apply elem_of_nil in Hb].
  apply list_elem_of_singleton in Hb as ->. apply guarded_request. intros _.
  apply bool_decide_eq_true in E. simpl. eauto.
Qed.

Lemma hosts_guarded preview ui fleet :
  Forall (guarded preview fleet) (hosts_buttons (hosts_view preview ui (fl_hosts fleet))).
Proof.
  unfold hosts_buttons, hosts_view. cbn -[host_card visibleHosts targetPath]. each_button.
  apply Forall_fmap, Forall_fmap, Forall_forall. intros h _. apply guarded_link.
Qed.

Lemma fleet_guarded preview refreshing fleet :
  Forall (guarded preview fleet) (fleet_buttons (fleet_view preview refreshing fleet)).
Proof.
  unfold fleet_buttons, fleet_view. cbn -[fleet_card alert_line replica_line rootedPath]. each_button.
  1: by destruct refreshing.
  all: apply Forall_fmap, Forall_fmap, Forall_forall; intros x _; apply guarded_link.
Qed.

Lemma operations_guarded preview p ui fleet :
  Forall (guarded preview fleet) (operations_buttons (operations_view preview p ui fleet)).
Proof.
  unfold operations_buttons, operations_view. cbn -[interval_button baseline_switch baseline_button candidate_line].
  repeat (apply Forall_cons; split).
  - apply guarded_request. intros _. simpl. destruct (str_eqb _ _) eqn:E; [done|].
    apply str_eqb_neq in E. congruence.
  - apply guarded_update.
  - apply Forall_app; split; apply Forall_fmap, Forall_fmap, Forall_forall.
    + intros h Hh. unfold baseline_button. rewrite <- orb_assoc. apply guarded_request.
      intros [_ Hb]%orb_false_iff. apply negb_false_iff in Hb. split; [done|]. by apply list_elem_of_fmap_2.
    + intros [h r] (h' & (r' & [= -> ->] & Hr)%list_elem_of_fmap & Hh)%list_elem_of_bind.
      apply elem_of_js_filter in Hr as [Hd Hr]. apply bool_decide_eq_true in Hd.
      apply guarded_request. intros _. simpl. eauto 10.
Qed.
Lemma administration_guarded preview pending audits fleet :
  Forall (guarded preview fleet) (administration_buttons (AdministrationPage preview pending audits)).
Proof.
  unfold administration_buttons, AdministrationPage. cbn [dm_alertRules dm_backup]. each_button.
  by apply guarded_request.
Qed.

(** The requests that the pages can send about a fleet, in any state of theirs. *)
Inductive page_request (preview : bool) (fleet : FleetSnapshot) (rq : ConsoleRequest) : Prop :=
| pr_alerts pending ui b :
    b ∈ alerts_buttons (alerts_view preview pending ui fleet) → sends b = Some rq → page_request preview fleet rq
| pr_hosts ui b :
    b ∈ hosts_buttons (hosts_view preview ui (fl_hosts fleet)) → sends b = Some rq → page_request preview fleet rq
| pr_fleet refreshing b :
    b ∈ fleet_buttons (fleet_view preview refreshing fleet) → sends b = Some rq → page_request preview fleet rq
| pr_operations pending ui b :
    b ∈ operations_buttons (operations_view preview pending ui fleet) → sends b = Some rq →
    page_request preview fleet rq
| pr_administration pending audits b :
    b ∈ administration_buttons (AdministrationPage preview pending audits) → sends b = Some rq →
    page_request preview fleet rq
| pr_rules pending drafts rules card :
    card ∈ rule_card preview pending <$> effectiveRules rules drafts → sends (ru_save card) = Some rq →
    page_request preview fleet rq.

End Requests.

(** ** The interval form *)

Definition num_1 : number := num_of_Z 1.
Definition num_60 : number := num_of_Z 60.

(** What the field may hold: not a number, or a number that the server accepts if it is whole. *)
Definition interval_in_range (x : number) : bool := is_nan x || (nleb num_1 x && nleb x num_60).

Lemma nltb_nleb x y : nltb x y = true → nleb x y = true.
Proof. unfold nltb, nleb, SFltb, SFleb. by destruct (SFcompare x y) as [[]|]. Qed.

Lemma nltb_asym x y : nltb x y = true → nltb y x = false.
Proof.
  unfold nltb, SFltb. destruct x as [s|s| |s m e], y as [s'|s'| |s' m' e']; simpl; try done;
    try (by destruct s); try (by destruct s'); try (by destruct s, s').
  destruct s, s'; try done; rewrite (Z.compare_antisym e e'); destruct (Z.compare e e'); simpl; try done;
    pose proof (Pos.compare_antisym m m') as Hp; unfold Pos.compare in Hp; rewrite Hp;
    by destruct (Pos.compare_cont Eq m m').
Qed.

Lemma math_min_60 x : math_min num_60 x = if is_nan x then S754_nan else if nltb x num_60 then x else num_60.
Proof.
  unfold math_min. replace (is_nan num_60) with false by (by vm_compute). cbn [orb].
  destruct (is_nan x); [done|].
  destruct (nltb num_60 x) eqn:E1; [by rewrite (nltb_asym _ _ E1)|]. destruct (nltb x num_60); [done|].
  by destruct num_60 as [[]| | |] eqn:E.
Qed.

Lemma math_max_1 x : math_max num_1 x = if is_nan x then S754_nan else if nltb num_1 x then x else num_1.
Proof.
  unfold math_max. replace (is_nan num_1) with false by (by vm_compute). cbn [orb].
  destruct (is_nan x), (nltb num_1 x), (nltb x num_1); done.
Qed.

Lemma clamp_in_range text : interval_in_range (clamp_interval text) = true.
Proof.
  unfold clamp_interval, interval_in_range. fold num_1 num_60. generalize (Number_of_string text). intros x.
  rewrite math_min_60. destruct (is_nan x) eqn:Ex; [done|].
  assert (∀ y, is_nan y = false → nleb y num_60 = true →
    is_nan (math_max num_1 y) || nleb num_1 (math_max num_1 y) && nleb (math_max num_1 y) num_60 = true) as Hmax.
  { intros y Hn Hy. rewrite math_max_1, Hn. destruct (nltb num_1 y) eqn:E; [|vm_compute; reflexivity].
    by rewrite Hy, (nltb_nleb _ _ E), orb_true_r. }
  destruct (nltb x num_60) eqn:E; apply Hmax.
  - exact Ex.
  - by apply nltb_nleb.
  - vm_compute; reflexivity.
  - vm_compute; reflexivity.
Qed.

Lemma whole_in_range z : (1 ≤ z ≤ 60)%Z → interval_in_range (num_of_Z z) = true.
Proof.
  intros Hz. assert (forallb (λ n, interval_in_range (num_of_Z (Z.of_nat n))) (seq 1 60) = true) as Ha
    by (by vm_compute).
  rewrite forallb_forall in Ha. specialize (Ha (Z.to_nat z)).
  rewrite Z2Nat.id in Ha by lia. apply Ha, in_seq. lia.
Qed.

(** A fleet with the intervals that the server keeps. *)
Definition intervals_kept (fleet : FleetSnapshot) : Prop :=
  (1 ≤ fl_globalIntervalSeconds fleet ≤ 60)%Z
  ∧ map_Forall (λ _ z, (1 ≤ z ≤ 60)%Z) (fl_hostOverrides fleet).

Lemma effective_kept fleet scope : intervals_kept fleet → (1 ≤ effectiveInterval fleet scope ≤ 60)%Z.
Proof.
  intros [Hg Ho]. unfold effectiveInterval. case_match; [done|].
  destruct (fl_hostOverrides fleet !! scope) as [z|] eqn:E; [exact (Ho _ _ E)|done].
Qed.

(** The form over time: each event meets the fleet of the latest answer. *)
Definition run_form (events : list (FleetSnapshot * OperationsEvent)) (ui : OperationsUi) : OperationsUi :=
  fold_left (λ ui e, operations_event e.1 e.2 ui) events ui.

Lemma run_form_in_range events ui :
  Forall (λ e, intervals_kept e.1) events → interval_in_range (op_interval ui) = true →
  interval_in_range (op_interval (run_form events ui)) = true.
Proof.
  intros He. revert ui. induction He as [|[fleet e] events Hf _ IH]; intros ui Hu; [done|].
  apply IH. destruct e as [scope|text|b]; simpl; [|apply clamp_in_range|exact Hu].
  by apply whole_in_range, effective_kept.
Qed.

Section Flows.
Context `{JsMath}.

Lemma overview_Ok w f w' :
  fleet_overview w = (Ok (r_snapshot f), w') →
  w_state w' = w_state w ∧ ∃ now, fl_alerts f = shown_alert (ds_acknowledgedAlerts (w_state w)) <$> fl_alerts (buildFleetSnapshot now)
  ∧ fl_hosts f = fl_hosts (buildFleetSnapshot now)
  ∧ fl_globalIntervalSeconds f = ds_globalIntervalSeconds (w_state w)
  ∧ fl_hostOverrides f = ds_hostOverrides (w_state w).
Proof.
  unfold fleet_overview. intros Hf. run_handler. split; [congruence|]. eexists. split_and!; [by state_eq|reflexivity|by state_eq..].
Qed.

Lemma overview_intervals w f w' :
  invariant (w_state w) → fleet_overview w = (Ok (r_snapshot f), w') → intervals_kept f.
Proof.
  intros Hi (_ & now & _ & _ & Hg & Ho)%overview_Ok. split; rewrite ?Hg, ?Ho; [apply Hi|].
  intros h z Hz. apply (inv_overrides _ Hi _ _ Hz).
Qed.

(** The intervals after the server accepted one for a scope. *)
Lemma interval_set c h z w r w1 :
  setCollectionInterval c {| ii_hostId := h; ii_intervalSeconds := z |} w = (Ok r, w1) →
  match h with
  | Some host => host ≠ [] →
      ds_globalIntervalSeconds (w_state w1) = ds_globalIntervalSeconds (w_state w)
      ∧ ds_hostOverrides (w_state w1) = <[host := z]> (ds_hostOverrides (w_state w))
  | None => ds_globalIntervalSeconds (w_state w1) = z
      ∧ ds_hostOverrides (w_state w1) = ds_hostOverrides (w_state w)
  end.
Proof.
  unfold setCollectionInterval. cbn [ii_hostId ii_intervalSeconds]. intros Hs.
  destruct h as [host|].
  - destruct (truthy host) eqn:Et; [|by apply truthy_false in Et].
    run_handler; intros _; state_eq; done.
  - run_handler; state_eq; done.
Qed.

Lemma overview_total w : ∃ f w', fleet_overview w = (Ok (r_snapshot f), w').
Proof.
  destruct (fleet_overview w) as [[r|e] w'] eqn:E; unfold fleet_overview in E; run_handler; eauto.
Qed.

(** A known alert can always be acknowledged. *)
Lemma acknowledge_total c id w :
  id ∈ known_alerts →
  ∃ audit w', acknowledge c {| ai_alertId := id; ai_note := None |} w = (Ok (r_acknowledged id audit), w')
    ∧ ds_acknowledgedAlerts (w_state w') = {[id]} ∪ ds_acknowledgedAlerts (w_state w).
Proof.
  intros Hk. destruct (acknowledge _ _ w) as [[r|e] w'] eqn:E; unfold acknowledge in E; run_handler.
  - match goal with Hf : js_find _ _ = Some _ |- _ => apply js_find_Some in Hf as [_ Hf] end.
    cbn [ai_alertId] in *. match goal with Hf : str_eqb _ _ = true |- _ => apply str_eqb_eq in Hf as <- end.
    do 2 eexists. split; [done|]. by state_eq.
  - match goal with Hf : js_find _ (fl_alerts (buildFleetSnapshot ?now)) = None |- _ =>
      rewrite js_find_None in Hf; rename Hf into Hn; rewrite <- (snapshot_alerts now) in Hk end.
    apply list_elem_of_fmap in Hk as (a & -> & Ha).
    specialize (Hn a Ha). cbn [ai_alertId] in Hn. by rewrite str_eqb_refl in Hn.
Qed.

(** What a card says of its alert: its identifier and state, and whether it can be acknowledged. *)
Definition card_state (card : AlertCard) : jsstr * jsstr * bool :=
  (ac_id card, ac_badge card, bool_decide (is_Some (ac_acknowledge card))).
Definition alert_state (a : Alert) : jsstr * jsstr * bool := (a_id a, state_word (a_state a), has_state active a).

Lemma card_states ui fleet :
  card_state <$> av_cards (alerts_view false false ui fleet) = alert_state <$> filteredAlerts ui (fl_alerts fleet).
Proof.
  cbn [av_cards alerts_view]. rewrite <- list_fmap_compose. apply list_fmap_ext. intros _ a _.
  unfold card_state, alert_card, alert_state. simpl. by destruct (has_state active a).
Qed.

Lemma filtered_init alerts : filteredAlerts alerts_ui_init alerts = alerts.
Proof. unfold filteredAlerts. by apply js_filter_true. Qed.

(** Taking one element out of those that a predicate accepts. *)
Lemma count_remove {A} (f g : A → bool) (key : A → jsstr) l x :
  NoDup (key <$> l) → x ∈ l → f x = true →
  (∀ y, g y = f y && negb (str_eqb (key y) (key x))) → S (count g l) = count f l.
Proof.
  intros Hd Hx Hf Hg. unfold count, js_filter. induction l as [|y l IH]; [by apply elem_of_nil in Hx|].
  cbn [fmap list_fmap] in Hd. apply NoDup_cons in Hd as [Hy Hd]. simpl. rewrite Hg.
  apply elem_of_cons in Hx as [->|Hx].
  - rewrite Hf, str_eqb_refl. simpl. do 2 f_equal. clear IH Hd. induction l as [|z l IH]; [done|].
    assert (key z ≠ key y) as Hz by (intros E; apply Hy; rewrite <- E; apply list_elem_of_here).
    simpl. rewrite Hg. apply str_eqb_neq in Hz. rewrite Hz, andb_true_r.
    rewrite IH; [done|]. intros Hin. apply Hy. by apply list_elem_of_further.
  - assert (key y ≠ key x) as Hz by (intros E; apply Hy; rewrite E; by apply list_elem_of_fmap_2).
    apply str_eqb_neq in Hz. rewrite Hz, andb_true_r. destruct (f y); simpl; by rewrite IH.
Qed.

(** The alerts of two overviews, one alert acknowledged in between. *)
Lemma shown_again acked id now now' :
  alert_state <$> (shown_alert ({[id]} ∪ acked) <$> fl_alerts (buildFleetSnapshot now'))
  = (λ s, if str_eqb s.1.1 id then (id, js "acknowledged", false) else s)
    <$> (alert_state <$> (shown_alert acked <$> fl_alerts (buildFleetSnapshot now))).
Proof.
  transitivity (alert_state <$> (shown_alert ({[id]} ∪ acked) <$> fl_alerts (buildFleetSnapshot now))); [reflexivity|].
  generalize (fl_alerts (buildFleetSnapshot now)). intros l. rewrite <- !list_fmap_compose.
  apply list_fmap_ext. intros _ a _. unfold compose, alert_state, shown_alert. cbn [a_id a_state fst].
  destruct (str_eqb (a_id a) id) eqn:E; autorewrite with nodescope in E.
  - by rewrite E, bool_decide_true by set_solver.
  - destruct (decide (a_id a ∈ acked)); [by rewrite !bool_decide_true by set_solver|].
    by rewrite !bool_decide_false by set_solver.
Qed.

(** C8. An operator can always acknowledge what is shown, and then sees it: pressing the button of
    any card of the queue sends an acknowledgement of its alert that the server accepts, whatever
    its state; the next overview shows that alert as acknowledged and without a button, every
    other alert as it was, and one active alert less. *)
Theorem acknowledge_flow c ui w fleet w1 card b :
  fleet_overview w = (Ok (r_snapshot fleet), w1) →
  card ∈ av_cards (alerts_view false false ui fleet) → ac_acknowledge card = Some b →
  sends b = Some (rq_acknowledge (ac_id card))
  ∧ ∃ audit w2 fleet' w3,
      acknowledge c {| ai_alertId := ac_id card; ai_note := None |} w1
        = (Ok (r_acknowledged (ac_id card) audit), w2)
      ∧ fleet_overview w2 = (Ok (r_snapshot fleet'), w3)
      ∧ let queue f := alerts_view false false alerts_ui_init f in
        card_state <$> av_cards (queue fleet')
        = (λ s, if str_eqb s.1.1 (ac_id card) then (ac_id card, js "acknowledged", false) else s)
          <$> (card_state <$> av_cards (queue fleet))
      ∧ S (av_activeCount (queue fleet')) = av_activeCount (queue fleet).
Proof.
  intros (Hw & now & Ha & _)%overview_Ok (a & -> & Hin)%list_elem_of_fmap Hb.
  apply elem_of_js_filter in Hin as [_ Hin]. unfold alert_card in Hb. cbn [ac_acknowledge ac_id] in *.
  destruct (has_state active a) eqn:Eact; [|done]. injection Hb as <-. split; [done|].
  assert (a_id a ∈ known_alerts) as Hk.
  { rewrite Ha in Hin. apply list_elem_of_fmap in Hin as (a0 & -> & Hin). exact (known_alert now a0 Hin). }
  destruct (acknowledge_total c (a_id a) w1 Hk) as (audit & w2 & Hack & Hs2).
  destruct (overview_total w2) as (fleet' & w3 & Hf'). exists audit, w2, fleet', w3.
  split_and!; [done|done|..]; apply overview_Ok in Hf' as (_ & now' & Ha' & _).
  - rewrite !card_states, !filtered_init, Ha, Ha', Hs2, Hw. apply shown_again.
  - cbn [av_activeCount alerts_view].
    pose (f := λ s : jsstr * jsstr * bool, s.2).
    assert (∀ l, count (has_state active) l = count f (alert_state <$> l)) as Hc.
    { intros l. unfold count. by rewrite js_filter_fmap, length_fmap. }
    rewrite !Hc, Ha', Hs2, Hw, (shown_again _ _ now), <- Ha.
    rewrite <- (count_remove f (λ s, f s && negb (str_eqb s.1.1 (a_id a))) (λ s, s.1.1) (alert_state <$> fl_alerts fleet)
      (alert_state a)); [|..|done].
    + f_equal. unfold count. rewrite js_filter_fmap, length_fmap. f_equal. apply js_filter_ext.
      intros s. unfold f. destruct (str_eqb s.1.1 (a_id a)); simpl; [by rewrite andb_false_r|by rewrite andb_true_r].
    + rewrite <- list_fmap_compose. replace (_ <$> fl_alerts fleet) with known_alerts; [by apply (bool_decide_unpack (NoDup _))|].
      rewrite Ha, <- list_fmap_compose. by rewrite <- (snapshot_alerts now).
    + by apply list_elem_of_fmap_2.
    + exact Eact.
Qed.

End Flows.

(** ** The form of the alert rules *)

(** The drafts over time, newest first, and the edits that led there: each edit is made by the
    handler of some render, not necessarily the latest. *)
Inductive editing (rules : list EditableRule) : list Drafts → list (jsstr * RulePatch) → Prop :=
| ed_open : editing rules [∅] []
| ed_edit drafts older edits seen id values :
    editing rules (drafts :: older) edits → seen ∈ drafts :: older →
    editing rules (patch (effectiveRules rules seen) id values drafts :: drafts :: older) (edits ++ [(id, values)]).

(** The rule of the server with the edits of its own row, in order. *)
Definition edit_row (r : EditableRule) (e : jsstr * RulePatch) : EditableRule :=
  if str_eqb (er_id r) e.1 then apply_patch e.2 r else r.

Definition drafts_keyed (drafts : Drafts) : Prop := map_Forall (λ id r, er_id r = id) drafts.

Lemma effective_ids rules drafts :
  drafts_keyed drafts → er_id <$> effectiveRules rules drafts = er_id <$> rules.
Proof.
  intros Hk. unfold effectiveRules. rewrite <- list_fmap_compose. apply list_fmap_ext. intros _ r _. simpl.
  destruct (drafts !! er_id r) as [d|] eqn:E; [|done]. exact (Hk _ _ E).
Qed.

(** The row that a handler patches, when no draft of it is there yet. *)
Lemma find_row rules seen id :
  drafts_keyed seen → seen !! id = None →
  js_find (λ r, str_eqb (er_id r) id) (effectiveRules rules seen) = js_find (λ r, str_eqb (er_id r) id) rules.
Proof.
  intros Hk Hid. induction rules as [|r rules IH]; [done|].
  change (effectiveRules (r :: rules) seen) with (default r (seen !! er_id r) :: effectiveRules rules seen).
  cbn [js_find]. destruct (seen !! er_id r) as [d|] eqn:E; simpl; [|by rewrite IH].
  rewrite (Hk _ _ E). destruct (str_eqb (er_id r) id) eqn:Ei; [|exact IH].
  apply str_eqb_eq in Ei. by rewrite Ei, Hid in E.
Qed.

Lemma patch_effect rules seen id values drafts :
  NoDup (er_id <$> rules) → drafts_keyed seen → drafts_keyed drafts → dom seen ⊆ dom drafts →
  let drafts' := patch (effectiveRules rules seen) id values drafts in
  effectiveRules rules drafts' = (λ r, edit_row r (id, values)) <$> effectiveRules rules drafts
  ∧ drafts_keyed drafts' ∧ dom drafts ⊆ dom drafts'.
Proof.
  intros Hd Hks Hk Hdom. unfold patch. assert (∀ d, er_id d = id →
    (∀ r, r ∈ rules → er_id r = id → default r (drafts !! id) = d) →
    effectiveRules rules (<[id:=apply_patch values d]> drafts)
      = (λ r, edit_row r (id, values)) <$> effectiveRules rules drafts
    ∧ drafts_keyed (<[id:=apply_patch values d]> drafts) ∧ dom drafts ⊆ dom (<[id:=apply_patch values d]> drafts)) as Hset.
  { intros d Hde Hr. split_and!; [|by apply map_Forall_insert_2|set_solver].
    unfold effectiveRules. rewrite <- list_fmap_compose. apply list_fmap_ext. intros i r Hir%list_elem_of_lookup_2.
    unfold edit_row. simpl. destruct (decide (er_id r = id)) as [E|E].
    - rewrite E, lookup_insert_eq, (Hr r Hir E). simpl. by rewrite Hde, str_eqb_refl.
    - rewrite lookup_insert_ne by congruence. replace (er_id (default r (drafts !! er_id r))) with (er_id r).
      + by rewrite (proj2 (str_eqb_neq _ _) E).
      + destruct (drafts !! er_id r) eqn:El; [|done]. simpl. symmetry. exact (Hk _ _ El). }
  destruct (drafts !! id) as [d|] eqn:El.
  { apply Hset; [exact (Hk _ _ El)|]. intros. done. }
  assert (seen !! id = None) as Hs by (apply not_elem_of_dom; apply not_elem_of_dom in El; set_solver).
  rewrite find_row by done. destruct (js_find _ rules) as [r|] eqn:Ef.
  - apply js_find_Some in Ef as [Hin Hid]. apply str_eqb_eq in Hid. apply Hset; [done|].
    intros r' Hin' Hid'. simpl. apply (NoDup_key er_id rules); try done. congruence.
  - split_and!; [|done..]. rewrite js_find_None in Ef. rewrite <- (list_fmap_id (effectiveRules rules drafts)) at 1.
    apply list_fmap_ext. intros i r Hr%list_elem_of_lookup_2. unfold edit_row. simpl.
    apply (list_elem_of_fmap_2 er_id) in Hr. rewrite effective_ids in Hr by done.
    apply list_elem_of_fmap in Hr as (r' & Hr' & Hin). rewrite Hr', (Ef r' Hin). done.
Qed.

Lemma editing_keyed rules history edits :
  NoDup (er_id <$> rules) → editing rules history edits →
  ∃ drafts older, history = drafts :: older
    ∧ Forall (λ d, drafts_keyed d ∧ dom d ⊆ dom drafts) history
    ∧ effectiveRules rules drafts = (λ r, fold_left edit_row edits r) <$> rules.
Proof.
  intros Hd. induction 1 as [|drafts older edits seen id values _ IH Hseen].
  - exists ∅, []. split_and!; [done| |].
    + apply Forall_singleton. split; [apply map_Forall_empty|done].
    + unfold effectiveRules. apply list_fmap_ext. intros _ r _. by rewrite lookup_empty.
  - destruct IH as (drafts' & older' & [= <- <-] & Hall & Heff).
    pose proof Hall as Hall'. rewrite Forall_forall in Hall'. destruct (Hall' _ Hseen) as [Hks Hdom].
    destruct (Hall' drafts ltac:(apply list_elem_of_here)) as [Hk _].
    destruct (patch_effect rules seen id values drafts Hd Hks Hk Hdom) as (He & Hk' & Hdom').
    do 2 eexists. split_and!; [done| |].
    + apply Forall_cons. split; [done|]. eapply Forall_impl; [exact Hall|]. intros d [Hkd Hdd].
      split; [done|]. by etrans.
    + rewrite He, Heff, <- list_fmap_compose. apply list_fmap_ext. intros _ r _. simpl.
      by rewrite fold_left_app.
Qed.

(** C38. No edit of the rules form is lost and none leaks: however the edits of the rows are
    interleaved, and whichever render made their handlers, each row shows the rule of the server
    with exactly the edits of its own row applied in order, and saving a row sends that rule. *)
Theorem rules_form rules history edits drafts older :
  NoDup (er_id <$> rules) → editing rules history edits → history = drafts :: older →
  effectiveRules rules drafts = (λ r, fold_left edit_row edits r) <$> rules
  ∧ ∀ r, r ∈ rules →
      let shown := fold_left edit_row edits r in
      er_id shown = er_id r ∧ er_metric shown = er_metric r
      ∧ er_scope shown = er_scope r ∧ er_hostId shown = er_hostId r
      ∧ sends (ru_save (rule_card false false shown)) = Some (rq_save shown).
Proof.
  intros Hd He ->. destruct (editing_keyed _ _ _ Hd He) as (d & o & [= <- <-] & _ & Heff).
  split; [exact Heff|]. intros r _. cbn zeta. split_and!; [..|done].
  all: clear; revert r; induction edits as [|e edits IH]; intros r; [done|]; simpl; rewrite IH;
    unfold edit_row; by destruct (str_eqb _ _).
Qed.

(** ** The theorems at concrete inputs *)

#[local] Instance example_case : LocaleCase := {| toLocaleLowerCase s := ascii_lower <$> s |}.

Definition example_pending : Pending := {| pe_interval := false; pe_baseline := false; pe_approve := false |}.
Definition example_ui : OperationsUi := {|
  op_interval := num_of_Z 7; op_selectedHost := js "asus"; op_baselineAcknowledged := false |}.


Lemma acknowledge_flow_witness :
  ∃ fleet' w3, fleet_overview w3 = (Ok (r_snapshot fleet'), snd (fleet_overview w3))
    ∧ av_activeCount (alerts_view false false alerts_ui_init fleet') = 1.
Proof.
  destruct (overview_total example_world) as (fleet & w1 & Hf).
  destruct (overview_Ok _ _ _ Hf) as (_ & now & Ha & _).
  assert (∃ card b, card ∈ av_cards (alerts_view false false alerts_ui_init fleet)
    ∧ ac_acknowledge card = Some b) as (card & b & Hc & Hb).
  { cbn [av_cards alerts_view]. rewrite filtered_init, Ha. do 2 eexists.
    split; [apply list_elem_of_here|reflexivity]. }
  destruct (acknowledge_flow example_caller alerts_ui_init example_world fleet w1 card b Hf Hc Hb)
    as (_ & audit & w2 & fleet' & w3 & _ & Hf' & _ & Hcount).
  exists fleet', w2. rewrite Hf'. split; [done|].
  apply Nat.succ_inj. etrans; [exact Hcount|]. cbn [av_activeCount alerts_view]. rewrite Ha.
  by vm_compute.
Defined.


(** Two edits of two rows, the second made by the handler of the first render. *)
Lemma rules_form_witness :
  let rules := editable <$> ds_alertRules developmentState in
  let off := {| pt_operator := None; pt_threshold := None; pt_durationSeconds := None;
                pt_severity := None; pt_enabled := Some false |} in
  let low := {| pt_operator := None; pt_threshold := None; pt_durationSeconds := None;
                pt_severity := Some info; pt_enabled := None |} in
  ∃ drafts, er_enabled <$> effectiveRules rules drafts = [false; true; true]
    ∧ er_severity <$> effectiveRules rules drafts = [info; warning; critical].
Proof.
  intros rules off low.
  pose (id := match rules with r :: _ => er_id r | [] => [] end).
  pose (d1 := patch (effectiveRules rules ∅) id off ∅).
  assert (editing rules [patch (effectiveRules rules ∅) id low d1; d1; ∅] ([(id, off)] ++ [(id, low)])) as He.
  { apply (ed_edit rules d1 [∅] [(id, off)] ∅ id low); [|set_solver].
    apply (ed_edit rules ∅ [] [] ∅ id off); [constructor|set_solver]. }
  exists (patch (effectiveRules rules ∅) id low d1).
  destruct (rules_form rules _ _ _ _ ltac:(by apply (bool_decide_unpack (NoDup _))) He eq_refl) as [Heff _].
  rewrite Heff. split; reflexivity.
Defined.
