(* ===== verification/Collector.v ===== *)
(** The debug collector of development builds ([client/public/__manus__/debug-collector.js]): it
    records console calls, requests and interactions in bounded buffers and reports them. *)
From S2P Require Import Prelude JsString JsNumber Json.

(** ** Values *)

(** A value of JavaScript, as far as the collector looks into it: an error counts by its message
    and stack, objects by their own enumerable properties in order. *)
Unset Elimination Schemes.
Inductive value : Type :=
| v_undefined | v_null | v_bool (b : bool) | v_number (n : number) | v_string (s : jsstr)
| v_bigint (z : Z) | v_function (text : jsstr)
| v_error (message : jsstr) (stack : option jsstr)
| v_array (l : list value) | v_object (l : list (jsstr * value)).
Set Elimination Schemes.

Section value_ind.
  Variable P : value → Prop.
  Hypothesis Hleaf : ∀ v, match v with v_array _ | v_object _ => False | _ => True end → P v.
  Hypothesis Harr : ∀ l, Forall P l → P (v_array l).
  Hypothesis Hobj : ∀ l, Forall (λ kv, P kv.2) l → P (v_object l).

Fixpoint value_ind (v : value) : P v :=
    match v with
    | v_array l =>
        Harr l ((fix go (l : list value) : Forall P l :=
                   match l with
                   | [] => Forall_nil_2 _
                   | v :: l' => Forall_cons_2 _ _ _ (value_ind v) (go l')
                   end) l)
    | v_object l =>
        Hobj l ((fix go (l : list (jsstr * value)) : Forall (λ kv, P kv.2) l :=
                   match l with
                   | [] => Forall_nil_2 _
                   | kv :: l' => Forall_cons_2 _ _ _ (value_ind kv.2) (go l')
                   end) l)
    | v => Hleaf v I
    end.
End value_ind.

Fixpoint value_of_json (j : json) : value :=
  match j with
  | JNull => v_null | JBool b => v_bool b | JNumber n => v_number n | JString s => v_string s
  | JArray l => v_array (value_of_json <$> l)
  | JObject l => v_object ((λ kv, (kv.1, value_of_json kv.2)) <$> l)
  end.

(** What [JSON.stringify] writes for a value: nothing for [undefined] and functions, which leave
    a property out and are [null] in an array. *)
Fixpoint json_of_value (v : value) : option json :=
  match v with
  | v_undefined | v_function _ => None
  | v_null => Some JNull | v_bool b => Some (JBool b)
  | v_number n => Some (if is_finite n then JNumber n else JNull)
  | v_string s => Some (JString s)
  | v_bigint _ => Some JNull
  | v_error _ _ => Some (JObject [])
  | v_array l => Some (JArray ((λ v, default JNull (json_of_value v)) <$> l))
  | v_object l => Some (JObject (omap (λ kv, pair kv.1 <$> json_of_value kv.2) l))
  end.

(** A bigint anywhere makes [JSON.stringify] throw. *)
Fixpoint has_bigint (v : value) : bool :=
  match v with
  | v_bigint _ => true
  | v_array l => existsb has_bigint l
  | v_object l => existsb (λ kv, has_bigint kv.2) l
  | _ => false
  end.

(** [String(v)]; objects are without a [toString] of their own, and errors without a name. *)
Fixpoint value_text (v : value) : jsstr :=
  match v with
  | v_undefined => js "undefined" | v_null => js "null"
  | v_bool b => if b then js "true" else js "false"
  | v_number n => js_of_num n | v_string s => s | v_bigint z => js_of_Z z | v_function t => t
  | v_error message _ => if truthy message then js "Error: " ++ message else js "Error"
  | v_array l =>
      join (js ",") ((λ v, match v with v_undefined | v_null => [] | _ => value_text v end) <$> l)
  | v_object _ => js "[object Object]"
  end.

Definition value_truthy (v : value) : bool :=
  match v with
  | v_undefined | v_null => false
  | v_bool b => b
  | v_number n => negb (is_nan n) && negb (neqb n zero)
  | v_string s => truthy s
  | v_bigint z => negb (z =? 0)%Z
  | _ => true
  end.

Definition v_text (o : option jsstr) : value := match o with Some s => v_string s | None => v_null end.
Definition v_int (z : Z) : value := v_number (num_of_Z z).

(** ** Configuration *)

Definition console_size : nat := 500.
Definition network_size : nat := 200.
Definition ui_size : nat := 500.
Definition sensitiveFields : list jsstr :=
  [js "password"; js "token"; js "secret"; js "key"; js "authorization"; js "cookie"; js "session"].
Definition maxBodyLength : nat := 10240.
Definition uiInputMaxLen : nat := 200.
Definition uiTextMaxLen : nat := 80.
Definition scrollThrottleMs : Z := 500.

Section Collector.
Context `{UnicodeCase}.

(** ** Sanitizing *)

Definition names_secret (s : jsstr) : bool := existsb (λ f, includes f (toLowerCase s)) sensitiveFields.

(** [s.slice(0, n) + suffix] when the text is longer. *)
Definition truncated (n : nat) (suffix s : jsstr) : jsstr :=
  if (n <? length s) then take n s ++ suffix else s.

(** Writing the property [__proto__] of an object sets its prototype and makes no property. *)
Definition own_property {A} (kv : jsstr * A) : bool := negb (str_eqb kv.1 (js "__proto__")).

Fixpoint sanitizeValue (depth : nat) (v : value) : value :=
  if (5 <? depth) then v_string (js "[Max Depth]")
  else match v with
  | v_string s => v_string (truncated 1000 (js "...[truncated]") s)
  | v_array l => v_array (take 100 (sanitizeValue (S depth) <$> l))
  | v_object l =>
      v_object (js_filter own_property
        ((λ kv, (kv.1, if names_secret kv.1 then v_string (js "[REDACTED]")
                       else sanitizeValue (S depth) kv.2)) <$> l))
  | v_error _ _ => v_object []
  | _ => v
  end.

Definition formatArg (arg : value) : value :=
  match arg with
  | v_error message stack =>
      v_object [(js "type", v_string (js "Error")); (js "message", v_string message);
                (js "stack", match stack with Some s => v_string s | None => v_undefined end)]
  | v_null | v_array _ | v_object _ => sanitizeValue 0 arg
  | _ => v_string (value_text arg)
  end.

Definition formatArgs (args : list value) : value := v_array (formatArg <$> args).

(** The oldest entries go when there are too many. *)
Definition pruneBuffer {A} (buffer : list A) (maxSize : nat) : list A :=
  if (maxSize <? length buffer) then drop (length buffer - maxSize) buffer else buffer.

Definition tryParseJson (v : value) : value :=
  match v with
  | v_string s => match JSON_parse s with Some j => value_of_json j | None => v end
  | _ => v
  end.

(** ** Elements *)

(** An element of the page; [el_value] is absent where an element has no [value]. *)
Record Element := {
  el_tagName : jsstr; el_id : jsstr; el_attr : jsstr → option jsstr; el_value : option jsstr;
  el_innerText : option jsstr; el_textContent : option jsstr; el_noRecord : bool }.

(** The target of an event: an element, or something else such as the document. *)
Definition Target := option Element.

Definition shouldIgnoreTarget (t : Target) : bool :=
  match t with Some el => el_noRecord el | None => false end.

(** [s.replace(/\s+/g, " ")]. *)
Fixpoint collapse_spaces (s : jsstr) : jsstr :=
  match s with
  | [] => []
  | c :: s' =>
      if is_space c then
        match s' with
        | d :: _ => if is_space d then collapse_spaces s' else 32%N :: collapse_spaces s'
        | [] => [32%N]
        end
      else c :: collapse_spaces s'
  end.

Definition compactText (s : jsstr) (maxLen : nat) : jsstr :=
  truncated maxLen (js "…") (collapse_spaces (trim s)).

Definition elText (el : Element) : jsstr :=
  compactText (str_or (el_innerText el) (str_or (el_textContent el) [])) uiTextMaxLen.

Definition attr_or_null (el : Element) (name : jsstr) : option jsstr := str_or_null (el_attr el name).

(** The first value that is not empty. *)
Fixpoint first_text (l : list (option jsstr)) : option jsstr :=
  match l with
  | [] => None
  | o :: l' => match str_or_null o with Some s => Some s | None => first_text l' end
  end.

Definition tag_of (el : Element) : option jsstr :=
  if truthy (el_tagName el) then Some (toLowerCase (el_tagName el)) else None.

Definition selectorHint (testId dataLoc id tag : option jsstr) : jsstr :=
  match testId, dataLoc, id with
  | Some t, _, _ => js "[data-testid=" ++ [quote_unit] ++ t ++ [quote_unit] ++ js "]"
  | None, Some d, _ => js "[data-loc=" ++ [quote_unit] ++ d ++ [quote_unit] ++ js "]"
  | None, None, Some i => js "#" ++ i
  | None, None, None => str_or tag (js "unknown")
  end.

Definition describeElement (t : Target) : value :=
  match t with
  | None => v_null
  | Some el =>
      let tag := tag_of el in
      let id := str_or_null (Some (el_id el)) in
      let dataLoc := attr_or_null el (js "data-loc") in
      let testId := first_text [el_attr el (js "data-testid"); el_attr el (js "data-test-id");
                                el_attr el (js "data-test")] in
      v_object
        [(js "tag", v_text tag); (js "id", v_text id); (js "name", v_text (attr_or_null el (js "name")));
         (js "type", v_text (if bool_decide (tag = Some (js "input"))
                             then Some (str_or (el_attr el (js "type")) (js "text")) else None));
         (js "role", v_text (attr_or_null el (js "role")));
         (js "ariaLabel", v_text (attr_or_null el (js "aria-label")));
         (js "testId", v_text testId); (js "dataLoc", v_text dataLoc);
         (js "href", v_text (if bool_decide (tag = Some (js "a")) then attr_or_null el (js "href") else None));
         (js "text", v_string (elText el)); (js "selectorHint", v_string (selectorHint testId dataLoc id tag))]
  end.

Definition isSensitiveField (el : Element) : bool :=
  let tag := default [] (tag_of el) in
  if negb (str_eqb tag (js "input")) && negb (str_eqb tag (js "textarea")) then false
  else str_eqb (toLowerCase (default [] (el_attr el (js "type")))) (js "password")
       || names_secret (default [] (el_attr el (js "name"))) || names_secret (el_id el).

Definition getInputValueSafe (t : Target) : value :=
  match t with
  | None => v_null
  | Some el =>
      if negb (bool_decide (default [] (tag_of el) ∈ [js "input"; js "textarea"; js "select"])) then v_null
      else
        let v := default [] (el_value el) in
        if isSensitiveField el then
          v_object [(js "masked", v_bool true); (js "length", v_int (Z.of_nat (length v)))]
        else v_string (truncated uiInputMaxLen (js "…") v)
  end.

(** ** The store *)

Record Store := {
  st_consoleLogs : list value; st_networkRequests : list value; st_uiEvents : list value;
  st_lastScrollTime : Z }.

Definition store_init : Store :=
  {| st_consoleLogs := []; st_networkRequests := []; st_uiEvents := []; st_lastScrollTime := 0 |}.

(** What the collector reads of the page when something happens. *)
Record PageState := { pg_now : Z; pg_href : jsstr; pg_innerWidth : number; pg_innerHeight : number }.

Definition push_console (entry : value) (s : Store) : Store := {|
  st_consoleLogs := pruneBuffer (st_consoleLogs s ++ [entry]) console_size;
  st_networkRequests := st_networkRequests s; st_uiEvents := st_uiEvents s;
  st_lastScrollTime := st_lastScrollTime s |}.

Definition push_network (entry : value) (s : Store) : Store := {|
  st_consoleLogs := st_consoleLogs s;
  st_networkRequests := pruneBuffer (st_networkRequests s ++ [entry]) network_size;
  st_uiEvents := st_uiEvents s; st_lastScrollTime := st_lastScrollTime s |}.

Definition logUiEvent (page : PageState) (kind : jsstr) (payload : value) (s : Store) : Store := {|
  st_consoleLogs := st_consoleLogs s; st_networkRequests := st_networkRequests s;
  st_uiEvents := pruneBuffer (st_uiEvents s ++ [
    v_object [(js "timestamp", v_int (pg_now page)); (js "kind", v_string kind);
              (js "url", v_string (pg_href page));
              (js "viewport", v_object [(js "width", v_number (pg_innerWidth page));
                                        (js "height", v_number (pg_innerHeight page))]);
              (js "payload", sanitizeValue 0 payload)]]) ui_size;
  st_lastScrollTime := st_lastScrollTime s |}.

(** ** Interactions ([installUiEventListeners]) *)

Inductive UiInput :=
| ui_click (t : Target) (clientX clientY : number)
| ui_change (t : Target) | ui_focusin (t : Target) | ui_focusout (t : Target)
| ui_keydown (key : jsstr) (t : Target)
| ui_submit (t : Target)
| ui_scroll (scrollX scrollY documentHeight : number)
| ui_navigate (reason : jsstr).

Definition on_target (page : PageState) (kind : jsstr) (t : Target) (payload : list (jsstr * value)) (s : Store) : Store :=
  if shouldIgnoreTarget t then s else logUiEvent page kind (v_object payload) s.

Definition target_member (t : Target) : jsstr * value := (js "target", describeElement t).

Definition on_ui (page : PageState) (e : UiInput) (s : Store) : Store :=
  match e with
  | ui_click t x y =>
      on_target page (js "click") t [target_member t; (js "x", v_number x); (js "y", v_number y)] s
  | ui_change t => on_target page (js "change") t [target_member t; (js "value", getInputValueSafe t)] s
  | ui_focusin t => on_target page (js "focusin") t [target_member t] s
  | ui_focusout t => on_target page (js "focusout") t [target_member t; (js "value", getInputValueSafe t)] s
  | ui_keydown key t =>
      if negb (str_eqb key (js "Enter")) && negb (str_eqb key (js "Escape")) then s
      else on_target page (js "keydown") t [(js "key", v_string key); target_member t] s
  | ui_submit t => on_target page (js "submit") t [target_member t] s
  | ui_scroll x y h =>
      if (pg_now page - st_lastScrollTime s <? scrollThrottleMs)%Z then s
      else logUiEvent page (js "scroll")
             (v_object [(js "scrollX", v_number x); (js "scrollY", v_number y);
                        (js "documentHeight", v_number h); (js "viewportHeight", v_number (pg_innerHeight page))])
             {| st_consoleLogs := st_consoleLogs s; st_networkRequests := st_networkRequests s;
                st_uiEvents := st_uiEvents s; st_lastScrollTime := pg_now page |}
  | ui_navigate reason => logUiEvent page (js "navigate") (v_object [(js "reason", v_string reason)]) s
  end.

(** ** Console *)

Inductive ConsoleMethod := cm_log | cm_debug | cm_info | cm_warn | cm_error.
Definition method_upper (m : ConsoleMethod) : jsstr :=
  match m with
  | cm_log => js "LOG" | cm_debug => js "DEBUG" | cm_info => js "INFO" | cm_warn => js "WARN" | cm_error => js "ERROR"
  end.

Definition console_entry (page : PageState) (level : jsstr) (args stack : value) : value :=
  v_object [(js "timestamp", v_int (pg_now page)); (js "level", v_string level); (js "args", args); (js "stack", stack)].

(** [stack] is that of a new error, which is taken for [console.error] only. *)
Definition console_call (page : PageState) (m : ConsoleMethod) (args : list value) (stack : jsstr) (s : Store) : Store :=
  push_console (console_entry page (method_upper m) (formatArgs args)
                  (match m with cm_error => v_string stack | _ => v_null end)) s.

(** An uncaught error; [stack] is absent when the event carries no error. *)
Record ErrorEvent := { ee_message : jsstr; ee_filename : jsstr; ee_lineno : Z; ee_colno : Z; ee_stack : option jsstr }.

Definition error_members (e : ErrorEvent) : list (jsstr * value) :=
  [(js "message", v_string (ee_message e)); (js "filename", v_string (ee_filename e));
   (js "lineno", v_int (ee_lineno e)); (js "colno", v_int (ee_colno e))].

Definition window_error (page : PageState) (e : ErrorEvent) (s : Store) : Store :=
  logUiEvent page (js "error") (v_object (error_members e))
    (push_console (console_entry page (js "ERROR")
       (v_array [v_object ((js "type", v_string (js "UncaughtError")) :: error_members e ++ [(js "stack", v_text (ee_stack e))])])
       (v_text (ee_stack e))) s).

(** [reason && reason.message ? reason.message : String(reason)], and its stack; for what is
    neither an error nor an object with texts of these names, the text of the value. *)
Definition reason_member (name : jsstr) (reason : value) : option jsstr :=
  match reason with
  | v_error message stack => if str_eqb name (js "message") then Some message else stack
  | v_object l => match js_find (λ kv, str_eqb kv.1 name) l with Some (_, v_string s) => Some s | _ => None end
  | _ => None
  end.
Definition reason_text (reason : value) : jsstr := str_or (reason_member (js "message") reason) (value_text reason).
Definition reason_stack (reason : value) : value := v_text (str_or_null (reason_member (js "stack") reason)).

Definition unhandledrejection (page : PageState) (reason : value) (s : Store) : Store :=
  logUiEvent page (js "unhandledrejection") (v_object [(js "reason", v_string (reason_text reason))])
    (push_console (console_entry page (js "ERROR")
       (v_array [v_object [(js "type", v_string (js "UnhandledRejection"));
                           (js "reason", v_string (reason_text reason)); (js "stack", reason_stack reason)]])
       (reason_stack reason)) s).

(** ** Requests ([window.fetch] and [XMLHttpRequest]) *)

(** The first argument of [fetch]: a text, or an object such as a [Request] or a [URL]. *)
Inductive FetchInput := in_text (s : jsstr) | in_object (url href method : option jsstr) (text : jsstr).

(** The headers of the second: [Headers] refuses some, and normalises the others. *)
Inductive InitHeaders := ih_none | ih_invalid | ih_entries (l : list (jsstr * jsstr)).

Record FetchOptions := { fo_method : option jsstr; fo_headers : InitHeaders; fo_body : value }.

Definition fetch_url_of (input : FetchInput) : jsstr :=
  match input with
  | in_text s => s
  | in_object url href _ text => str_or url (str_or href text)
  end.

Definition fetch_method (input : FetchInput) (init : FetchOptions) : jsstr :=
  str_or (fo_method init) (match input with in_object _ _ (Some m) _ => str_or (Some m) (js "GET") | _ => js "GET" end).

(** Methods are ASCII tokens. *)
Definition upper_method (m : jsstr) : jsstr :=
  (λ c, if ((97 <=? c) && (c <=? 122))%N then (c - 32)%N else c) <$> m.

Definition header_value (h : InitHeaders) : value :=
  match h with
  | ih_none => v_object []
  | ih_invalid => v_object [(js "_parseError", v_bool true)]
  | ih_entries l => v_object ((λ kv, (kv.1, v_string kv.2)) <$> l)
  end.

Definition recorded_body (body : value) : value :=
  if value_truthy body then sanitizeValue 0 (tryParseJson body) else v_null.

Definition internal_prefix : jsstr := js "/__manus__/".
Definition is_internal (url : jsstr) : bool := startsWith internal_prefix url.

(** The record of a request that is under way. *)
Record Started := { sd_timestamp : Z; sd_method : jsstr; sd_url : jsstr; sd_request : value }.

(** [window.fetch]: [None] for the collector's own requests, which are not recorded. *)
Definition fetch_start (page : PageState) (input : FetchInput) (init : FetchOptions) : option Started :=
  if is_internal (fetch_url_of input) then None
  else Some {| sd_timestamp := pg_now page; sd_method := upper_method (fetch_method input init);
               sd_url := fetch_url_of input;
               sd_request := v_object [(js "headers", header_value (fo_headers init));
                                       (js "body", recorded_body (fo_body init))] |}.

(** An answer; its text may be unreadable. *)
Record FetchResponse := {
  fr_status : Z; fr_statusText : jsstr; fr_headers : list (jsstr * jsstr); fr_text : option jsstr }.

Definition response_header (name : jsstr) (r : FetchResponse) : option jsstr :=
  snd <$> js_find (λ kv, str_eqb kv.1 name) (fr_headers r).

(** [parseInt(text, 10)]: [None] is NaN. *)
Definition parse_int (s : jsstr) : option Z :=
  let t := drop_while is_space s in
  let '(sg, r) := match t with
                  | c :: r => if (c =? 43)%N then (1%Z, r) else if (c =? 45)%N then ((-1)%Z, r) else (1%Z, t)
                  | [] => (1%Z, t)
                  end in
  let '(v, n, _) := read_digits 0 0 r in
  if (n =? 0) then None else Some (sg * v)%Z.

Definition isStreaming (contentType : jsstr) : bool :=
  existsb (λ p, includes p contentType)
    [js "text/event-stream"; js "application/stream"; js "application/x-ndjson"].
Definition isBinary (contentType : jsstr) : bool :=
  existsb (λ p, includes p contentType)
    [js "image/"; js "video/"; js "audio/"; js "application/octet-stream"; js "application/pdf"; js "application/zip"].

(** [contentLength && parseInt(contentLength, 10) > CONFIG.maxBodyLength]. *)
Definition too_large (contentLength : option jsstr) : bool :=
  match contentLength with
  | Some s => truthy s && match parse_int s with Some z => (Z.of_nat maxBodyLength <? z)%Z | None => false end
  | None => false
  end.

Definition recorded_text (text : jsstr) : value :=
  if (length text <=? maxBodyLength) then sanitizeValue 0 (tryParseJson (v_string text))
  else v_string (take maxBodyLength text ++ js "...[truncated]").

(** What is recorded of the body of an answer, and whether it is there at once or only after the
    text was read. *)
Inductive BodyRecord := body_now (v : value) | body_later (v : value).

Definition response_body (r : FetchResponse) : BodyRecord :=
  let contentType := toLowerCase (default [] (response_header (js "content-type") r)) in
  let contentLength := response_header (js "content-length") r in
  if isStreaming contentType then body_now (v_string (js "[Streaming response - not captured]"))
  else if too_large contentLength then
    body_now (v_string (js "[Response too large: " ++ default [] contentLength ++ js " bytes]"))
  else if isBinary contentType then body_now (v_string (js "[Binary content: " ++ contentType ++ js "]"))
  else body_later (match fr_text r with
                   | Some text => recorded_text text
                   | None => v_string (js "[Unable to read body]") end).

Definition network_entry (kind : jsstr) (st : Started) (response : value) (duration : Z) (error : value) : value :=
  v_object [(js "timestamp", v_int (sd_timestamp st)); (js "type", v_string kind);
            (js "method", v_string (sd_method st)); (js "url", v_string (sd_url st));
            (js "request", sd_request st); (js "response", response); (js "duration", v_int duration);
            (js "error", error)].

Definition network_error (page : PageState) (kind : jsstr) (st : Started) (more : list (jsstr * value)) (s : Store) : Store :=
  logUiEvent page (js "network_error")
    (v_object ([(js "kind", v_string kind); (js "method", v_string (sd_method st)); (js "url", v_string (sd_url st))] ++ more)) s.

Definition status_members (status : Z) (statusText : jsstr) : list (jsstr * value) :=
  [(js "status", v_int status); (js "statusText", v_string statusText)].

Definition fetch_entry (page : PageState) (st : Started) (r : FetchResponse) : value :=
  network_entry (js "fetch") st
    (v_object (status_members (fr_status r) (fr_statusText r)
               ++ [(js "headers", v_object ((λ kv, (kv.1, v_string kv.2)) <$> fr_headers r));
                   (js "body", match response_body r with body_now v | body_later v => v end)]))
    (pg_now page - sd_timestamp st) v_null.

(** The answer arrives: a failure is marked at once; the entry is pushed at once, or when the text
    of the answer has been read ([fetch_text]). *)
Definition fetch_answer (page : PageState) (st : Started) (r : FetchResponse) (s : Store) : Store :=
  let s1 := if (400 <=? fr_status r)%Z
            then network_error page (js "fetch") st (status_members (fr_status r) (fr_statusText r)) s else s in
  match response_body r with
  | body_now _ => push_network (fetch_entry page st r) s1
  | body_later _ => s1
  end.

(** [page] is that of the answer, whose duration the entry keeps. *)
Definition fetch_text (page : PageState) (st : Started) (r : FetchResponse) (s : Store) : Store :=
  match response_body r with
  | body_now _ => s
  | body_later _ => push_network (fetch_entry page st r) s
  end.

Definition fetch_failure (page : PageState) (st : Started) (message : jsstr) (stack : option jsstr) (s : Store) : Store :=
  network_error page (js "fetch") st [(js "message", v_string message)]
    (push_network (network_entry (js "fetch") st v_null (pg_now page - sd_timestamp st)
       (v_object [(js "message", v_string message);
                  (js "stack", match stack with Some t => v_string t | None => v_undefined end)])) s).

(** [XMLHttpRequest]: the method and address of [open], the body of [send]. *)
Definition xhr_send (page : PageState) (method : option jsstr) (url : jsstr) (body : value) : option Started :=
  if negb (truthy url) || is_internal url then None
  else Some {| sd_timestamp := pg_now page; sd_method := upper_method (str_or method (js "GET")); sd_url := url;
               sd_request := v_object [(js "body", recorded_body body)] |}.

(** The answer of an [XMLHttpRequest]; reading its text may throw with a message. *)
Record XhrResponse := {
  xr_status : Z; xr_statusText : jsstr; xr_contentType : option jsstr; xr_responseText : result jsstr jsstr }.

Definition xhr_body (r : XhrResponse) : value :=
  let contentType := toLowerCase (default [] (xr_contentType r)) in
  if isStreaming contentType then v_string (js "[Streaming response - not captured]")
  else if isBinary contentType then v_string (js "[Binary content: " ++ contentType ++ js "]")
  else match xr_responseText r with
       | Ok text => recorded_text text
       | Err message => v_string (js "[Unable to read response: " ++ message ++ js "]")
       end.

Definition xhr_load (page : PageState) (st : Started) (r : XhrResponse) (s : Store) : Store :=
  let s1 := push_network (network_entry (js "xhr") st
              (v_object (status_members (xr_status r) (xr_statusText r) ++ [(js "body", xhr_body r)]))
              (pg_now page - sd_timestamp st) v_null) s in
  if (400 <=? xr_status r)%Z
  then network_error page (js "xhr") st (status_members (xr_status r) (xr_statusText r)) s1 else s1.

Definition xhr_failure (page : PageState) (st : Started) (s : Store) : Store :=
  network_error page (js "xhr") st [(js "message", v_string (js "Network error"))]
    (push_network (network_entry (js "xhr") st v_null (pg_now page - sd_timestamp st)
       (v_object [(js "message", v_string (js "Network error"))])) s).

(** ** Reporting *)

(** The entries that one report takes along. *)
Record Batch := { bt_consoleLogs : list value; bt_networkRequests : list value; bt_uiEvents : list value }.

Definition batch_of (s : Store) : Batch := {|
  bt_consoleLogs := st_consoleLogs s; bt_networkRequests := st_networkRequests s; bt_uiEvents := st_uiEvents s |}.

Definition empty_batch (b : Batch) : bool :=
  (length (bt_consoleLogs b) =? 0) && (length (bt_networkRequests b) =? 0) && (length (bt_uiEvents b) =? 0).

Definition report_payload (now : Z) (b : Batch) : value :=
  v_object [(js "timestamp", v_int now); (js "consoleLogs", v_array (bt_consoleLogs b));
            (js "networkRequests", v_array (bt_networkRequests b));
            (js "sessionEvents", v_array (bt_uiEvents b)); (js "uiEvents", v_array (bt_uiEvents b))].

(** What [reportLogs] does: nothing, a request with a text, or an exception of [JSON.stringify]. *)
Inductive Report := rp_nothing | rp_request (body : jsstr) | rp_throws.

Definition stringify_value (v : value) : jsstr :=
  match json_of_value v with Some j => stringify j | None => js "undefined" end.

(** The buffers are emptied first. *)
Definition reportLogs (now : Z) (s : Store) : Report * Store :=
  let b := batch_of s in
  let s' := {| st_consoleLogs := []; st_networkRequests := []; st_uiEvents := [];
               st_lastScrollTime := st_lastScrollTime s |} in
  if empty_batch b then (rp_nothing, s')
  else if has_bigint (report_payload now b) then (rp_throws, s')
  else (rp_request (stringify_value (report_payload now b)), s').

(** The report failed: the entries go back in front. *)
Definition put_back (b : Batch) (s : Store) : Store := {|
  st_consoleLogs := pruneBuffer (bt_consoleLogs b ++ st_consoleLogs s) console_size;
  st_networkRequests := pruneBuffer (bt_networkRequests b ++ st_networkRequests s) network_size;
  st_uiEvents := pruneBuffer (bt_uiEvents b ++ st_uiEvents s) ui_size;
  st_lastScrollTime := st_lastScrollTime s |}.

Definition max_beacon : nat := 60000.

(** [l.slice(-n)]. *)
Definition last_n {A} (n : nat) (l : list A) : list A := drop (length l - n) l.

(** [beforeunload]: the text of the beacon; the buffers stay. *)
Definition beacon (now : Z) (s : Store) : Report :=
  let b := batch_of s in
  if empty_batch b then rp_nothing
  else if has_bigint (report_payload now b) then rp_throws
  else
    let payloadStr := stringify_value (report_payload now b) in
    rp_request (if (max_beacon <? length payloadStr) then
      stringify_value (v_object
        [(js "timestamp", v_int now); (js "consoleLogs", v_array (last_n 50 (st_consoleLogs s)));
         (js "networkRequests", v_array (last_n 20 (st_networkRequests s)));
         (js "sessionEvents", v_array (last_n 100 (st_uiEvents s)));
         (js "uiEvents", v_array (last_n 100 (st_uiEvents s))); (js "_truncated", v_bool true)])
      else payloadStr).
End Collector.
