(* ===== verification/CollectorProps.v ===== *)
(** What the debug collector keeps to itself and how much it keeps: sanitized values, masked
    inputs, bounded buffers, and the fate of every entry under failing reports. *)
From S2P Require Import Prelude JsString JsNumber Json Collector.

(** ** Sanitized values *)

Section Sanitize.
Context `{UnicodeCase}.

(** A value without what it keeps under secret names. *)
Fixpoint public (v : value) : value :=
  match v with
  | v_array l => v_array (public <$> l)
  | v_object l => v_object ((λ kv, (kv.1, if names_secret kv.1 then v_undefined else public kv.2)) <$> l)
  | _ => v
  end.

(** Nested at most [n] deep, with short texts and arrays, and nothing under secret names. *)
Fixpoint clean (n : nat) (v : value) : bool :=
  match v with
  | v_string s => (length s <=? 1014)
  | v_array l => match n with 0 => false | S n' => (length l <=? 100) && forallb (clean n') l end
  | v_object l =>
      match n with
      | 0 => false
      | S n' => forallb (λ kv, clean n' kv.2
                  && (negb (names_secret kv.1)
                      || match kv.2 with v_string t => str_eqb t (js "[REDACTED]") | _ => false end)) l
      end
  | _ => true
  end.

Lemma sanitize_public d v : sanitizeValue d (public v) = sanitizeValue d v.
Proof.
  revert d. induction v as [v Hv|l IH|l IH] using value_ind; intros d.
  - by destruct v.
  - cbn [public sanitizeValue]. destruct (5 <? d); [done|]. do 2 f_equal. rewrite <- list_fmap_compose.
    apply list_fmap_ext. intros i v Hi. rewrite Forall_forall in IH. apply IH. by eapply list_elem_of_lookup_2.
  - cbn [public sanitizeValue]. destruct (5 <? d); [done|]. do 2 f_equal. rewrite <- list_fmap_compose.
    apply list_fmap_ext. intros i [k v] Hi. unfold compose. cbn [fst snd]. destruct (names_secret k); [done|].
    f_equal. rewrite Forall_forall in IH. apply (IH (k, v)). by eapply list_elem_of_lookup_2.
Qed.

Lemma truncated_length n suffix s : length (truncated n suffix s) ≤ n + length suffix.
Proof.
  unfold truncated. destruct (n <? length s) eqn:E; bool_to_prop; [|lia].
  rewrite length_app, length_take. lia.
Qed.

Lemma forallb_Forall {A} (f : A → bool) l : Forall (λ x, f x = true) l → forallb f l = true.
Proof. induction 1; simpl; [done|]. by apply andb_true_iff. Qed.

Lemma clean_string n t : clean n (v_string t) = (length t <=? 1014).
Proof. by destruct n. Qed.

Lemma sanitize_clean d v n : 6 ≤ d + n → clean n (sanitizeValue d v) = true.
Proof.
  revert d n. induction v as [v Hv|l IH|l IH] using value_ind; intros d n Hn.
  - destruct v; try done; cbn [sanitizeValue]; destruct (5 <? d) eqn:Ed; rewrite ?clean_string; try done;
      try (by destruct n).
    + apply Nat.leb_le. etrans; [apply truncated_length|]. by apply Nat.leb_le.
    + bool_to_prop. by destruct n; [lia|].
  - cbn [sanitizeValue]. destruct (5 <? d) eqn:Ed; [by rewrite clean_string|]. bool_to_prop.
    destruct n as [|n]; [lia|]. cbn [clean]. apply andb_true_iff. split.
    + apply Nat.leb_le. rewrite length_take. lia.
    + apply forallb_Forall, Forall_take, Forall_fmap. eapply Forall_impl; [exact IH|].
      intros v Hv. apply Hv. lia.
  - cbn [sanitizeValue]. destruct (5 <? d) eqn:Ed; [by rewrite clean_string|]. bool_to_prop.
    destruct n as [|n]; [lia|]. cbn [clean]. apply forallb_Forall, Forall_forall.
    intros kv [_ Hkv]%elem_of_js_filter. apply list_elem_of_fmap in Hkv as ([k v] & -> & Hin). cbn [fst snd].
    destruct (names_secret k); [by rewrite clean_string|]. cbn [negb orb]. rewrite andb_true_r.
    rewrite Forall_forall in IH. apply (IH (k, v) Hin). lia.
Qed.

(** ** What is recorded *)

(** An input field with another text in it. *)
Definition typed (text : jsstr) (el : Element) : Element := {|
  el_tagName := el_tagName el; el_id := el_id el; el_attr := el_attr el; el_value := Some text;
  el_innerText := el_innerText el; el_textContent := el_textContent el; el_noRecord := el_noRecord el |}.

Lemma JSON_parse_truthy s j : JSON_parse s = Some j → truthy s = true.
Proof. destruct s; [|done]. intros Hp. by vm_compute in Hp. Qed.

End Sanitize.

(** ** The buffers over time *)

Inductive CollectorEvent :=
| ce_ui (e : UiInput)
| ce_console (m : ConsoleMethod) (args : list value) (stack : jsstr)
| ce_error (e : ErrorEvent) | ce_rejection (reason : value)
| ce_fetch_answer (st : Started) (r : FetchResponse) | ce_fetch_text (st : Started) (r : FetchResponse)
| ce_fetch_failure (st : Started) (message : jsstr) (stack : option jsstr)
| ce_xhr_load (st : Started) (r : XhrResponse) | ce_xhr_failure (st : Started).

Section Buffers.
Context `{UnicodeCase}.

Definition collect (page : PageState) (e : CollectorEvent) : Store → Store :=
  match e with
  | ce_ui u => on_ui page u
  | ce_console m args stack => console_call page m args stack
  | ce_error err => window_error page err
  | ce_rejection reason => unhandledrejection page reason
  | ce_fetch_answer st r => fetch_answer page st r
  | ce_fetch_text st r => fetch_text page st r
  | ce_fetch_failure st message stack => fetch_failure page st message stack
  | ce_xhr_load st r => xhr_load page st r
  | ce_xhr_failure st => xhr_failure page st
  end.

(** One of the three buffers. *)
Inductive Buffer := buf_console | buf_network | buf_ui.
Definition buffer_size (k : Buffer) : nat :=
  match k with buf_console => console_size | buf_network => network_size | buf_ui => ui_size end.
Definition buffer (k : Buffer) (s : Store) : list value :=
  match k with buf_console => st_consoleLogs s | buf_network => st_networkRequests s | buf_ui => st_uiEvents s end.
Definition batch_part (k : Buffer) (b : Batch) : list value :=
  match k with buf_console => bt_consoleLogs b | buf_network => bt_networkRequests b | buf_ui => bt_uiEvents b end.

(** What an event records: what it leaves in empty buffers. *)
Definition emptied (s : Store) : Store := {|
  st_consoleLogs := []; st_networkRequests := []; st_uiEvents := []; st_lastScrollTime := st_lastScrollTime s |}.
Definition recorded (k : Buffer) (page : PageState) (e : CollectorEvent) (s : Store) : list value :=
  buffer k (collect page e (emptied s)).

Lemma prune_short {A} (l : list A) n : length l ≤ n → pruneBuffer l n = l.
Proof. intros Hl. unfold pruneBuffer. by rewrite (proj2 (Nat.ltb_ge _ _) Hl). Qed.

Lemma prune_length {A} (l : list A) n : length (pruneBuffer l n) ≤ n.
Proof. unfold pruneBuffer. destruct (n <? length l) eqn:E; bool_to_prop; [rewrite length_drop|]; lia. Qed.

Lemma prune_suffix {A} (l : list A) n : ∃ dropped, l = dropped ++ pruneBuffer l n.
Proof.
  unfold pruneBuffer. destruct (n <? length l); [|by exists []].
  exists (take (length l - n) l). by rewrite take_drop.
Qed.

Lemma prune_one (x : value) k : pruneBuffer ([] ++ [x]) (buffer_size k) = [x].
Proof. apply prune_short. destruct k; by apply Nat.leb_le. Qed.

(** An operation on the store that puts what it records behind what is there. *)
Definition appends (f : Store → Store) (k : Buffer) : Prop :=
  ∀ s, length (buffer k s) ≤ buffer_size k →
    buffer k (f s) = pruneBuffer (buffer k s ++ buffer k (f (emptied s))) (buffer_size k).

Lemma appends_nothing f k : (∀ s, buffer k (f s) = buffer k s) → appends f k.
Proof.
  intros Hf s Hl. rewrite !Hf. replace (buffer k (emptied s)) with (@nil value) by (by destruct k).
  rewrite app_nil_r. by rewrite prune_short.
Qed.

Lemma appends_one f k x :
  (∀ s, buffer k (f s) = pruneBuffer (buffer k s ++ [x]) (buffer_size k)) → appends f k.
Proof.
  intros Hf s _. rewrite !Hf. replace (buffer k (emptied s)) with (@nil value) by (by destruct k).
  by rewrite prune_one.
Qed.

(** Each operation of the collector either leaves a buffer alone or pushes one entry. *)
Ltac appends_tac k :=
  destruct k; first [apply appends_nothing; intros; reflexivity | eapply appends_one; intros; reflexivity].

(** An event records at most one entry per kind. *)
Lemma collect_appends k page e : appends (collect page e) k.
Proof.
  destruct e as [u|m args stack|err|reason|st r|st r|st msg stack|st r|st]; cbn [collect].
  - unfold on_ui, on_target. destruct u as [t x y|t|t|t|key t|t|x y h|reason]; try appends_tac k.
    1-4,6: destruct (shouldIgnoreTarget t); appends_tac k.
    + destruct (_ && _), (shouldIgnoreTarget t); appends_tac k.
    + intros s Hl. cbn [st_lastScrollTime emptied].
      destruct (_ <? _)%Z; [by apply (appends_nothing (λ s, s) k)|].
      destruct k; cbn [buffer logUiEvent st_consoleLogs st_networkRequests emptied].
      1-2: rewrite app_nil_r; symmetry; by apply prune_short.
      exact (eq_sym (f_equal (λ l, pruneBuffer (st_uiEvents s ++ l) ui_size) (prune_one _ buf_ui))).
  - appends_tac k.
  - appends_tac k.
  - appends_tac k.
  - unfold fetch_answer. destruct (response_body r), (400 <=? _)%Z; appends_tac k.
  - unfold fetch_text. destruct (response_body r); appends_tac k.
  - appends_tac k.
  - unfold xhr_load. destruct (400 <=? _)%Z; appends_tac k.
  - appends_tac k.
Qed.

(** The collector with its reports under way, and a record of everything that happened to it:
    what was recorded, which reports were answered, which were lost to an exception. *)
Record CState := {
  cs_store : Store; cs_inflight : list Batch;
  cs_logged : Buffer → list value; cs_answered : list Batch; cs_lost : list Batch }.

Definition cstate_init : CState := {|
  cs_store := store_init; cs_inflight := []; cs_logged := λ _, []; cs_answered := []; cs_lost := [] |}.

(** Events and reports in any order; reports are answered or fail in any order. *)
Inductive collector_step (c : CState) : CState → Prop :=
| cst_event page e :
    collector_step c {|
      cs_store := collect page e (cs_store c); cs_inflight := cs_inflight c;
      cs_logged := λ k, cs_logged c k ++ recorded k page e (cs_store c);
      cs_answered := cs_answered c; cs_lost := cs_lost c |}
| cst_report now s' body :
    reportLogs now (cs_store c) = (rp_request body, s') →
    collector_step c {|
      cs_store := s'; cs_inflight := cs_inflight c ++ [batch_of (cs_store c)]; cs_logged := cs_logged c;
      cs_answered := cs_answered c; cs_lost := cs_lost c |}
| cst_throws now s' :
    reportLogs now (cs_store c) = (rp_throws, s') →
    collector_step c {|
      cs_store := s'; cs_inflight := cs_inflight c; cs_logged := cs_logged c;
      cs_answered := cs_answered c; cs_lost := batch_of (cs_store c) :: cs_lost c |}
| cst_answered l b l' :
    cs_inflight c = l ++ b :: l' →
    collector_step c {|
      cs_store := cs_store c; cs_inflight := l ++ l'; cs_logged := cs_logged c;
      cs_answered := b :: cs_answered c; cs_lost := cs_lost c |}
| cst_failed l b l' :
    cs_inflight c = l ++ b :: l' →
    collector_step c {|
      cs_store := put_back b (cs_store c); cs_inflight := l ++ l'; cs_logged := cs_logged c;
      cs_answered := cs_answered c; cs_lost := cs_lost c |}.

Definition collector_reachable : CState → Prop := rtc collector_step cstate_init.

(** The entries of some reports. *)
Definition parts (k : Buffer) (l : list Batch) : list value := mbind (batch_part k) l.

(** The reports that were answered, were lost or are under way, and where all entries are. *)
Definition outside (c : CState) : list Batch := cs_answered c ++ cs_lost c ++ cs_inflight c.
Definition held (k : Buffer) (c : CState) : list value := parts k (outside c) ++ buffer k (cs_store c).

Record collector_inv (c : CState) : Prop := {
  ci_bounded k : length (buffer k (cs_store c)) ≤ buffer_size k;
  ci_batches k : Forall (λ b, length (batch_part k b) ≤ buffer_size k) (outside c);
  ci_origin k : held k c ⊆+ cs_logged c k;
  ci_complete k : length (cs_logged c k) ≤ buffer_size k → held k c ≡ₚ cs_logged c k }.

Lemma buffer_batch k s : batch_part k (batch_of s) = buffer k s.
Proof. by destruct k. Qed.

Lemma report_effect now s r s' :
  reportLogs now s = (r, s') →
  (∀ k, buffer k s' = []) ∧ (r = rp_nothing → ∀ k, buffer k s = []).
Proof.
  unfold reportLogs. destruct (empty_batch (batch_of s)) eqn:E; [|destruct (has_bigint _)]; intros [= <- <-].
  all: split; [by intros []|try done]. intros _ k. unfold empty_batch in E. bool_to_prop.
  destruct k; by apply nil_length_inv.
Qed.

Lemma prune_submseteq (l : list value) n : pruneBuffer l n ⊆+ l.
Proof. destruct (prune_suffix l n) as [d Hd]. rewrite Hd at 2. apply submseteq_inserts_l. reflexivity. Qed.

Lemma put_back_buffer k b s : buffer k (put_back b s) = pruneBuffer (batch_part k b ++ buffer k s) (buffer_size k).
Proof. by destruct k. Qed.

(** A step that moves entries without recording any keeps the invariant: the reports and the
    buffers together have the same entries, up to pruning. *)
Lemma moved_inv c c' :
  collector_inv c → cs_logged c' = cs_logged c →
  (∀ k, Forall (λ b, length (batch_part k b) ≤ buffer_size k) (outside c')) →
  (∀ k, ∃ l, buffer k (cs_store c') = pruneBuffer l (buffer_size k) ∧ parts k (outside c') ++ l ≡ₚ held k c) →
  collector_inv c'.
Proof.
  intros [Hb Hba Ho Hc] Hlog Hba' Hm. split; intros k; destruct (Hm k) as (l & Hl & Hp); [..|].
  - rewrite Hl. apply prune_length.
  - apply Hba'.
  - unfold held. rewrite Hlog, Hl. etrans; [apply submseteq_app; [reflexivity|apply prune_submseteq]|].
    rewrite Hp. apply Ho.
  - rewrite Hlog. intros Hle. unfold held. rewrite Hl, prune_short; [rewrite Hp; by apply Hc|].
    pose proof (Permutation_length Hp) as H1. pose proof (Permutation_length (Hc k Hle)) as H2.
    rewrite length_app in H1. lia.
Qed.

Lemma parts_Permutation k l l' : l ≡ₚ l' → parts k l ≡ₚ parts k l'.
Proof. intros Hl. unfold parts. by rewrite Hl. Qed.

Lemma collector_step_inv c c' : collector_step c c' → collector_inv c → collector_inv c'.
Proof.
  intros Hs Hi. pose proof Hi as [Hb Hba Ho Hc]. destruct Hs as [page e|now s' body Hr|now s' Hr|l b l' Hl|l b l' Hl].
  - assert (∀ k, buffer k (collect page e (cs_store c))
      = pruneBuffer (buffer k (cs_store c) ++ recorded k page e (cs_store c)) (buffer_size k)) as He.
    { intros k. by apply collect_appends. }
    split; intros k; unfold held, outside; cbn [cs_store cs_inflight cs_logged cs_answered cs_lost];
      [rewrite He; apply prune_length|apply Hba|..]; rewrite He.
    + etrans; [apply submseteq_app; [reflexivity|apply prune_submseteq]|]. rewrite app_assoc.
      apply submseteq_app; [apply Ho|done].
    + rewrite length_app. intros Hl. pose proof (submseteq_length _ _ (Ho k)) as Hs. unfold held in Hs.
      rewrite length_app in Hs. rewrite prune_short by (rewrite length_app; lia).
      rewrite app_assoc. apply Permutation_app; [|done]. apply Hc. lia.
  - destruct (report_effect _ _ _ _ Hr) as [He _]. apply (moved_inv c); [done|done|..]; intros k; unfold outside;
      cbn [cs_store cs_inflight cs_answered cs_lost]; rewrite !app_assoc; rewrite <- (app_assoc (cs_answered c)).
    + apply Forall_app. split; [apply Hba|]. apply Forall_singleton. rewrite buffer_batch. apply Hb.
    + exists []. rewrite He. split; [by rewrite prune_short by (simpl; lia)|].
      unfold held, parts. rewrite bind_app. simpl. by rewrite !app_nil_r, buffer_batch.
  - destruct (report_effect _ _ _ _ Hr) as [He _]. apply (moved_inv c); [done|done|..]; intros k.
    all: assert (outside {| cs_store := s'; cs_inflight := cs_inflight c; cs_logged := cs_logged c;
           cs_answered := cs_answered c; cs_lost := batch_of (cs_store c) :: cs_lost c |}
           ≡ₚ batch_of (cs_store c) :: outside c) as Hp by (unfold outside; simpl; by rewrite <- Permutation_middle).
    + rewrite Hp. apply Forall_cons. split; [rewrite buffer_batch; apply Hb|apply Hba].
    + exists []. cbn [cs_store]. rewrite He, (parts_Permutation k _ _ Hp), app_nil_r.
      split; [by rewrite prune_short by (simpl; lia)|]. unfold held, parts. simpl. rewrite buffer_batch.
      by rewrite Permutation_app_comm.
  - assert (outside {| cs_store := cs_store c; cs_inflight := l ++ l'; cs_logged := cs_logged c;
      cs_answered := b :: cs_answered c; cs_lost := cs_lost c |} ≡ₚ outside c) as Hp.
    { unfold outside. cbn [cs_answered cs_lost cs_inflight app]. rewrite Hl, !app_assoc. by rewrite Permutation_middle. }
    apply (moved_inv c); [done|done|..]; intros k; cbn [cs_store].
    + rewrite Hp. apply Hba.
    + exists (buffer k (cs_store c)). rewrite (parts_Permutation k _ _ Hp). split; [by rewrite prune_short|done].
  - assert (outside c ≡ₚ b :: outside {| cs_store := put_back b (cs_store c); cs_inflight := l ++ l';
      cs_logged := cs_logged c; cs_answered := cs_answered c; cs_lost := cs_lost c |}) as Hp.
    { unfold outside. cbn [cs_answered cs_lost cs_inflight app]. rewrite Hl, !app_assoc. by rewrite Permutation_middle. }
    apply (moved_inv c); [done|done|..]; intros k; cbn [cs_store].
    + specialize (Hba k). rewrite Hp in Hba. by apply Forall_cons in Hba as [_ ?].
    + exists (batch_part k b ++ buffer k (cs_store c)). split; [apply put_back_buffer|].
      unfold held. rewrite (parts_Permutation k _ _ Hp). unfold parts. simpl.
      rewrite !app_assoc. apply Permutation_app; [|done]. apply Permutation_app_comm.
Qed.

Lemma collector_reachable_inv c : collector_reachable c → collector_inv c.
Proof.
  intros Hr. assert (collector_inv cstate_init) as Hi.
  { split; intros []; simpl; auto with arith; unfold outside; simpl; auto. }
  revert Hi. induction Hr; [done|]. eauto using collector_step_inv.
Qed.

End Buffers.

(** ** The theorems at concrete inputs *)

Definition example_page : PageState := {|
  pg_now := 1767225600000; pg_href := js "https://console.example/"; pg_innerWidth := num_of_Z 1280;
  pg_innerHeight := num_of_Z 720 |}.


