(* ===== verification/LogFiles.v ===== *)
(** The log endpoint of development builds ([vite.config.ts]): the reports of the debug collector
    are appended to three files, which are trimmed when they grow too large; and the names of the
    bundles that third-party modules go to. *)
From S2P Require Import Prelude JsString JsNumber Json Schema OAuthState Trpc Fixtures Node Collector.

(** ** The file system *)

(** The log directory: whether it is there, its files as texts, the dates and the failures that
    the calls to come will meet. A call that fails leaves the files as they were. *)
Record Disk := {
  dk_dir : bool; dk_files : gmap jsstr jsstr;
  dk_dates : nat → Z; dk_reads : nat; dk_faults : nat → option exn; dk_calls : nat }.

Definition F (A : Type) : Type := Disk → result exn A * Disk.
#[export] Instance F_ret : MRet F := λ A a d, (Ok a, d).
#[export] Instance F_bind : MBind F := λ A B f m d,
  match m d with (Ok a, d') => f a d' | (Err e, d') => (Err e, d') end.

Definition fs_throw {A} (e : exn) : F A := λ d, (Err e, d).

(** [try { m } catch (e) { h(e) }]: what was written stays. *)
Definition fs_catch {A} (m : F A) (h : exn → F A) : F A := λ d,
  match m d with (Err e, d') => h e d' | r => r end.

(** A call that may fail. *)
Definition tick (d : Disk) : Disk := {|
  dk_dir := dk_dir d; dk_files := dk_files d; dk_dates := dk_dates d; dk_reads := dk_reads d;
  dk_faults := dk_faults d; dk_calls := S (dk_calls d) |}.

Definition fs_call {A} (f : Disk → A * Disk) : F A := λ d,
  match dk_faults d (dk_calls d) with
  | Some e => (Err e, tick d)
  | None => (Ok (f (tick d)).1, (f (tick d)).2)
  end.

Definition set_files (files : gmap jsstr jsstr) (d : Disk) : Disk := {|
  dk_dir := dk_dir d; dk_files := files; dk_dates := dk_dates d; dk_reads := dk_reads d;
  dk_faults := dk_faults d; dk_calls := dk_calls d |}.
Definition make_dir (d : Disk) : Disk := {|
  dk_dir := true; dk_files := dk_files d; dk_dates := dk_dates d; dk_reads := dk_reads d;
  dk_faults := dk_faults d; dk_calls := dk_calls d |}.

Definition existsSync (name : jsstr) : F bool := λ d, (Ok (bool_decide (is_Some (dk_files d !! name))), d).
Definition content (name : jsstr) (d : Disk) : jsstr := default [] (dk_files d !! name).
Definition readFileSync (name : jsstr) : F jsstr := fs_call (λ d, (content name d, d)).
Definition writeFileSync (name text : jsstr) : F unit := fs_call (λ d, (tt, set_files (<[name := text]> (dk_files d)) d)).
Definition appendFileSync (name text : jsstr) : F unit :=
  fs_call (λ d, (tt, set_files (<[name := content name d ++ text]> (dk_files d)) d)).

Definition newDate_disk : F Z := λ d,
  (Ok (dk_dates d (dk_reads d)),
   {| dk_dir := dk_dir d; dk_files := dk_files d; dk_dates := dk_dates d; dk_reads := S (dk_reads d);
      dk_faults := dk_faults d; dk_calls := dk_calls d |}).

(** [Buffer.byteLength(s, "utf-8")]: a lone surrogate is written as the replacement character. *)
Fixpoint byteLength (s : jsstr) : Z :=
  match s with
  | [] => 0
  | c :: s' =>
      if (c <? 128)%N then 1 + byteLength s'
      else if (c <? 2048)%N then 2 + byteLength s'
      else if is_high_surrogate c then
        match s' with
        | d :: s'' => if is_low_surrogate d then 4 + byteLength s'' else 3 + byteLength s'
        | [] => 3
        end
      else 3 + byteLength s'
  end%Z.

Definition statSync_size (name : jsstr) : F Z := fs_call (λ d, (byteLength (content name d), d)).

(** ** Log files *)

Definition MAX_LOG_SIZE_BYTES : Z := 1 * 1024 * 1024.
Definition TRIM_TARGET_BYTES : Z := 629145.

Example trim_target : math_floor (nmul (num_of_Z MAX_LOG_SIZE_BYTES) (dec 6 1)) = num_of_Z TRIM_TARGET_BYTES.
Proof. vm_compute. reflexivity. Qed.

Inductive LogSource := browserConsole | networkRequests | sessionReplay.
Definition logPath (s : LogSource) : jsstr :=
  match s with
  | browserConsole => js "browserConsole.log" | networkRequests => js "networkRequests.log"
  | sessionReplay => js "sessionReplay.log"
  end.

Definition newline : N := 10%N.

Definition ensureLogDir : F unit := λ d,
  if dk_dir d then (Ok tt, d) else fs_call (λ d, (tt, make_dir d)) d.

Definition lineBytes (line : jsstr) : Z := byteLength (line ++ [newline]).

(** The loop from the last line backwards; [older] is still to be looked at, last line first. *)
Fixpoint keep_newest (older kept : list jsstr) (keptBytes : Z) : list jsstr :=
  match older with
  | [] => kept
  | line :: older' =>
      if (TRIM_TARGET_BYTES <? keptBytes + lineBytes line)%Z then kept
      else keep_newest older' (line :: kept) (keptBytes + lineBytes line)
  end.

Definition keptLines (text : jsstr) : list jsstr := keep_newest (reverse (split_on newline text)) [] 0.

Definition trimLogFile (path : jsstr) (maxSize : Z) : F unit :=
  fs_catch
    (there ← existsSync path;
     if negb there then mret tt
     else
       size ← statSync_size path;
       if (size <=? maxSize)%Z then mret tt
       else text ← readFileSync path; writeFileSync path (join [newline] (keptLines text)))
    (λ _, mret tt).

(** [`[${ts}] ${JSON.stringify(entry)}`]. *)
Definition log_line (entry : json) : F jsstr :=
  now ← newDate_disk; mret (js "[" ++ toISOString now ++ js "] " ++ stringify entry).

Fixpoint map_F {A B} (f : A → F B) (l : list A) : F (list B) :=
  match l with [] => mret [] | x :: l' => y ← f x; ys ← map_F f l'; mret (y :: ys) end.

(** [writeToLogFile] for an array, and for anything else that has a length. *)
Definition writeToLogFile (source : LogSource) (entries : json) : F unit :=
  match entries with
  | JArray [] => mret tt
  | JArray l =>
      ensureLogDir;;
      lines ← map_F log_line l;
      appendFileSync (logPath source) (join [newline] lines ++ [newline]);;
      trimLogFile (logPath source) MAX_LOG_SIZE_BYTES
  | _ => ensureLogDir;; fs_throw (TypeError (js "entries.map is not a function"))
  end.

(** ** The endpoint *)

(** [x > 0]. *)
Definition positive (v : json) : bool :=
  nltb zero (match v with
             | JNumber n => n
             | JBool b => if b then num_of_Z 1 else zero
             | JNull => zero
             | JObject _ => NaN_
             | _ => Number_of_string (value_text (value_of_json v))
             end).

(** [v?.length > 0]. *)
Definition has_length (v : option json) : bool :=
  match v with
  | Some (JArray l) => negb (length l =? 0)
  | Some (JString s) => truthy s
  | Some (JObject l) => match assoc_get (js "length") l with Some n => positive n | None => false end
  | _ => false
  end.

Definition write_part (source : LogSource) (part : option json) : F unit :=
  match part with
  | Some entries => if has_length part then writeToLogFile source entries else mret tt
  | None => mret tt
  end.

Definition handlePayload (payload : json) : F unit :=
  match payload with
  | JNull => fs_throw (TypeError (js "Cannot read properties of null (reading 'consoleLogs')"))
  | _ =>
      write_part browserConsole (json_get (js "consoleLogs") payload);;
      write_part networkRequests (json_get (js "networkRequests") payload);;
      write_part sessionReplay (json_get (js "sessionEvents") payload)
  end.

(** A request to the endpoint: a body that an earlier handler parsed, and the chunks of its text. *)
Record LogRequest := { lq_method : jsstr; lq_body : option json; lq_chunks : list jsstr }.

Inductive LogAnswer := la_next | la_json (status : Z) (body : json).

Definition answered (m : F unit) : F LogAnswer :=
  fs_catch (m;; mret (la_json 200 (JObject [(js "success", JBool true)])))
    (λ e, mret (la_json 400 (JObject [(js "success", JBool false); (js "error", JString (exn_text e))]))).

(** The message of a text that is not JSON, which depends on the platform. *)
Class JsonErrors := { json_message : jsstr → jsstr }.

Definition JSON_parse_disk `{JsonErrors} (text : jsstr) : F json :=
  match JSON_parse text with
  | Some v => mret v
  | None => fs_throw (x_error (js "SyntaxError") (json_message text))
  end.

(** [configureServer]'s handler of [/__manus__/logs]. *)
Definition logs_handler `{JsonErrors} (req : LogRequest) : F LogAnswer :=
  if negb (str_eqb (lq_method req) (js "POST")) then mret la_next
  else match lq_body req with
  | Some (JArray _ as b) | Some (JObject _ as b) => answered (handlePayload b)
  | _ => answered (payload ← JSON_parse_disk (concat (lq_chunks req)); handlePayload payload)
  end.

(** ** Pages *)

(** A script element that is added to a page. *)
Record ScriptTag := { tg_src : jsstr; tg_defer : bool; tg_injectTo : jsstr }.

(** [transformIndexHtml]; [node_env] is [process.env.NODE_ENV]. The collector's script is added to
    the page of every build but production. *)
Definition transformIndexHtml (node_env : option jsstr) (html : jsstr) : jsstr * list ScriptTag :=
  if bool_decide (node_env = Some (js "production")) then (html, [])
  else (html, [{| tg_src := js "/__manus__/debug-collector.js"; tg_defer := true; tg_injectTo := js "head" |}]).

(** ** Bundles *)

Definition browserVendorChunk (id : jsstr) : option jsstr :=
  let has l := existsb (λ p, includes p id) l in
  if negb (includes (js "node_modules") id) then None
  else if has [js "/react/"; js "/react-dom/"; js "/scheduler/"; js "/wouter/"] then Some (js "vendor-react")
  else if has [js "/recharts/"; js "/victory-vendor/"] then Some (js "vendor-charts")
  else if has [js "/@radix-ui/"; js "/cmdk/"; js "/vaul/"; js "/sonner/"; js "/lucide-react/"] then Some (js "vendor-ui")
  else if has [js "/@tanstack/"; js "/@trpc/"; js "/zod/"] then Some (js "vendor-data")
  else Some (js "vendor-misc").
