(* ===== verification/LogFilesProps.v ===== *)
(** What the log endpoint guarantees: the files stay below their bound and keep the newest lines,
    every request is answered, and what the collector reports is what the files receive. *)
From S2P Require Import Prelude JsString JsNumber Json Schema OAuthState Trpc Fixtures Node Collector CollectorProps LogFiles.

(** ** Sizes *)

Lemma byteLength_cons c s :
  byteLength (c :: s)
  = (if (c <? 128)%N then 1 + byteLength s
     else if (c <? 2048)%N then 2 + byteLength s
     else if is_high_surrogate c then
       match s with
       | d :: s' => if is_low_surrogate d then 4 + byteLength s' else 3 + byteLength s
       | [] => 3
       end
     else 3 + byteLength s)%Z.
Proof. done. Qed.

Lemma byteLength_nonneg s : (0 ≤ byteLength s)%Z.
Proof.
  remember (length s) as n eqn:Hn. assert (length s ≤ n) as Hle by lia. clear Hn. revert s Hle.
  induction n as [|n IH]; intros [|c s] Hle; simpl in *; try lia.
  pose proof (IH s ltac:(lia)).
  destruct (c <? 128)%N, (c <? 2048)%N; simpl; try lia; destruct (is_high_surrogate c); try lia.
  all: destruct s as [|d s]; [lia|]; simpl in Hle; pose proof (IH s ltac:(lia)); destruct (is_low_surrogate d); lia.
Qed.

Lemma low_surrogate_bytes d s : is_low_surrogate d = true → byteLength (d :: s) = (3 + byteLength s)%Z.
Proof.
  intros Hd. unfold is_low_surrogate in Hd. bool_to_prop. rewrite byteLength_cons.
  rewrite (proj2 (N.ltb_ge d 128)), (proj2 (N.ltb_ge d 2048)) by lia.
  replace (is_high_surrogate d) with false; [done|]. symmetry. unfold is_high_surrogate.
  apply andb_false_iff. right. apply N.leb_gt. lia.
Qed.

(** Joining texts can only make them shorter, when it joins the halves of a surrogate pair. *)
Lemma byteLength_app a b :
  (byteLength a ≤ byteLength (a ++ b) ≤ byteLength a + byteLength b)%Z.
Proof.
  remember (length a) as n eqn:Hn. assert (length a ≤ n) as Hle by lia. clear Hn. revert a Hle.
  induction n as [|n IH]; intros [|c a] Hle; simpl in Hle; try lia; try (simpl; pose proof (byteLength_nonneg b); lia).
  pose proof (IH a ltac:(lia)) as Ha. pose proof (byteLength_nonneg b) as Hb. cbn [app]. rewrite !(byteLength_cons c).
  destruct (c <? 128)%N, (c <? 2048)%N; try lia. destruct (is_high_surrogate c); [|lia].
  destruct a as [|d a]; cbn [app] in *.
  - destruct b as [|d b]; [simpl; lia|]. destruct (is_low_surrogate d) eqn:Ed; [|lia].
    pose proof (low_surrogate_bytes _ b Ed). pose proof (byteLength_nonneg b). lia.
  - destruct (is_low_surrogate d); [|lia]. simpl in Hle. pose proof (IH a ltac:(lia)). lia.
Qed.

Definition total_bytes (lines : list jsstr) : Z := foldr (λ l z, lineBytes l + z)%Z 0%Z lines.

Lemma total_bytes_app l l' : total_bytes (l ++ l') = (total_bytes l + total_bytes l')%Z.
Proof. induction l as [|x l IH]; simpl; lia. Qed.

Lemma join_bytes lines : (byteLength (join [newline] lines) ≤ total_bytes lines)%Z.
Proof.
  induction lines as [|w lines IH]; [done|]. destruct lines as [|w' lines].
  - simpl. unfold lineBytes. pose proof (byteLength_app w [newline]). lia.
  - change (join [newline] (w :: w' :: lines)) with (w ++ [newline] ++ join [newline] (w' :: lines)).
    rewrite app_assoc. pose proof (byteLength_app (w ++ [newline]) (join [newline] (w' :: lines))).
    cbn [total_bytes foldr]. unfold lineBytes. cbn [total_bytes foldr] in IH. unfold lineBytes in IH. lia.
Qed.

(** ** Trimming *)

(** The loop keeps the newest lines that fit, as many as do. *)
Lemma keep_newest_spec older kept :
  (total_bytes kept ≤ TRIM_TARGET_BYTES)%Z →
  ∃ gone, keep_newest older kept (total_bytes kept)
      = drop (length gone) (reverse older) ++ kept
    ∧ reverse older = gone ++ drop (length gone) (reverse older)
    ∧ (total_bytes (keep_newest older kept (total_bytes kept)) ≤ TRIM_TARGET_BYTES)%Z
    ∧ ∀ line, last gone = Some line →
        (TRIM_TARGET_BYTES < lineBytes line + total_bytes (keep_newest older kept (total_bytes kept)))%Z.
Proof.
  revert kept. induction older as [|line older IH]; intros kept Hk.
  - exists []. by split_and!.
  - cbn [keep_newest]. destruct (_ <? _)%Z eqn:E; bool_to_prop.
    + exists (reverse (line :: older)). rewrite drop_all, app_nil_r. split_and!; [done|done|done|].
      intros l. rewrite reverse_cons, last_snoc. intros [= <-]. lia.
    + replace (total_bytes kept + lineBytes line)%Z with (total_bytes (line :: kept)) in * by (simpl; lia).
      destruct (IH (line :: kept) E) as (gone & Heq & Hrev & Hle & Hmax). exists gone.
      assert (length gone ≤ length (reverse older)) as Hlen by (rewrite Hrev, length_app; lia).
      rewrite reverse_cons. rewrite drop_app_le by done. split_and!; [|..|exact Hle|exact Hmax].
      * by rewrite Heq, <- app_assoc.
      * by rewrite app_assoc, <- Hrev.
Qed.

Lemma keptLines_spec text :
  ∃ gone, split_on newline text = gone ++ keptLines text
    ∧ (total_bytes (keptLines text) ≤ TRIM_TARGET_BYTES)%Z
    ∧ ∀ line, last gone = Some line → (TRIM_TARGET_BYTES < lineBytes line + total_bytes (keptLines text))%Z.
Proof.
  destruct (keep_newest_spec (reverse (split_on newline text)) []) as (gone & Heq & Hrev & Hle & Hmax); [done|].
  cbn [total_bytes foldr] in *. fold (keptLines text) in *. rewrite reverse_involutive, app_nil_r in *.
  exists gone. split_and!; [by rewrite Heq|done|done].
Qed.

(** ** Writing *)

(** No call to come fails. *)
Definition quiet (d : Disk) : Prop := ∀ n, dk_faults d n = None.

Definition is_line_of (entry : json) (line : jsstr) : Prop :=
  ∃ t, line = js "[" ++ toISOString t ++ js "] " ++ stringify entry.

Lemma F_step {A B} (m : F A) (f : A → F B) d a d1 : m d = (Ok a, d1) → (m ≫= f) d = f a d1.
Proof. intros E. unfold mbind, F_bind. by rewrite E. Qed.

Definition with_reads (n : nat) (d : Disk) : Disk := {|
  dk_dir := dk_dir d; dk_files := dk_files d; dk_dates := dk_dates d; dk_reads := n;
  dk_faults := dk_faults d; dk_calls := dk_calls d |}.

Lemma log_lines l d :
  ∃ lines n, map_F log_line l d = (Ok lines, with_reads n d) ∧ Forall2 is_line_of l lines.
Proof.
  revert d. induction l as [|e l IH]; intros d.
  - exists [], (dk_reads d). split; [by destruct d|constructor].
  - destruct (IH (with_reads (S (dk_reads d)) d)) as (lines & n & Hm & Hl). do 2 eexists. split.
    + cbn [map_F]. erewrite F_step; [|reflexivity]. erewrite F_step; [|exact Hm]. reflexivity.
    + constructor; [by eexists|done].
Qed.

(** What a file holds after a text was appended to it and it was trimmed. *)
Definition trimmed (text : jsstr) : jsstr :=
  if (byteLength text <=? MAX_LOG_SIZE_BYTES)%Z then text else join [newline] (keptLines text).

Lemma fs_call_quiet {A} (f : Disk → A * Disk) d :
  quiet d → ∃ d1, dk_files d1 = dk_files d ∧ dk_faults d1 = dk_faults d ∧ dk_dir d1 = dk_dir d
    ∧ fs_call f d = (Ok (f d1).1, (f d1).2).
Proof.
  intros Hq. exists (tick d). split_and!; [done..|]. unfold fs_call. by rewrite Hq.
Qed.

Lemma content_files d d' path : dk_files d = dk_files d' → content path d = content path d'.
Proof. intros E. unfold content. by rewrite E. Qed.

(** [d'] is [d] with one file written. *)
Definition wrote (path text : jsstr) (d d' : Disk) : Prop :=
  dk_files d' = <[path := text]> (dk_files d) ∧ quiet d'.

Lemma quiet_faults d d' : quiet d → dk_faults d' = dk_faults d → quiet d'.
Proof. intros Hq E n. by rewrite E. Qed.

Lemma trim_quiet path d :
  quiet d → is_Some (dk_files d !! path) →
  ∃ d', trimLogFile path MAX_LOG_SIZE_BYTES d = (Ok tt, d') ∧ wrote path (trimmed (content path d)) d d'.
Proof.
  intros Hq Hs. unfold trimLogFile, fs_catch, existsSync. erewrite F_step; [|reflexivity].
  rewrite bool_decide_true by done. cbn [negb]. unfold statSync_size, trimmed.
  destruct (fs_call_quiet (λ d, (byteLength (content path d), d)) d Hq) as (d1 & Hf1 & Hk1 & _ & E1).
  erewrite F_step; [|exact E1]. cbn [fst snd]. rewrite (content_files d1 d path Hf1).
  pose proof (quiet_faults _ _ Hq Hk1) as Hq1. destruct (_ <=? _)%Z.
  - eexists. split; [reflexivity|]. split; [|done].
    rewrite Hf1. symmetry. apply insert_id. unfold content. by destruct Hs as [t ->].
  - unfold readFileSync, writeFileSync.
    destruct (fs_call_quiet (λ d, (content path d, d)) d1 Hq1) as (d2 & Hf2 & Hk2 & _ & E2).
    pose proof (quiet_faults _ _ Hq1 Hk2) as Hq2. erewrite F_step; [|exact E2]. cbn [fst snd].
    match goal with |- context [fs_call ?f d2] => destruct (fs_call_quiet f d2 Hq2) as (d3 & Hf3 & Hk3 & _ & E3) end.
    rewrite E3. cbn [fst snd]. eexists. split; [reflexivity|]. split; [|exact (quiet_faults _ _ Hq2 Hk3)].
    cbn [dk_files set_files]. rewrite (content_files d2 d path) by congruence. by rewrite Hf3, Hf2, Hf1.
Qed.

Lemma ensure_quiet d :
  quiet d → ∃ d1, ensureLogDir d = (Ok tt, d1) ∧ dk_files d1 = dk_files d ∧ quiet d1.
Proof.
  intros Hq. unfold ensureLogDir. destruct (dk_dir d); [by eexists|].
  destruct (fs_call_quiet (λ d, (tt, make_dir d)) d Hq) as (d1 & Hf & Hk & _ & E). rewrite E.
  eexists. split; [reflexivity|]. split; [done|exact (quiet_faults _ _ Hq Hk)].
Qed.

Lemma write_quiet source e l d :
  quiet d →
  ∃ d' lines, writeToLogFile source (JArray (e :: l)) d = (Ok tt, d')
    ∧ Forall2 is_line_of (e :: l) lines
    ∧ wrote (logPath source)
        (trimmed (content (logPath source) d ++ join [newline] lines ++ [newline])) d d'.
Proof.
  intros Hq. unfold writeToLogFile. destruct (ensure_quiet d Hq) as (d1 & E1 & Hf1 & Hq1).
  erewrite F_step; [|exact E1]. destruct (log_lines (e :: l) d1) as (lines & n & Em & Hl).
  erewrite F_step; [|exact Em]. assert (quiet (with_reads n d1)) as Hq2 by exact Hq1.
  unfold appendFileSync.
  match goal with |- context [fs_call ?f] =>
    destruct (fs_call_quiet f (with_reads n d1) Hq2) as (d3 & Hf3 & Hk3 & _ & E3) end.
  erewrite F_step; [|exact E3]. cbn [fst snd]. set (d4 := set_files _ d3).
  assert (dk_files d4 = <[logPath source := content (logPath source) d ++ join [newline] lines ++ [newline]]> (dk_files d)) as Hf4.
  { subst d4. cbn [dk_files set_files]. rewrite (content_files d3 d) by (rewrite Hf3; exact Hf1).
    rewrite Hf3. cbn [with_reads dk_files]. by rewrite Hf1. }
  assert (quiet d4) as Hq4 by exact (quiet_faults _ _ Hq2 Hk3).
  destruct (trim_quiet (logPath source) d4 Hq4) as (d5 & E5 & Hw5 & Hq5).
  { rewrite Hf4, lookup_insert_eq. eauto. }
  exists d5, lines. split_and!; [exact E5|exact Hl|]. split; [|done].
  rewrite Hw5, Hf4, insert_insert_eq. unfold content. by rewrite Hf4, lookup_insert_eq.
Qed.

(** C17. The log files stay below their bound and lose only the oldest lines: after entries were
    written to a file, it holds at most 1 MiB; it holds everything it held and one line per new
    entry, in order, unless that is more than 1 MiB; then it holds the newest lines that fit into
    the target, as many as fit, and when not even the last entry fits, nothing is left. The other
    files are as they were. *)
Theorem log_file_bounded source e l d :
  quiet d →
  ∃ d' lines, writeToLogFile source (JArray (e :: l)) d = (Ok tt, d')
    ∧ Forall2 is_line_of (e :: l) lines
    ∧ (byteLength (content (logPath source) d') ≤ MAX_LOG_SIZE_BYTES)%Z
    ∧ (let text := content (logPath source) d ++ join [newline] lines ++ [newline] in
       ((byteLength text ≤ MAX_LOG_SIZE_BYTES)%Z ∧ content (logPath source) d' = text)
       ∨ ∃ gone kept, split_on newline text = gone ++ kept
           ∧ content (logPath source) d' = join [newline] kept
           ∧ (total_bytes kept ≤ TRIM_TARGET_BYTES)%Z
           ∧ ∀ line, last gone = Some line → (TRIM_TARGET_BYTES < lineBytes line + total_bytes kept)%Z)
    ∧ ∀ path, path ≠ logPath source → dk_files d' !! path = dk_files d !! path.
Proof.
  intros Hq. destruct (write_quiet source e l d Hq) as (d' & lines & Hw & Hl & Hf & _).
  exists d', lines. split_and!; [done|done|..].
  3: { intros path Hp. rewrite Hf. by apply lookup_insert_ne. }
  all: set (text := content (logPath source) d ++ join [newline] lines ++ [newline]) in *.
  all: assert (content (logPath source) d' = trimmed text) as Hc by (unfold content; by rewrite Hf, lookup_insert_eq).
  all: rewrite Hc; unfold trimmed; destruct (keptLines_spec text) as (gone & Hs & Ht & Hm);
    destruct (byteLength text <=? MAX_LOG_SIZE_BYTES)%Z eqn:E; bool_to_prop; try done.
  - pose proof (join_bytes (keptLines text)). unfold MAX_LOG_SIZE_BYTES, TRIM_TARGET_BYTES in *. lia.
  - left. done.
  - right. eauto 8.
Qed.

(** ** Reports *)

(** What a file holds after the lines of a report. *)
Definition appended (old : jsstr) (lines : list jsstr) : jsstr :=
  match lines with [] => old | _ => trimmed (old ++ join [newline] lines ++ [newline]) end.

Lemma part_quiet source l d :
  quiet d →
  ∃ d' lines, write_part source (Some (JArray l)) d = (Ok tt, d') ∧ Forall2 is_line_of l lines
    ∧ content (logPath source) d' = appended (content (logPath source) d) lines
    ∧ (∀ path, path ≠ logPath source → content path d' = content path d) ∧ quiet d'.
Proof.
  intros Hq. unfold write_part, has_length. destruct l as [|e l].
  - exists d, []. split_and!; [done|constructor|done|done|done].
  - cbn [length Nat.eqb negb]. destruct (write_quiet source e l d Hq) as (d' & lines & Hw & Hl & Hf & Hq').
    exists d', lines. split_and!; [done|done|..|done].
    + unfold content. rewrite Hf, lookup_insert_eq. by inversion Hl.
    + intros path Hp. unfold content. by rewrite Hf, lookup_insert_ne.
Qed.

Definition entry_json (v : value) : json := default JNull (json_of_value v).

Lemma payload_parts now b j :
  json_of_value (report_payload now b) = Some j →
  json_get (js "consoleLogs") j = Some (JArray (entry_json <$> bt_consoleLogs b))
  ∧ json_get (js "networkRequests") j = Some (JArray (entry_json <$> bt_networkRequests b))
  ∧ json_get (js "sessionEvents") j = Some (JArray (entry_json <$> bt_uiEvents b))
  ∧ ∃ l, j = JObject l.
Proof. intros [= <-]. split_and!; [reflexivity..|]. by eexists. Qed.

Lemma logPath_inj s s' : s ≠ s' → logPath s ≠ logPath s'.
Proof. by destruct s, s'. Qed.

Definition success_body : json := JObject [(js "success", JBool true)].

Section Handler.
Context `{JsonErrors}.

Lemma payload_quiet now b j d :
  quiet d → json_of_value (report_payload now b) = Some j →
  ∃ d' l1 l2 l3, handlePayload j d = (Ok tt, d')
    ∧ Forall2 is_line_of (entry_json <$> bt_consoleLogs b) l1
    ∧ Forall2 is_line_of (entry_json <$> bt_networkRequests b) l2
    ∧ Forall2 is_line_of (entry_json <$> bt_uiEvents b) l3
    ∧ content (logPath browserConsole) d' = appended (content (logPath browserConsole) d) l1
    ∧ content (logPath networkRequests) d' = appended (content (logPath networkRequests) d) l2
    ∧ content (logPath sessionReplay) d' = appended (content (logPath sessionReplay) d) l3.
Proof.
  intros Hq Hj. destruct (payload_parts _ _ _ Hj) as (E1 & E2 & E3 & l & ->). unfold handlePayload.
  rewrite E1, E2, E3. clear E1 E2 E3 Hj.
  destruct (part_quiet browserConsole (entry_json <$> bt_consoleLogs b) d Hq) as (d1 & l1 & W1 & L1 & C1 & O1 & Q1).
  destruct (part_quiet networkRequests (entry_json <$> bt_networkRequests b) d1 Q1) as (d2 & l2 & W2 & L2 & C2 & O2 & Q2).
  destruct (part_quiet sessionReplay (entry_json <$> bt_uiEvents b) d2 Q2) as (d3 & l3 & W3 & L3 & C3 & O3 & Q3).
  exists d3, l1, l2, l3. split_and!; [|done|done|done|..].
  - erewrite F_step; [|exact W1]. erewrite F_step; [|exact W2]. exact W3.
  - rewrite O3, O2 by (by apply logPath_inj). exact C1.
  - rewrite O3, C2, O1 by (by apply logPath_inj). done.
  - rewrite C3, O2, O1 by (by apply logPath_inj). done.
Qed.

Lemma answered_Ok m d d' : m d = (Ok tt, d') → answered m d = (Ok (la_json 200 success_body), d').
Proof. intros E. unfold answered, fs_catch. erewrite F_step; [|exact E]. done. Qed.

Lemma answered_total m d : ∃ a d', answered m d = (Ok a, d') ∧ a ≠ la_next.
Proof.
  unfold answered, fs_catch, mbind, F_bind. destruct (m d) as [[[]|e] d']; do 2 eexists; (split; [reflexivity|discriminate]).
Qed.

End Handler.

(** ** The theorems at concrete inputs *)

#[local] Instance example_errors : JsonErrors := {| json_message _ := js "Unexpected token" |}.

Definition example_disk : Disk := {|
  dk_dir := false; dk_files := ∅; dk_dates n := (1767225600000 + Z.of_nat n)%Z; dk_reads := 0;
  dk_faults _ := None; dk_calls := 0 |}.

Lemma log_file_bounded_witness :
  ∃ d', writeToLogFile browserConsole (JArray [JString (js "hello")]) example_disk = (Ok tt, d')
    ∧ (byteLength (content (logPath browserConsole) d') ≤ MAX_LOG_SIZE_BYTES)%Z.
Proof.
  destruct (log_file_bounded browserConsole (JString (js "hello")) [] example_disk (λ _, eq_refl))
    as (d' & lines & Hw & _ & Hb & _).
  exists d'. split; [exact Hw|exact Hb].
Defined.

